(** * Sleman dashboard ETL: record normalisation and idempotent load

    A shallow embedding of the loaders ([etl/loaders/loader_csv.ts],
    [etl/loaders/loader_api_ckan.ts]), the helpers ([etl/utils/helpers.ts]),
    the store ([etl/utils/database.ts], [db/init.sql]) and the caller-side
    filters of [etl/run.ts], followed by the properties proved about them.

    Conventions of the embedding.
    - A JavaScript string is a [string] whose characters are the code units
      U+0000..U+00FF (Latin-1); [helpers.calculateHash] encodes them as UTF-8.
    - A JavaScript number is an exact decimal [Fin m k] (the value m / 10^k),
      an infinity or [NaN].  Rounding to binary64 is not modelled: the
      embedding agrees with the engine on decimals of at most 15 significant
      digits ([fewDigits]), and the properties about parsed values are stated
      on these.  Negative zero is identified with zero.
    - A record is plain data as delivered by JSON.parse, csv-parse or
      sheet_to_json: [VObject] is the ordered list of own properties with
      pairwise distinct keys; members inherited from the prototypes are not
      part of the data.  [hasProperty] and [getProperty] are exact on the own
      properties and on every key that no prototype holds ([ownPath] says so
      of a whole path), and [ToString] is exact on the values whose
      conversion returns ([stringable]): the properties about lookups and
      conversions are stated on these.
    - Operations that can throw return a [result]; the store is an explicit
      state, with the server's clock and faults given by oracles. *)

From Stdlib Require Import ZArith List String Ascii Bool Lia DecimalString DecimalN DecimalPos.
Import ListNotations.
Local Open Scope list_scope.
Local Open Scope string_scope.
Local Open Scope Z_scope.

Set Warnings "-register-all".

(** ** Exceptions *)

Inductive exn : Type :=
| TypeError (msg : string)
| SyntaxError (msg : string)
| Error (msg : string).

Inductive result (A : Type) : Type :=
| Ok (a : A)
| Throw (e : exn).
Arguments Ok {A} a.
Arguments Throw {A} e.

Definition bind {A B : Type} (r : result A) (k : A -> result B) : result B :=
  match r with
  | Ok a => k a
  | Throw e => Throw e
  end.

Notation "x <- c ;; k" := (bind c (fun x => k))
  (at level 61, c at next level, right associativity).

(** ** JavaScript strings, numbers and values *)

Module JS.

Definition code (c : ascii) : Z := Z.of_N (N_of_ascii c).

(** [\d] *)
Definition isDigit (c : ascii) : bool := (48 <=? code c) && (code c <=? 57).

Definition digitVal (c : ascii) : Z := code c - 48.

(** WhiteSpace and LineTerminator code units below U+0100. *)
Definition isWhiteSpace (c : ascii) : bool :=
  let n := code c in
  (n =? 9) || (n =? 10) || (n =? 11) || (n =? 12) || (n =? 13) || (n =? 32) || (n =? 160).

Fixpoint sfilter (p : ascii -> bool) (s : string) : string :=
  match s with
  | EmptyString => EmptyString
  | String c r => if p c then String c (sfilter p r) else sfilter p r
  end.

Fixpoint sforall (p : ascii -> bool) (s : string) : bool :=
  match s with
  | EmptyString => true
  | String c r => p c && sforall p r
  end.

Fixpoint srev_append (s acc : string) : string :=
  match s with
  | EmptyString => acc
  | String c r => srev_append r (String c acc)
  end.

Definition srev (s : string) : string := srev_append s EmptyString.

Fixpoint trimStart (s : string) : string :=
  match s with
  | EmptyString => EmptyString
  | String c r => if isWhiteSpace c then trimStart r else s
  end.

Definition trimEnd (s : string) : string := srev (trimStart (srev s)).

(** String.prototype.trim *)
Definition trim (s : string) : string := trimEnd (trimStart s).

(** String.prototype.split with a one-character separator. *)
Fixpoint split (sep : ascii) (s : string) : list string :=
  match s with
  | EmptyString => [EmptyString]
  | String c r =>
      if Ascii.eqb c sep then EmptyString :: split sep r
      else match split sep r with
           | h :: t => String c h :: t
           | [] => [String c EmptyString]
           end
  end.

(** Array.prototype.join *)
Fixpoint join (sep : string) (l : list string) : string :=
  match l with
  | [] => ""
  | [x] => x
  | x :: r => x ++ sep ++ join sep r
  end.

(** The longest prefix whose characters satisfy [p], and what follows it. *)
Fixpoint span (p : ascii -> bool) (s : string) : string * string :=
  match s with
  | EmptyString => (EmptyString, EmptyString)
  | String c r =>
      if p c then let '(a, b) := span p r in (String c a, b)
      else (EmptyString, s)
  end.

Fixpoint digitsToZ_from (acc : Z) (s : string) : Z :=
  match s with
  | EmptyString => acc
  | String c r => digitsToZ_from (10 * acc + digitVal c) r
  end.

(** The mathematical value of a run of decimal digits. *)
Definition digitsToZ (s : string) : Z := digitsToZ_from 0 s.

(** The decimal digits of a non-negative integer. *)
Definition decimal (z : Z) : string := NilZero.string_of_uint (N.to_uint (Z.to_N z)).

Fixpoint zeros (n : nat) : string :=
  match n with
  | O => ""
  | S n' => String "0" (zeros n')
  end.

Definition isEmpty (s : string) : bool :=
  match s with
  | EmptyString => true
  | _ => false
  end.

(** An optional sign, as parseInt and parseFloat read it. *)
Definition readSign (s : string) : bool * string :=
  match s with
  | String "-" r => (true, r)
  | String "+" r => (false, r)
  | _ => (false, s)
  end.

(** *** Numbers *)

Inductive number : Type :=
| NaN
| Infinity (negative : bool)
| Fin (m : Z) (k : nat).

(** [m / 10^k] in lowest decimal terms. *)
Fixpoint normalize (m : Z) (k : nat) : number :=
  match k with
  | O => Fin m 0
  | S k' => if m mod 10 =? 0 then normalize (m / 10) k' else Fin m k
  end.

(** [m * 10^e] *)
Definition scale10 (m e : Z) : number :=
  if 0 <=? e then Fin (m * 10 ^ e) 0 else normalize m (Z.to_nat (- e)).

Definition ofZ (z : Z) : number := Fin z 0.

(** The same number, as a stored value. *)
Definition number_eqb (a b : number) : bool :=
  match a, b with
  | NaN, NaN => true
  | Infinity x, Infinity y => Bool.eqb x y
  | Fin m k, Fin m' k' => (m =? m') && Nat.eqb k k'
  | _, _ => false
  end.

(** Number.isNaN on a number *)
Definition isNaN (n : number) : bool :=
  match n with
  | NaN => true
  | _ => false
  end.

Fixpoint dropZeros (s : string) : string :=
  match s with
  | String "0" r => dropZeros r
  | _ => s
  end.

Definition stripTrailingZeros (s : string) : string := srev (dropZeros (srev s)).

Fixpoint stake (n : nat) (s : string) : string :=
  match n, s with
  | S n', String c r => String c (stake n' r)
  | _, _ => ""
  end.

Fixpoint sdrop (n : nat) (s : string) : string :=
  match n, s with
  | S n', String _ r => sdrop n' r
  | _, _ => s
  end.

Definition slen (s : string) : Z := Z.of_nat (String.length s).

(** Number::toString for a positive finite number [m / 10^k]: with [s] the
    significant digits, [kk] their count and [n] the position of the decimal
    point, the four cases of the standard. *)
Definition positiveToString (m : Z) (k : nat) : string :=
  let d := decimal m in
  let n := slen d - Z.of_nat k in
  let s := stripTrailingZeros d in
  let kk := slen s in
  if (kk <=? n) && (n <=? 21) then s ++ zeros (Z.to_nat (n - kk))
  else if (0 <? n) && (n <=? 21) then stake (Z.to_nat n) s ++ "." ++ sdrop (Z.to_nat n) s
  else if (-6 <? n) && (n <=? 0) then "0." ++ zeros (Z.to_nat (- n)) ++ s
  else
    let e := n - 1 in
    let mant := if kk =? 1 then s else stake 1 s ++ "." ++ sdrop 1 s in
    mant ++ "e" ++ (if e <? 0 then "-" else "+") ++ decimal (Z.abs e).

(** Number::toString, radix 10 *)
Definition Number_toString (x : number) : string :=
  match x with
  | NaN => "NaN"
  | Infinity false => "Infinity"
  | Infinity true => "-Infinity"
  | Fin m k =>
      if m =? 0 then "0"
      else if m <? 0 then "-" ++ positiveToString (- m) k
      else positiveToString m k
  end.

(** parseInt(string, 10): None is NaN.  The integer is exact: it is the
    engine's on at most 15 digits. *)
Definition parseInt (input : string) : option Z :=
  let '(neg, s) := readSign (trimStart input) in
  let '(ds, _) := span isDigit s in
  if isEmpty ds then None
  else Some (if neg then - digitsToZ ds else digitsToZ ds).

(** The value of the longest ExponentPart that starts [s], 0 when none does. *)
Definition readExponent (s : string) : Z :=
  match s with
  | String c r =>
      if Ascii.eqb c "e" || Ascii.eqb c "E" then
        let '(neg, r1) := readSign r in
        let '(ds, _) := span isDigit r1 in
        if isEmpty ds then 0 else if neg then - digitsToZ ds else digitsToZ ds
      else 0
  | EmptyString => 0
  end.

(** parseFloat(string): the longest prefix that is a StrDecimalLiteral.  The
    decimal is exact: it stands for the engine's number on at most 15
    significant digits, and no overflow to an infinity is modelled. *)
Definition parseFloat (input : string) : number :=
  let '(neg, s) := readSign (trimStart input) in
  if String.prefix "Infinity" s then Infinity neg
  else
    let '(ip, r1) := span isDigit s in
    let '(fp, r2) := match r1 with
                     | String "." t => span isDigit t
                     | _ => (EmptyString, r1)
                     end in
    if isEmpty ip && isEmpty fp then NaN
    else
      let m := digitsToZ (ip ++ fp) in
      scale10 (if neg then - m else m) (readExponent r2 - slen fp).

(** *** Values *)

Inductive value : Type :=
| VUndefined
| VNull
| VBoolean (b : bool)
| VNumber (n : number)
| VString (s : string)
| VArray (elements : list value)
| VObject (properties : list (string * value)).

(** ToBoolean *)
Definition truthy (v : value) : bool :=
  match v with
  | VUndefined | VNull => false
  | VBoolean b => b
  | VNumber NaN => false
  | VNumber (Infinity _) => true
  | VNumber (Fin m _) => negb (m =? 0)
  | VString s => negb (isEmpty s)
  | VArray _ | VObject _ => true
  end.

(** [v === null || v === undefined], the test behind [??] and [!= null] *)
Definition nullish (v : value) : bool :=
  match v with
  | VUndefined | VNull => true
  | _ => false
  end.

(** [a ?? b] *)
Definition coalesce (a b : value) : value := if nullish a then b else a.

(** [typeof v === 'object'] *)
Definition typeofObject (v : value) : bool :=
  match v with
  | VNull | VArray _ | VObject _ => true
  | _ => false
  end.

(** String(v), where the conversion returns: an object without an own
    property [toString] gives "[object Object]" (with one, the conversion
    throws: see [stringable]). *)
Fixpoint ToString (v : value) : string :=
  match v with
  | VUndefined => "undefined"
  | VNull => "null"
  | VBoolean true => "true"
  | VBoolean false => "false"
  | VNumber n => Number_toString n
  | VString s => s
  | VArray l =>
      join "," (map (fun e => if nullish e then "" else ToString e) l)
  | VObject _ => "[object Object]"
  end.

(** An array index: the canonical decimal form of an integer below 2^32 - 1. *)
Definition arrayIndex (key : string) : option Z :=
  if isEmpty key || negb (sforall isDigit key) then None
  else
    let n := digitsToZ key in
    if String.eqb (decimal n) key && (n <=? 4294967294) then Some n else None.

Fixpoint assoc (key : string) (props : list (string * value)) : option value :=
  match props with
  | [] => None
  | (k, v) :: r => if String.eqb k key then Some v else assoc key r
  end.

(** [o[key] = v] on the own properties of an ordinary object: an own property
    is overwritten and a new key is appended, except [__proto__]: where no own
    property has that name the assignment runs the setter of Object.prototype,
    which creates none. *)
Fixpoint assign (key : string) (v : value) (props : list (string * value))
  : list (string * value) :=
  match props with
  | [] => if String.eqb key "__proto__" then [] else [(key, v)]
  | (k, w) :: r => if String.eqb k key then (k, v) :: r else (k, w) :: assign key v r
  end.

Fixpoint insertIndex (n : Z) (l : list Z) : list Z :=
  match l with
  | [] => [n]
  | x :: r => if n <=? x then n :: l else x :: insertIndex n r
  end.

Definition sortIndices (l : list Z) : list Z := fold_right insertIndex [] l.

Fixpoint indexKeys (keys : list string) : list Z :=
  match keys with
  | [] => []
  | k :: r => match arrayIndex k with
              | Some n => n :: indexKeys r
              | None => indexKeys r
              end
  end.

(** OrdinaryOwnPropertyKeys: array indices in ascending order, then the other
    keys in the order of their creation. *)
Definition ownKeys (props : list (string * value)) : list string :=
  let keys := map fst props in
  (map decimal (sortIndices (indexKeys keys))
   ++ filter (fun k => match arrayIndex k with Some _ => false | None => true end) keys)%list.

Fixpoint indicesFrom (i : Z) (n : nat) : list string :=
  match n with
  | O => []
  | S n' => decimal i :: indicesFrom (i + 1) n'
  end.

Definition charAt (s : string) (i : Z) : option ascii := String.get (Z.to_nat i) s.

(** Object.keys(v) *)
Definition Object_keys (v : value) : result (list string) :=
  match v with
  | VUndefined | VNull => Throw (TypeError "Cannot convert undefined or null to object")
  | VObject props => Ok (ownKeys props)
  | VArray l => Ok (indicesFrom 0 (List.length l))
  | VString s => Ok (indicesFrom 0 (String.length s))
  | _ => Ok []
  end.

(** [key in v], among the own properties (and the indices and length of an
    array); the members of the prototypes are not data and are left out: see
    [ownPath]. *)
Definition hasProperty (key : string) (v : value) : result bool :=
  match v with
  | VObject props => Ok (match assoc key props with Some _ => true | None => false end)
  | VArray l =>
      Ok (String.eqb key "length"
          || match arrayIndex key with
             | Some i => i <? Z.of_nat (List.length l)
             | None => false
             end)
  | _ => Throw (TypeError "Cannot use 'in' operator to search for a key in a primitive")
  end.

(** [v[key]], among the own properties (and the indices and length of an
    array or a string); the members of the prototypes are left out. *)
Definition getProperty (v : value) (key : string) : result value :=
  match v with
  | VUndefined | VNull => Throw (TypeError "Cannot read properties of undefined or null")
  | VObject props => Ok (match assoc key props with Some w => w | None => VUndefined end)
  | VArray l =>
      if String.eqb key "length" then Ok (VNumber (ofZ (Z.of_nat (List.length l))))
      else match arrayIndex key with
           | Some i => Ok (nth (Z.to_nat i) l VUndefined)
           | None => Ok VUndefined
           end
  | VString s =>
      if String.eqb key "length" then Ok (VNumber (ofZ (slen s)))
      else match arrayIndex key with
           | Some i => Ok (match charAt s i with
                           | Some c => VString (String c "")
                           | None => VUndefined
                           end)
           | None => Ok VUndefined
           end
  | _ => Ok VUndefined
  end.

(** [{...v}]: the own enumerable properties, in key order. *)
Definition spread (v : value) : list (string * value) :=
  match v with
  | VObject props =>
      flat_map (fun k => match assoc k props with
                         | Some w => [(k, w)]
                         | None => []
                         end) (ownKeys props)
  | VArray l => combine (indicesFrom 0 (List.length l)) l
  | VString s =>
      combine (indicesFrom 0 (String.length s))
              (map (fun c => VString (String c "")) (list_ascii_of_string s))
  | _ => []
  end.

(** *** JSON.stringify *)

Definition dquote : ascii := ascii_of_N 34.

Definition hexDigit (n : Z) : ascii :=
  match String.get (Z.to_nat n) "0123456789abcdef" with
  | Some c => c
  | None => "0"%char
  end.

Definition quoteChar (c : ascii) : string :=
  let n := code c in
  if n =? 8 then "\b"
  else if n =? 9 then "\t"
  else if n =? 10 then "\n"
  else if n =? 12 then "\f"
  else if n =? 13 then "\r"
  else if n =? 34 then String "\" (String dquote "")
  else if n =? 92 then "\\"
  else if n <? 32 then "\u00" ++ String (hexDigit (n / 16)) (String (hexDigit (n mod 16)) "")
  else String c "".

(** QuoteJSONString *)
Definition quoteJSONString (s : string) : string :=
  String dquote (String.concat "" (map quoteChar (list_ascii_of_string s)))
  ++ String dquote "".

Fixpoint serialized (key : string) (l : list (string * option string)) : option string :=
  match l with
  | [] => None
  | (k, v) :: r => if String.eqb k key then v else serialized key r
  end.

(** SerializeJSONProperty: None is undefined. *)
Fixpoint serializeJSON (v : value) : option string :=
  match v with
  | VUndefined => None
  | VNull => Some "null"
  | VBoolean true => Some "true"
  | VBoolean false => Some "false"
  | VNumber (Fin m k) => Some (Number_toString (Fin m k))
  | VNumber _ => Some "null"
  | VString s => Some (quoteJSONString s)
  | VArray l =>
      Some ("[" ++ join "," (map (fun e => match serializeJSON e with
                                           | Some t => t
                                           | None => "null"
                                           end) l) ++ "]")
  | VObject props =>
      let parts :=
        (fix each (ps : list (string * value)) : list (string * option string) :=
           match ps with
           | [] => []
           | (k, w) :: r => (k, serializeJSON w) :: each r
           end) props in
      Some ("{" ++ join "," (flat_map (fun k => match serialized k parts with
                                                | Some t => [quoteJSONString k ++ ":" ++ t]
                                                | None => []
                                                end) (ownKeys props)) ++ "}")
  end.

(** JSON.stringify(v) *)
Definition JSON_stringify (v : value) : option string := serializeJSON v.

End JS.

(** ** SHA-256 (FIPS 180-4), on bytes and 32-bit words held in [Z] *)

Module Sha256.

Definition mask32 (x : Z) : Z := x mod 2 ^ 32.

Definition add32 (x y : Z) : Z := mask32 (x + y).

Definition rotr (n x : Z) : Z := Z.lor (Z.shiftr x n) (mask32 (Z.shiftl x (32 - n))).

Definition shr (n x : Z) : Z := Z.shiftr x n.

Definition not32 (x : Z) : Z := Z.lxor x 0xffffffff.

Definition Ch (x y z : Z) : Z := Z.lxor (Z.land x y) (Z.land (not32 x) z).

Definition Maj (x y z : Z) : Z :=
  Z.lxor (Z.lxor (Z.land x y) (Z.land x z)) (Z.land y z).

Definition Sigma0 (x : Z) : Z := Z.lxor (Z.lxor (rotr 2 x) (rotr 13 x)) (rotr 22 x).
Definition Sigma1 (x : Z) : Z := Z.lxor (Z.lxor (rotr 6 x) (rotr 11 x)) (rotr 25 x).
Definition sigma0 (x : Z) : Z := Z.lxor (Z.lxor (rotr 7 x) (rotr 18 x)) (shr 3 x).
Definition sigma1 (x : Z) : Z := Z.lxor (Z.lxor (rotr 17 x) (rotr 19 x)) (shr 10 x).

(** The largest [r] below [2 ^ bits] above [acc] with [r ^ 3 <= n]. *)
Fixpoint cubeRootFrom (bits : nat) (n acc : Z) : Z :=
  match bits with
  | O => acc
  | S b =>
      let c := acc + 2 ^ Z.of_nat b in
      if c * c * c <=? n then cubeRootFrom b n c else cubeRootFrom b n acc
  end.

Definition cubeRoot (n : Z) : Z := cubeRootFrom 48 n 0.

Definition isPrime (p : Z) : bool :=
  (1 <? p)
  && forallb (fun d => negb (p mod d =? 0) || (p <=? d))
       (map Z.of_nat (seq 2 (Z.to_nat (Z.sqrt p)))).

(** The primes up to 311: the first sixty-four. *)
Definition primes : list Z := filter isPrime (map Z.of_nat (seq 2 310)).

(** The first 32 bits of the fractional parts of the cube roots of the first
    sixty-four primes. *)
Definition K : list Z :=
  Eval vm_compute in map (fun p => cubeRoot (p * 2 ^ 96) mod 2 ^ 32) primes.

(** The first 32 bits of the fractional parts of the square roots of the
    first eight primes. *)
Definition H0 : list Z :=
  Eval vm_compute in map (fun p => Z.sqrt (p * 2 ^ 64) mod 2 ^ 32) (firstn 8 primes).

(** The message followed by the bit 1, zeros up to 56 modulo 64 bytes, and the
    length in bits as a 64-bit big-endian integer. *)
Definition pad (msg : list Z) : list Z :=
  let len := Z.of_nat (List.length msg) in
  let fill := Z.to_nat ((55 - len) mod 64) in
  (msg ++ [0x80] ++ repeat 0 fill
   ++ map (fun i => Z.shiftr (8 * len) (8 * (7 - i)) mod 256) [0; 1; 2; 3; 4; 5; 6; 7])%list.

Fixpoint words (n : nat) (bytes : list Z) : list Z :=
  match n, bytes with
  | S n', b0 :: b1 :: b2 :: b3 :: r =>
      (b0 * 2 ^ 24 + b1 * 2 ^ 16 + b2 * 2 ^ 8 + b3) :: words n' r
  | _, _ => []
  end.

Fixpoint blocks (n : nat) (bytes : list Z) : list (list Z) :=
  match n, bytes with
  | S n', _ :: _ => words 16 (firstn 64 bytes) :: blocks n' (skipn 64 bytes)
  | _, _ => []
  end.

Definition at_ (l : list Z) (i : nat) : Z := nth i l 0.

(** The message schedule, grown from 16 to 64 words. *)
Fixpoint schedule (n : nat) (w : list Z) : list Z :=
  match n with
  | O => w
  | S n' =>
      let t := List.length w in
      schedule n'
        (w ++ [add32 (add32 (sigma1 (at_ w (t - 2))) (at_ w (t - 7)))
                     (add32 (sigma0 (at_ w (t - 15))) (at_ w (t - 16)))])%list
  end.

Definition round (s : list Z) (kw : Z * Z) : list Z :=
  match s with
  | [a; b; c; d; e; f; g; h] =>
      let t1 := add32 (add32 (add32 h (Sigma1 e)) (add32 (Ch e f g) (fst kw))) (snd kw) in
      let t2 := add32 (Sigma0 a) (Maj a b c) in
      [add32 t1 t2; a; b; c; add32 d t1; e; f; g]
  | _ => s
  end.

Definition compress (h : list Z) (block : list Z) : list Z :=
  let w := schedule 48 block in
  map (fun p => add32 (fst p) (snd p)) (combine h (fold_left round (combine K w) h)).

Definition digest (msg : list Z) : list Z :=
  let bytes := pad msg in
  fold_left compress (blocks (List.length bytes) bytes) H0.

Definition hexWord (w : Z) : string :=
  string_of_list_ascii
    (map (fun i => JS.hexDigit (Z.shiftr w (4 * (7 - i)) mod 16)) [0; 1; 2; 3; 4; 5; 6; 7]).

(** digest('hex') *)
Definition hex (ws : list Z) : string := String.concat "" (map hexWord ws).

End Sha256.

(** ** etl/utils/helpers.ts *)

Module helpers.

(** The UTF-8 encoding of a string of code units below U+0100. *)
Definition utf8 (s : string) : list Z :=
  flat_map (fun c => let n := JS.code c in
                     if n <? 128 then [n]
                     else [Z.lor 0xC0 (Z.shiftr n 6); Z.lor 0x80 (Z.land n 0x3F)])
           (list_ascii_of_string s).

(** crypto.createHash('sha256').update(input, 'utf8').digest('hex') *)
Definition calculateHash (input : string) : string :=
  Sha256.hex (Sha256.digest (utf8 input)).

End helpers.

(** ** The canonical record, [ProcessedRecord] of both loaders *)

Inductive SourceType : Type := api | csv.

Module ProcessedRecord.

Record t : Type := mk {
  kategori : string;
  elemen : string;
  tahun : option Z;            (* number | null, always from parseIntSafely *)
  nilai : option JS.number;    (* number | null *)
  satuan : option string;      (* string | null *)
  raw_json : option string;    (* what JSON.stringify returned; None is undefined *)
  source_type : SourceType;
  source_ref : string;
  hash_key : string
}.

End ProcessedRecord.

(** How a template literal renders a nullable field. *)
Definition templateInt (x : option Z) : string :=
  match x with
  | Some z => JS.Number_toString (JS.ofZ z)
  | None => "null"
  end.

Definition templateNumber (x : option JS.number) : string :=
  match x with
  | Some n => JS.Number_toString n
  | None => "null"
  end.

Definition templateString (x : option string) : string :=
  match x with
  | Some s => s
  | None => "null"
  end.

(** [isNaN(parsed) ? null : parsed] *)
Definition nanToNull (n : JS.number) : option JS.number :=
  if JS.isNaN n then None else Some n.

(** ** etl/loaders/loader_csv.ts *)

Module CsvSourceConfig.

Record Mapping : Type := mkMapping {
  elemen_field : string;
  tahun_field : string;
  nilai_field : string;
  satuan_field : string
}.

Record t : Type := mk {
  kategori : string;
  file_path : string;
  mapping : Mapping
}.

End CsvSourceConfig.

Module CsvLoader.

Import JS.

(** The body of the loop of [extractField] over the remaining keys. *)
Fixpoint extractFrom (value : value) (keys : list string) : result JS.value :=
  match keys with
  | [] => Ok value
  | key :: rest =>
      if truthy value && typeofObject value then
        present <- hasProperty key value ;;
        if present then
          next <- getProperty value key ;;
          extractFrom next rest
        else Ok VNull
      else Ok VNull
  end.

Definition extractField (record : value) (fieldPath : string) : result value :=
  extractFrom record (split "." fieldPath).

(** [value === null || value === undefined || String(value).trim() === ''] *)
Definition blank (value : value) : bool :=
  nullish value || isEmpty (trim (ToString value)).

Definition parseIntSafely (value : value) : option Z :=
  if blank value then None
  else
    let cleaned := sfilter (fun c => isDigit c || Ascii.eqb c "-") (ToString value) in
    parseInt cleaned.

Definition parseFloatSafely (value : value) : option number :=
  if blank value then None
  else
    let cleaned :=
      sfilter (fun c => negb (Ascii.eqb c ","))
        (sfilter (fun c => isDigit c || Ascii.eqb c "." || Ascii.eqb c "," || Ascii.eqb c "-")
                 (ToString value)) in
    nanToNull (parseFloat cleaned).

(** [s && String(s).trim() !== '' ? String(s).trim() : null] *)
Definition cleanSatuan (satuan : value) : option string :=
  if truthy satuan && negb (isEmpty (trim (ToString satuan)))
  then Some (trim (ToString satuan)) else None.

Definition transformRecord (record : value) (sourceConfig : CsvSourceConfig.t)
    (fileName : string) : result (option ProcessedRecord.t) :=
  let mapping := CsvSourceConfig.mapping sourceConfig in
  elemen <- extractField record (CsvSourceConfig.elemen_field mapping) ;;
  tahunRaw <- extractField record (CsvSourceConfig.tahun_field mapping) ;;
  nilaiRaw <- extractField record (CsvSourceConfig.nilai_field mapping) ;;
  satuan <- extractField record (CsvSourceConfig.satuan_field mapping) ;;
  if negb (truthy elemen) || isEmpty (trim (ToString elemen)) then Ok None
  else
    let cleanElemen := trim (ToString elemen) in
    let tahun := if truthy tahunRaw then parseIntSafely tahunRaw else None in
    let nilai := if truthy nilaiRaw then parseFloatSafely nilaiRaw else None in
    let cleanSatuan := cleanSatuan satuan in
    let hashInput :=
      CsvSourceConfig.kategori sourceConfig ++ "|" ++ cleanElemen ++ "|"
      ++ templateInt tahun ++ "|" ++ templateNumber nilai ++ "|"
      ++ templateString cleanSatuan ++ "|" ++ fileName in
    Ok (Some {|
      ProcessedRecord.kategori := CsvSourceConfig.kategori sourceConfig;
      ProcessedRecord.elemen := cleanElemen;
      ProcessedRecord.tahun := tahun;
      ProcessedRecord.nilai := nilai;
      ProcessedRecord.satuan := cleanSatuan;
      ProcessedRecord.raw_json := JSON_stringify record;
      ProcessedRecord.source_type := csv;
      ProcessedRecord.source_ref := fileName;
      ProcessedRecord.hash_key := helpers.calculateHash hashInput
    |}).

(** The rows of [processRecords]: a row that throws is logged and skipped. *)
Fixpoint processRows (records : list value) (sourceConfig : CsvSourceConfig.t)
    (fileName : string) : list ProcessedRecord.t :=
  match records with
  | [] => []
  | record :: rest =>
      match transformRecord record sourceConfig fileName with
      | Ok (Some processed) => processed :: processRows rest sourceConfig fileName
      | Ok None | Throw _ => processRows rest sourceConfig fileName
      end
  end.

(** path.basename on a POSIX path: the part after the last slash, trailing
    slashes apart. *)
Definition basename (path : string) : string :=
  let isSlash := fun c => Ascii.eqb c "/" in
  let fix dropSlashes (s : string) : string :=
    match s with
    | String c r => if isSlash c then dropSlashes r else s
    | EmptyString => EmptyString
    end in
  srev (fst (span (fun c => negb (isSlash c)) (dropSlashes (srev path)))).

Definition processRecords (records : list value) (sourceConfig : CsvSourceConfig.t)
  : list ProcessedRecord.t :=
  processRows records sourceConfig (basename (CsvSourceConfig.file_path sourceConfig)).

(** [row[index] || ''] *)
Definition cellOrEmpty (row : list value) (index : nat) : value :=
  let cell := nth index row VUndefined in
  if truthy cell then cell else VString "".

(** [headers.forEach((header, index) => { record[header] = row[index] || ''; })] *)
Fixpoint fillRecord (headers : list value) (index : nat) (row : list value)
    (record : list (string * value)) : list (string * value) :=
  match headers with
  | [] => record
  | header :: rest =>
      fillRecord rest (S index) row (assign (ToString header) (cellOrEmpty row index) record)
  end.

(** [loadExcel], given the rows that sheet_to_json returned for the first
    sheet: the first row gives the field names of the others. *)
Definition loadExcel (records : list (list value)) : list value :=
  match records with
  | [] => []
  | headers :: dataRows => map (fun row => VObject (fillRecord headers 0 row [])) dataRows
  end.

End CsvLoader.

(** ** etl/loaders/loader_api_ckan.ts *)

Module ApiSourceConfig.

Record Mapping : Type := mkMapping {
  elemen_field : string;
  tahun_field : option string;
  nilai_field : option string;
  satuan_field : option string;
  year_column_regex : option string;
  unit_field : option string
}.

Record t : Type := mk {
  kategori : string;
  resource_id : string;
  mapping : Mapping
}.

End ApiSourceConfig.

(** A compiled regular expression, as [String.prototype.match] uses it without
    the global flag: the match array (the match, then one entry per capture
    group, undefined ones as None), or None for null. *)
Definition RegExp : Type := string -> option (list (option string)).

Module CKANApiLoader.

Import JS.

(** An optional string that is defined and not empty. *)
Definition given (field : option string) : bool :=
  match field with
  | Some s => negb (isEmpty s)
  | None => false
  end.

Definition extractField (record : value) (fieldPath : option string) : result value :=
  match fieldPath with
  | None => Ok VNull
  | Some path =>
      if isEmpty path then Ok VNull
      else CsvLoader.extractFrom record (split "." path)
  end.

Definition parseIntSafely (value : value) : option Z :=
  match value with
  | VNull | VUndefined | VString EmptyString => None
  | _ => parseInt (ToString value)
  end.

Definition parseFloatSafely (value : value) : option number :=
  match value with
  | VNull | VUndefined | VString EmptyString => None
  | _ => nanToNull (parseFloat (sfilter (fun c => negb (Ascii.eqb c ",")) (ToString value)))
  end.

(** [(s != null && String(s).trim() !== '') ? String(s).trim() : null] *)
Definition cleanSatuan (s : value) : option string :=
  if negb (nullish s) && negb (isEmpty (trim (ToString s)))
  then Some (trim (ToString s)) else None.

(** [m[1]] *)
Definition group1 (m : list (option string)) : value :=
  match nth 1 m None with
  | Some s => VString s
  | None => VUndefined
  end.

Definition mkHash (sourceConfig : ApiSourceConfig.t) (elemen : string) (tahun : option Z)
    (nilai : option number) (satuan : option string) : string :=
  helpers.calculateHash
    (ApiSourceConfig.kategori sourceConfig ++ "|" ++ elemen ++ "|" ++ templateInt tahun ++ "|"
     ++ templateNumber nilai ++ "|" ++ templateString satuan ++ "|"
     ++ ApiSourceConfig.resource_id sourceConfig).

Section Engine.

(** [new RegExp(source)] of the host engine; it throws on a malformed source. *)
Variable RegExp_new : string -> result RegExp.

(** The loop of the wide mode over [Object.keys(record)]. *)
Fixpoint wideRows (record : value) (sourceConfig : ApiSourceConfig.t) (yearRe : RegExp)
    (elemen : string) (satuan : option string) (keys : list string)
  : result (list ProcessedRecord.t) :=
  match keys with
  | [] => Ok []
  | key :: rest =>
      match yearRe key with
      | None => wideRows record sourceConfig yearRe elemen satuan rest
      | Some m =>
          let tahun := parseIntSafely (group1 m) in
          cell <- getProperty record key ;;
          let nilai := parseFloatSafely cell in
          let row := {|
            ProcessedRecord.kategori := ApiSourceConfig.kategori sourceConfig;
            ProcessedRecord.elemen := elemen;
            ProcessedRecord.tahun := tahun;
            ProcessedRecord.nilai := nilai;
            ProcessedRecord.satuan := satuan;
            ProcessedRecord.raw_json :=
              JSON_stringify (VObject (assign "__value_from__" (VString key) (spread record)));
            ProcessedRecord.source_type := api;
            ProcessedRecord.source_ref := ApiSourceConfig.resource_id sourceConfig;
            ProcessedRecord.hash_key := mkHash sourceConfig elemen tahun nilai satuan
          |} in
          more <- wideRows record sourceConfig yearRe elemen satuan rest ;;
          Ok (row :: more)
      end
  end.

Definition transformRecord (record : value) (sourceConfig : ApiSourceConfig.t)
  : result (list ProcessedRecord.t) :=
  let map := ApiSourceConfig.mapping sourceConfig in
  if given (ApiSourceConfig.tahun_field map) && given (ApiSourceConfig.nilai_field map) then
    (* mode long *)
    found <- extractField record (Some (ApiSourceConfig.elemen_field map)) ;;
    let elemen := trim (ToString (coalesce found (VString ""))) in
    if isEmpty elemen then Ok []
    else
      tahunRaw <- extractField record (ApiSourceConfig.tahun_field map) ;;
      nilaiRaw <- extractField record (ApiSourceConfig.nilai_field map) ;;
      satuanRaw <- (if given (ApiSourceConfig.satuan_field map)
                    then extractField record (ApiSourceConfig.satuan_field map)
                    else Ok VNull) ;;
      let tahun := parseIntSafely tahunRaw in
      let nilai := parseFloatSafely nilaiRaw in
      let satuan := cleanSatuan satuanRaw in
      Ok [ {|
        ProcessedRecord.kategori := ApiSourceConfig.kategori sourceConfig;
        ProcessedRecord.elemen := elemen;
        ProcessedRecord.tahun := tahun;
        ProcessedRecord.nilai := nilai;
        ProcessedRecord.satuan := satuan;
        ProcessedRecord.raw_json := JSON_stringify record;
        ProcessedRecord.source_type := api;
        ProcessedRecord.source_ref := ApiSourceConfig.resource_id sourceConfig;
        ProcessedRecord.hash_key := mkHash sourceConfig elemen tahun nilai satuan
      |} ]
  else
    match ApiSourceConfig.year_column_regex map with
    | Some source =>
        if isEmpty source then Ok []
        else
          (* mode wide *)
          found <- extractField record (Some (ApiSourceConfig.elemen_field map)) ;;
          let elemen := trim (ToString (coalesce found (VString ""))) in
          if isEmpty elemen then Ok []
          else
            yearRe <- RegExp_new source ;;
            unitFromMap <- (if given (ApiSourceConfig.unit_field map)
                            then extractField record (ApiSourceConfig.unit_field map)
                            else Ok VNull) ;;
            unitFallback <- extractField record (Some "Satuan") ;;
            let satuan := cleanSatuan (coalesce unitFromMap unitFallback) in
            keys <- Object_keys record ;;
            wideRows record sourceConfig yearRe elemen satuan keys
    | None => Ok []
    end.

(** [processRecords]: a record that throws is logged and skipped. *)
Fixpoint processRecords (records : list value) (sourceConfig : ApiSourceConfig.t)
  : list ProcessedRecord.t :=
  match records with
  | [] => []
  | record :: rest =>
      match transformRecord record sourceConfig with
      | Ok chunk => (chunk ++ processRecords rest sourceConfig)%list
      | Throw _ => processRecords rest sourceConfig
      end
  end.

End Engine.

End CKANApiLoader.

(** ** A regular-expression engine for the fragment the year patterns use

    Literal characters, [\d], escaped punctuation, a count [{n}] after a
    character, the anchors [^] and [$], and capture groups that are not
    nested.  Every pattern of the fragment matches a fixed number of
    characters, so the leftmost match is the only one to look for.  A source
    outside the fragment is rejected here, whatever the host engine would do
    with it. *)

Module MiniRegExp.

Import JS.

Inductive atom : Type :=
| Lit (c : ascii)
| Digit.

Inductive piece : Type :=
| Rep (a : atom) (n : nat)
| Group (body : list (atom * nat))
| Bol
| Eol.

Definition special (c : ascii) : bool :=
  match String.index 0 (String c "") ".*+?[]|(){}^$\" with
  | Some _ => true
  | None => false
  end.

Definition isAlnum (c : ascii) : bool :=
  let n := code c in
  isDigit c || ((65 <=? n) && (n <=? 90)) || ((97 <=? n) && (n <=? 122)).

Definition parseAtom (s : string) : option (atom * string) :=
  match s with
  | String "\" (String "d" r) => Some (Digit, r)
  | String "\" (String c r) => if isAlnum c then None else Some (Lit c, r)
  | String c r => if special c then None else Some (Lit c, r)
  | EmptyString => None
  end.

(** An optional [{n}] *)
Definition parseCount (s : string) : option (nat * string) :=
  match s with
  | String "{" r =>
      let '(ds, r1) := span isDigit r in
      match r1 with
      | String "}" r2 => if isEmpty ds then None else Some (Z.to_nat (digitsToZ ds), r2)
      | _ => None
      end
  | _ => Some (1%nat, s)
  end.

Definition parseCounted (s : string) : option (atom * nat * string) :=
  match parseAtom s with
  | Some (a, r) =>
      match parseCount r with
      | Some (n, r1) => Some (a, n, r1)
      | None => None
      end
  | None => None
  end.

(** The body of a group, up to its closing parenthesis. *)
Fixpoint parseBody (fuel : nat) (s : string) : option (list (atom * nat) * string) :=
  match fuel with
  | O => None
  | S fuel' =>
      match s with
      | String ")" r => Some ([], r)
      | _ =>
          match parseCounted s with
          | Some (a, n, r) =>
              match parseBody fuel' r with
              | Some (body, r1) => Some ((a, n) :: body, r1)
              | None => None
              end
          | None => None
          end
      end
  end.

Fixpoint parsePieces (fuel : nat) (s : string) : option (list piece) :=
  match fuel with
  | O => None
  | S fuel' =>
      match s with
      | EmptyString => Some []
      | String "^" r => option_map (cons Bol) (parsePieces fuel' r)
      | String "$" r => option_map (cons Eol) (parsePieces fuel' r)
      | String "(" r =>
          match parseBody fuel' r with
          | Some (body, r1) => option_map (cons (Group body)) (parsePieces fuel' r1)
          | None => None
          end
      | _ =>
          match parseCounted s with
          | Some (a, n, r) => option_map (cons (Rep a n)) (parsePieces fuel' r)
          | None => None
          end
      end
  end.

Definition parse (source : string) : option (list piece) :=
  parsePieces (S (String.length source)) source.

Definition matchAtom (a : atom) (c : ascii) : bool :=
  match a with
  | Lit l => Ascii.eqb l c
  | Digit => isDigit c
  end.

(** [n] characters that all match [a]: the text matched and what follows. *)
Fixpoint matchRep (a : atom) (n : nat) (s : string) : option (string * string) :=
  match n with
  | O => Some (EmptyString, s)
  | S n' =>
      match s with
      | String c r =>
          if matchAtom a c then
            match matchRep a n' r with
            | Some (m, rest) => Some (String c m, rest)
            | None => None
            end
          else None
      | EmptyString => None
      end
  end.

Fixpoint matchBody (body : list (atom * nat)) (s : string) : option (string * string) :=
  match body with
  | [] => Some (EmptyString, s)
  | (a, n) :: more =>
      match matchRep a n s with
      | Some (m, r) =>
          match matchBody more r with
          | Some (m', rest) => Some (m ++ m', rest)
          | None => None
          end
      | None => None
      end
  end.

(** The pieces against the start of [s]; [atStart] tells whether [s] is the
    whole subject.  Returns the text matched and the captures. *)
Fixpoint matchPieces (ps : list piece) (atStart : bool) (s : string)
  : option (string * list (option string)) :=
  match ps with
  | [] => Some (EmptyString, [])
  | Bol :: more => if atStart then matchPieces more atStart s else None
  | Eol :: more => if isEmpty s then matchPieces more atStart s else None
  | Rep a n :: more =>
      match matchRep a n s with
      | Some (m, r) =>
          match matchPieces more (atStart && isEmpty m) r with
          | Some (m', caps) => Some (m ++ m', caps)
          | None => None
          end
      | None => None
      end
  | Group body :: more =>
      match matchBody body s with
      | Some (m, r) =>
          match matchPieces more (atStart && isEmpty m) r with
          | Some (m', caps) => Some (m ++ m', Some m :: caps)
          | None => None
          end
      | None => None
      end
  end.

(** The leftmost match. *)
Fixpoint search (ps : list piece) (atStart : bool) (s : string)
  : option (list (option string)) :=
  match matchPieces ps atStart s with
  | Some (m, caps) => Some (Some m :: caps)
  | None =>
      match s with
      | String _ r => search ps false r
      | EmptyString => None
      end
  end.

Definition RegExp_new (source : string) : result RegExp :=
  match parse source with
  | Some ps => Ok (search ps true)
  | None => Throw (SyntaxError "Invalid regular expression")
  end.

End MiniRegExp.

(** ** etl/utils/database.ts over the tables of db/init.sql

    The server is part of the state.  A column holds the value bound to the
    statement: the conversions of the column types (DECIMAL(18,4), the length
    limits, the collation of [hash_key]) are not modelled.  Timestamps are
    whole seconds. *)

Module Database.

Import JS.

Record FactRow : Type := mkFact {
  id : Z;
  kategori : string;
  elemen : string;
  tahun : option Z;
  nilai : option number;
  satuan : option string;
  raw_json : string;
  source_type : SourceType;
  source_ref : string;
  hash_key : string;          (* UNIQUE KEY uniq_hash *)
  ingested_at : Z;
  updated_at : Z
}.

Record CheckpointRow : Type := mkCheckpoint {
  cp_source_type : SourceType;
  cp_source_ref : string;     (* UNIQUE KEY uniq_source (source_type, source_ref) *)
  last_offset : option Z;     (* INT DEFAULT 0, nullable *)
  last_processed_at : Z
}.

Record UpsertResult : Type := mkResult {
  inserted : Z;
  updated : Z;
  skipped : Z;
  errors : Z
}.

(** The manager and the server it talks to. *)
Record DatabaseManager : Type := mkManager {
  connection : bool;                       (* this.connection is not null *)
  facts_long : list FactRow;
  etl_checkpoints : list CheckpointRow;
  next_id : Z;                             (* AUTO_INCREMENT of facts_long *)
  calls : nat                              (* round trips to the server so far *)
}.

Inductive RowOutcome : Type := Inserted | Updated | Unchanged.

Definition SourceType_eqb (a b : SourceType) : bool :=
  match a, b with
  | api, api | csv, csv => true
  | _, _ => false
  end.

Definition option_eqb {A : Type} (eqb : A -> A -> bool) (a b : option A) : bool :=
  match a, b with
  | Some x, Some y => eqb x y
  | None, None => true
  | _, _ => false
  end.

(** The columns that ON DUPLICATE KEY UPDATE assigns. *)
Definition assignUpdate (now : Z) (new old : FactRow) : FactRow :=
  {| id := id old;
     kategori := kategori old;
     elemen := elemen old;
     tahun := tahun old;
     nilai := nilai new;
     satuan := satuan new;
     raw_json := raw_json new;
     source_type := source_type new;
     source_ref := source_ref new;
     hash_key := hash_key old;
     ingested_at := ingested_at old;
     updated_at := now |}.

(** Whether the assignment left every assigned column as it was. *)
Definition unchanged (old new : FactRow) : bool :=
  option_eqb number_eqb (nilai old) (nilai new)
  && option_eqb String.eqb (satuan old) (satuan new)
  && String.eqb (raw_json old) (raw_json new)
  && SourceType_eqb (source_type old) (source_type new)
  && String.eqb (source_ref old) (source_ref new)
  && (updated_at old =? updated_at new).

Definition zero : UpsertResult :=
  {| inserted := 0; updated := 0; skipped := 0; errors := 0 |}.

(** [total.x += batch.x] on the four counters. *)
Definition addResult (total batch : UpsertResult) : UpsertResult :=
  {| inserted := inserted total + inserted batch;
     updated := updated total + updated batch;
     skipped := skipped total + skipped batch;
     errors := errors total + errors batch |}.

Definition addErrors (total : UpsertResult) (n : Z) : UpsertResult :=
  {| inserted := inserted total;
     updated := updated total;
     skipped := skipped total;
     errors := errors total + n |}.

(** Array.prototype.slice(start, end) *)
Definition slice {A : Type} (l : list A) (start stop : Z) : list A :=
  let len := Z.of_nat (List.length l) in
  let k := if start <? 0 then Z.max (len + start) 0 else Z.min start len in
  let final := if stop <? 0 then Z.max (len + stop) 0 else Z.min stop len in
  firstn (Z.to_nat (final - k)) (skipn (Z.to_nat k) l).

Section Server.

(** CURRENT_TIMESTAMP on the server and [new Date()] on the client during the
    n-th round trip, whether the server fails it, and the CLIENT_FOUND_ROWS
    flag of the connection. *)
Variable server_clock : nat -> Z.
Variable client_clock : nat -> Z.
Variable fault : nat -> bool.
Variable found_rows : bool.

(** The row that the VALUES list of [upsertRecords] holds for [r]. *)
Definition valuesRow (newId ingested now : Z) (r : ProcessedRecord.t) : FactRow :=
  {| id := newId;
     kategori := ProcessedRecord.kategori r;
     elemen := ProcessedRecord.elemen r;
     tahun := ProcessedRecord.tahun r;
     nilai := ProcessedRecord.nilai r;
     satuan := ProcessedRecord.satuan r;
     raw_json := match ProcessedRecord.raw_json r with
                 | Some s => s
                 | None => "{}"
                 end;
     source_type := ProcessedRecord.source_type r;
     source_ref := ProcessedRecord.source_ref r;
     hash_key := ProcessedRecord.hash_key r;
     ingested_at := ingested;
     updated_at := now |}.

(** One row of INSERT ... ON DUPLICATE KEY UPDATE: the table afterwards and
    what happened to the row. *)
Fixpoint upsertRow (now : Z) (new : FactRow) (rows : list FactRow)
  : list FactRow * RowOutcome :=
  match rows with
  | [] => ([new], Inserted)
  | old :: rest =>
      if String.eqb (hash_key old) (hash_key new) then
        let row := assignUpdate now new old in
        (row :: rest, if unchanged old row then Unchanged else Updated)
      else
        let '(rest', outcome) := upsertRow now new rest in
        (old :: rest', outcome)
  end.

(** The rows-affected value of one row: 1 inserted, 2 updated, and for a row
    set to the values it had, 1 with CLIENT_FOUND_ROWS and 0 without. *)
Definition affected (outcome : RowOutcome) : Z :=
  match outcome with
  | Inserted => 1
  | Updated => 2
  | Unchanged => if found_rows then 1 else 0
  end.

(** The whole statement, the rows of the VALUES list in order: the table, the
    next AUTO_INCREMENT value and affectedRows. *)
Fixpoint insertOnDuplicateKeyUpdate (ingested now : Z) (records : list ProcessedRecord.t)
    (rows : list FactRow) (nextId : Z) : list FactRow * Z * Z :=
  match records with
  | [] => (rows, nextId, 0)
  | r :: more =>
      let '(rows1, outcome) := upsertRow now (valuesRow nextId ingested now r) rows in
      let nextId1 := match outcome with
                     | Inserted => nextId + 1
                     | _ => nextId
                     end in
      let '(rows2, nextId2, m) := insertOnDuplicateKeyUpdate ingested now more rows1 nextId1 in
      (rows2, nextId2, affected outcome + m)
  end.

Definition upsertRecords (db : DatabaseManager) (records : list ProcessedRecord.t)
  : DatabaseManager * result UpsertResult :=
  if negb (connection db) then (db, Throw (Error "Database connection not established"))
  else
    match records with
    | [] => (db, Ok zero)
    | _ :: _ =>
        let n := calls db in
        if fault n then
          (* rollback *)
          ({| connection := connection db; facts_long := facts_long db;
              etl_checkpoints := etl_checkpoints db; next_id := next_id db;
              calls := S n |},
           Throw (Error "transaction failed"))
        else
          let '(rows, nextId, affectedRows) :=
            insertOnDuplicateKeyUpdate (client_clock n) (server_clock n) records
              (facts_long db) (next_id db) in
          let length := Z.of_nat (List.length records) in
          let updated := affectedRows - length in
          let inserted := length - Z.max updated 0 in
          ({| connection := connection db; facts_long := rows;
              etl_checkpoints := etl_checkpoints db; next_id := nextId;
              calls := S n |},
           Ok {| inserted := Z.max inserted 0; updated := Z.max updated 0;
                 skipped := 0; errors := 0 |})
    end.

(** The loop of [batchUpsertRecords] from index [i]; None when the fuel runs
    out before the loop ends. *)
Fixpoint batchLoop (fuel : nat) (db : DatabaseManager) (records : list ProcessedRecord.t)
    (batchSize i : Z) (totalResult : UpsertResult)
  : option (DatabaseManager * UpsertResult) :=
  if i <? Z.of_nat (List.length records) then
    match fuel with
    | O => None
    | S fuel' =>
        let batch := slice records i (i + batchSize) in
        let '(db', outcome) := upsertRecords db batch in
        let totalResult' :=
          match outcome with
          | Ok batchResult => addResult totalResult batchResult
          | Throw _ => addErrors totalResult (Z.of_nat (List.length batch))
          end in
        batchLoop fuel' db' records batchSize (i + batchSize) totalResult'
    end
  else Some (db, totalResult).

(** [batchSize] defaults to 1000 when it is undefined. *)
Definition batchUpsertRecords (fuel : nat) (db : DatabaseManager)
    (records : list ProcessedRecord.t) (batchSize : option Z)
  : option (DatabaseManager * UpsertResult) :=
  batchLoop fuel db records (match batchSize with Some n => n | None => 1000 end) 0 zero.

Definition tick (db : DatabaseManager) : DatabaseManager :=
  {| connection := connection db; facts_long := facts_long db;
     etl_checkpoints := etl_checkpoints db; next_id := next_id db;
     calls := S (calls db) |}.

Definition checkpointFor (sourceType : SourceType) (sourceRef : string)
    (row : CheckpointRow) : bool :=
  SourceType_eqb (cp_source_type row) sourceType && String.eqb (cp_source_ref row) sourceRef.

(** The number returned: the column may hold NULL, which None stands for. *)
Definition getCheckpoint (db : DatabaseManager) (sourceType : SourceType) (sourceRef : string)
  : DatabaseManager * result (option Z) :=
  if negb (connection db) then (db, Throw (Error "Database connection not established"))
  else if fault (calls db) then (tick db, Ok (Some 0))
  else
    let results := filter (checkpointFor sourceType sourceRef) (etl_checkpoints db) in
    (tick db,
     Ok (match results with
         | first :: _ => last_offset first
         | [] => Some 0
         end)).

Fixpoint writeCheckpoint (new : CheckpointRow) (rows : list CheckpointRow) : list CheckpointRow :=
  match rows with
  | [] => [new]
  | old :: rest =>
      if checkpointFor (cp_source_type new) (cp_source_ref new) old then new :: rest
      else old :: writeCheckpoint new rest
  end.

Definition saveCheckpoint (db : DatabaseManager) (sourceType : SourceType) (sourceRef : string)
    (offset : Z) : DatabaseManager * result unit :=
  if negb (connection db) then (db, Throw (Error "Database connection not established"))
  else if fault (calls db) then (tick db, Ok tt)
  else
    ({| connection := connection db; facts_long := facts_long db;
        etl_checkpoints :=
          writeCheckpoint {| cp_source_type := sourceType; cp_source_ref := sourceRef;
                             last_offset := Some offset;
                             last_processed_at := server_clock (calls db) |}
                          (etl_checkpoints db);
        next_id := next_id db; calls := S (calls db) |},
     Ok tt).

End Server.

End Database.

(** ** The caller-side filters of etl/run.ts *)

Module EtlRunner.

Record EtlOptions : Type := mkOptions {
  since : option Z;     (* --since, parsed by parseInt; None is undefined or NaN *)
  limit : option Z;
  dryRun : bool
}.

(** [!r.tahun || r.tahun >= options.since] *)
Definition sinceTest (floor : Z) (r : ProcessedRecord.t) : bool :=
  match ProcessedRecord.tahun r with
  | None => true
  | Some year => (year =? 0) || (floor <=? year)
  end.

(** [filteredRecords] of [processApiSource] after the [options.since] step *)
Definition apiSince (options : EtlOptions) (records : list ProcessedRecord.t)
  : list ProcessedRecord.t :=
  match since options with
  | Some floor => if floor =? 0 then records else filter (sinceTest floor) records
  | None => records
  end.

(** [filteredRecords] of [processCsvSource] after the [options.since] step *)
Definition csvSince (options : EtlOptions) (records : list ProcessedRecord.t)
  : list ProcessedRecord.t :=
  match since options with
  | Some floor => if floor =? 0 then records else filter (sinceTest floor) records
  | None => records
  end.

(** The [options.limit] step, the same in both. *)
Definition limited (options : EtlOptions) (records : list ProcessedRecord.t)
  : list ProcessedRecord.t :=
  match limit options with
  | Some n => if n =? 0 then records else Database.slice records 0 n
  | None => records
  end.

Definition apiFiltered (options : EtlOptions) (records : list ProcessedRecord.t) :=
  limited options (apiSince options records).

Definition csvFiltered (options : EtlOptions) (records : list ProcessedRecord.t) :=
  limited options (csvSince options records).

End EtlRunner.

(** ** Definitions used to state the properties *)

Import JS.

(** The wide-mode source of the population example, under any category and
    resource. *)
Definition wideSource (kategori resource_id : string) : ApiSourceConfig.t :=
  {| ApiSourceConfig.kategori := kategori;
     ApiSourceConfig.resource_id := resource_id;
     ApiSourceConfig.mapping :=
       {| ApiSourceConfig.elemen_field := "Elemen";
          ApiSourceConfig.tahun_field := None;
          ApiSourceConfig.nilai_field := None;
          ApiSourceConfig.satuan_field := None;
          ApiSourceConfig.year_column_regex := Some "Data (\d{4})";
          ApiSourceConfig.unit_field := None |} |}.

Definition pendudukRecord : value :=
  VObject [ ("Elemen", VString "Jumlah Penduduk");
            ("Data 2019", VString "1.200");
            ("Data 2020", VString "1350");
            ("Satuan", VString "Orang") ].

(** Element, year, value and unit of a canonical record. *)
Definition observation (r : ProcessedRecord.t)
  : string * option Z * option number * option string :=
  (ProcessedRecord.elemen r, ProcessedRecord.tahun r,
   ProcessedRecord.nilai r, ProcessedRecord.satuan r).

Definition observations (out : result (list ProcessedRecord.t))
  : option (list (string * option Z * option number * option string)) :=
  match out with
  | Ok rows => Some (map observation rows)
  | Throw _ => None
  end.

(** A year below the floor that is not zero. *)
Definition belowFloor (floor : Z) (r : ProcessedRecord.t) : Prop :=
  exists year, ProcessedRecord.tahun r = Some year /\ year <> 0 /\ year < floor.

(** The field names of a header row, as property keys. *)
Definition headerKeys (headers : list value) : list string := map ToString headers.



(** A canonical record with the given year. *)
Definition yearOnly (year : option Z) : ProcessedRecord.t :=
  {| ProcessedRecord.kategori := "k"; ProcessedRecord.elemen := "e";
     ProcessedRecord.tahun := year; ProcessedRecord.nilai := None;
     ProcessedRecord.satuan := None; ProcessedRecord.raw_json := None;
     ProcessedRecord.source_type := csv; ProcessedRecord.source_ref := "f.csv";
     ProcessedRecord.hash_key := "" |}.


(** What the mapping [v] holds at [key]; None when [v] is not a mapping
    (an object, or an array with its indices and length) or has no such key. *)
Definition member (v : value) (key : string) : option value :=
  match v with
  | VObject props => assoc key props
  | VArray l =>
      if String.eqb key "length" then Some (VNumber (ofZ (Z.of_nat (List.length l))))
      else match arrayIndex key with
           | Some i => if i <? Z.of_nat (List.length l)
                       then Some (nth (Z.to_nat i) l VUndefined) else None
           | None => None
           end
  | _ => None
  end.

(** The value reached from [v] along [keys], key by key. *)
Fixpoint valueAt (v : value) (keys : list string) : option value :=
  match keys with
  | [] => Some v
  | key :: rest =>
      match member v key with
      | Some w => valueAt w rest
      | None => None
      end
  end.

(** "Missing" is null. *)
Definition orMissing (o : option value) : value :=
  match o with
  | Some v => v
  | None => VNull
  end.

(** *** Plain data, where the embedding is exact *)

(** The names that every object inherits from Object.prototype. *)
Definition objectPrototypeNames : list string :=
  [ "constructor"; "hasOwnProperty"; "isPrototypeOf"; "propertyIsEnumerable";
    "toLocaleString"; "toString"; "valueOf"; "__proto__";
    "__defineGetter__"; "__defineSetter__"; "__lookupGetter__"; "__lookupSetter__" ].

Definition inheritedName (key : string) : bool :=
  existsb (String.eqb key) objectPrototypeNames.

(** A name that no built-in prototype holds: their members are named with a
    lowercase letter or an underscore in front. *)
Definition foreignName (key : string) : bool :=
  match key with
  | String c _ => negb ((97 <=? code c) && (code c <=? 122) || Ascii.eqb c "_")
  | EmptyString => true
  end.

(** No step of the walk along [keys] meets a prototype: where the walk looks
    [key] up in an object, the object has it among its own properties or the
    key is none of [objectPrototypeNames]; in an array, the key is an index
    of the array or its length, or a [foreignName].  On such a path
    [key in value] and [value[key]] see what [hasProperty] and [getProperty]
    see. *)
Fixpoint ownPath (v : value) (keys : list string) : bool :=
  match keys with
  | [] => true
  | key :: rest =>
      match member v key with
      | Some w => ownPath w rest
      | None =>
          match v with
          | VObject _ => negb (inheritedName key)
          | VArray _ => foreignName key
          | _ => true
          end
      end
  end.

(** String(v) returns, and returns [ToString v]: no object that the conversion
    reaches has an own property [toString].  (Data is never a function, so
    the conversion of an object with such a property finds no method that
    gives a primitive, and throws a TypeError.) *)
Fixpoint stringable (v : value) : bool :=
  match v with
  | VObject props =>
      match assoc "toString" props with
      | Some _ => false
      | None => true
      end
  | VArray l => forallb stringable l
  | _ => true
  end.

(** At most 15 digits: a text whose number the engine holds exactly. *)
Definition fewDigits (s : string) : Prop :=
  (String.length (sfilter isDigit s) <= 15)%nat.

(** A record with a nested mapping and a list. *)
Definition nestedRecord : value :=
  VObject [ ("wilayah", VObject [("nama", VString "Sleman"); ("kode", VNull)]);
            ("tahun", VArray [VNumber (ofZ 2019); VNumber (ofZ 2020)]) ].

(** A missing value, or a string that is empty once trimmed. *)
Definition missingOrBlank (v : value) : Prop :=
  v = VNull \/ v = VUndefined \/ exists s, v = VString s /\ trim s = "".

(** The long-mode example without an element, and a long-mode source. *)
Definition emptyElemenRecord : value :=
  VObject [ ("Elemen", VString "");
            ("Tahun", VNumber (ofZ 2021));
            ("Nilai", VNumber (ofZ 5)) ].

Definition longSource : ApiSourceConfig.t :=
  {| ApiSourceConfig.kategori := "kependudukan";
     ApiSourceConfig.resource_id := "r-1";
     ApiSourceConfig.mapping :=
       {| ApiSourceConfig.elemen_field := "Elemen";
          ApiSourceConfig.tahun_field := Some "Tahun";
          ApiSourceConfig.nilai_field := Some "Nilai";
          ApiSourceConfig.satuan_field := Some "Satuan";
          ApiSourceConfig.year_column_regex := None;
          ApiSourceConfig.unit_field := None |} |}.

(** A file source with the usual four columns. *)
Definition fileSource : CsvSourceConfig.t :=
  {| CsvSourceConfig.kategori := "kependudukan";
     CsvSourceConfig.file_path := "data/penduduk.xlsx";
     CsvSourceConfig.mapping :=
       {| CsvSourceConfig.elemen_field := "Elemen";
          CsvSourceConfig.tahun_field := "Tahun";
          CsvSourceConfig.nilai_field := "Nilai";
          CsvSourceConfig.satuan_field := "Satuan" |} |}.

Definition sheetHeaders : list value :=
  [VString "Elemen"; VString "Tahun"; VString "Nilai"; VString "Satuan"].

(** A sheet row whose year cell holds the number 0. *)
Definition zeroYearRow : list value :=
  [VString "Luas"; VNumber (ofZ 0); VNumber (ofZ 57); VString "km2"].

(** The record that the Excel path builds from [zeroYearRow]. *)
Definition zeroYearRecord : value :=
  VObject (CsvLoader.fillRecord sheetHeaders 0 zeroYearRow []).

(** The identity fields of a canonical record, joined by pipes in the order
    kategori, elemen, tahun, nilai, satuan, source reference. *)
Definition fingerprintInput (r : ProcessedRecord.t) : string :=
  join "|" [ ProcessedRecord.kategori r;
             ProcessedRecord.elemen r;
             templateInt (ProcessedRecord.tahun r);
             templateNumber (ProcessedRecord.nilai r);
             templateString (ProcessedRecord.satuan r);
             ProcessedRecord.source_ref r ].

(** [0-9a-f] *)
Definition lowerHex (c : ascii) : bool :=
  isDigit c || ((97 <=? code c) && (code c <=? 102)).

(** The canonical records: what a loader's transform emits. *)
Inductive emitted : ProcessedRecord.t -> Prop :=
| emitted_api (RegExp_new : string -> result RegExp) (record : value)
    (sourceConfig : ApiSourceConfig.t) (rows : list ProcessedRecord.t)
    (r : ProcessedRecord.t) :
    CKANApiLoader.transformRecord RegExp_new record sourceConfig = Ok rows ->
    In r rows -> emitted r
| emitted_csv (record : value) (sourceConfig : CsvSourceConfig.t) (fileName : string)
    (r : ProcessedRecord.t) :
    CsvLoader.transformRecord record sourceConfig fileName = Ok (Some r) -> emitted r.

(** The integer normalizer in the words of the specification: strip all
    characters except digits and a leading minus sign, then parse; an empty
    result or a non-numeric string is missing. *)
Definition keepDigitOrMinus (c : ascii) : bool := isDigit c || Ascii.eqb c "-".

Definition stripToInteger (s : string) : string :=
  match sfilter keepDigitOrMinus s with
  | String "-" r => String "-" (sfilter isDigit r)
  | t => sfilter isDigit t
  end.

Definition parseStripped (s : string) : option Z :=
  match s with
  | String "-" ds => if isEmpty ds then None else Some (- digitsToZ ds)
  | ds => if isEmpty ds then None else Some (digitsToZ ds)
  end.

Definition normalize_int (v : value) : option Z :=
  if nullish v then None else parseStripped (stripToInteger (ToString v)).

Definition isZero (c : ascii) : bool := Ascii.eqb c "0".

Definition startsWithMinus (s : string) : bool :=
  match s with
  | String c _ => Ascii.eqb c "-"
  | EmptyString => false
  end.

(** parseInt reads the whole number of [s]: behind the white space, the sign
    and the digits that it reads, no digit is left, or it has read zeros and
    only zeros are left. *)
Definition parsedInFull (s : string) : bool :=
  let '(_, u) := readSign (trimStart s) in
  let '(ds, rest) := span isDigit u in
  isEmpty (sfilter isDigit rest)
  || (negb (isEmpty ds) && sforall isZero ds && sforall isZero (sfilter isDigit rest)).

(** What the API transform fixes in each record it emits. *)
Definition apiRow (sourceConfig : ApiSourceConfig.t) (r : ProcessedRecord.t) : Prop :=
  ProcessedRecord.kategori r = ApiSourceConfig.kategori sourceConfig
  /\ ProcessedRecord.source_type r = api
  /\ ProcessedRecord.source_ref r = ApiSourceConfig.resource_id sourceConfig
  /\ ProcessedRecord.hash_key r = helpers.calculateHash (fingerprintInput r).


(** A server that never fails, and a manager that was never connected but
    whose server holds a checkpoint. *)
Definition noFault (n : nat) : bool := false.

Definition savedCheckpoint : Database.CheckpointRow :=
  {| Database.cp_source_type := api;
     Database.cp_source_ref := "r-1";
     Database.last_offset := Some 200;
     Database.last_processed_at := 1700000000 |}.

Definition notConnected : Database.DatabaseManager :=
  {| Database.connection := false;
     Database.facts_long := [];
     Database.etl_checkpoints := [savedCheckpoint];
     Database.next_id := 1;
     Database.calls := 0 |}.

Definition connected : Database.DatabaseManager :=
  {| Database.connection := true;
     Database.facts_long := [];
     Database.etl_checkpoints := [savedCheckpoint];
     Database.next_id := 1;
     Database.calls := 0 |}.

(** The unique key on [hash_key]. *)
Definition uniqueHash (rows : list Database.FactRow) : Prop :=
  NoDup (map Database.hash_key rows).

(** [new] is [old] with, at most, other mutable columns. *)
Definition sameIdentity (old new : Database.FactRow) : Prop :=
  Database.id new = Database.id old
  /\ Database.kategori new = Database.kategori old
  /\ Database.elemen new = Database.elemen old
  /\ Database.tahun new = Database.tahun old
  /\ Database.hash_key new = Database.hash_key old
  /\ Database.ingested_at new = Database.ingested_at old.

(** The stored row [old] after a write of [r] at [now]: nilai, satuan,
    raw_json, source_type, source_ref and updated_at are replaced. *)
Definition overwritten (now : Z) (r : ProcessedRecord.t) (old : Database.FactRow)
  : Database.FactRow :=
  {| Database.id := Database.id old;
     Database.kategori := Database.kategori old;
     Database.elemen := Database.elemen old;
     Database.tahun := Database.tahun old;
     Database.nilai := ProcessedRecord.nilai r;
     Database.satuan := ProcessedRecord.satuan r;
     Database.raw_json := match ProcessedRecord.raw_json r with
                          | Some s => s
                          | None => "{}"
                          end;
     Database.source_type := ProcessedRecord.source_type r;
     Database.source_ref := ProcessedRecord.source_ref r;
     Database.hash_key := Database.hash_key old;
     Database.ingested_at := Database.ingested_at old;
     Database.updated_at := now |}.

(** The table after such a write to the row stored under the fingerprint of [r]. *)
Definition overwriteStored (now : Z) (r : ProcessedRecord.t) (rows : list Database.FactRow)
  : list Database.FactRow :=
  map (fun old => if String.eqb (Database.hash_key old) (ProcessedRecord.hash_key r)
                  then overwritten now r old else old) rows.

(** The rows stored under a fingerprint. *)
Definition storedUnder (h : string) (rows : list Database.FactRow) : list Database.FactRow :=
  filter (fun row => String.eqb (Database.hash_key row) h) rows.

(** A server whose clock stands at one second, and a manager connected to an
    empty store. *)
Definition stoppedClock (n : nat) : Z := 1700000000.

Definition emptyStore : Database.DatabaseManager :=
  {| Database.connection := true;
     Database.facts_long := [];
     Database.etl_checkpoints := [];
     Database.next_id := 1;
     Database.calls := 0 |}.

(** A server whose clock advances by one second per round trip. *)
Definition tickingClock (n : nat) : Z := 1700000000 + Z.of_nat n.

Definition sampleRecord : ProcessedRecord.t :=
  {| ProcessedRecord.kategori := "kependudukan";
     ProcessedRecord.elemen := "Jumlah Penduduk";
     ProcessedRecord.tahun := Some 2020;
     ProcessedRecord.nilai := Some (ofZ 1350);
     ProcessedRecord.satuan := Some "Orang";
     ProcessedRecord.raw_json := Some "{}";
     ProcessedRecord.source_type := api;
     ProcessedRecord.source_ref := "r-1";
     ProcessedRecord.hash_key :=
       "97a4d36b9b10331069d1c8d9679ccdc244d16c67cd78233d64ce2ff0306c1447" |}.

(** The tally of one write counted as an insert, and as an update. *)
Definition oneInserted : Database.UpsertResult :=
  {| Database.inserted := 1; Database.updated := 0;
     Database.skipped := 0; Database.errors := 0 |}.

Definition oneUpdated : Database.UpsertResult :=
  {| Database.inserted := 0; Database.updated := 1;
     Database.skipped := 0; Database.errors := 0 |}.

(** The row stored under the fingerprint of [r] carries the values of [r] as
    written at [now]. *)
Definition carries (now : Z) (r : ProcessedRecord.t) (rows : list Database.FactRow) : Prop :=
  exists row,
    find (fun old => String.eqb (Database.hash_key old) (ProcessedRecord.hash_key r)) rows
    = Some row
    /\ Database.nilai row = ProcessedRecord.nilai r
    /\ Database.satuan row = ProcessedRecord.satuan r
    /\ Database.raw_json row = match ProcessedRecord.raw_json r with
                               | Some s => s
                               | None => "{}"
                               end
    /\ Database.source_type row = ProcessedRecord.source_type r
    /\ Database.source_ref row = ProcessedRecord.source_ref r
    /\ Database.updated_at row = now.


(** Consecutive sub-lists of [size] elements, the last one possibly shorter. *)
Fixpoint chunksOf {A : Type} (fuel size : nat) (l : list A) : list (list A) :=
  match fuel with
  | O => []
  | S fuel' =>
      match l with
      | [] => []
      | _ :: _ => firstn size l :: chunksOf fuel' size (skipn size l)
      end
  end.

Definition chunks {A : Type} (size : nat) (l : list A) : list (list A) :=
  chunksOf (List.length l) size l.

(** The result of one chunk: its own tally, or all of its records as errors
    when its transaction failed. *)
Definition chunkTally (outcome : result Database.UpsertResult)
    (chunk : list ProcessedRecord.t) : Database.UpsertResult :=
  match outcome with
  | Ok batchResult => batchResult
  | Throw _ =>
      {| Database.inserted := 0; Database.updated := 0; Database.skipped := 0;
         Database.errors := Z.of_nat (List.length chunk) |}
  end.

Definition sumResults (tallies : list Database.UpsertResult) (start : Database.UpsertResult)
  : Database.UpsertResult :=
  fold_left Database.addResult tallies start.

(** A server that fails its second transaction. *)
Definition secondFails (n : nat) : bool := Nat.eqb n 1.

Definition recordWithHash (h : string) : ProcessedRecord.t :=
  {| ProcessedRecord.kategori := "kependudukan";
     ProcessedRecord.elemen := "Jumlah Penduduk";
     ProcessedRecord.tahun := Some 2020;
     ProcessedRecord.nilai := Some (ofZ 1350);
     ProcessedRecord.satuan := Some "Orang";
     ProcessedRecord.raw_json := Some "{}";
     ProcessedRecord.source_type := api;
     ProcessedRecord.source_ref := "r-1";
     ProcessedRecord.hash_key := h |}.

Definition fiveRecords : list ProcessedRecord.t :=
  map recordWithHash ["a"; "b"; "c"; "d"; "e"].

Section Attempts.

Variable server_clock : nat -> Z.
Variable client_clock : nat -> Z.
Variable fault : nat -> bool.
Variable found_rows : bool.

(** Every chunk attempted in turn, each on the store its predecessors left:
    the store at the end and the result of each chunk. *)
Fixpoint attempts (db : Database.DatabaseManager) (cs : list (list ProcessedRecord.t))
  : Database.DatabaseManager * list Database.UpsertResult :=
  match cs with
  | [] => (db, [])
  | chunk :: rest =>
      let '(db1, outcome) :=
        Database.upsertRecords server_clock client_clock fault found_rows db chunk in
      let '(db2, tallies) := attempts db1 rest in
      (db2, chunkTally outcome chunk :: tallies)
  end.

End Attempts.

(** ** More of etl/loaders/loader_csv.ts: the structure check *)

Module CsvValidation.

Import JS.

(** The loop of [fieldExists] over the remaining keys. *)
Fixpoint existsFrom (current : value) (keys : list string) : result bool :=
  match keys with
  | [] => Ok true
  | key :: rest =>
      if truthy current && typeofObject current then
        present <- hasProperty key current ;;
        if present then
          next <- getProperty current key ;;
          existsFrom next rest
        else Ok false
      else Ok false
  end.

Definition fieldExists (record : value) (fieldPath : string) : result bool :=
  existsFrom record (split "." fieldPath).

Record Validation : Type := mkValidation {
  isValid : bool;
  errors : list string
}.

(** [`Required field '${field}' not found. Available fields: ${availableFields.join(', ')}`] *)
Definition notFound (field : string) (availableFields : list string) : string :=
  "Required field '" ++ field ++ "' not found. Available fields: "
  ++ join ", " availableFields.

(** The loop over [requiredFields], pushing one message per missing field. *)
Fixpoint checkFields (sampleRecord : value) (availableFields : list string)
    (requiredFields : list string) (errors : list string) : result (list string) :=
  match requiredFields with
  | [] => Ok errors
  | field :: rest =>
      found <- fieldExists sampleRecord field ;;
      checkFields sampleRecord availableFields rest
        (if found then errors else (errors ++ [notFound field availableFields])%list)
  end.

Definition requiredFields (mapping : CsvSourceConfig.Mapping) : list string :=
  [ CsvSourceConfig.elemen_field mapping;
    CsvSourceConfig.tahun_field mapping;
    CsvSourceConfig.nilai_field mapping;
    CsvSourceConfig.satuan_field mapping ].

Definition message (e : exn) : string :=
  match e with
  | TypeError msg | SyntaxError msg | Error msg => msg
  end.

(** [validateCsvStructure] from the sample records on (the part after the
    file was read); what the try block throws ends in the catch clause. *)
Definition validateSample (sampleRecords : list value) (sourceConfig : CsvSourceConfig.t)
  : Validation :=
  match sampleRecords with
  | [] => {| isValid := false; errors := ["No data records found in file"] |}
  | sampleRecord :: _ =>
      match
        (availableFields <- Object_keys sampleRecord ;;
         checkFields sampleRecord availableFields
           (requiredFields (CsvSourceConfig.mapping sourceConfig)) [])
      with
      | Ok errors => {| isValid := Nat.eqb (List.length errors) 0; errors := errors |}
      | Throw e => {| isValid := false; errors := ["Error reading file: " ++ message e] |}
      end
  end.

End CsvValidation.

(** ** More of etl/utils/helpers.ts: strings *)

Module StringHelpers.

Import JS.

Definition cleanString (value : value) : option string :=
  if nullish value then None
  else
    let cleaned := trim (ToString value) in
    if isEmpty cleaned then None else Some cleaned.

(** String.prototype.substring(start, end) *)
Definition substring (s : string) (start stop : Z) : string :=
  let len := slen s in
  let a := Z.min (Z.max start 0) len in
  let b := Z.min (Z.max stop 0) len in
  let from := Z.min a b in
  let to := Z.max a b in
  String.substring (Z.to_nat from) (Z.to_nat (to - from)) s.

Definition truncateString (str : string) (maxLength : Z) : string :=
  if slen str <=? maxLength then str
  else substring str 0 (maxLength - 3) ++ "...".

(** [isEmpty] of the helpers (not the test for the empty string). *)
Definition isEmptyValue (value : value) : bool :=
  match value with
  | VNull | VUndefined => true
  | VString s => JS.isEmpty (trim s)
  | VArray l => Nat.eqb (List.length l) 0
  | VObject props => Nat.eqb (List.length (ownKeys props)) 0
  | _ => false
  end.

End StringHelpers.

(** A canonical record of the file loader. *)
Definition emittedByFile (r : ProcessedRecord.t) : Prop :=
  exists record sourceConfig fileName,
    CsvLoader.transformRecord record sourceConfig fileName = Ok (Some r).

(** Neither white space at either end nor empty. *)
Definition cleanText (s : string) : Prop := s <> "" /\ trim s = s.

Definition digitOrComma (c : ascii) : bool := isDigit c || Ascii.eqb c ",".

(** Whether the dotted path leads to a value in the record. *)
Definition resolves (record : value) (path : string) : bool :=
  match valueAt record (split "." path) with
  | Some _ => true
  | None => false
  end.

(** No mapped field of the source meets an inherited member in the sample
    record: the check's [key in current] sees what [hasProperty] sees. *)
Definition ownFields (sampleRecord : value) (sourceConfig : CsvSourceConfig.t) : Prop :=
  forall field,
    In field (CsvValidation.requiredFields (CsvSourceConfig.mapping sourceConfig)) ->
    ownPath sampleRecord (split "." field) = true.

(** The characters that the file loader's float parser keeps. *)
Definition keptForFloat (c : ascii) : bool :=
  isDigit c || Ascii.eqb c "." || Ascii.eqb c "," || Ascii.eqb c "-".

Definition finite (n : number) : Prop := exists m k, n = Fin m k.

(** A record without columns, and a mapping that asks for one. *)
Definition bareRecord : value := VObject [("Elemen", VString "Luas")].

(** A header row with a column named __proto__. *)
Definition protoHeaders : list value := [VString "__proto__"; VString "Elemen"].

(** A value that a record of a sheet can hold: the empty string or a truthy
    cell. *)
Definition emptyOrTruthy (v : value) : Prop := v = VString "" \/ truthy v = true.

(** The records that a tally accounts for. *)
Definition counted (tally : Database.UpsertResult) : Z :=
  Database.inserted tally + Database.updated tally + Database.errors tally.

(** No count of a tally is negative, and nothing is ever skipped. *)
Definition wellFormedTally (tally : Database.UpsertResult) : Prop :=
  0 <= Database.inserted tally /\ 0 <= Database.updated tally
  /\ 0 <= Database.errors tally /\ Database.skipped tally = 0.

(** The fingerprints stored, in the order of the rows. *)
Definition fingerprints (db : Database.DatabaseManager) : list string :=
  map Database.hash_key (Database.facts_long db).

(** The fingerprints [hs], added in turn to those stored unless already there. *)
Fixpoint addFresh (stored hs : list string) : list string :=
  match hs with
  | [] => stored
  | h :: more =>
      addFresh (if existsb (fun s => String.eqb s h) stored then stored
                else (stored ++ [h])%list) more
  end.

(** What the INT column [last_offset] holds. *)
Definition fitsInt (n : Z) : Prop := - 2 ^ 31 <= n < 2 ^ 31.

(** ** Fetching from the CKAN API: [loadData] and [fetchDataWithRetry]

    The network is an oracle: what the n-th request of the run, for a given
    URL, is answered.  A response is data of the type CKANResponse.  The
    number of requests made and the delays slept, in order, are the state. *)

Module CKANResponse.

Record Result : Type := mkResult {
  records : list JS.value;
  total : Z
}.

Record t : Type := mk {
  success : bool;
  result : Result
}.

End CKANResponse.

Module CKANApiFetch.

Import JS.

Record Settings : Type := mkSettings {
  base_url : string;
  batch_size : option Z;
  max_retries : option Z;
  retry_delay : option Z
}.

Record t : Type := mk {
  baseUrl : string;
  batchSize : Z;
  maxRetries : Z;
  retryDelay : Z
}.

(** [setting || default] on a number that may be undefined *)
Definition orDefault (setting : option Z) (default : Z) : Z :=
  match setting with
  | Some n => if n =? 0 then default else n
  | None => default
  end.

Definition constructor (settings : Settings) : t :=
  {| baseUrl := base_url settings;
     batchSize := orDefault (batch_size settings) 100;
     maxRetries := orDefault (max_retries settings) 3;
     retryDelay := orDefault (retry_delay settings) 1000 |}.

Record World : Type := mkWorld {
  requests : nat;
  slept : list Z
}.

Definition sleep (ms : Z) (w : World) : World :=
  {| requests := requests w; slept := (slept w ++ [ms])%list |}.

Definition requested (w : World) : World :=
  {| requests := S (requests w); slept := slept w |}.

Definition requestUrl (loader : t) (resourceId : string) (offset limit : Z) : string :=
  baseUrl loader ++ "?resource_id=" ++ resourceId
  ++ "&offset=" ++ Number_toString (ofZ offset)
  ++ "&limit=" ++ Number_toString (ofZ limit).

Definition message (e : exn) : string :=
  match e with
  | TypeError msg | SyntaxError msg | Error msg => msg
  end.

Section Http.

Variable axios_get : nat -> string -> result CKANResponse.t.

(** The for loop of [fetchDataWithRetry] with [remaining] iterations to go,
    the next one being iteration [attempt]. *)
Fixpoint attemptsFrom (loader : t) (url : string) (remaining : nat) (attempt : Z)
    (lastError : option exn) (w : World) : World * result CKANResponse.t :=
  match remaining with
  | O =>
      (w, match lastError with
          | Some e =>
              Throw (Error ("Failed to fetch data after "
                            ++ Number_toString (ofZ (maxRetries loader))
                            ++ " attempts: " ++ message e))
          | None =>
              Throw (TypeError "Cannot read properties of undefined (reading 'message')")
          end)
  | S remaining' =>
      match axios_get (requests w) url with
      | Ok data => (requested w, Ok data)
      | Throw e =>
          let w1 := requested w in
          let w2 := if attempt <? maxRetries loader
                    then sleep (retryDelay loader * 2 ^ (attempt - 1)) w1
                    else w1 in
          attemptsFrom loader url remaining' (attempt + 1) (Some e) w2
      end
  end.

(** [attempt] runs from 1 while [attempt <= maxRetries]. *)
Definition fetchDataWithRetry (loader : t) (resourceId : string) (offset limit : Z)
    (w : World) : World * result CKANResponse.t :=
  attemptsFrom loader (requestUrl loader resourceId offset limit)
    (Z.to_nat (maxRetries loader)) 1 None w.

Variable RegExp_new : string -> result RegExp.

(** The while loop of [loadData]; None when the fuel runs out before it ends. *)
Fixpoint loadLoop (fuel : nat) (loader : t) (sourceConfig : ApiSourceConfig.t) (offset : Z)
    (allRecords : list ProcessedRecord.t) (w : World)
  : option (World * result (list ProcessedRecord.t)) :=
  match fuel with
  | O => None
  | S fuel' =>
      let '(w1, fetched) :=
        fetchDataWithRetry loader (ApiSourceConfig.resource_id sourceConfig) offset
          (batchSize loader) w in
      match fetched with
      | Throw e => Some (w1, Throw e)
      | Ok response =>
          if negb (CKANResponse.success response) then
            Some (w1, Throw (Error ("CKAN API returned success: false for resource "
                                    ++ ApiSourceConfig.resource_id sourceConfig)))
          else if Z.of_nat (List.length (CKANResponse.records (CKANResponse.result response))) =? 0 then
            Some (w1, Ok allRecords)
          else
            let processedRecords :=
              CKANApiLoader.processRecords RegExp_new (CKANResponse.records (CKANResponse.result response))
                sourceConfig in
            let allRecords' := (allRecords ++ processedRecords)%list in
            let offset' := offset + batchSize loader in
            if offset' <? CKANResponse.total (CKANResponse.result response) then
              loadLoop fuel' loader sourceConfig offset' allRecords' (sleep 100 w1)
            else Some (w1, Ok allRecords')
      end
  end.

Definition loadData (fuel : nat) (loader : t) (sourceConfig : ApiSourceConfig.t)
    (startOffset : Z) (w : World) : option (World * result (list ProcessedRecord.t)) :=
  loadLoop fuel loader sourceConfig startOffset [] w.

End Http.

End CKANApiFetch.

(** ** [retryWithBackoff] of the helpers

    [fn] is an oracle: the outcome of its n-th call.  What is thrown at the
    end is the error caught last, or undefined (None) when there was no call. *)

Module Retry.

Import CKANApiFetch.

Section Fn.

Variable A : Type.
Variable fn : nat -> result A.

Fixpoint attemptsFrom (maxRetries baseDelay : Z) (remaining : nat) (attempt : Z)
    (lastError : option exn) (w : World) : World * (A + option exn) :=
  match remaining with
  | O => (w, inr lastError)
  | S remaining' =>
      match fn (requests w) with
      | Ok a => (requested w, inl a)
      | Throw e =>
          let w1 := requested w in
          if attempt =? maxRetries then (w1, inr (Some e))
          else
            attemptsFrom maxRetries baseDelay remaining' (attempt + 1) (Some e)
              (sleep (baseDelay * 2 ^ (attempt - 1)) w1)
      end
  end.

Definition retryWithBackoff (maxRetries baseDelay : option Z) (w : World)
  : World * (A + option exn) :=
  let maxRetries := match maxRetries with Some n => n | None => 3 end in
  let baseDelay := match baseDelay with Some n => n | None => 1000 end in
  attemptsFrom maxRetries baseDelay (Z.to_nat maxRetries) 1 None w.

End Fn.

End Retry.

(** The delays of exponential backoff before the retries 1 to [k]. *)
Definition backoff (delay : Z) (k : nat) : list Z :=
  map (fun i => delay * 2 ^ Z.of_nat i) (seq 0 k).

(** A page of [limit] rows of [data] from [offset], as the API answers it. *)
Definition page (data : list JS.value) (offset limit : Z) : CKANResponse.t :=
  {| CKANResponse.success := true;
     CKANResponse.result :=
       {| CKANResponse.records := Database.slice data offset (offset + limit);
          CKANResponse.total := Z.of_nat (List.length data) |} |}.

(** The requests that [loadData] makes for [len] rows from [start]. *)
Definition pageCount (len start limit : Z) : nat :=
  Z.to_nat (Z.max 1 ((len - start + limit - 1) / limit)).

(** A loader with pages of two rows and the default retries, three rows of a
    long-format resource, and a server that answers from a table of URLs,
    except for the requests that [failing] marks. *)
Definition sampleLoader : CKANApiFetch.t :=
  CKANApiFetch.constructor
    {| CKANApiFetch.base_url := "https://data.slemankab.go.id/api/3/action/datastore_search";
       CKANApiFetch.batch_size := Some 2;
       CKANApiFetch.max_retries := None;
       CKANApiFetch.retry_delay := None |}.

Definition longRow (tahun nilai : string) : JS.value :=
  JS.VObject [ ("Elemen", JS.VString "Jumlah Penduduk");
               ("Tahun", JS.VString tahun);
               ("Nilai", JS.VString nilai);
               ("Satuan", JS.VString "Orang") ].

Definition threeRows : list JS.value :=
  [longRow "2019" "1200"; longRow "2020" "1350"; longRow "2021" "1400"].

Definition tableServer (failing : nat -> bool) (loader : CKANApiFetch.t)
    (resourceId : string) (data : list JS.value) (offsets : list Z)
    (n : nat) (url : string) : result CKANResponse.t :=
  if failing n then Throw (Error "socket hang up")
  else
    match find (fun offset =>
                  String.eqb (CKANApiFetch.requestUrl loader resourceId offset
                                (CKANApiFetch.batchSize loader)) url) offsets with
    | Some offset => Ok (page data offset (CKANApiFetch.batchSize loader))
    | None => Throw (Error "Request failed with status code 404")
    end.

Definition firstFails (n : nat) : bool := Nat.eqb n 0.

Definition idle : CKANApiFetch.World :=
  {| CKANApiFetch.requests := 0; CKANApiFetch.slept := [] |}.

(** A call that fails the first time and answers 7 from then on. *)
Definition busyOnce (n : nat) : result Z :=
  if Nat.eqb n 0 then Throw (Error "busy") else Ok 7.

(** ** [batchArray] of the helpers; None when the fuel runs out before the
    loop ends. *)

Module ArrayHelpers.

Fixpoint batchFrom {A : Type} (fuel : nat) (array : list A) (batchSize i : Z)
    (batches : list (list A)) : option (list (list A)) :=
  if i <? Z.of_nat (List.length array) then
    match fuel with
    | O => None
    | S fuel' =>
        batchFrom fuel' array batchSize (i + batchSize)
          (batches ++ [Database.slice array i (i + batchSize)])%list
    end
  else Some batches.

Definition batchArray {A : Type} (fuel : nat) (array : list A) (batchSize : Z)
  : option (list (list A)) :=
  batchFrom fuel array batchSize 0 [].

End ArrayHelpers.

(** ** The ETL log: [logEtlActivity] of etl/utils/database.ts

    The table etl_logs is a list of rows, in the order of their insertion;
    the position of a row stands for its id. *)

Module DatabaseLog.

Inductive Status : Type := started | completed | failed.

Record EtlLogEntry : Type := mkEntry {
  source_type : SourceType;
  source_ref : string;
  kategori : string;
  status : Status;
  total_records : option Z;
  new_records : option Z;
  updated_records : option Z;
  error_message : option string
}.

Record LogRow : Type := mkRow {
  log_source_type : SourceType;
  log_source_ref : string;
  log_kategori : string;
  log_status : Status;
  log_total_records : Z;
  log_new_records : Z;
  log_updated_records : Z;
  log_error_message : option string;
  started_at : Z;
  completed_at : option Z
}.

(** The manager with the log table of its server. *)
Record Store : Type := mkStore {
  manager : Database.DatabaseManager;
  etl_logs : list LogRow
}.

Definition withManager (s : Store) (db : Database.DatabaseManager) : Store :=
  {| manager := db; etl_logs := etl_logs s |}.

(** [n || 0] *)
Definition orZero (n : option Z) : Z :=
  match n with
  | Some z => z
  | None => 0
  end.

(** [message || null] *)
Definition orNull (message : option string) : option string :=
  match message with
  | Some s => if String.eqb s "" then None else Some s
  | None => None
  end.

Section Server.

Variable server_clock : nat -> Z.
Variable client_clock : nat -> Z.
Variable fault : nat -> bool.

Definition logEtlActivity (s : Store) (logEntry : EtlLogEntry) : Store * result unit :=
  let db := manager s in
  if negb (Database.connection db) then
    (s, Throw (Error "Database connection not established"))
  else
    let n := Database.calls db in
    if fault n then (withManager s (Database.tick db), Ok tt)
    else
      ({| manager := Database.tick db;
          etl_logs :=
            (etl_logs s
             ++ [ {| log_source_type := source_type logEntry;
                     log_source_ref := source_ref logEntry;
                     log_kategori := kategori logEntry;
                     log_status := status logEntry;
                     log_total_records := orZero (total_records logEntry);
                     log_new_records := orZero (new_records logEntry);
                     log_updated_records := orZero (updated_records logEntry);
                     log_error_message := orNull (error_message logEntry);
                     started_at := server_clock n;
                     completed_at :=
                       match status logEntry with
                       | completed => Some (client_clock n)
                       | _ => None
                       end |} ])%list |},
       Ok tt).

End Server.

End DatabaseLog.

(** ** One source at a time: [processApiSource], [processCsvSource] and the
    loops over the sources of etl/run.ts

    The loaders are parameters: what [loadData] returns for a source (and a
    start offset), and what [validateCsvStructure] reports for it. *)

Module EtlRun.

Import DatabaseLog.

Record Settings : Type := mkSettings {
  enable_checkpoints : bool;
  batch_size : option Z
}.

Definition logEntry (sourceType : SourceType) (sourceRef kategori : string) : EtlLogEntry :=
  {| source_type := sourceType; source_ref := sourceRef; kategori := kategori;
     status := started; total_records := None; new_records := None;
     updated_records := None; error_message := None |}.

(** [{...logEntry, status: 'completed', total_records, new_records, updated_records}] *)
Definition completedEntry (entry : EtlLogEntry) (total new updated : Z) : EtlLogEntry :=
  {| source_type := source_type entry; source_ref := source_ref entry;
     kategori := kategori entry; status := completed;
     total_records := Some total; new_records := Some new;
     updated_records := Some updated; error_message := error_message entry |}.

(** [{...logEntry, status: 'failed', error_message: error.message}] *)
Definition failedEntry (entry : EtlLogEntry) (message : string) : EtlLogEntry :=
  {| source_type := source_type entry; source_ref := source_ref entry;
     kategori := kategori entry; status := failed;
     total_records := total_records entry; new_records := new_records entry;
     updated_records := updated_records entry; error_message := Some message |}.

(** A checkpoint read as NULL counts as 0 in [startOffset + records.length]. *)
Definition offsetNumber (startOffset : option Z) : Z :=
  match startOffset with
  | Some n => n
  | None => 0
  end.

Section Runner.

Variable server_clock : nat -> Z.
Variable client_clock : nat -> Z.
Variable fault : nat -> bool.
Variable found_rows : bool.
Variable settings : Settings.

(** The catch clause of both functions: the failure is logged, then thrown
    again. *)
Definition catchAndLog (entry : EtlLogEntry) (attempt : option (Store * result unit))
  : option (Store * result unit) :=
  match attempt with
  | None => None
  | Some (s, Ok tt) => Some (s, Ok tt)
  | Some (s, Throw error) =>
      let '(s', logged) :=
        logEtlActivity server_clock client_clock fault s
          (failedEntry entry (CKANApiFetch.message error)) in
      Some (s', match logged with
                | Ok _ => Throw error
                | Throw e => Throw e
                end)
  end.

(** The steps after the load that both functions share: the filters' result
    is written, the checkpoint saved when asked for, the completion logged. *)
Definition writeRecords (fuel : nat) (s : Store) (entry : EtlLogEntry)
    (records filteredRecords : list ProcessedRecord.t) (checkpoint : option Z)
  : option (Store * result unit) :=
  match Database.batchUpsertRecords server_clock client_clock fault found_rows fuel
          (manager s) filteredRecords (batch_size settings) with
  | None => None
  | Some (db, result) =>
      let s1 := withManager s db in
      let '(s2, saved) :=
        match checkpoint with
        | Some offset =>
            let '(db', saved) :=
              Database.saveCheckpoint server_clock fault (manager s1) (source_type entry)
                (source_ref entry) offset in
            (withManager s1 db', saved)
        | None => (s1, Ok tt)
        end in
      match saved with
      | Throw e => Some (s2, Throw e)
      | Ok _ =>
          Some (logEtlActivity server_clock client_clock fault s2
                  (completedEntry entry (Z.of_nat (List.length records))
                     (Database.inserted result) (Database.updated result)))
      end
  end.

Section Api.

Variable loadData : ApiSourceConfig.t -> option Z -> result (list ProcessedRecord.t).

(** The try block of [processApiSource]. *)
Definition tryApiSource (fuel : nat) (sourceConfig : ApiSourceConfig.t)
    (options : EtlRunner.EtlOptions) (s : Store) : option (Store * result unit) :=
  let resource := ApiSourceConfig.resource_id sourceConfig in
  let entry := logEntry api resource (ApiSourceConfig.kategori sourceConfig) in
  let '(s1, logged) := logEtlActivity server_clock client_clock fault s entry in
  match logged with
  | Throw e => Some (s1, Throw e)
  | Ok _ =>
      let '(s2, checkpoint) :=
        if enable_checkpoints settings then
          let '(db, offset) := Database.getCheckpoint fault (manager s1) api resource in
          (withManager s1 db, offset)
        else (s1, Ok (Some 0)) in
      match checkpoint with
      | Throw e => Some (s2, Throw e)
      | Ok startOffset =>
          match loadData sourceConfig startOffset with
          | Throw e => Some (s2, Throw e)
          | Ok records =>
              if Z.of_nat (List.length records) =? 0 then Some (s2, Ok tt)
              else
                let filteredRecords := EtlRunner.apiFiltered options records in
                if EtlRunner.dryRun options then Some (s2, Ok tt)
                else
                  writeRecords fuel s2 entry records filteredRecords
                    (if enable_checkpoints settings
                        && (0 <? Z.of_nat (List.length records))
                     then Some (offsetNumber startOffset + Z.of_nat (List.length records))
                     else None)
          end
      end
  end.

Definition processApiSource (fuel : nat) (sourceConfig : ApiSourceConfig.t)
    (options : EtlRunner.EtlOptions) (s : Store) : option (Store * result unit) :=
  catchAndLog
    (logEntry api (ApiSourceConfig.resource_id sourceConfig)
       (ApiSourceConfig.kategori sourceConfig))
    (tryApiSource fuel sourceConfig options s).

(** [options.only && sourceConfig.kategori !== options.only] *)
Definition skipped (only : option string) (kategori : string) : bool :=
  match only with
  | Some name => negb (String.eqb name "") && negb (String.eqb kategori name)
  | None => false
  end.

(** The loop of [runApiSources]: the first failure ends it. *)
Fixpoint runApiSources (fuel : nat) (sources : list ApiSourceConfig.t)
    (only : option string) (options : EtlRunner.EtlOptions) (s : Store)
  : option (Store * result unit) :=
  match sources with
  | [] => Some (s, Ok tt)
  | sourceConfig :: rest =>
      if skipped only (ApiSourceConfig.kategori sourceConfig) then
        runApiSources fuel rest only options s
      else
        match processApiSource fuel sourceConfig options s with
        | None => None
        | Some (s', Ok _) => runApiSources fuel rest only options s'
        | Some (s', Throw e) => Some (s', Throw e)
        end
  end.

End Api.

Section Csv.

Variable validateCsvStructure : CsvSourceConfig.t -> CsvValidation.Validation.
Variable loadData : CsvSourceConfig.t -> result (list ProcessedRecord.t).

(** The try block of [processCsvSource]. *)
Definition tryCsvSource (fuel : nat) (sourceConfig : CsvSourceConfig.t)
    (options : EtlRunner.EtlOptions) (s : Store) : option (Store * result unit) :=
  let fileName := CsvLoader.basename (CsvSourceConfig.file_path sourceConfig) in
  let entry := logEntry csv fileName (CsvSourceConfig.kategori sourceConfig) in
  let validation := validateCsvStructure sourceConfig in
  if negb (CsvValidation.isValid validation) then
    Some (s, Throw (Error ("CSV validation failed: "
                           ++ JS.join ", " (CsvValidation.errors validation))))
  else
    let '(s1, logged) := logEtlActivity server_clock client_clock fault s entry in
    match logged with
    | Throw e => Some (s1, Throw e)
    | Ok _ =>
        match loadData sourceConfig with
        | Throw e => Some (s1, Throw e)
        | Ok records =>
            if Z.of_nat (List.length records) =? 0 then Some (s1, Ok tt)
            else
              let filteredRecords := EtlRunner.csvFiltered options records in
              if EtlRunner.dryRun options then Some (s1, Ok tt)
              else writeRecords fuel s1 entry records filteredRecords None
        end
    end.

Definition processCsvSource (fuel : nat) (sourceConfig : CsvSourceConfig.t)
    (options : EtlRunner.EtlOptions) (s : Store) : option (Store * result unit) :=
  catchAndLog
    (logEntry csv (CsvLoader.basename (CsvSourceConfig.file_path sourceConfig))
       (CsvSourceConfig.kategori sourceConfig))
    (tryCsvSource fuel sourceConfig options s).

(** The loop of [runCsvSources]. *)
Fixpoint runCsvSources (fuel : nat) (sources : list CsvSourceConfig.t)
    (only : option string) (options : EtlRunner.EtlOptions) (s : Store)
  : option (Store * result unit) :=
  match sources with
  | [] => Some (s, Ok tt)
  | sourceConfig :: rest =>
      if skipped only (CsvSourceConfig.kategori sourceConfig) then
        runCsvSources fuel rest only options s
      else
        match processCsvSource fuel sourceConfig options s with
        | None => None
        | Some (s', Ok _) => runCsvSources fuel rest only options s'
        | Some (s', Throw e) => Some (s', Throw e)
        end
  end.

End Csv.

End Runner.

End EtlRun.

(** The facts, the checkpoints and the connection are those of [s]. *)
Definition sameData (s s' : DatabaseLog.Store) : Prop :=
  Database.facts_long (DatabaseLog.manager s') = Database.facts_long (DatabaseLog.manager s)
  /\ Database.etl_checkpoints (DatabaseLog.manager s')
     = Database.etl_checkpoints (DatabaseLog.manager s)
  /\ Database.connection (DatabaseLog.manager s')
     = Database.connection (DatabaseLog.manager s).

(** The log of [s'] is the log of [s] followed by [added]. *)
Definition logged (s s' : DatabaseLog.Store) (added : list DatabaseLog.LogRow) : Prop :=
  DatabaseLog.etl_logs s' = (DatabaseLog.etl_logs s ++ added)%list.

(** The chunk size in force: [batchSize: number = 1000]. *)
Definition chunkSize (settings : EtlRun.Settings) : Z :=
  match EtlRun.batch_size settings with
  | Some n => n
  | None => 1000
  end.

Definition dryRunOptions : EtlRunner.EtlOptions :=
  {| EtlRunner.since := None; EtlRunner.limit := None; EtlRunner.dryRun := true |}.

Definition plainOptions : EtlRunner.EtlOptions :=
  {| EtlRunner.since := None; EtlRunner.limit := None; EtlRunner.dryRun := false |}.

Definition checkpointing : EtlRun.Settings :=
  {| EtlRun.enable_checkpoints := true; EtlRun.batch_size := Some 2 |}.

Definition emptyLog : DatabaseLog.Store :=
  {| DatabaseLog.manager := emptyStore; DatabaseLog.etl_logs := [] |}.

(** A loader that returns the five records whatever the offset. *)
Definition fiveLoaded (sourceConfig : ApiSourceConfig.t) (startOffset : option Z)
  : result (list ProcessedRecord.t) := Ok fiveRecords.

(** A loader whose request times out. *)
Definition timedOut (sourceConfig : ApiSourceConfig.t) (startOffset : option Z)
  : result (list ProcessedRecord.t) := Throw (Error "timeout of 30000ms exceeded").

(** A row written at the start of a run, and one written by the catch clause
    for the error [e]. *)
Definition startedRow (row : DatabaseLog.LogRow) : Prop :=
  DatabaseLog.log_status row = DatabaseLog.started
  /\ DatabaseLog.completed_at row = None.

Definition failedRow (e : exn) (row : DatabaseLog.LogRow) : Prop :=
  DatabaseLog.log_status row = DatabaseLog.failed
  /\ DatabaseLog.completed_at row = None
  /\ DatabaseLog.log_error_message row
     = DatabaseLog.orNull (Some (CKANApiFetch.message e)).

(** A loader that finds no row, and a structure check that passes or fails. *)
Definition noneLoaded (sourceConfig : ApiSourceConfig.t) (startOffset : option Z)
  : result (list ProcessedRecord.t) := Ok [].

Definition fileLoaded (sourceConfig : CsvSourceConfig.t)
  : result (list ProcessedRecord.t) := Ok fiveRecords.

Definition structureValid (sourceConfig : CsvSourceConfig.t) : CsvValidation.Validation :=
  {| CsvValidation.isValid := true; CsvValidation.errors := [] |}.

Definition structureInvalid (sourceConfig : CsvSourceConfig.t) : CsvValidation.Validation :=
  CsvValidation.validateSample [] sourceConfig.

(** A row written at the end of a run that loaded [total] records and wrote
    at most [written] of them. *)
Definition completedRow (total written : Z) (row : DatabaseLog.LogRow) : Prop :=
  DatabaseLog.log_status row = DatabaseLog.completed
  /\ DatabaseLog.completed_at row <> None
  /\ DatabaseLog.log_total_records row = total
  /\ 0 <= DatabaseLog.log_new_records row
  /\ 0 <= DatabaseLog.log_updated_records row
  /\ DatabaseLog.log_new_records row + DatabaseLog.log_updated_records row <= written.

(** The offset that a read without fault returns for a source. *)
Definition storedOffset (s : DatabaseLog.Store) (sourceType : SourceType)
    (sourceRef : string) : result (option Z) :=
  snd (Database.getCheckpoint noFault (DatabaseLog.manager s) sourceType sourceRef).

(** A server that fails every transaction of facts of the sample run: the
    round trips 2, 3 and 4. *)
Definition chunksFail (n : nat) : bool := Nat.leb 2 n && Nat.leb n 4.

(** Whether the source is of the category [name]. *)
Definition ofKategori (name : string) (sourceConfig : ApiSourceConfig.t) : bool :=
  String.eqb (ApiSourceConfig.kategori sourceConfig) name.

Definition fileOfKategori (name : string) (sourceConfig : CsvSourceConfig.t) : bool :=
  String.eqb (CsvSourceConfig.kategori sourceConfig) name.

(** What follows a loop over sources that ended in [first]. *)
Definition andThen (first : option (DatabaseLog.Store * result unit))
    (next : DatabaseLog.Store -> option (DatabaseLog.Store * result unit))
  : option (DatabaseLog.Store * result unit) :=
  match first with
  | Some (s, Ok _) => next s
  | Some (s, Throw e) => Some (s, Throw e)
  | None => None
  end.

(** Options with a limit, and with a floor on the year. *)
Definition limitOptions (n : Z) : EtlRunner.EtlOptions :=
  {| EtlRunner.since := None; EtlRunner.limit := Some n; EtlRunner.dryRun := false |}.

(** ** The text that is hashed *)

Definition notPipe (c : ascii) : bool := negb (Ascii.eqb c "|").

(** The text holds no separator. *)
Definition noPipe (s : string) : bool := JS.sforall notPipe s.

(** The texts of the record that come before the last separator hold none,
    the numbers apart, which never do. *)
Definition pipeFree (r : ProcessedRecord.t) : Prop :=
  noPipe (ProcessedRecord.kategori r) = true
  /\ noPipe (ProcessedRecord.elemen r) = true
  /\ noPipe (templateString (ProcessedRecord.satuan r)) = true.

(** A year of at most 15 digits, or none: a year that the engine holds
    exactly and writes as an integer. *)
Definition plainYear (x : option Z) : Prop :=
  match x with
  | Some z => (String.length (JS.decimal (Z.abs z)) <= 15)%nat
  | None => True
  end.

(** [r] under another category and element. *)
Definition withIdentity (r : ProcessedRecord.t) (kategori elemen : string)
  : ProcessedRecord.t :=
  {| ProcessedRecord.kategori := kategori;
     ProcessedRecord.elemen := elemen;
     ProcessedRecord.tahun := ProcessedRecord.tahun r;
     ProcessedRecord.nilai := ProcessedRecord.nilai r;
     ProcessedRecord.satuan := ProcessedRecord.satuan r;
     ProcessedRecord.raw_json := ProcessedRecord.raw_json r;
     ProcessedRecord.source_type := ProcessedRecord.source_type r;
     ProcessedRecord.source_ref := ProcessedRecord.source_ref r;
     ProcessedRecord.hash_key := ProcessedRecord.hash_key r |}.

(** [r] with another unit. *)
Definition withSatuan (r : ProcessedRecord.t) (satuan : option string) : ProcessedRecord.t :=
  {| ProcessedRecord.kategori := ProcessedRecord.kategori r;
     ProcessedRecord.elemen := ProcessedRecord.elemen r;
     ProcessedRecord.tahun := ProcessedRecord.tahun r;
     ProcessedRecord.nilai := ProcessedRecord.nilai r;
     ProcessedRecord.satuan := satuan;
     ProcessedRecord.raw_json := ProcessedRecord.raw_json r;
     ProcessedRecord.source_type := ProcessedRecord.source_type r;
     ProcessedRecord.source_ref := ProcessedRecord.source_ref r;
     ProcessedRecord.hash_key := ProcessedRecord.hash_key r |}.

(** The last record of the batch that has the fingerprint [h]. *)
Fixpoint lastWith (h : string) (records : list ProcessedRecord.t) : option ProcessedRecord.t :=
  match records with
  | [] => None
  | r :: more =>
      match lastWith h more with
      | Some later => Some later
      | None => if String.eqb (ProcessedRecord.hash_key r) h then Some r else None
      end
  end.

(** A store that holds the rows of the fingerprints a and z. *)
Definition storedTwice : Database.DatabaseManager :=
  fst (Database.upsertRecords tickingClock tickingClock noFault false emptyStore
         [recordWithHash "a"; recordWithHash "z"]).

(** A batch in which the fingerprint b comes twice, the second time with
    another unit, and the stored fingerprint a once. *)
Definition repeatedBatch : list ProcessedRecord.t :=
  [ recordWithHash "b"; recordWithHash "a";
    withSatuan (recordWithHash "b") (Some "Jiwa"); recordWithHash "c" ].

(** The store after the batch, and after the same batch again. *)
Definition afterBatch : Database.DatabaseManager :=
  fst (Database.upsertRecords tickingClock tickingClock noFault false storedTwice
         repeatedBatch).

Definition afterAgain : Database.DatabaseManager :=
  fst (Database.upsertRecords tickingClock tickingClock noFault false afterBatch
         repeatedBatch).

(** A server that answers every request by success: false. *)
Definition refusing (n : nat) (url : string) : result CKANResponse.t :=
  Ok {| CKANResponse.success := false;
        CKANResponse.result := {| CKANResponse.records := []; CKANResponse.total := 0 |} |}.

(** ** [deepMerge] of the helpers *)

Module ObjectHelpers.

Import JS.






End ObjectHelpers.






(** * Properties *)

(** ** The wide-mode example (C1) *)

(** C1, as the specification words it: the 2019 column would give the value
    1200.  It does not: the transform does not return these two records. *)
Lemma C1_wide_example_1200_refuted :
  observations
    (CKANApiLoader.transformRecord MiniRegExp.RegExp_new pendudukRecord
       (wideSource "kependudukan" "r-1"))
  <> Some [ ("Jumlah Penduduk", Some 2019, Some (Fin 1200 0), Some "Orang");
            ("Jumlah Penduduk", Some 2020, Some (Fin 1350 0), Some "Orang") ].
Proof.
  intro H.
  assert (E : observations
                (CKANApiLoader.transformRecord MiniRegExp.RegExp_new pendudukRecord
                   (wideSource "kependudukan" "r-1"))
              = Some [ ("Jumlah Penduduk", Some 2019, Some (Fin 12 1), Some "Orang");
                       ("Jumlah Penduduk", Some 2020, Some (Fin 1350 0), Some "Orang") ])
    by reflexivity.
  rewrite E in H. discriminate H.
Qed.

(** C1 (amended): with the year pattern [Data (\d{4})], the wide-mode
    transform of the population record yields exactly two canonical records,
    for 2019 and 2020 in the order of the columns, both with the element
    "Jumlah Penduduk" and the unit "Orang"; the cell "1.200" is read with the
    dot as a decimal point, so the 2019 value is 1.2 (12/10), and the 2020
    value is 1350. *)
Theorem C1_wide_example (kategori resource_id : string) :
  observations
    (CKANApiLoader.transformRecord MiniRegExp.RegExp_new pendudukRecord
       (wideSource kategori resource_id))
  = Some [ ("Jumlah Penduduk", Some 2019, Some (Fin 12 1), Some "Orang");
           ("Jumlah Penduduk", Some 2020, Some (Fin 1350 0), Some "Orang") ].
Proof. reflexivity. Qed.

(** ** The year floor (C9) *)

Lemma sinceTest_spec (floor : Z) (r : ProcessedRecord.t) :
  EtlRunner.sinceTest floor r = true <-> ~ belowFloor floor r.
Proof.
  unfold EtlRunner.sinceTest, belowFloor.
  destruct (ProcessedRecord.tahun r) as [year|].
  - rewrite orb_true_iff, Z.eqb_eq, Z.leb_le. split.
    + intros H (y & E & Hne & Hlt). injection E as <-. lia.
    + intros H. destruct (Z.eq_dec year 0) as [|Hne]; [now left|right].
      destruct (Z_lt_le_dec year floor) as [Hlt|]; [|assumption].
      exfalso. apply H. now exists year.
  - split; [|reflexivity]. intros _ (y & E & _). discriminate E.
Qed.

(** C9: when the year floor is applied (--since is a number other than 0), the
    records kept are exactly those whose year is not a non-zero number
    strictly below the floor; in particular a record without a year and a
    record of year 0 are kept, in their order, and this is so for the
    API-sourced and for the file-sourced list alike. *)
Theorem C9_since_floor (options : EtlRunner.EtlOptions)
    (records : list ProcessedRecord.t) (floor : Z) :
  EtlRunner.since options = Some floor ->
  floor <> 0 ->
  (forall r, In r (EtlRunner.apiSince options records)
             <-> In r records /\ ~ belowFloor floor r)
  /\ (forall r, In r (EtlRunner.csvSince options records)
                <-> In r records /\ ~ belowFloor floor r)
  /\ (forall r, In r records ->
                ProcessedRecord.tahun r = None \/ ProcessedRecord.tahun r = Some 0 ->
                In r (EtlRunner.apiSince options records)
                /\ In r (EtlRunner.csvSince options records))
  /\ EtlRunner.apiSince options records = filter (EtlRunner.sinceTest floor) records
  /\ EtlRunner.csvSince options records = filter (EtlRunner.sinceTest floor) records.
Proof.
  intros Hs Hf.
  assert (Ea : EtlRunner.apiSince options records
               = filter (EtlRunner.sinceTest floor) records).
  { unfold EtlRunner.apiSince. rewrite Hs.
    destruct (Z.eqb_spec floor 0); [contradiction|reflexivity]. }
  assert (Ec : EtlRunner.csvSince options records
               = filter (EtlRunner.sinceTest floor) records).
  { unfold EtlRunner.csvSince. rewrite Hs.
    destruct (Z.eqb_spec floor 0); [contradiction|reflexivity]. }
  rewrite Ea, Ec.
  assert (K : forall r, In r (filter (EtlRunner.sinceTest floor) records)
                        <-> In r records /\ ~ belowFloor floor r).
  { intro r. rewrite filter_In, sinceTest_spec. reflexivity. }
  assert (Z0 : forall r, In r records ->
                ProcessedRecord.tahun r = None \/ ProcessedRecord.tahun r = Some 0 ->
                In r (filter (EtlRunner.sinceTest floor) records)).
  { intros r Hin Hy. apply K. split; [assumption|].
    intros (y & E & Hne & _). destruct Hy as [N|N]; rewrite N in E; [discriminate|].
    injection E as <-. contradiction. }
  split; [exact K|]. split; [exact K|].
  split; [|split; reflexivity].
  intros r Hin Hy. split; apply Z0; assumption.
Qed.

Lemma C9_since_floor_witness :
  EtlRunner.apiSince (EtlRunner.mkOptions (Some 2020) None false)
    [yearOnly None; yearOnly (Some 0); yearOnly (Some 2019); yearOnly (Some 2020)]
  = [yearOnly None; yearOnly (Some 0); yearOnly (Some 2020)].
Proof.
  exact (proj1 (proj2 (proj2 (proj2
           (C9_since_floor (EtlRunner.mkOptions (Some 2020) None false)
              [yearOnly None; yearOnly (Some 0); yearOnly (Some 2019); yearOnly (Some 2020)]
              2020 eq_refl ltac:(lia)))))).
Defined.

(** ** The field extractor (C8) *)

Lemma extractFrom_valueAt (keys : list string) :
  forall v, CsvLoader.extractFrom v keys = Ok (orMissing (valueAt v keys)).
Proof.
  induction keys as [|key rest IH]; intro v; [reflexivity|].
  destruct v as [| |b|n|s|l|props];
    try (cbn [CsvLoader.extractFrom typeofObject valueAt member];
         rewrite andb_false_r; reflexivity);
    try reflexivity.
  - cbn [CsvLoader.extractFrom truthy typeofObject andb hasProperty getProperty
         bind valueAt member].
    destruct (String.eqb key "length"); [apply IH|].
    destruct (arrayIndex key) as [i|]; [|reflexivity].
    cbn [orb]. destruct (i <? Z.of_nat (List.length l)); [apply IH|reflexivity].
  - cbn [CsvLoader.extractFrom truthy typeofObject andb hasProperty getProperty
         bind valueAt member].
    destruct (assoc key props) as [w|]; [apply IH|reflexivity].
Qed.




(** ** Records without an element (C5) *)

Lemma csv_extract_ok (record : value) (path : string) :
  exists v, CsvLoader.extractField record path = Ok v.
Proof. eexists. apply extractFrom_valueAt. Qed.

Lemma blank_element (v : value) :
  missingOrBlank v -> isEmpty (trim (ToString (coalesce v (VString "")))) = true.
Proof.
  intros [->|[->|(s & -> & E)]]; [reflexivity|reflexivity|].
  cbn [coalesce nullish ToString]. now rewrite E.
Qed.

(** C5: a source record whose element field resolves to a missing value, or
    to a string that is empty once trimmed, yields no canonical record: the
    API transform returns the empty list whatever the mapping mode (long,
    wide with any number of matching year columns, or neither) and whatever
    the regular-expression engine, and the file loader's row transform
    returns null, so the row adds nothing to the processed list. *)
Theorem C5_empty_element (record : value) :
  (forall RegExp_new sourceConfig v,
     CKANApiLoader.extractField record
       (Some (ApiSourceConfig.elemen_field (ApiSourceConfig.mapping sourceConfig))) = Ok v ->
     missingOrBlank v ->
     CKANApiLoader.transformRecord RegExp_new record sourceConfig = Ok []
     /\ CKANApiLoader.processRecords RegExp_new [record] sourceConfig = [])
  /\ (forall sourceConfig fileName v,
        CsvLoader.extractField record
          (CsvSourceConfig.elemen_field (CsvSourceConfig.mapping sourceConfig)) = Ok v ->
        missingOrBlank v ->
        CsvLoader.transformRecord record sourceConfig fileName = Ok None
        /\ CsvLoader.processRows [record] sourceConfig fileName = []).
Proof.
  split.
  - intros RegExp_new sourceConfig v Hv Hb.
    assert (T : CKANApiLoader.transformRecord RegExp_new record sourceConfig = Ok []).
    { unfold CKANApiLoader.transformRecord.
      destruct (CKANApiLoader.given _ && CKANApiLoader.given _).
      - rewrite Hv. cbn [bind]. now rewrite (blank_element v Hb).
      - destruct (ApiSourceConfig.year_column_regex _) as [source|]; [|reflexivity].
        destruct (isEmpty source); [reflexivity|].
        rewrite Hv. cbn [bind]. now rewrite (blank_element v Hb). }
    split; [exact T|].
    cbn [CKANApiLoader.processRecords]. now rewrite T.
  - intros sourceConfig fileName v Hv Hb.
    assert (T : CsvLoader.transformRecord record sourceConfig fileName = Ok None).
    { unfold CsvLoader.transformRecord. rewrite Hv.
      destruct (csv_extract_ok record
                  (CsvSourceConfig.tahun_field (CsvSourceConfig.mapping sourceConfig)))
        as [t ->].
      destruct (csv_extract_ok record
                  (CsvSourceConfig.nilai_field (CsvSourceConfig.mapping sourceConfig)))
        as [n ->].
      destruct (csv_extract_ok record
                  (CsvSourceConfig.satuan_field (CsvSourceConfig.mapping sourceConfig)))
        as [u ->].
      cbn [bind].
      destruct Hb as [->|[->|(s & -> & E)]]; [reflexivity|reflexivity|].
      cbn [ToString]. rewrite E. cbn [isEmpty]. now rewrite orb_true_r. }
    split; [exact T|].
    cbn [CsvLoader.processRows]. now rewrite T.
Qed.

Lemma C5_empty_element_witness :
  CKANApiLoader.transformRecord MiniRegExp.RegExp_new emptyElemenRecord longSource = Ok [].
Proof.
  apply (proj1 (C5_empty_element emptyElemenRecord)
           MiniRegExp.RegExp_new longSource (VString "")).
  - reflexivity.
  - right; right. exists "". split; reflexivity.
Defined.

(** ** Falsy cells of a sheet (C10) *)












(** ** The fingerprint (C3) *)

Example sha256_abc :
  helpers.calculateHash "abc"
  = "ba7816bf8f01cfea414140de5dae2223b00361a396177a9cb410ff61f20015ad".
Proof. vm_compute. reflexivity. Qed.

Example sha256_two_blocks :
  helpers.calculateHash "abcdbcdecdefdefgefghfghighijhijkijkljklmklmnlmnomnopnopq"
  = "248d6a61d20638b8e5c026930c3e6039a33ce45964ff2167f6ecedd419db06c1".
Proof. vm_compute. reflexivity. Qed.

(** The fingerprint of the 2019 record of the population example, as
    sha256sum prints it for kependudukan|Jumlah Penduduk|2019|1.2|Orang|abc-123. *)
Example fingerprint_of_wide_example :
  option_map (map ProcessedRecord.hash_key)
    (match CKANApiLoader.transformRecord MiniRegExp.RegExp_new pendudukRecord
             (wideSource "kependudukan" "abc-123") with
     | Ok rows => Some (firstn 1 rows)
     | Throw _ => None
     end)
  = Some ["2401c74a0c2c534399faab39596b1ae51c6a32fb874aaf04d2d330d62723be3c"].
Proof. vm_compute. reflexivity. Qed.

Lemma round_length (s : list Z) (kw : Z * Z) :
  List.length s = 8%nat -> List.length (Sha256.round s kw) = 8%nat.
Proof.
  intro H. do 8 (destruct s as [|? s]; [discriminate H|]).
  destruct s; [reflexivity|discriminate H].
Qed.

Lemma rounds_length (kws : list (Z * Z)) :
  forall s, List.length s = 8%nat -> List.length (fold_left Sha256.round kws s) = 8%nat.
Proof.
  induction kws as [|kw rest IH]; intros s H; [exact H|].
  cbn [fold_left]. apply IH, round_length, H.
Qed.

Lemma compress_length (h block : list Z) :
  List.length h = 8%nat -> List.length (Sha256.compress h block) = 8%nat.
Proof.
  intro H. unfold Sha256.compress.
  rewrite length_map, length_combine, (rounds_length _ h H), H. reflexivity.
Qed.

Lemma digest_length (msg : list Z) : List.length (Sha256.digest msg) = 8%nat.
Proof.
  unfold Sha256.digest.
  generalize (Sha256.blocks (List.length (Sha256.pad msg)) (Sha256.pad msg)).
  assert (H : List.length Sha256.H0 = 8%nat) by reflexivity.
  revert H. generalize Sha256.H0.
  intros h H bs. revert h H.
  induction bs as [|b rest IH]; intros h H; [exact H|].
  cbn [fold_left]. apply IH, compress_length, H.
Qed.

Lemma hexDigit_lower (n : Z) : 0 <= n < 16 -> lowerHex (hexDigit n) = true.
Proof.
  intro H. rewrite <- (Z2Nat.id n) by lia.
  assert (Hk : (Z.to_nat n < 16)%nat) by lia.
  revert Hk. generalize (Z.to_nat n) as k. intros k Hk.
  do 16 (destruct k as [|k]; [reflexivity|]). lia.
Qed.

Lemma length_append (a b : string) :
  String.length (a ++ b) = (String.length a + String.length b)%nat.
Proof. induction a as [|c r IH]; [reflexivity|]. cbn [append String.length]. now rewrite IH. Qed.

Lemma sforall_append (p : ascii -> bool) (a b : string) :
  sforall p (a ++ b) = sforall p a && sforall p b.
Proof.
  induction a as [|c r IH]; [reflexivity|].
  cbn [append sforall]. rewrite IH. apply andb_assoc.
Qed.

Lemma hexWord_format (w : Z) :
  String.length (Sha256.hexWord w) = 8%nat /\ sforall lowerHex (Sha256.hexWord w) = true.
Proof.
  split; [reflexivity|].
  unfold Sha256.hexWord. cbn [map string_of_list_ascii sforall].
  repeat (rewrite hexDigit_lower; [|apply Z.mod_pos_bound; lia]).
  reflexivity.
Qed.

Lemma hex_format (ws : list Z) :
  String.length (Sha256.hex ws) = (8 * List.length ws)%nat
  /\ sforall lowerHex (Sha256.hex ws) = true.
Proof.
  unfold Sha256.hex.
  induction ws as [|w rest [IHl IHf]]; [split; reflexivity|].
  destruct (hexWord_format w) as [Hl Hf].
  destruct rest as [|w' rest'].
  - cbn [map String.concat List.length]. split; [rewrite Hl; reflexivity|exact Hf].
  - change (String.concat "" (map Sha256.hexWord (w :: w' :: rest')))
      with (Sha256.hexWord w ++ "" ++ String.concat "" (map Sha256.hexWord (w' :: rest'))).
    cbn [append]. split.
    + rewrite length_append, Hl, IHl. cbn [List.length]. lia.
    + rewrite sforall_append, Hf, IHf. reflexivity.
Qed.

Lemma calculateHash_format (input : string) :
  String.length (helpers.calculateHash input) = 64%nat
  /\ sforall lowerHex (helpers.calculateHash input) = true.
Proof.
  unfold helpers.calculateHash.
  destruct (hex_format (Sha256.digest (helpers.utf8 input))) as [Hl Hf].
  split; [|exact Hf]. rewrite Hl, digest_length. reflexivity.
Qed.

Lemma wideRows_rows (record : value) (sourceConfig : ApiSourceConfig.t) (yearRe : RegExp)
    (elemen : string) (satuan : option string) (keys : list string) :
  forall rows,
    CKANApiLoader.wideRows record sourceConfig yearRe elemen satuan keys = Ok rows ->
    forall r, In r rows -> apiRow sourceConfig r /\ ProcessedRecord.elemen r = elemen.
Proof.
  induction keys as [|key rest IH]; intros rows H r Hin.
  - injection H as <-. contradiction.
  - cbn [CKANApiLoader.wideRows] in H.
    destruct (yearRe key) as [m|]; [|exact (IH rows H r Hin)].
    destruct (getProperty record key) as [cell|]; [|discriminate H].
    cbn [bind] in H.
    destruct (CKANApiLoader.wideRows record sourceConfig yearRe elemen satuan rest)
      as [more|]; [|discriminate H].
    cbn [bind] in H. injection H as <-.
    destruct Hin as [<-|Hin]; [|exact (IH more eq_refl r Hin)].
    repeat split.
Qed.

Lemma api_rows (RegExp_new : string -> result RegExp) (record : value)
    (sourceConfig : ApiSourceConfig.t) (rows : list ProcessedRecord.t) :
  CKANApiLoader.transformRecord RegExp_new record sourceConfig = Ok rows ->
  forall r, In r rows -> apiRow sourceConfig r.
Proof.
  unfold CKANApiLoader.transformRecord. intros H r Hin.
  destruct (CKANApiLoader.given _ && CKANApiLoader.given _).
  - destruct (CKANApiLoader.extractField record (Some _)) as [found|]; [|discriminate H].
    cbn [bind] in H.
    destruct (isEmpty _); [injection H as <-; contradiction|].
    destruct (CKANApiLoader.extractField record (ApiSourceConfig.tahun_field _));
      [|discriminate H].
    cbn [bind] in H.
    destruct (CKANApiLoader.extractField record (ApiSourceConfig.nilai_field _));
      [|discriminate H].
    cbn [bind] in H.
    destruct (if CKANApiLoader.given _ then _ else _); [|discriminate H].
    cbn [bind] in H. injection H as <-.
    destruct Hin as [<-|[]]. repeat split.
  - destruct (ApiSourceConfig.year_column_regex _) as [source|];
      [|injection H as <-; contradiction].
    destruct (isEmpty source); [injection H as <-; contradiction|].
    destruct (CKANApiLoader.extractField record (Some _)) as [found|]; [|discriminate H].
    cbn [bind] in H.
    destruct (isEmpty _); [injection H as <-; contradiction|].
    destruct (RegExp_new source) as [yearRe|]; [|discriminate H].
    cbn [bind] in H.
    destruct (if CKANApiLoader.given _ then _ else _); [|discriminate H].
    cbn [bind] in H.
    destruct (CKANApiLoader.extractField record (Some "Satuan")); [|discriminate H].
    cbn [bind] in H.
    destruct (Object_keys record) as [keys|]; [|discriminate H].
    cbn [bind] in H.
    exact (proj1 (wideRows_rows _ _ _ _ _ _ rows H r Hin)).
Qed.

Lemma csv_row (record : value) (sourceConfig : CsvSourceConfig.t) (fileName : string)
    (r : ProcessedRecord.t) :
  CsvLoader.transformRecord record sourceConfig fileName = Ok (Some r) ->
  ProcessedRecord.kategori r = CsvSourceConfig.kategori sourceConfig
  /\ ProcessedRecord.source_type r = csv
  /\ ProcessedRecord.source_ref r = fileName
  /\ ProcessedRecord.hash_key r = helpers.calculateHash (fingerprintInput r).
Proof.
  unfold CsvLoader.transformRecord. intro H.
  repeat (match type of H with
          | bind ?c _ = _ => destruct c; [cbn [bind] in H|discriminate H]
          end).
  destruct (negb _ || _); [discriminate H|].
  injection H as <-. repeat split.
Qed.

Lemma emitted_hash (r : ProcessedRecord.t) :
  emitted r -> ProcessedRecord.hash_key r = helpers.calculateHash (fingerprintInput r).
Proof.
  intros [RegExp_new record sourceConfig rows r' H Hin|record sourceConfig fileName r' H].
  - apply (api_rows _ _ _ _ H r' Hin).
  - apply (csv_row _ _ _ _ H).
Qed.

(** C3: the fingerprint of every canonical record is the SHA-256 digest, as 64
    lowercase hexadecimal digits, of the UTF-8 bytes of
    kategori|elemen|tahun|nilai|satuan|source reference, in this order, where
    the source reference is the resource_id for a record of the API loader and
    the file name for a record of the file loader; so two canonical records
    with equal identity fields have equal fingerprints. *)
Theorem C3_fingerprint :
  (forall RegExp_new record sourceConfig rows r,
     CKANApiLoader.transformRecord RegExp_new record sourceConfig = Ok rows ->
     In r rows ->
     ProcessedRecord.source_ref r = ApiSourceConfig.resource_id sourceConfig
     /\ ProcessedRecord.hash_key r
        = Sha256.hex (Sha256.digest (helpers.utf8 (fingerprintInput r))))
  /\ (forall record sourceConfig fileName r,
        CsvLoader.transformRecord record sourceConfig fileName = Ok (Some r) ->
        ProcessedRecord.source_ref r = fileName
        /\ ProcessedRecord.hash_key r
           = Sha256.hex (Sha256.digest (helpers.utf8 (fingerprintInput r))))
  /\ (forall r, emitted r ->
        String.length (ProcessedRecord.hash_key r) = 64%nat
        /\ sforall lowerHex (ProcessedRecord.hash_key r) = true)
  /\ (forall r r', emitted r -> emitted r' ->
        ProcessedRecord.kategori r = ProcessedRecord.kategori r' ->
        ProcessedRecord.elemen r = ProcessedRecord.elemen r' ->
        ProcessedRecord.tahun r = ProcessedRecord.tahun r' ->
        ProcessedRecord.nilai r = ProcessedRecord.nilai r' ->
        ProcessedRecord.satuan r = ProcessedRecord.satuan r' ->
        ProcessedRecord.source_ref r = ProcessedRecord.source_ref r' ->
        ProcessedRecord.hash_key r = ProcessedRecord.hash_key r').
Proof.
  split; [|split; [|split]].
  - intros RegExp_new record sourceConfig rows r H Hin.
    destruct (api_rows _ _ _ _ H r Hin) as (_ & _ & Hr & Hh). split; assumption.
  - intros record sourceConfig fileName r H.
    destruct (csv_row _ _ _ _ H) as (_ & _ & Hr & Hh). split; assumption.
  - intros r He. rewrite (emitted_hash r He). apply calculateHash_format.
  - intros r r' He He' Hk Hel Ht Hn Hs Hr.
    rewrite (emitted_hash r He), (emitted_hash r' He').
    unfold fingerprintInput. now rewrite Hk, Hel, Ht, Hn, Hs, Hr.
Qed.

Lemma C3_fingerprint_witness :
  exists r,
    CsvLoader.transformRecord zeroYearRecord fileSource "penduduk.xlsx" = Ok (Some r)
    /\ ProcessedRecord.source_ref r = "penduduk.xlsx"
    /\ ProcessedRecord.hash_key r
       = Sha256.hex (Sha256.digest (helpers.utf8 (fingerprintInput r))).
Proof.
  eexists. split; [reflexivity|].
  exact (proj1 (proj2 C3_fingerprint) zeroYearRecord fileSource "penduduk.xlsx" _ eq_refl).
Defined.

(** ** The integer parsers (C2) *)

(** The 256 characters, one by one. *)
Ltac ascii_cases c := destruct c as [[] [] [] [] [] [] [] []].

Lemma whitespace_not_kept (c : ascii) : isWhiteSpace c = true -> keepDigitOrMinus c = false.
Proof.
  ascii_cases c; intro H; solve [reflexivity | discriminate H].
Qed.

Lemma kept_not_whitespace (c : ascii) : keepDigitOrMinus c = true -> isWhiteSpace c = false.
Proof.
  intro H. destruct (isWhiteSpace c) eqn:E; [|reflexivity].
  rewrite (whitespace_not_kept c E) in H. discriminate H.
Qed.

Lemma digit_kept (c : ascii) : isDigit c = true -> keepDigitOrMinus c = true.
Proof. intro H. unfold keepDigitOrMinus. now rewrite H. Qed.

Lemma digit_not_sign (c : ascii) :
  isDigit c = true -> Ascii.eqb c "-" = false /\ Ascii.eqb c "+" = false.
Proof.
  ascii_cases c; intro H;
    solve [split; reflexivity | discriminate H].
Qed.

Lemma sforall_srev_append (p : ascii -> bool) (s : string) :
  forall acc, sforall p (srev_append s acc) = sforall p s && sforall p acc.
Proof.
  induction s as [|c r IH]; intro acc; [reflexivity|].
  cbn [srev_append sforall]. rewrite IH. cbn [sforall].
  destruct (p c), (sforall p r); reflexivity.
Qed.

Lemma srev_append_empty (s : string) :
  forall acc, srev_append s acc = "" -> s = "" /\ acc = "".
Proof.
  induction s as [|c r IH]; intros acc H; [split; [reflexivity|exact H]|].
  cbn [srev_append] in H. destruct (IH _ H) as [_ E]. discriminate E.
Qed.

Lemma trimStart_empty (s : string) : trimStart s = "" -> sforall isWhiteSpace s = true.
Proof.
  induction s as [|c r IH]; [reflexivity|].
  cbn [trimStart sforall]. destruct (isWhiteSpace c); [exact IH|discriminate].
Qed.

Lemma trimStart_whitespace (s : string) :
  sforall isWhiteSpace (trimStart s) = true -> sforall isWhiteSpace s = true.
Proof.
  induction s as [|c r IH]; [reflexivity|].
  cbn [trimStart]. destruct (isWhiteSpace c) eqn:E.
  - intro H. cbn [sforall]. now rewrite E, (IH H).
  - exact (fun H => H).
Qed.

(** A string that trims to nothing is made of white space. *)
Lemma trim_empty (s : string) : isEmpty (trim s) = true -> sforall isWhiteSpace s = true.
Proof.
  intro H. apply trimStart_whitespace.
  assert (E : trim s = "") by (destruct (trim s); [reflexivity|discriminate H]).
  unfold trim, trimEnd, srev in E.
  apply srev_append_empty in E as [E _].
  apply trimStart_empty in E.
  rewrite sforall_srev_append in E. apply andb_true_iff in E as [E _]. exact E.
Qed.

Lemma sfilter_whitespace (s : string) :
  sforall isWhiteSpace s = true -> sfilter keepDigitOrMinus s = "".
Proof.
  induction s as [|c r IH]; [reflexivity|].
  cbn [sforall sfilter]. intro H. apply andb_true_iff in H as [Hc Hr].
  now rewrite (whitespace_not_kept c Hc), (IH Hr).
Qed.

Lemma sfilter_all (p : ascii -> bool) (s : string) : sforall p s = true -> sfilter p s = s.
Proof.
  induction s as [|c r IH]; [reflexivity|].
  cbn [sforall sfilter]. intro H. apply andb_true_iff in H as [Hc Hr].
  now rewrite Hc, (IH Hr).
Qed.

Lemma span_all (p : ascii -> bool) (s : string) : sforall p s = true -> span p s = (s, "").
Proof.
  induction s as [|c r IH]; [reflexivity|].
  cbn [sforall span]. intro H. apply andb_true_iff in H as [Hc Hr].
  now rewrite Hc, (IH Hr).
Qed.

Lemma sfilter_kept (p : ascii -> bool) (s : string) : sforall p (sfilter p s) = true.
Proof.
  induction s as [|c r IH]; [reflexivity|].
  cbn [sfilter]. destruct (p c) eqn:E; [|exact IH]. cbn [sforall]. now rewrite E, IH.
Qed.

Lemma parseStripped_cons (c : ascii) (r : string) :
  Ascii.eqb c "-" = false -> parseStripped (String c r) = Some (digitsToZ (String c r)).
Proof.
  ascii_cases c; intro H; solve [reflexivity | discriminate H].
Qed.

Lemma readSign_cons (c : ascii) (r : string) :
  Ascii.eqb c "-" = false -> Ascii.eqb c "+" = false ->
  readSign (String c r) = (false, String c r).
Proof.
  ascii_cases c; intros H H';
    solve [reflexivity | discriminate H | discriminate H'].
Qed.

Lemma sfilter_digit_kept (s : string) :
  sfilter isDigit (sfilter keepDigitOrMinus s) = sfilter isDigit s.
Proof.
  induction s as [|c r IH]; [reflexivity|].
  cbn [sfilter]. destruct (isDigit c) eqn:E.
  - rewrite (digit_kept c E). cbn [sfilter]. now rewrite E, IH.
  - destruct (keepDigitOrMinus c); [|exact IH]. cbn [sfilter]. now rewrite E, IH.
Qed.

Lemma kept_trimStart (s : string) :
  sfilter keepDigitOrMinus (trimStart s) = sfilter keepDigitOrMinus s.
Proof.
  induction s as [|c r IH]; [reflexivity|].
  cbn [trimStart]. destruct (isWhiteSpace c) eqn:E; [|reflexivity].
  cbn [sfilter]. now rewrite (whitespace_not_kept c E).
Qed.

(** The digits of a text are the digits that lead it and those of the rest. *)
Lemma span_digits (s : string) :
  sfilter isDigit s = fst (span isDigit s) ++ sfilter isDigit (snd (span isDigit s)).
Proof.
  induction s as [|c r IH]; [reflexivity|].
  cbn [span]. destruct (isDigit c) eqn:E.
  - destruct (span isDigit r) as [a b]. cbn [fst snd] in IH |- *.
    cbn [sfilter]. rewrite E, IH. reflexivity.
  - reflexivity.
Qed.

Lemma append_empty_r (s : string) : s ++ "" = s.
Proof. induction s as [|c r IH]; [reflexivity|]. cbn. now rewrite IH. Qed.

Lemma stripToInteger_kept (s : string) :
  stripToInteger (sfilter keepDigitOrMinus s) = stripToInteger s.
Proof.
  unfold stripToInteger.
  now rewrite (sfilter_all _ _ (sfilter_kept keepDigitOrMinus s)).
Qed.

Lemma no_digit_span (s : string) : sfilter isDigit s = "" -> fst (span isDigit s) = "".
Proof.
  destruct s as [|c r]; [reflexivity|].
  cbn [sfilter span]. destruct (isDigit c); [discriminate|reflexivity].
Qed.

Lemma no_digit_trimStart (s : string) :
  sfilter isDigit s = "" -> sfilter isDigit (trimStart s) = "".
Proof.
  induction s as [|c r IH]; [reflexivity|].
  cbn [trimStart]. destruct (isWhiteSpace c); [|exact (fun H => H)].
  cbn [sfilter]. destruct (isDigit c); [discriminate|exact IH].
Qed.

Lemma no_digit_readSign (s : string) :
  sfilter isDigit s = "" -> sfilter isDigit (snd (readSign s)) = "".
Proof.
  destruct s as [|c r]; [reflexivity|].
  intro H.
  assert (Hr : sfilter isDigit r = "")
    by (cbn [sfilter] in H; destruct (isDigit c); [discriminate H|exact H]).
  ascii_cases c; solve [exact H | exact Hr].
Qed.

Lemma no_digit_sfilter (p : ascii -> bool) (s : string) :
  sfilter isDigit s = "" -> sfilter isDigit (sfilter p s) = "".
Proof.
  induction s as [|c r IH]; [reflexivity|].
  cbn [sfilter]. destruct (isDigit c) eqn:E; [discriminate|].
  intro H. destruct (p c); [|exact (IH H)]. cbn [sfilter]. rewrite E. exact (IH H).
Qed.

(** A string without a digit has no integer to parse. *)
Lemma parseInt_no_digit (s : string) : sfilter isDigit s = "" -> parseInt s = None.
Proof.
  intro H. unfold parseInt.
  pose proof (no_digit_readSign _ (no_digit_trimStart s H)) as N.
  destruct (readSign (trimStart s)) as [neg t]. cbn [snd] in N.
  apply no_digit_span in N. destruct (span isDigit t) as [ds rest].
  cbn [fst] in N. now rewrite N.
Qed.

Lemma parseStripped_no_digit (s : string) :
  sfilter isDigit s = "" -> parseStripped (stripToInteger s) = None.
Proof.
  intro H. unfold stripToInteger.
  pose proof (no_digit_sfilter keepDigitOrMinus s H) as N.
  destruct (sfilter keepDigitOrMinus s) as [|c r]; [reflexivity|].
  assert (Hr : sfilter isDigit r = "")
    by (cbn [sfilter] in N; destruct (isDigit c); [discriminate N|exact N]).
  assert (Hall : sfilter isDigit (String c r) = "") by exact N.
  ascii_cases c;
    solve [ rewrite Hall; reflexivity | rewrite Hr; reflexivity ].
Qed.

(** C2, as the specification words it for both parsers: strip everything but
    digits and a leading minus sign, then parse.  The API loader strips
    nothing and reads "1,200" as 1; the file loader keeps a minus sign that
    does not lead and reads "12-34" as 12. *)
Lemma C2_parsers_refuted :
  CKANApiLoader.parseIntSafely (VString "1,200") = Some 1
  /\ normalize_int (VString "1,200") = Some 1200
  /\ CsvLoader.parseIntSafely (VString "12-34") = Some 12
  /\ normalize_int (VString "12-34") = Some 1234.
Proof. repeat split. Qed.

(** *** What the normalizer and parseInt read *)

Lemma digits_trimStart (s : string) : sfilter isDigit (trimStart s) = sfilter isDigit s.
Proof.
  induction s as [|c r IH]; [reflexivity|].
  cbn [trimStart]. destruct (isWhiteSpace c) eqn:E; [|reflexivity].
  cbn [sfilter]. pose proof (whitespace_not_kept c E) as N.
  unfold keepDigitOrMinus in N. apply orb_false_iff in N as [N _]. now rewrite N.
Qed.

Lemma digits_readSign (s : string) :
  sfilter isDigit (snd (readSign s)) = sfilter isDigit s.
Proof.
  destruct s as [|c r]; [reflexivity|]. ascii_cases c; reflexivity.
Qed.

Lemma span_forall (p : ascii -> bool) (s : string) : sforall p (fst (span p s)) = true.
Proof.
  induction s as [|c r IH]; [reflexivity|].
  cbn [span]. destruct (p c) eqn:E; [|reflexivity].
  destruct (span p r) as [a b]. cbn [fst sforall] in *. now rewrite E, IH.
Qed.

Lemma span_head (p : ascii -> bool) (s : string) :
  fst (span p s) <> "" -> exists c r, s = String c r /\ p c = true.
Proof.
  destruct s as [|c r]; [intro H; now elim H|].
  cbn [span]. destruct (p c) eqn:E; [|intro H; now elim H].
  intros _. now exists c, r.
Qed.

(** The text that the normalizer parses: a minus sign if it leads what is
    kept, then every digit. *)
Lemma stripToInteger_shape (s : string) :
  stripToInteger s
  = (if startsWithMinus (sfilter keepDigitOrMinus s) then "-" else "")
    ++ sfilter isDigit s.
Proof.
  unfold stripToInteger. rewrite <- (sfilter_digit_kept s).
  destruct (sfilter keepDigitOrMinus s) as [|c k]; [reflexivity|].
  cbn [startsWithMinus]. ascii_cases c; reflexivity.
Qed.

Lemma parseStripped_shape (minus : bool) (ds : string) :
  sforall isDigit ds = true ->
  parseStripped ((if minus then "-" else "") ++ ds)
  = if isEmpty ds then None
    else Some (if minus then - digitsToZ ds else digitsToZ ds).
Proof.
  intro H. destruct minus; [reflexivity|]. cbn [append].
  destruct ds as [|c r]; [reflexivity|].
  cbn [sforall] in H. apply andb_true_iff in H as [Hc _].
  now rewrite (parseStripped_cons c r (proj1 (digit_not_sign c Hc))).
Qed.

(** The sign that parseInt reads before digits is the one that the
    normalizer keeps. *)
Lemma sign_kept (s : string) :
  fst (span isDigit (snd (readSign (trimStart s)))) <> "" ->
  startsWithMinus (sfilter keepDigitOrMinus s) = fst (readSign (trimStart s)).
Proof.
  rewrite <- (kept_trimStart s).
  destruct (trimStart s) as [|c r]; [intro H; now elim H|].
  assert (Head : forall u, fst (span isDigit u) <> "" ->
                 startsWithMinus (sfilter keepDigitOrMinus u) = false).
  { intros u Hu. destruct (span_head isDigit u Hu) as (d & t & -> & Hd).
    cbn [sfilter]. rewrite (digit_kept d Hd). cbn [startsWithMinus].
    exact (proj1 (digit_not_sign d Hd)). }
  destruct (Ascii.eqb c "-") eqn:Em; [|destruct (Ascii.eqb c "+") eqn:Ep].
  - apply Ascii.eqb_eq in Em. subst c. reflexivity.
  - apply Ascii.eqb_eq in Ep. subst c. cbn [readSign fst snd]. intro H.
    change (sfilter keepDigitOrMinus (String "+" r)) with (sfilter keepDigitOrMinus r).
    now apply Head.
  - rewrite (readSign_cons c r Em Ep). cbn [fst snd]. now apply Head.
Qed.

Lemma digitVal_range (c : ascii) : isDigit c = true -> 0 <= digitVal c <= 9.
Proof.
  unfold isDigit, digitVal. intro H. apply andb_true_iff in H as [A B].
  apply Z.leb_le in A. apply Z.leb_le in B. lia.
Qed.

Lemma digitVal_zero (c : ascii) : isDigit c = true -> (digitVal c = 0 <-> isZero c = true).
Proof.
  revert c. intro c. ascii_cases c; intro H;
    solve [discriminate H | split; [intro E; vm_compute in E; discriminate E|discriminate]
          | split; reflexivity].
Qed.

Lemma digitsToZ_from_le (s : string) :
  sforall isDigit s = true -> forall acc, 0 <= acc -> acc <= digitsToZ_from acc s.
Proof.
  induction s as [|c r IH]; intros H acc Ha; [cbn; lia|].
  cbn [sforall] in H. apply andb_true_iff in H as [Hc Hr].
  cbn [digitsToZ_from]. pose proof (digitVal_range c Hc) as D.
  specialize (IH Hr (10 * acc + digitVal c) ltac:(lia)). lia.
Qed.

(** More digits leave the number as it is only if everything is zero. *)
Lemma digitsToZ_from_same (s : string) :
  sforall isDigit s = true ->
  forall acc, 0 <= acc ->
    (digitsToZ_from acc s = acc <-> s = "" \/ (acc = 0 /\ sforall isZero s = true)).
Proof.
  induction s as [|c r IH]; intros H acc Ha; [split; [now left|reflexivity]|].
  cbn [sforall] in H. apply andb_true_iff in H as [Hc Hr].
  cbn [digitsToZ_from]. pose proof (digitVal_range c Hc) as D.
  pose proof (digitsToZ_from_le r Hr (10 * acc + digitVal c) ltac:(lia)) as L.
  split.
  - intro E. right.
    assert (A0 : acc = 0) by lia. assert (D0 : digitVal c = 0) by lia.
    split; [exact A0|]. cbn [sforall].
    rewrite (proj1 (digitVal_zero c Hc) D0). cbn [andb].
    rewrite A0, D0 in E. cbn in E.
    destruct (proj1 (IH Hr 0 ltac:(lia)) E) as [->|[_ Z]]; [reflexivity|exact Z].
  - intros [E|[A0 Z]]; [discriminate E|].
    cbn [sforall] in Z. apply andb_true_iff in Z as [Zc Zr].
    rewrite A0, (proj2 (digitVal_zero c Hc) Zc). cbn.
    apply (IH Hr 0 ltac:(lia)). right. now split.
Qed.

Lemma digitsToZ_from_app (a b : string) :
  forall acc, digitsToZ_from acc (a ++ b) = digitsToZ_from (digitsToZ_from acc a) b.
Proof.
  induction a as [|c r IH]; intro acc; [reflexivity|].
  cbn [append digitsToZ_from]. apply IH.
Qed.

(** The digits read, then more digits: the same number only where no digit
    follows or all are zeros. *)
Lemma digits_same (ds more : string) :
  sforall isDigit ds = true -> sforall isDigit more = true -> ds <> "" ->
  (digitsToZ (ds ++ more) = digitsToZ ds
   <-> isEmpty more || (sforall isZero ds && sforall isZero more) = true).
Proof.
  intros Hd Hm Hne. unfold digitsToZ. rewrite digitsToZ_from_app.
  pose proof (digitsToZ_from_le ds Hd 0 ltac:(lia)) as L.
  rewrite (digitsToZ_from_same more Hm _ L).
  pose proof (digitsToZ_from_same ds Hd 0 ltac:(lia)) as Z.
  split.
  - intros [->|[E Zm]]; [reflexivity|].
    apply orb_true_iff. right. rewrite Zm, andb_true_r.
    destruct (proj1 Z E) as [->|[_ Zd]]; [now elim Hne|exact Zd].
  - intro H. apply orb_true_iff in H as [H|H].
    + left. destruct more; [reflexivity|discriminate H].
    + apply andb_true_iff in H as [Zd Zm]. right. split; [|exact Zm].
      apply Z. right. now split.
Qed.

(** parseInt gives what the normalizer gives exactly on the texts whose
    number it reads in full. *)
Lemma parseInt_in_full (s : string) :
  parseInt s = parseStripped (stripToInteger s) <-> parsedInFull s = true.
Proof.
  rewrite stripToInteger_shape,
    (parseStripped_shape _ _ (sfilter_kept isDigit s)).
  pose proof (sign_kept s) as Sg.
  pose proof (digits_readSign (trimStart s)) as Dg.
  rewrite digits_trimStart in Dg.
  unfold parseInt, parsedInFull.
  destruct (readSign (trimStart s)) as [neg u]. cbn [fst snd] in Sg, Dg.
  pose proof (span_digits u) as Sp. pose proof (span_forall isDigit u) as Fd.
  destruct (span isDigit u) as [ds rest]. cbn [fst snd] in Sg, Sp, Fd.
  rewrite <- Dg, Sp.
  pose proof (sfilter_kept isDigit rest) as Fm.
  destruct ds as [|c r].
  - cbn [append isEmpty negb andb orb]. rewrite orb_false_r.
    destruct (sfilter isDigit rest); cbn [isEmpty]; split; congruence.
  - rewrite (Sg ltac:(discriminate)).
    pose proof (digits_same (String c r) (sfilter isDigit rest) Fd Fm ltac:(discriminate))
      as Same.
    change (isEmpty (String c r)) with false. cbn [negb andb].
    change (isEmpty (String c r ++ sfilter isDigit rest)) with false. cbv iota.
    change (String c (r ++ sfilter isDigit rest)) with (String c r ++ sfilter isDigit rest).
    rewrite <- Same. split.
    + intro E. injection E as E.
      change (String c (r ++ sfilter isDigit rest))
        with (String c r ++ sfilter isDigit rest) in E.
      destruct neg; lia.
    + intro E. now rewrite E.
Qed.

(** C2 (amended): on a value whose conversion to text returns, with at most
    15 digits, the file loader's integer parser gives what "strip all but
    digits and a leading minus sign, then parse" gives exactly when parseInt
    reads in full the number of the text that the replace step leaves: no
    digit follows a minus sign that does not lead, or every digit is a zero
    ("Rp 1.200,-", "5-" and " 2019 " are read as the normalizer reads them,
    "12-34" is not).  The API loader's integer parser strips nothing and
    applies parseInt to the value's string form; it gives what the
    normalizer gives exactly when parseInt reads in full the number of that
    string form.  In both, null, undefined, the empty string and any value
    whose string form holds no digit give null.  (The conversion of an
    object that has an own property toString throws, and the parser with
    it.) *)
Theorem C2_integer_parsers :
  (forall v, stringable v = true -> fewDigits (ToString v) ->
             (CsvLoader.parseIntSafely v = normalize_int v
              <-> parsedInFull (sfilter keepDigitOrMinus (ToString v)) = true))
  /\ (forall v, stringable v = true -> fewDigits (ToString v) ->
                (CKANApiLoader.parseIntSafely v = normalize_int v
                 <-> parsedInFull (ToString v) = true))
  /\ (forall s, s <> "" -> fewDigits s ->
                CKANApiLoader.parseIntSafely (VString s) = parseInt s)
  /\ (forall v, stringable v = true -> sfilter isDigit (ToString v) = "" ->
                CsvLoader.parseIntSafely v = None
                /\ CKANApiLoader.parseIntSafely v = None
                /\ normalize_int v = None)
  /\ (forall v, v = VNull \/ v = VUndefined \/ v = VString "" ->
                CsvLoader.parseIntSafely v = None
                /\ CKANApiLoader.parseIntSafely v = None).
Proof.
  split; [|split; [|split; [|split]]].
  - intros v _ _. unfold CsvLoader.parseIntSafely, normalize_int, CsvLoader.blank.
    destruct v as [| |b|n|s|l|props];
      try (split; reflexivity).
    all: cbn [nullish orb];
      change (fun c => isDigit c || Ascii.eqb c "-") with keepDigitOrMinus;
      rewrite <- stripToInteger_kept;
      match goal with
      | |- context [isEmpty (trim ?t)] =>
          destruct (isEmpty (trim t)) eqn:E;
          [apply trim_empty in E; rewrite (sfilter_whitespace _ E); split; reflexivity
          |apply parseInt_in_full]
      end.
  - intros v _ _. unfold normalize_int.
    pose proof (parseInt_in_full (ToString v)) as P.
    destruct v as [| |b|n|s|l|props]; try (split; reflexivity); try exact P.
    destruct s; [split; reflexivity|exact P].
  - intros s H _. destruct s; [contradiction|reflexivity].
  - intros v _ H. split; [|split].
    + unfold CsvLoader.parseIntSafely. destruct (CsvLoader.blank v); [reflexivity|].
      apply parseInt_no_digit, no_digit_sfilter, H.
    + unfold CKANApiLoader.parseIntSafely.
      pose proof (parseInt_no_digit _ H) as P.
      destruct v as [| |b|n|s|l|props]; try reflexivity; try exact P.
      destruct s; [reflexivity|exact P].
    + unfold normalize_int. destruct (nullish v); [reflexivity|].
      apply parseStripped_no_digit, H.
  - intros v [ -> | [ -> | -> ] ]; split; reflexivity.
Qed.

Lemma C2_integer_parsers_witness :
  (CsvLoader.parseIntSafely (VString "Rp 1.200,-") = Some 1200
   /\ normalize_int (VString "Rp 1.200,-") = Some 1200)
  /\ (CsvLoader.parseIntSafely (VString "5-") = normalize_int (VString "5-"))
  /\ (CsvLoader.parseIntSafely (VString "12-34") <> normalize_int (VString "12-34"))
  /\ (CKANApiLoader.parseIntSafely (VString " -2019 ") = Some (-2019)
      /\ normalize_int (VString " -2019 ") = Some (-2019))
  /\ (CKANApiLoader.parseIntSafely (VNumber (ofZ 2019)) = normalize_int (VNumber (ofZ 2019)))
  /\ (CKANApiLoader.parseIntSafely (VString "1,200") <> normalize_int (VString "1,200"))
  /\ CKANApiLoader.parseIntSafely (VString "12 orang") = parseInt "12 orang"
  /\ CsvLoader.parseIntSafely (VObject [("Tahun", VString "2019")]) = None
  /\ CKANApiLoader.parseIntSafely VNull = None.
Proof.
  assert (F : forall s, (String.length (sfilter isDigit s) <=? 15)%nat = true -> fewDigits s)
    by (intros s H; apply Nat.leb_le, H).
  pose proof (proj1 C2_integer_parsers) as File.
  pose proof (proj1 (proj2 C2_integer_parsers)) as Api.
  split; [|split; [|split; [|split; [|split; [|split; [|split; [|split]]]]]]].
  - split; [reflexivity|].
    rewrite <- (proj2 (File (VString "Rp 1.200,-") eq_refl (F "Rp 1.200,-" eq_refl)) eq_refl).
    reflexivity.
  - exact (proj2 (File (VString "5-") eq_refl (F "5-" eq_refl)) eq_refl).
  - intro E. apply (File (VString "12-34") eq_refl (F "12-34" eq_refl)) in E.
    discriminate E.
  - split; [reflexivity|].
    rewrite <- (proj2 (Api (VString " -2019 ") eq_refl (F " -2019 " eq_refl)) eq_refl).
    reflexivity.
  - exact (proj2 (Api (VNumber (ofZ 2019)) eq_refl (F "2019" eq_refl)) eq_refl).
  - intro E. apply (Api (VString "1,200") eq_refl (F "1,200" eq_refl)) in E.
    discriminate E.
  - apply (proj1 (proj2 (proj2 C2_integer_parsers)) "12 orang");
      [discriminate|apply F; reflexivity].
  - exact (proj1 (proj1 (proj2 (proj2 (proj2 C2_integer_parsers)))
                   (VObject [("Tahun", VString "2019")]) eq_refl eq_refl)).
  - exact (proj2 (proj2 (proj2 (proj2 (proj2 C2_integer_parsers))) VNull (or_introl eq_refl))).
Defined.

(** ** Checkpoint lookup (C7) *)

Lemma head_filter_find {A B : Type} (p : A -> bool) (f : A -> B) (d : B) (l : list A) :
  match filter p l with
  | first :: _ => f first
  | [] => d
  end
  = match find p l with
    | Some first => f first
    | None => d
    end.
Proof.
  induction l as [|x r IH]; [reflexivity|].
  cbn [filter find]. destruct (p x); [reflexivity|exact IH].
Qed.

(** C7, as the specification words it: no error would ever reach the caller.
    Before any connection is established the lookup throws. *)
Lemma C7_not_connected_refuted :
  snd (Database.getCheckpoint noFault notConnected api "r-1")
  = Throw (Error "Database connection not established").
Proof. reflexivity. Qed.

(** C7 (amended): once the connection is established, getCheckpoint never
    throws, whatever the source kind and reference: it returns the
    last_offset of the stored row for them when the lookup succeeds and finds
    one, and 0 when the lookup fails or finds none, and it leaves the tables
    as they were.  Called before a connection is established it throws
    "Database connection not established". *)
Theorem C7_getCheckpoint (fault : nat -> bool) (db : Database.DatabaseManager)
    (sourceType : SourceType) (sourceRef : string) :
  let '(db', out) := Database.getCheckpoint fault db sourceType sourceRef in
  (Database.connection db = true ->
     (exists offset, out = Ok offset)
     /\ (fault (Database.calls db) = true -> out = Ok (Some 0))
     /\ (fault (Database.calls db) = false ->
         forall row,
           find (Database.checkpointFor sourceType sourceRef) (Database.etl_checkpoints db)
           = Some row ->
           out = Ok (Database.last_offset row))
     /\ (fault (Database.calls db) = false ->
         find (Database.checkpointFor sourceType sourceRef) (Database.etl_checkpoints db)
         = None ->
         out = Ok (Some 0)))
  /\ (Database.connection db = false ->
      out = Throw (Error "Database connection not established"))
  /\ Database.etl_checkpoints db' = Database.etl_checkpoints db
  /\ Database.facts_long db' = Database.facts_long db.
Proof.
  unfold Database.getCheckpoint.
  destruct (Database.connection db); cbn [negb].
  - destruct (fault (Database.calls db)).
    + repeat split; try discriminate; eauto.
    + rewrite (head_filter_find _ Database.last_offset (Some 0)).
      split; [|repeat split; discriminate].
      intros _. split; [eauto|]. split; [discriminate|].
      split; intros _.
      * intros row ->. reflexivity.
      * intros ->. reflexivity.
  - repeat split; try discriminate.
Qed.

Lemma C7_getCheckpoint_witness :
  snd (Database.getCheckpoint noFault connected api "r-1") = Ok (Some 200).
Proof.
  pose proof (C7_getCheckpoint noFault connected api "r-1") as H.
  destruct (Database.getCheckpoint noFault connected api "r-1") as [db' out].
  destruct H as [H _].
  exact (proj1 (proj2 (proj2 (H eq_refl))) eq_refl savedCheckpoint eq_refl).
Defined.

(** ** Upsert on an existing fingerprint (C4) *)

Section Upsert.

Variable found_rows : bool.

Lemma sameIdentity_refl (row : Database.FactRow) : sameIdentity row row.
Proof. repeat split. Qed.

Lemma sameIdentity_trans (a b c : Database.FactRow) :
  sameIdentity a b -> sameIdentity b c -> sameIdentity a c.
Proof.
  unfold sameIdentity. intros (A1 & A2 & A3 & A4 & A5 & A6) (B1 & B2 & B3 & B4 & B5 & B6).
  repeat split; congruence.
Qed.

(** One row of the statement keeps the fingerprints in place and appends at
    most the new one. *)
Lemma upsertRow_hashes (now : Z) (new : Database.FactRow) (rows : list Database.FactRow) :
  map Database.hash_key (fst (Database.upsertRow now new rows))
  = if existsb (fun old => String.eqb (Database.hash_key old) (Database.hash_key new)) rows
    then map Database.hash_key rows
    else (map Database.hash_key rows ++ [Database.hash_key new])%list.
Proof.
  induction rows as [|old rest IH]; [reflexivity|].
  cbn [Database.upsertRow existsb].
  destruct (String.eqb (Database.hash_key old) (Database.hash_key new)) eqn:E;
    [reflexivity|].
  cbn [orb].
  destruct (Database.upsertRow now new rest) as [rest' outcome] eqn:U. cbn [fst map] in *.
  rewrite IH. destruct (existsb _ rest); reflexivity.
Qed.

Lemma existsb_hash_false (h : string) (rows : list Database.FactRow) :
  existsb (fun old => String.eqb (Database.hash_key old) h) rows = false ->
  ~ In h (map Database.hash_key rows).
Proof.
  induction rows as [|old rest IH]; [intros _ []|].
  cbn [existsb map In]. intro H. apply orb_false_iff in H as [H1 H2].
  intros [E|Hin]; [|exact (IH H2 Hin)].
  rewrite E, String.eqb_refl in H1. discriminate H1.
Qed.

Lemma upsertRow_unique (now : Z) (new : Database.FactRow) (rows : list Database.FactRow) :
  uniqueHash rows -> uniqueHash (fst (Database.upsertRow now new rows)).
Proof.
  unfold uniqueHash. intro U. rewrite upsertRow_hashes.
  destruct (existsb _ rows) eqn:E; [exact U|].
  apply NoDup_app; [exact U|repeat constructor; intros []|].
  intros h Hin [<-|[]]. exact (existsb_hash_false _ _ E Hin).
Qed.

Lemma upsertRow_identity (now : Z) (new : Database.FactRow) (rows : list Database.FactRow) :
  forall old, In old rows ->
    exists row, In row (fst (Database.upsertRow now new rows)) /\ sameIdentity old row.
Proof.
  induction rows as [|first rest IH]; intros old Hin; [contradiction|].
  cbn [Database.upsertRow].
  destruct (String.eqb (Database.hash_key first) (Database.hash_key new)) eqn:E.
  - cbn [fst]. destruct Hin as [<-|Hin].
    + exists (Database.assignUpdate now new first). split; [now left|repeat split].
    + exists old. split; [now right|apply sameIdentity_refl].
  - destruct (Database.upsertRow now new rest) as [rest' outcome] eqn:U. cbn [fst] in *.
    destruct Hin as [<-|Hin].
    + exists first. split; [now left|apply sameIdentity_refl].
    + destruct (IH old Hin) as (row & Hr & Hs). exists row. split; [now right|exact Hs].
Qed.

Lemma upsertRow_other (now : Z) (new : Database.FactRow) (rows : list Database.FactRow) :
  forall old, In old rows ->
    Database.hash_key old <> Database.hash_key new ->
    In old (fst (Database.upsertRow now new rows)).
Proof.
  induction rows as [|first rest IH]; intros old Hin Hne; [contradiction|].
  cbn [Database.upsertRow].
  destruct (String.eqb_spec (Database.hash_key first) (Database.hash_key new)) as [E|_].
  - cbn [fst]. destruct Hin as [<-|Hin]; [contradiction|now right].
  - specialize (IH old).
    destruct (Database.upsertRow now new rest) as [rest' outcome]. cbn [fst] in *.
    destruct Hin as [<-|Hin]; [now left|right; exact (IH Hin Hne)].
Qed.

(** The whole statement keeps the unique key and the identity of every row,
    and leaves alone the rows whose fingerprint is not in the batch. *)
Lemma statement_invariant (ingested now : Z) (records : list ProcessedRecord.t) :
  forall rows nextId,
    uniqueHash rows ->
    let rows' := fst (fst (Database.insertOnDuplicateKeyUpdate found_rows ingested now
                             records rows nextId)) in
    uniqueHash rows'
    /\ (forall old, In old rows -> exists row, In row rows' /\ sameIdentity old row)
    /\ (forall old, In old rows ->
          ~ In (Database.hash_key old) (map ProcessedRecord.hash_key records) ->
          In old rows').
Proof.
  induction records as [|r more IH]; intros rows nextId U.
  - cbn. split; [exact U|]. split; [|intros old Hin _; exact Hin].
    intros old Hin. exists old. split; [exact Hin|apply sameIdentity_refl].
  - cbn [Database.insertOnDuplicateKeyUpdate].
    pose proof (upsertRow_unique now (Database.valuesRow nextId ingested now r) rows U) as U1.
    pose proof (upsertRow_identity now (Database.valuesRow nextId ingested now r) rows) as I1.
    pose proof (upsertRow_other now (Database.valuesRow nextId ingested now r) rows) as O1.
    destruct (Database.upsertRow now (Database.valuesRow nextId ingested now r) rows)
      as [rows1 outcome].
    cbn [fst] in U1, I1, O1.
    set (nextId1 := match outcome with Database.Inserted => nextId + 1 | _ => nextId end).
    specialize (IH rows1 nextId1 U1).
    destruct (Database.insertOnDuplicateKeyUpdate found_rows ingested now more rows1 nextId1)
      as [[rows2 nextId2] m].
    cbn [fst] in IH |- *. destruct IH as (U2 & I2 & O2).
    split; [exact U2|]. split.
    + intros old Hin. destruct (I1 old Hin) as (row1 & H1 & S1).
      destruct (I2 row1 H1) as (row2 & H2 & S2).
      exists row2. split; [exact H2|exact (sameIdentity_trans _ _ _ S1 S2)].
    + intros old Hin Hnot. cbn [map In] in Hnot. apply O2.
      * apply O1; [exact Hin|]. intro E. apply Hnot. left. symmetry. exact E.
      * intro Hm. apply Hnot. now right.
Qed.

Lemma option_number_eqb_refl (x : option number) : Database.option_eqb number_eqb x x = true.
Proof.
  destruct x as [[|b|m k]|]; cbn; try reflexivity.
  - apply Bool.eqb_reflx.
  - now rewrite Z.eqb_refl, Nat.eqb_refl.
Qed.

Lemma option_string_eqb_refl (x : option string) : Database.option_eqb String.eqb x x = true.
Proof. destruct x; cbn; [apply String.eqb_refl|reflexivity]. Qed.

Lemma SourceType_eqb_refl (x : SourceType) : Database.SourceType_eqb x x = true.
Proof. destruct x; reflexivity. Qed.

(** A write to a stored fingerprint replaces the mutable columns of its row
    and leaves every other row alone. *)
Lemma upsertRow_existing (now : Z) (new : Database.FactRow) (rows : list Database.FactRow) :
  uniqueHash rows ->
  existsb (fun old => String.eqb (Database.hash_key old) (Database.hash_key new)) rows = true ->
  fst (Database.upsertRow now new rows)
  = map (fun old => if String.eqb (Database.hash_key old) (Database.hash_key new)
                    then Database.assignUpdate now new old else old) rows.
Proof.
  unfold uniqueHash.
  induction rows as [|first rest IH]; intros U E; [discriminate E|].
  cbn [Database.upsertRow map]. cbn [existsb] in E. cbn [map] in U.
  apply NoDup_cons_iff in U as [Hnot U].
  destruct (String.eqb (Database.hash_key first) (Database.hash_key new)) eqn:F.
  - cbn [fst]. f_equal. rewrite <- (map_id rest) at 1.
    apply map_ext_in. intros x Hx.
    destruct (String.eqb_spec (Database.hash_key x) (Database.hash_key new)) as [Ex|];
      [|reflexivity].
    exfalso. apply Hnot. apply String.eqb_eq in F. rewrite F, <- Ex.
    now apply in_map.
  - cbn [orb] in E. specialize (IH U E).
    destruct (Database.upsertRow now new rest) as [rest' outcome]. cbn [fst] in *.
    now rewrite IH.
Qed.

Lemma upsertRow_fresh (now : Z) (new : Database.FactRow) (rows : list Database.FactRow) :
  existsb (fun old => String.eqb (Database.hash_key old) (Database.hash_key new)) rows = false ->
  Database.upsertRow now new rows = ((rows ++ [new])%list, Database.Inserted).
Proof.
  induction rows as [|first rest IH]; intro E; [reflexivity|].
  cbn [Database.upsertRow]. cbn [existsb] in E. apply orb_false_iff in E as [F E].
  now rewrite F, (IH E).
Qed.

Lemma upsertRow_carries (newId ingested now : Z) (r : ProcessedRecord.t)
    (rows : list Database.FactRow) :
  carries now r (fst (Database.upsertRow now (Database.valuesRow newId ingested now r) rows)).
Proof.
  assert (Hh : Database.hash_key (Database.valuesRow newId ingested now r)
               = ProcessedRecord.hash_key r) by reflexivity.
  induction rows as [|first rest IH].
  - cbn [Database.upsertRow fst]. eexists. cbn [find]. rewrite Hh, String.eqb_refl.
    repeat split.
  - cbn [Database.upsertRow]. rewrite Hh.
    destruct (String.eqb (Database.hash_key first) (ProcessedRecord.hash_key r)) eqn:F.
    + cbn [fst]. eexists. cbn [find].
      cbn [Database.assignUpdate Database.hash_key]. rewrite F. repeat split.
    + destruct (Database.upsertRow now _ rest) as [rest' outcome]. cbn [fst] in *.
      destruct IH as (row & Hf & Hrest). exists row. cbn [find].
      rewrite F. split; assumption.
Qed.

(** Writing [r] again at [later] changes the row only if the clock moved. *)
Lemma upsertRow_again (newId ingested now later : Z) (r : ProcessedRecord.t)
    (rows : list Database.FactRow) :
  carries now r rows ->
  snd (Database.upsertRow later (Database.valuesRow newId ingested later r) rows)
  = if now =? later then Database.Unchanged else Database.Updated.
Proof.
  assert (Hh : Database.hash_key (Database.valuesRow newId ingested later r)
               = ProcessedRecord.hash_key r) by reflexivity.
  intros (row & Hf & Hn & Hs & Hj & Ht & Hr & Hu).
  induction rows as [|first rest IH]; [discriminate Hf|].
  cbn [find] in Hf. cbn [Database.upsertRow]. rewrite Hh.
  destruct (String.eqb (Database.hash_key first) (ProcessedRecord.hash_key r)) eqn:F.
  - injection Hf as ->. cbn [snd]. unfold Database.unchanged.
    cbn [Database.assignUpdate Database.valuesRow Database.nilai Database.satuan
         Database.raw_json Database.source_type Database.source_ref Database.updated_at].
    rewrite Hn, Hs, Hj, Ht, Hr, Hu.
    rewrite option_number_eqb_refl, option_string_eqb_refl, !String.eqb_refl,
      SourceType_eqb_refl.
    cbn [andb]. reflexivity.
  - specialize (IH Hf).
    destruct (Database.upsertRow later _ rest) as [rest' outcome]. exact IH.
Qed.

Lemma carries_stored (now : Z) (r : ProcessedRecord.t) (rows : list Database.FactRow) :
  carries now r rows ->
  existsb (fun old => String.eqb (Database.hash_key old) (ProcessedRecord.hash_key r)) rows
  = true.
Proof.
  intros (row & Hf & _). induction rows as [|first rest IH]; [discriminate Hf|].
  cbn [find] in Hf. cbn [existsb]. destruct (String.eqb _ _); [reflexivity|exact (IH Hf)].
Qed.

Lemma storedUnder_one (h : string) (rows : list Database.FactRow) :
  uniqueHash rows ->
  existsb (fun old => String.eqb (Database.hash_key old) h) rows = true ->
  List.length (storedUnder h rows) = 1%nat.
Proof.
  unfold uniqueHash, storedUnder.
  induction rows as [|first rest IH]; intros U E; [discriminate E|].
  cbn [map] in U. apply NoDup_cons_iff in U as [Hnot U].
  cbn [existsb] in E. cbn [filter].
  destruct (String.eqb_spec (Database.hash_key first) h) as [F|F].
  - cbn [List.length]. f_equal.
    assert (N : existsb (fun old => String.eqb (Database.hash_key old) h) rest = false).
    { destruct (existsb _ rest) eqn:X; [|reflexivity].
      exfalso. apply Hnot. apply existsb_exists in X as (x & Hx & Ex).
      apply String.eqb_eq in Ex. rewrite F, <- Ex. now apply in_map. }
    clear -N. induction rest as [|x rest IH]; [reflexivity|].
    cbn [existsb] in N. apply orb_false_iff in N as [Nx N].
    cbn [filter]. rewrite Nx. exact (IH N).
  - exact (IH U E).
Qed.

End Upsert.

Lemma stored_existsb (h : string) (rows : list Database.FactRow) :
  In h (map Database.hash_key rows) ->
  existsb (fun old => String.eqb (Database.hash_key old) h) rows = true.
Proof.
  intro Hin. apply in_map_iff in Hin as (row & <- & Hin).
  apply existsb_exists. exists row. split; [exact Hin|apply String.eqb_refl].
Qed.

(** [upsertRecords] on a batch of one record, when the transaction goes
    through. *)
Lemma upsert_one (server_clock client_clock : nat -> Z) (fault : nat -> bool)
    (found_rows : bool) (db : Database.DatabaseManager) (r : ProcessedRecord.t) :
  Database.connection db = true ->
  fault (Database.calls db) = false ->
  let n := Database.calls db in
  let step := Database.upsertRow (server_clock n)
                (Database.valuesRow (Database.next_id db) (client_clock n) (server_clock n) r)
                (Database.facts_long db) in
  let db' := fst (Database.upsertRecords server_clock client_clock fault found_rows db [r]) in
  Database.connection db' = true
  /\ Database.calls db' = S n
  /\ Database.facts_long db' = fst step
  /\ snd (Database.upsertRecords server_clock client_clock fault found_rows db [r])
     = Ok match snd step with
          | Database.Updated => oneUpdated
          | _ => oneInserted
          end.
Proof.
  intros Hc Hf n step db'. subst db'. unfold Database.upsertRecords.
  rewrite Hc, Hf. cbn [negb Database.insertOnDuplicateKeyUpdate].
  fold n. fold step. destruct step as [rows outcome]. cbn [fst snd].
  repeat split.
  destruct outcome; cbn [Database.affected]; try reflexivity.
  destruct found_rows; reflexivity.
Qed.

(** C4, as the specification words it: the second write of a record would
    always be counted as an update.  When both writes fall in the same second
    the stored row is left as it was, and the second write is counted as an
    insert; so is the second of two copies of a record in one batch, whatever
    the clock.  One row is stored all the same. *)
Lemma C4_second_write_counted_as_insert :
  let upsert := Database.upsertRecords stoppedClock stoppedClock noFault false in
  let db1 := fst (upsert emptyStore [sampleRecord]) in
  List.length (Database.facts_long (fst (upsert db1 [sampleRecord]))) = 1%nat
  /\ snd (upsert db1 [sampleRecord]) = Ok oneInserted
  /\ List.length
       (Database.facts_long
          (fst (Database.upsertRecords tickingClock tickingClock noFault false emptyStore
                  [sampleRecord; sampleRecord]))) = 1%nat
  /\ snd (Database.upsertRecords tickingClock tickingClock noFault false emptyStore
            [sampleRecord; sampleRecord])
     = Ok {| Database.inserted := 2; Database.updated := 0;
             Database.skipped := 0; Database.errors := 0 |}.
Proof. repeat split. Qed.

(** C4 (amended): on a connected store with distinct fingerprints, a batch
    that goes through keeps the fingerprints distinct (no second row for a
    fingerprint), keeps id, kategori, elemen, tahun, hash_key and ingested_at
    of every stored row, and leaves alone the rows whose fingerprint is not
    in the batch; writing a record whose fingerprint is
    stored replaces nilai, satuan, raw_json, source_type, source_ref and
    updated_at of that row and nothing else; and writing the same record twice
    leaves exactly one row under its fingerprint, the second write being
    counted as an update when the server's clock has moved between the two
    writes, and as an insert when it has not (the row is then left as it
    was). *)
Theorem C4_upsert_existing (server_clock client_clock : nat -> Z) (fault : nat -> bool)
    (found_rows : bool) (db : Database.DatabaseManager) :
  Database.connection db = true ->
  fault (Database.calls db) = false ->
  uniqueHash (Database.facts_long db) ->
  let upsert := Database.upsertRecords server_clock client_clock fault found_rows in
  (forall records,
     uniqueHash (Database.facts_long (fst (upsert db records)))
     /\ (forall old, In old (Database.facts_long db) ->
           exists row, In row (Database.facts_long (fst (upsert db records)))
                       /\ sameIdentity old row)
     /\ (forall old, In old (Database.facts_long db) ->
           ~ In (Database.hash_key old) (map ProcessedRecord.hash_key records) ->
           In old (Database.facts_long (fst (upsert db records)))))
  /\ (forall r,
        In (ProcessedRecord.hash_key r) (map Database.hash_key (Database.facts_long db)) ->
        Database.facts_long (fst (upsert db [r]))
        = overwriteStored (server_clock (Database.calls db)) r (Database.facts_long db))
  /\ (forall r,
        fault (S (Database.calls db)) = false ->
        let db1 := fst (upsert db [r]) in
        let db2 := fst (upsert db1 [r]) in
        Database.facts_long db2
        = overwriteStored (server_clock (S (Database.calls db))) r (Database.facts_long db1)
        /\ List.length (storedUnder (ProcessedRecord.hash_key r) (Database.facts_long db2))
           = 1%nat
        /\ List.length (Database.facts_long db2) = List.length (Database.facts_long db1)
        /\ snd (upsert db1 [r])
           = Ok (if server_clock (Database.calls db) =? server_clock (S (Database.calls db))
                 then oneInserted else oneUpdated)).
Proof.
  intros Hc Hf U upsert. subst upsert. split; [|split].
  - intro records. unfold Database.upsertRecords. rewrite Hc. cbn [negb].
    destruct records as [|r more].
    + cbn [fst]. split; [exact U|]. split; [|intros old Hin _; exact Hin].
      intros old Hin. exists old. split; [exact Hin|apply sameIdentity_refl].
    + rewrite Hf.
      pose proof (statement_invariant found_rows
                    (client_clock (Database.calls db)) (server_clock (Database.calls db))
                    (r :: more) (Database.facts_long db) (Database.next_id db) U) as I.
      cbv zeta in I.
      destruct (Database.insertOnDuplicateKeyUpdate _ _ _ _ _ _) as [[rows nextId] m].
      cbn [fst Database.facts_long] in *. exact I.
  - intros r Hin.
    destruct (upsert_one server_clock client_clock fault found_rows db r Hc Hf)
      as (_ & _ & -> & _).
    rewrite upsertRow_existing; [reflexivity|exact U|].
    apply stored_existsb. exact Hin.
  - intros r Hf1 db1 db2.
    destruct (upsert_one server_clock client_clock fault found_rows db r Hc Hf)
      as (Hc1 & Hn1 & Hrows1 & _).
    fold db1 in Hc1, Hn1, Hrows1.
    assert (U1 : uniqueHash (Database.facts_long db1))
      by (rewrite Hrows1; apply upsertRow_unique, U).
    assert (C1 : carries (server_clock (Database.calls db)) r (Database.facts_long db1))
      by (rewrite Hrows1; apply upsertRow_carries).
    assert (Hf1' : fault (Database.calls db1) = false) by (rewrite Hn1; exact Hf1).
    destruct (upsert_one server_clock client_clock fault found_rows db1 r Hc1 Hf1')
      as (_ & _ & Hrows2 & Hout).
    fold db2 in Hrows2. rewrite Hn1 in Hrows2, Hout.
    assert (E : Database.facts_long db2
                = overwriteStored (server_clock (S (Database.calls db))) r
                    (Database.facts_long db1)).
    { rewrite Hrows2, upsertRow_existing; [reflexivity|exact U1|].
      exact (carries_stored _ _ _ C1). }
    split; [exact E|]. split; [|split].
    + apply storedUnder_one.
      * rewrite Hrows2. apply upsertRow_unique, U1.
      * apply (carries_stored (server_clock (S (Database.calls db)))).
        rewrite Hrows2. apply upsertRow_carries.
    + rewrite E. unfold overwriteStored. apply length_map.
    + rewrite Hout, (upsertRow_again _ _ _ _ _ _ C1).
      destruct (_ =? _); reflexivity.
Qed.

Lemma C4_upsert_existing_witness :
  snd (Database.upsertRecords tickingClock tickingClock noFault false
         (fst (Database.upsertRecords tickingClock tickingClock noFault false
                 emptyStore [sampleRecord]))
         [sampleRecord])
  = Ok oneUpdated.
Proof.
  exact (proj2 (proj2 (proj2
           (proj2 (proj2 (C4_upsert_existing tickingClock tickingClock noFault false
                            emptyStore eq_refl eq_refl (NoDup_nil _)))
              sampleRecord eq_refl)))).
Defined.

(** ** Chunked upsert (C6) *)

Lemma chunksOf_fuel {A : Type} (size : nat) :
  (0 < size)%nat ->
  forall fuel fuel' (l : list A),
    (List.length l <= fuel)%nat -> (List.length l <= fuel')%nat ->
    chunksOf fuel size l = chunksOf fuel' size l.
Proof.
  intros Hs fuel.
  induction fuel as [|fuel IH]; intros fuel' l Hl Hl'.
  - destruct l; [destruct fuel'; reflexivity|cbn in Hl; lia].
  - destruct l as [|x r]; [destruct fuel'; reflexivity|].
    destruct fuel' as [|fuel']; [cbn in Hl'; lia|].
    cbn [chunksOf]. f_equal.
    assert (Hk : (List.length (skipn size (x :: r)) <= List.length r)%nat).
    { rewrite length_skipn. cbn [List.length]. lia. }
    cbn [List.length] in Hl, Hl'. apply IH; lia.
Qed.

Lemma chunksOf_enough {A : Type} (size fuel : nat) (l : list A) :
  (0 < size)%nat -> (List.length l <= fuel)%nat -> chunksOf fuel size l = chunks size l.
Proof. intros Hs Hl. unfold chunks. apply chunksOf_fuel; [exact Hs|exact Hl|lia]. Qed.

Lemma chunks_cons {A : Type} (size : nat) (x : A) (r : list A) :
  (0 < size)%nat ->
  chunks size (x :: r) = firstn size (x :: r) :: chunks size (skipn size (x :: r)).
Proof.
  intro Hs. unfold chunks at 1. cbn [List.length chunksOf]. f_equal.
  apply chunksOf_enough; [exact Hs|]. rewrite length_skipn. cbn [List.length]. lia.
Qed.

(** The chunks are the batch cut in consecutive pieces, none empty and none
    longer than the size. *)
Lemma chunks_partition {A : Type} (size : nat) :
  (0 < size)%nat ->
  forall l : list A,
    List.concat (chunks size l) = l
    /\ Forall (fun chunk => (0 < List.length chunk <= size)%nat) (chunks size l).
Proof.
  intros Hs l.
  remember (List.length l) as n eqn:Hn.
  revert l Hn. induction n as [n IH] using lt_wf_ind. intros l Hn.
  destruct l as [|x r]; [split; [reflexivity|constructor]|].
  rewrite (chunks_cons size x r Hs). cbn [List.concat].
  destruct (IH (List.length (skipn size (x :: r)))
              ltac:(rewrite Hn, length_skipn; cbn [List.length]; lia)
              (skipn size (x :: r)) eq_refl) as [IHc IHf].
  split.
  - rewrite IHc. apply firstn_skipn.
  - constructor; [|exact IHf].
    rewrite length_firstn. cbn [List.length]. lia.
Qed.

(** [slice] from an index inside the list is the next chunk of what is left. *)
Lemma slice_chunk {A : Type} (l : list A) (i size : Z) :
  0 <= i -> 0 < size ->
  Database.slice l i (i + size) = firstn (Z.to_nat size) (skipn (Z.to_nat i) l).
Proof.
  intros Hi Hs. unfold Database.slice.
  destruct (Z.ltb_spec i 0) as [|_]; [lia|].
  destruct (Z.ltb_spec (i + size) 0) as [|_]; [lia|].
  set (len := Z.of_nat (List.length l)).
  destruct (Z_le_gt_dec i len) as [Hle|Hgt].
  - rewrite (Z.min_l i len Hle).
    destruct (Z_le_gt_dec (i + size) len) as [Hle'|Hgt'].
    + rewrite (Z.min_l _ _ Hle'). f_equal. f_equal. lia.
    + rewrite (Z.min_r (i + size) len) by lia.
      rewrite (firstn_all2 (n := Z.to_nat size)); [apply firstn_all2|];
        rewrite length_skipn; subst len; lia.
  - rewrite (Z.min_r i len) by lia. rewrite (Z.min_r (i + size) len) by lia.
    replace (Z.to_nat (len - len)) with 0%nat by lia. cbn [firstn].
    rewrite (skipn_all2 (n := Z.to_nat i)) by (subst len; lia).
    now rewrite firstn_nil.
Qed.

Lemma addErrors_tally (total : Database.UpsertResult) (e : exn)
    (chunk : list ProcessedRecord.t) :
  Database.addErrors total (Z.of_nat (List.length chunk))
  = Database.addResult total (chunkTally (Throw e) chunk).
Proof.
  unfold Database.addErrors, Database.addResult. cbn [chunkTally Database.inserted
    Database.updated Database.skipped Database.errors].
  now rewrite !Z.add_0_r.
Qed.

(** The loop of [batchUpsertRecords], from an index [i] it can reach. *)
Lemma batchLoop_attempts (server_clock client_clock : nat -> Z) (fault : nat -> bool)
    (found_rows : bool) (records : list ProcessedRecord.t) (batchSize : Z) :
  0 < batchSize ->
  forall fuel db i totalResult,
    0 <= i ->
    (List.length (skipn (Z.to_nat i) records) <= fuel)%nat ->
    Database.batchLoop server_clock client_clock fault found_rows fuel db records
      batchSize i totalResult
    = Some (let '(db', tallies) :=
              attempts server_clock client_clock fault found_rows db
                (chunks (Z.to_nat batchSize) (skipn (Z.to_nat i) records)) in
            (db', sumResults tallies totalResult)).
Proof.
  intros Hs fuel.
  induction fuel as [|fuel IH]; intros db i totalResult Hi Hfuel.
  - assert (E : skipn (Z.to_nat i) records = [])
      by (destruct (skipn (Z.to_nat i) records); [reflexivity|cbn in Hfuel; lia]).
    rewrite E. cbn [Database.batchLoop].
    destruct (Z.ltb_spec i (Z.of_nat (List.length records))) as [Hlt|]; [|reflexivity].
    apply (f_equal (@List.length _)) in E. rewrite length_skipn in E. cbn in E. lia.
  - cbn [Database.batchLoop].
    destruct (Z.ltb_spec i (Z.of_nat (List.length records))) as [Hlt|Hge].
    + rewrite (slice_chunk records i batchSize Hi Hs).
      destruct (skipn (Z.to_nat i) records) as [|x r] eqn:E.
      { apply (f_equal (@List.length _)) in E. rewrite length_skipn in E. cbn in E. lia. }
      rewrite (chunks_cons (Z.to_nat batchSize) x r) by lia.
      cbn [attempts].
      destruct (Database.upsertRecords server_clock client_clock fault found_rows db
                  (firstn (Z.to_nat batchSize) (x :: r))) as [db1 outcome].
      assert (S : skipn (Z.to_nat (i + batchSize)) records
                  = skipn (Z.to_nat batchSize) (x :: r)).
      { rewrite <- E, skipn_skipn. f_equal. lia. }
      rewrite IH; [|lia|].
      * rewrite S.
        destruct (attempts _ _ _ _ db1 _) as [db2 tallies].
        f_equal. f_equal. unfold sumResults. cbn [fold_left].
        destruct outcome as [batchResult|e]; [reflexivity|].
        now rewrite (addErrors_tally totalResult e).
      * rewrite S, length_skipn. cbn [List.length] in Hfuel |- *. lia.
    + rewrite (skipn_all2 (n := Z.to_nat i)) by lia. reflexivity.
Qed.

Lemma attempts_calls (server_clock client_clock : nat -> Z) (fault : nat -> bool)
    (found_rows : bool) (cs : list (list ProcessedRecord.t)) :
  Forall (fun chunk => (0 < List.length chunk)%nat) cs ->
  forall db,
    Database.connection db = true ->
    Database.calls (fst (attempts server_clock client_clock fault found_rows db cs))
    = (Database.calls db + List.length cs)%nat.
Proof.
  induction 1 as [|chunk rest Hc _ IH]; intros db Hconn; [cbn; lia|].
  cbn [attempts].
  assert (U : let step := Database.upsertRecords server_clock client_clock fault
                            found_rows db chunk in
              Database.connection (fst step) = true
              /\ Database.calls (fst step) = S (Database.calls db)).
  { unfold Database.upsertRecords. rewrite Hconn. cbn [negb].
    destruct chunk as [|x r]; [cbn in Hc; lia|].
    destruct (fault (Database.calls db)); [split; reflexivity|].
    destruct (Database.insertOnDuplicateKeyUpdate _ _ _ _ _ _) as [[rows nextId] m].
    split; reflexivity. }
  cbv zeta in U.
  destruct (Database.upsertRecords _ _ _ _ db chunk) as [db1 outcome].
  cbn [fst] in U. destruct U as [Hconn1 Hcalls1].
  specialize (IH db1 Hconn1).
  destruct (attempts _ _ _ _ db1 rest) as [db2 tallies]. cbn [fst] in *.
  rewrite IH, Hcalls1. cbn [List.length]. lia.
Qed.

(** C6, as the specification words it: for every chunk size.  With a chunk
    size of 0 the index never advances, and the loop over a batch that is not
    empty does not end: no amount of fuel gives a result. *)
Lemma C6_chunk_size_zero_refuted :
  ~ exists fuel out,
      Database.batchUpsertRecords tickingClock tickingClock noFault false fuel
        emptyStore [sampleRecord] (Some 0) = Some out.
Proof.
  intros (fuel & out & H). unfold Database.batchUpsertRecords in H.
  revert H. generalize Database.zero. generalize emptyStore.
  induction fuel as [|fuel IH]; intros db total H; [discriminate H|].
  cbn [Database.batchLoop] in H.
  change (0 <? Z.of_nat (List.length [sampleRecord])) with true in H. cbv iota in H.
  destruct (Database.upsertRecords _ _ _ _ db _) as [db' outcome].
  change (0 + 0) with 0 in H. exact (IH _ _ H).
Qed.

(** C6 (amended): for every batch and every chunk size greater than 0
    (1000 when none is given), the batch upsert cuts the batch into
    consecutive chunks of at most that many records, none empty, and attempts
    every one of them in order, each on the store its predecessors left; a
    chunk whose transaction fails counts all of its records as errors and the
    following chunks are attempted all the same; the tally returned is the sum
    of the results of the chunks.  The loop ends: a fuel of the batch's length
    is enough. *)
Theorem C6_batch_upsert (server_clock client_clock : nat -> Z) (fault : nat -> bool)
    (found_rows : bool) (db : Database.DatabaseManager)
    (records : list ProcessedRecord.t) (batchSize : Z) (fuel : nat) :
  0 < batchSize ->
  (List.length records <= fuel)%nat ->
  let cs := chunks (Z.to_nat batchSize) records in
  let run := attempts server_clock client_clock fault found_rows db cs in
  Database.batchUpsertRecords server_clock client_clock fault found_rows fuel db records
    (Some batchSize)
  = Some (fst run, sumResults (snd run) Database.zero)
  /\ List.concat cs = records
  /\ Forall (fun chunk => 0 < Z.of_nat (List.length chunk) <= batchSize) cs
  /\ List.length (snd run) = List.length cs
  /\ (Database.connection db = true ->
      Database.calls (fst run) = (Database.calls db + List.length cs)%nat)
  /\ Database.batchUpsertRecords server_clock client_clock fault found_rows fuel db records
       None
     = Database.batchUpsertRecords server_clock client_clock fault found_rows fuel db records
         (Some 1000).
Proof.
  intros Hs Hfuel cs run.
  destruct (chunks_partition (Z.to_nat batchSize) ltac:(lia) records) as [Hc Hf].
  assert (B : Database.batchUpsertRecords server_clock client_clock fault found_rows fuel db
                records (Some batchSize)
              = Some (fst run, sumResults (snd run) Database.zero)).
  { unfold Database.batchUpsertRecords.
    rewrite (batchLoop_attempts server_clock client_clock fault found_rows records
               batchSize Hs fuel db 0 Database.zero (Z.le_refl 0)) by exact Hfuel.
    change (skipn (Z.to_nat 0) records) with records. fold cs. fold run.
    destruct run; reflexivity. }
  split; [exact B|]. split; [exact Hc|]. split; [|split; [|split]].
  - eapply Forall_impl; [|exact Hf]. cbv beta. intros chunk H. lia.
  - subst run. clear. revert db. induction cs as [|chunk rest IH]; intro db; [reflexivity|].
    cbn [attempts].
    destruct (Database.upsertRecords _ _ _ _ db chunk) as [db1 outcome].
    specialize (IH db1). destruct (attempts _ _ _ _ db1 rest) as [db2 tallies].
    cbn [snd List.length] in *. now rewrite IH.
  - intro Hconn. apply attempts_calls; [|exact Hconn].
    eapply Forall_impl; [|exact Hf]. cbv beta. intros chunk H. lia.
  - reflexivity.
Qed.

Lemma C6_batch_upsert_witness :
  Database.batchUpsertRecords tickingClock tickingClock secondFails false 5 emptyStore
    fiveRecords (Some 2)
  = Some (fst (attempts tickingClock tickingClock secondFails false emptyStore
                 (chunks 2 fiveRecords)),
          {| Database.inserted := 3; Database.updated := 0;
             Database.skipped := 0; Database.errors := 2 |}).
Proof.
  exact (proj1 (C6_batch_upsert tickingClock tickingClock secondFails false emptyStore
                  fiveRecords 2 5 eq_refl (le_n 5))).
Defined.

(** * Further properties of the code *)

(** ** Trimming *)

Lemma append_assoc (a b c : string) : (a ++ b) ++ c = a ++ (b ++ c).
Proof. induction a as [|x r IH]; [reflexivity|]. cbn [append]. now rewrite IH. Qed.

Lemma srev_append_app (s : string) : forall acc, srev_append s acc = srev s ++ acc.
Proof.
  unfold srev. induction s as [|c r IH]; intro acc; [reflexivity|].
  cbn [srev_append]. rewrite (IH (String c acc)), (IH (String c "")).
  rewrite append_assoc. reflexivity.
Qed.

Lemma srev_cons (c : ascii) (r : string) : srev (String c r) = srev r ++ String c "".
Proof. unfold srev at 1. cbn [srev_append]. apply srev_append_app. Qed.

Lemma srev_app (a b : string) : srev (a ++ b) = srev b ++ srev a.
Proof.
  induction a as [|c r IH]; [cbn [append]; now rewrite append_empty_r|].
  cbn [append]. rewrite !srev_cons, IH, append_assoc. reflexivity.
Qed.

Lemma srev_involutive (s : string) : srev (srev s) = s.
Proof.
  induction s as [|c r IH]; [reflexivity|].
  rewrite srev_cons, srev_app, IH. reflexivity.
Qed.

Lemma trimStart_idempotent (s : string) : trimStart (trimStart s) = trimStart s.
Proof.
  induction s as [|c r IH]; [reflexivity|].
  cbn [trimStart]. destruct (isWhiteSpace c) eqn:E; [exact IH|].
  cbn [trimStart]. now rewrite E.
Qed.

Lemma trimStart_snoc (a : string) (c : ascii) :
  isWhiteSpace c = false -> trimStart (a ++ String c "") = trimStart a ++ String c "".
Proof.
  intro Hc. induction a as [|x r IH]; cbn [append trimStart]; [now rewrite Hc|].
  destruct (isWhiteSpace x); [exact IH|reflexivity].
Qed.

Lemma trimEnd_cons (c : ascii) (r : string) :
  isWhiteSpace c = false -> trimEnd (String c r) = String c (trimEnd r).
Proof.
  intro Hc. unfold trimEnd.
  rewrite srev_cons, (trimStart_snoc _ c Hc), srev_app. reflexivity.
Qed.

Lemma trimEnd_idempotent (s : string) : trimEnd (trimEnd s) = trimEnd s.
Proof. unfold trimEnd. now rewrite srev_involutive, trimStart_idempotent. Qed.

Lemma trimStart_trimEnd (s : string) : trimStart s = s -> trimStart (trimEnd s) = trimEnd s.
Proof.
  destruct s as [|c r]; [reflexivity|].
  cbn [trimStart]. destruct (isWhiteSpace c) eqn:E.
  - intro H. exfalso.
    assert (L : (String.length (trimStart r) <= String.length r)%nat).
    { clear. induction r as [|x t IH]; [cbn; lia|].
      cbn [trimStart]. destruct (isWhiteSpace x); cbn [String.length]; lia. }
    rewrite H in L. cbn [String.length] in L. lia.
  - intros _. rewrite (trimEnd_cons c r E). cbn [trimStart]. now rewrite E.
Qed.

Lemma trim_idempotent (s : string) : trim (trim s) = trim s.
Proof.
  unfold trim.
  rewrite (trimStart_trimEnd (trimStart s) (trimStart_idempotent s)).
  apply trimEnd_idempotent.
Qed.

Lemma not_empty (s : string) : isEmpty s = false -> s <> "".
Proof. destruct s; [discriminate|discriminate]. Qed.

Lemma trim_cleanText (s : string) : isEmpty (trim s) = false -> cleanText (trim s).
Proof. intro H. split; [exact (not_empty _ H)|apply trim_idempotent]. Qed.

(** ** What every canonical record satisfies *)

Lemma csv_cleanSatuan_clean (v : value) (u : string) :
  CsvLoader.cleanSatuan v = Some u -> cleanText u.
Proof.
  unfold CsvLoader.cleanSatuan. destruct (truthy v); [|discriminate].
  cbn [andb]. destruct (isEmpty (trim (ToString v))) eqn:E; [discriminate|].
  cbn [negb]. intro H. injection H as <-. exact (trim_cleanText _ E).
Qed.

Lemma api_cleanSatuan_clean (v : value) (u : string) :
  CKANApiLoader.cleanSatuan v = Some u -> cleanText u.
Proof.
  unfold CKANApiLoader.cleanSatuan. destruct (nullish v); [discriminate|].
  cbn [negb andb]. destruct (isEmpty (trim (ToString v))) eqn:E; [discriminate|].
  cbn [negb]. intro H. injection H as <-. exact (trim_cleanText _ E).
Qed.

Lemma nanToNull_number (n x : number) : nanToNull n = Some x -> x <> NaN.
Proof.
  unfold nanToNull. destruct n; cbn [isNaN]; [discriminate| |];
    intro H; injection H as <-; discriminate.
Qed.

Lemma csv_parseFloat_number (v : value) : CsvLoader.parseFloatSafely v <> Some NaN.
Proof.
  unfold CsvLoader.parseFloatSafely. destruct (CsvLoader.blank v); [discriminate|].
  intro H. exact (nanToNull_number _ _ H eq_refl).
Qed.

Lemma api_parseFloat_number (v : value) : CKANApiLoader.parseFloatSafely v <> Some NaN.
Proof.
  unfold CKANApiLoader.parseFloatSafely. intro H.
  destruct v as [| |b|n|s|l|props]; try discriminate H;
    try exact (nanToNull_number _ _ H eq_refl).
  destruct s; [discriminate H|exact (nanToNull_number _ _ H eq_refl)].
Qed.

(** What the API transform fixes in the text and the value of a record. *)
Lemma wideRows_text (record : value) (sourceConfig : ApiSourceConfig.t) (yearRe : RegExp)
    (elemen : string) (satuan : option string) (keys : list string) :
  forall rows,
    CKANApiLoader.wideRows record sourceConfig yearRe elemen satuan keys = Ok rows ->
    forall r, In r rows ->
      ProcessedRecord.elemen r = elemen
      /\ ProcessedRecord.satuan r = satuan
      /\ ProcessedRecord.nilai r <> Some NaN.
Proof.
  induction keys as [|key rest IH]; intros rows H r Hin.
  - injection H as <-. contradiction.
  - cbn [CKANApiLoader.wideRows] in H.
    destruct (yearRe key) as [m|]; [|exact (IH rows H r Hin)].
    destruct (getProperty record key) as [cell|]; [|discriminate H].
    cbn [bind] in H.
    destruct (CKANApiLoader.wideRows record sourceConfig yearRe elemen satuan rest)
      as [more|]; [|discriminate H].
    cbn [bind] in H. injection H as <-.
    destruct Hin as [<-|Hin]; [|exact (IH more eq_refl r Hin)].
    repeat split. apply api_parseFloat_number.
Qed.

Lemma api_text (RegExp_new : string -> result RegExp) (record : value)
    (sourceConfig : ApiSourceConfig.t) (rows : list ProcessedRecord.t) :
  CKANApiLoader.transformRecord RegExp_new record sourceConfig = Ok rows ->
  forall r, In r rows ->
    cleanText (ProcessedRecord.elemen r)
    /\ (forall u, ProcessedRecord.satuan r = Some u -> cleanText u)
    /\ ProcessedRecord.nilai r <> Some NaN.
Proof.
  unfold CKANApiLoader.transformRecord. intros H r Hin.
  destruct (CKANApiLoader.given _ && CKANApiLoader.given _).
  - destruct (CKANApiLoader.extractField record (Some _)) as [found|]; [|discriminate H].
    cbn [bind] in H.
    destruct (isEmpty _) eqn:E; [injection H as <-; contradiction|].
    destruct (CKANApiLoader.extractField record (ApiSourceConfig.tahun_field _));
      [|discriminate H].
    cbn [bind] in H.
    destruct (CKANApiLoader.extractField record (ApiSourceConfig.nilai_field _));
      [|discriminate H].
    cbn [bind] in H.
    destruct (if CKANApiLoader.given _ then _ else _) as [satuanRaw|]; [|discriminate H].
    cbn [bind] in H. injection H as <-.
    destruct Hin as [<-|[]]. cbn [ProcessedRecord.elemen ProcessedRecord.satuan
                                   ProcessedRecord.nilai].
    split; [exact (trim_cleanText _ E)|]. split.
    + intros u. apply api_cleanSatuan_clean.
    + apply api_parseFloat_number.
  - destruct (ApiSourceConfig.year_column_regex _) as [source|];
      [|injection H as <-; contradiction].
    destruct (isEmpty source); [injection H as <-; contradiction|].
    destruct (CKANApiLoader.extractField record (Some _)) as [found|]; [|discriminate H].
    cbn [bind] in H.
    destruct (isEmpty _) eqn:E; [injection H as <-; contradiction|].
    destruct (RegExp_new source) as [yearRe|]; [|discriminate H].
    cbn [bind] in H.
    destruct (if CKANApiLoader.given _ then _ else _) as [unitFromMap|]; [|discriminate H].
    cbn [bind] in H.
    destruct (CKANApiLoader.extractField record (Some "Satuan")) as [unitFallback|];
      [|discriminate H].
    cbn [bind] in H.
    destruct (Object_keys record) as [keys|]; [|discriminate H].
    cbn [bind] in H.
    destruct (wideRows_text _ _ _ _ _ _ rows H r Hin) as (He & Hs & Hn).
    rewrite He, Hs. split; [exact (trim_cleanText _ E)|]. split; [|exact Hn].
    intros u. apply api_cleanSatuan_clean.
Qed.

Lemma csv_text (record : value) (sourceConfig : CsvSourceConfig.t) (fileName : string)
    (r : ProcessedRecord.t) :
  CsvLoader.transformRecord record sourceConfig fileName = Ok (Some r) ->
  cleanText (ProcessedRecord.elemen r)
  /\ (forall u, ProcessedRecord.satuan r = Some u -> cleanText u)
  /\ ProcessedRecord.nilai r <> Some NaN.
Proof.
  unfold CsvLoader.transformRecord. intro H.
  repeat (match type of H with
          | bind ?c _ = _ => destruct c; [cbn [bind] in H|discriminate H]
          end).
  destruct (negb _ || _) eqn:G; [discriminate H|].
  apply orb_false_iff in G as [_ E].
  injection H as <-.
  cbn [ProcessedRecord.elemen ProcessedRecord.satuan ProcessedRecord.nilai].
  split; [exact (trim_cleanText _ E)|]. split.
  - intros u. apply csv_cleanSatuan_clean.
  - destruct (truthy _); [apply csv_parseFloat_number|discriminate].
Qed.

(** X1: in every canonical record, of either loader, the element is not empty
    and has no white space at either end, the unit is null or such a text,
    and the value is null or a number, never NaN. *)
Theorem canonical_record_text (r : ProcessedRecord.t) :
  emitted r ->
  cleanText (ProcessedRecord.elemen r)
  /\ (forall u, ProcessedRecord.satuan r = Some u -> cleanText u)
  /\ ProcessedRecord.nilai r <> Some NaN.
Proof.
  intros [RegExp_new record sourceConfig rows r' H Hin|record sourceConfig fileName r' H].
  - exact (api_text _ _ _ _ H r' Hin).
  - exact (csv_text _ _ _ _ H).
Qed.

Lemma canonical_record_text_witness :
  exists r,
    CsvLoader.transformRecord zeroYearRecord fileSource "penduduk.xlsx" = Ok (Some r)
    /\ cleanText (ProcessedRecord.elemen r).
Proof.
  eexists. split; [reflexivity|].
  exact (proj1 (canonical_record_text _
                  (emitted_csv zeroYearRecord fileSource "penduduk.xlsx" _ eq_refl))).
Defined.

(** ** The float parsers *)

Lemma normalize_finite (k : nat) : forall m, finite (normalize m k).
Proof.
  induction k as [|k IH]; intro m; cbn [normalize]; [now exists m, 0%nat|].
  destruct (m mod 10 =? 0); [apply IH|now exists m, (S k)].
Qed.

Lemma scale10_finite (m e : Z) : finite (scale10 m e).
Proof.
  unfold scale10. destruct (0 <=? e); [now eexists _, 0%nat|apply normalize_finite].
Qed.

Lemma sforall_trimStart (p : ascii -> bool) (s : string) :
  sforall p s = true -> sforall p (trimStart s) = true.
Proof.
  induction s as [|c r IH]; [reflexivity|].
  cbn [trimStart]. destruct (isWhiteSpace c); [|exact (fun H => H)].
  cbn [sforall]. intro H. apply andb_true_iff in H as [_ H]. exact (IH H).
Qed.

Lemma sforall_readSign (p : ascii -> bool) (s : string) :
  sforall p s = true -> sforall p (snd (readSign s)) = true.
Proof.
  destruct s as [|c r]; [reflexivity|].
  intro H.
  assert (Hr : sforall p r = true)
    by (cbn [sforall] in H; apply andb_true_iff in H as [_ Hr]; exact Hr).
  ascii_cases c; solve [exact H | exact Hr].
Qed.

Lemma sforall_sfilter (p q : ascii -> bool) (s : string) :
  sforall p s = true -> sforall p (sfilter q s) = true.
Proof.
  induction s as [|c r IH]; [reflexivity|].
  cbn [sforall sfilter]. intro H. apply andb_true_iff in H as [Hc Hr].
  destruct (q c); [cbn [sforall]; now rewrite Hc, (IH Hr)|exact (IH Hr)].
Qed.

Lemma not_Infinity (s : string) :
  sforall keptForFloat s = true -> String.prefix "Infinity" s = false.
Proof.
  destruct s as [|c r]; [reflexivity|].
  cbn [sforall]. intro H. apply andb_true_iff in H as [Hc _].
  ascii_cases c; solve [reflexivity | discriminate Hc].
Qed.

(** parseFloat on digits, dots, commas and minus signs: no infinity. *)
Lemma parseFloat_kept (s : string) :
  sforall keptForFloat s = true -> parseFloat s = NaN \/ finite (parseFloat s).
Proof.
  intro H. unfold parseFloat.
  pose proof (sforall_readSign _ _ (sforall_trimStart _ _ H)) as K.
  destruct (readSign (trimStart s)) as [neg t]. cbn [snd] in K.
  rewrite (not_Infinity t K).
  destruct (span isDigit t) as [ip r1].
  destruct (match r1 with String "." u => span isDigit u | _ => (EmptyString, r1) end)
    as [fp r2].
  destruct (isEmpty ip && isEmpty fp); [now left|right; apply scale10_finite].
Qed.

(** X2: the value of a record of the file loader is null or a finite number:
    on a value whose conversion to text returns and holds at most 308 digits,
    the file loader's float parser yields neither NaN nor an infinity (the
    replace step leaves no exponent and no name of an infinity to read, and a
    number below 10^308 is within the range of the engine's numbers). *)
Theorem file_value_finite (v : value) (n : number) :
  stringable v = true ->
  (String.length (sfilter isDigit (ToString v)) <= 308)%nat ->
  CsvLoader.parseFloatSafely v = Some n -> finite n.
Proof.
  intros _ _.
  unfold CsvLoader.parseFloatSafely. destruct (CsvLoader.blank v); [discriminate|].
  set (cleaned := sfilter _ (sfilter _ (ToString v))).
  assert (K : sforall keptForFloat cleaned = true)
    by (apply sforall_sfilter; apply (sfilter_kept keptForFloat)).
  destruct (parseFloat_kept cleaned K) as [E|F].
  - rewrite E. discriminate.
  - destruct F as (m & k & E). rewrite E. cbn. intro H. injection H as <-.
    now exists m, k.
Qed.

Lemma file_value_finite_witness : finite (Fin 12345 4).
Proof.
  exact (file_value_finite (VString "Rp 1.234,50") (Fin 12345 4) eq_refl
           ltac:(apply Nat.leb_le; reflexivity) eq_refl).
Defined.

Lemma whitespace_no_digit (s : string) :
  sforall isWhiteSpace s = true -> sfilter isDigit s = "".
Proof.
  induction s as [|c r IH]; [reflexivity|].
  cbn [sforall sfilter]. intro E. apply andb_true_iff in E as [Ec Er].
  pose proof (whitespace_not_kept c Ec) as N.
  unfold keepDigitOrMinus in N. apply orb_false_iff in N as [N _].
  rewrite N. exact (IH Er).
Qed.

Lemma digits_not_blank (s : string) :
  sfilter isDigit s <> "" -> isEmpty (trim s) = false.
Proof.
  intro H. destruct (isEmpty (trim s)) eqn:E; [|reflexivity].
  exfalso. apply H. apply whitespace_no_digit, trim_empty, E.
Qed.

Lemma digitOrComma_cleaned (s : string) :
  sforall digitOrComma s = true ->
  sfilter (fun c => negb (Ascii.eqb c ","))
    (sfilter (fun c => isDigit c || Ascii.eqb c "." || Ascii.eqb c "," || Ascii.eqb c "-") s)
  = sfilter isDigit s
  /\ sfilter (fun c => negb (Ascii.eqb c ",")) s = sfilter isDigit s.
Proof.
  induction s as [|c r IH]; [split; reflexivity|].
  cbn [sforall]. intro H. apply andb_true_iff in H as [Hc Hr].
  destruct (IH Hr) as [IH1 IH2]. cbn [sfilter].
  unfold digitOrComma in Hc.
  destruct (isDigit c) eqn:D.
  - destruct (digit_not_sign c D) as [_ _].
    assert (Hcm : Ascii.eqb c "," = false) by (ascii_cases c; solve [reflexivity | discriminate D]).
    cbn [orb sfilter]. rewrite Hcm. cbn [negb]. now rewrite IH1, IH2.
  - cbn [orb] in Hc. rewrite Hc. rewrite orb_true_r. cbn [orb sfilter negb].
    rewrite Hc. cbn [negb]. split; assumption.
Qed.

(** parseFloat on a run of digits is the integer they spell. *)
Lemma parseFloat_digits (ds : string) :
  sforall isDigit ds = true -> ds <> "" -> parseFloat ds = Fin (digitsToZ ds) 0.
Proof.
  intros H Hne. destruct ds as [|c r]; [contradiction|].
  assert (Hc : isDigit c = true)
    by (cbn [sforall] in H; apply andb_true_iff in H as [Hc _]; exact Hc).
  destruct (digit_not_sign c Hc) as [Hm Hp].
  unfold parseFloat. cbn [trimStart].
  rewrite (kept_not_whitespace c (digit_kept c Hc)), (readSign_cons c r Hm Hp).
  assert (NI : String.prefix "Infinity" (String c r) = false)
    by (ascii_cases c; solve [reflexivity | discriminate Hc]).
  rewrite NI, (span_all isDigit _ H). cbn [isEmpty andb].
  rewrite append_empty_r. change (slen "") with 0. cbn [readExponent].
  unfold scale10. cbn. now rewrite Z.mul_1_r.
Qed.

(** X3: both float parsers read commas as thousands separators: a text made
    of digits and commas, with at least one digit and at most 15, gives the
    integer that its digits spell. *)
Theorem float_thousands_separators (s : string) :
  sforall digitOrComma s = true ->
  sfilter isDigit s <> "" ->
  fewDigits s ->
  CsvLoader.parseFloatSafely (VString s) = Some (Fin (digitsToZ (sfilter isDigit s)) 0)
  /\ CKANApiLoader.parseFloatSafely (VString s)
     = Some (Fin (digitsToZ (sfilter isDigit s)) 0).
Proof.
  intros H Hd _. destruct (digitOrComma_cleaned s H) as [E1 E2].
  pose proof (parseFloat_digits _ (sfilter_kept isDigit s) Hd) as P.
  split.
  - unfold CsvLoader.parseFloatSafely, CsvLoader.blank.
    cbn [nullish ToString orb]. rewrite (digits_not_blank s Hd), E1, P. reflexivity.
  - unfold CKANApiLoader.parseFloatSafely. cbn [ToString]. rewrite E2, P.
    destruct s; [contradiction Hd; reflexivity|reflexivity].
Qed.

Lemma float_thousands_separators_witness :
  CsvLoader.parseFloatSafely (VString "1,234,567") = Some (Fin 1234567 0)
  /\ CKANApiLoader.parseFloatSafely (VString "1,234,567") = Some (Fin 1234567 0).
Proof.
  exact (float_thousands_separators "1,234,567" eq_refl ltac:(discriminate)
           ltac:(apply Nat.leb_le; reflexivity)).
Defined.

(** ** The structure check of the file loader *)

Lemma existsFrom_valueAt (keys : list string) :
  forall v, CsvValidation.existsFrom v keys
            = Ok (match valueAt v keys with Some _ => true | None => false end).
Proof.
  induction keys as [|key rest IH]; intro v; [reflexivity|].
  destruct v as [| |b|n|s|l|props];
    try (cbn [CsvValidation.existsFrom typeofObject valueAt member];
         rewrite andb_false_r; reflexivity);
    try reflexivity.
  - cbn [CsvValidation.existsFrom truthy typeofObject andb hasProperty getProperty
         bind valueAt member].
    destruct (String.eqb key "length"); [apply IH|].
    destruct (arrayIndex key) as [i|]; [|reflexivity].
    cbn [orb]. destruct (i <? Z.of_nat (List.length l)); [apply IH|reflexivity].
  - cbn [CsvValidation.existsFrom truthy typeofObject andb hasProperty getProperty
         bind valueAt member].
    destruct (assoc key props) as [w|]; [apply IH|reflexivity].
Qed.

Lemma fieldExists_resolves (record : value) (path : string) :
  CsvValidation.fieldExists record path = Ok (resolves record path).
Proof. apply existsFrom_valueAt. Qed.

(** X4: on a path that meets no inherited member, [fieldExists] does not
    throw and agrees with the extractor: where it answers false the extractor
    yields null, and where it answers true the extractor yields the value
    stored at the path. *)
Theorem fieldExists_extractField (record : value) (path : string) :
  ownPath record (split "." path) = true ->
  (exists answer, CsvValidation.fieldExists record path = Ok answer)
  /\ (CsvValidation.fieldExists record path = Ok false ->
      CsvLoader.extractField record path = Ok VNull)
  /\ (CsvValidation.fieldExists record path = Ok true ->
      exists v, valueAt record (split "." path) = Some v
                /\ CsvLoader.extractField record path = Ok v).
Proof.
  intros _.
  rewrite fieldExists_resolves. unfold resolves, CsvLoader.extractField.
  rewrite extractFrom_valueAt.
  destruct (valueAt record (split "." path)) as [v|].
  - split; [eauto|]. split; [discriminate|]. intros _. exists v. split; reflexivity.
  - split; [eauto|]. split; [reflexivity|discriminate].
Qed.

Lemma fieldExists_extractField_witness :
  CsvLoader.extractField bareRecord "Tahun" = Ok VNull
  /\ CsvLoader.extractField nestedRecord "wilayah.nama" = Ok (VString "Sleman").
Proof.
  split.
  - exact (proj1 (proj2 (fieldExists_extractField bareRecord "Tahun" eq_refl)) eq_refl).
  - destruct (proj2 (proj2 (fieldExists_extractField nestedRecord "wilayah.nama" eq_refl))
                eq_refl) as (v & Hv & E).
    injection Hv as <-. exact E.
Defined.

Lemma checkFields_messages (sampleRecord : value) (availableFields : list string)
    (fields : list string) :
  forall errors,
    CsvValidation.checkFields sampleRecord availableFields fields errors
    = Ok (errors ++ map (fun field => CsvValidation.notFound field availableFields)
                      (filter (fun field => negb (resolves sampleRecord field)) fields))%list.
Proof.
  induction fields as [|field rest IH]; intro errors.
  - cbn. now rewrite app_nil_r.
  - cbn [CsvValidation.checkFields]. rewrite fieldExists_resolves. cbn [bind filter].
    rewrite IH. destruct (resolves sampleRecord field); cbn [negb map]; [reflexivity|].
    now rewrite <- app_assoc.
Qed.

(** X5: where no mapped field meets an inherited member in the first sample
    record, the structure check answers valid exactly when it reports no
    error, and exactly when there is a sample record, it is not null or
    undefined, and each of the four mapped fields resolves in it; a mapped
    field that does not resolve is reported by a message that names it and
    lists the fields of the sample record. *)
Theorem validateSample_valid (sampleRecords : list value) (sourceConfig : CsvSourceConfig.t) :
  (forall sampleRecord rest,
     sampleRecords = sampleRecord :: rest -> ownFields sampleRecord sourceConfig) ->
  let outcome := CsvValidation.validateSample sampleRecords sourceConfig in
  let required := CsvValidation.requiredFields (CsvSourceConfig.mapping sourceConfig) in
  (CsvValidation.isValid outcome = true <-> CsvValidation.errors outcome = [])
  /\ (CsvValidation.isValid outcome = true <->
      exists sampleRecord rest,
        sampleRecords = sampleRecord :: rest
        /\ nullish sampleRecord = false
        /\ forall field, In field required -> resolves sampleRecord field = true)
  /\ (forall sampleRecord rest availableFields field,
        sampleRecords = sampleRecord :: rest ->
        Object_keys sampleRecord = Ok availableFields ->
        In field required ->
        resolves sampleRecord field = false ->
        In (CsvValidation.notFound field availableFields) (CsvValidation.errors outcome)).
Proof.
  intros _ outcome required. subst outcome. unfold CsvValidation.validateSample.
  destruct sampleRecords as [|sampleRecord rest].
  - cbn. split; [split; discriminate|]. split.
    + split; [discriminate|]. intros (s & r & E & _). discriminate E.
    + intros s r a f E. discriminate E.
  - destruct (Object_keys sampleRecord) as [availableFields|e] eqn:K.
    + cbn [bind]. rewrite checkFields_messages. cbn [app].
      fold required.
      set (missing := filter (fun field => negb (resolves sampleRecord field)) required).
      cbn [CsvValidation.isValid CsvValidation.errors]. rewrite length_map.
      assert (M : missing = [] <->
                  forall field, In field required -> resolves sampleRecord field = true).
      { subst missing. split.
        - intros E field Hin. destruct (resolves sampleRecord field) eqn:R; [reflexivity|].
          assert (Hm : In field (filter (fun f => negb (resolves sampleRecord f)) required))
            by (apply filter_In; split; [exact Hin|now rewrite R]).
          rewrite E in Hm. contradiction.
        - intro H. induction required as [|f fs IH]; [reflexivity|].
          cbn [filter]. rewrite (H f (or_introl eq_refl)). cbn [negb].
          apply IH. intros g Hg. apply H. now right. }
      assert (N : nullish sampleRecord = false)
        by (destruct sampleRecord; try reflexivity; discriminate K).
      split; [|split].
      * destruct missing; cbn; split; congruence.
      * split.
        -- intro H. exists sampleRecord, rest. split; [reflexivity|]. split; [exact N|].
           apply M. destruct missing; [reflexivity|discriminate H].
        -- intros (s & r & E & _ & H). injection E as <- <-.
           apply M in H. now rewrite H.
      * intros s r a fld E Ka Hin R. injection E as Es Er. subst s r.
        rewrite K in Ka. injection Ka as Ea. subst a.
        apply (in_map (fun f => CsvValidation.notFound f availableFields)).
        subst missing. apply filter_In. split; [exact Hin|now rewrite R].
    + cbn [bind CsvValidation.isValid CsvValidation.errors].
      split; [split; discriminate|]. split.
      * split; [discriminate|]. intros (s & r & E & N & _). injection E as <- <-.
        destruct sampleRecord; try discriminate K; discriminate N.
      * intros s r a field E Ka. injection E as <- <-. rewrite K in Ka. discriminate Ka.
Qed.

Lemma validateSample_valid_witness :
  In (CsvValidation.notFound "Tahun" ["Elemen"])
     (CsvValidation.errors (CsvValidation.validateSample [bareRecord] fileSource))
  /\ CsvValidation.isValid (CsvValidation.validateSample [zeroYearRecord] fileSource) = true.
Proof.
  assert (Own : forall record,
             (forall field,
                In field (CsvValidation.requiredFields (CsvSourceConfig.mapping fileSource)) ->
                ownPath record (split "." field) = true) ->
             forall sampleRecord rest,
               [record] = sampleRecord :: rest -> ownFields sampleRecord fileSource).
  { intros record H sampleRecord rest E. injection E as <- _. exact H. }
  split.
  - refine (proj2 (proj2 (validateSample_valid [bareRecord] fileSource (Own bareRecord _)))
              bareRecord [] ["Elemen"] "Tahun" eq_refl eq_refl
              (or_intror (or_introl eq_refl)) eq_refl).
    intros field [<-|[<-|[<-|[<-|[]]]]]; reflexivity.
  - refine (proj2 (proj1 (proj2 (validateSample_valid [zeroYearRecord] fileSource
                                   (Own zeroYearRecord _)))) _).
    + intros field [<-|[<-|[<-|[<-|[]]]]]; reflexivity.
    + exists zeroYearRecord, []. split; [reflexivity|]. split; [reflexivity|].
      intros field [<-|[<-|[<-|[<-|[]]]]]; reflexivity.
Defined.

(** ** Rows are processed one by one *)

Lemma processRows_app (sourceConfig : CsvSourceConfig.t) (fileName : string)
    (a b : list value) :
  CsvLoader.processRows (a ++ b) sourceConfig fileName
  = (CsvLoader.processRows a sourceConfig fileName
     ++ CsvLoader.processRows b sourceConfig fileName)%list.
Proof.
  induction a as [|record rest IH]; [reflexivity|].
  cbn [app CsvLoader.processRows].
  destruct (CsvLoader.transformRecord record sourceConfig fileName) as [[r|]|];
    cbn [app]; now rewrite IH.
Qed.

Lemma processRecords_app (RegExp_new : string -> result RegExp)
    (sourceConfig : ApiSourceConfig.t) (a b : list value) :
  CKANApiLoader.processRecords RegExp_new (a ++ b) sourceConfig
  = (CKANApiLoader.processRecords RegExp_new a sourceConfig
     ++ CKANApiLoader.processRecords RegExp_new b sourceConfig)%list.
Proof.
  induction a as [|record rest IH]; [reflexivity|].
  cbn [app CKANApiLoader.processRecords].
  destruct (CKANApiLoader.transformRecord RegExp_new record sourceConfig) as [chunk|];
    [|exact IH].
  now rewrite IH, app_assoc.
Qed.

(** X6: both loaders process the raw records one by one and in order: the
    records made from two lists put end to end are those made from the first
    followed by those made from the second, so a record that is skipped or
    fails changes nothing for the others; each record made is what the
    transform emits for one raw record, and the file loader makes at most one
    per row. *)
Theorem records_processed_in_order :
  (forall sourceConfig a b,
     CsvLoader.processRecords (a ++ b) sourceConfig
     = (CsvLoader.processRecords a sourceConfig
        ++ CsvLoader.processRecords b sourceConfig)%list)
  /\ (forall sourceConfig records,
        (List.length (CsvLoader.processRecords records sourceConfig)
         <= List.length records)%nat)
  /\ (forall sourceConfig records r,
        In r (CsvLoader.processRecords records sourceConfig) ->
        exists record,
          In record records
          /\ CsvLoader.transformRecord record sourceConfig
               (CsvLoader.basename (CsvSourceConfig.file_path sourceConfig)) = Ok (Some r))
  /\ (forall RegExp_new sourceConfig a b,
        CKANApiLoader.processRecords RegExp_new (a ++ b) sourceConfig
        = (CKANApiLoader.processRecords RegExp_new a sourceConfig
           ++ CKANApiLoader.processRecords RegExp_new b sourceConfig)%list)
  /\ (forall RegExp_new sourceConfig records r,
        In r (CKANApiLoader.processRecords RegExp_new records sourceConfig) ->
        exists record rows,
          In record records
          /\ CKANApiLoader.transformRecord RegExp_new record sourceConfig = Ok rows
          /\ In r rows).
Proof.
  split; [|split; [|split; [|split]]].
  - intros. apply processRows_app.
  - intros sourceConfig records. unfold CsvLoader.processRecords.
    induction records as [|record rest IH]; [cbn; lia|].
    cbn [CsvLoader.processRows List.length].
    destruct (CsvLoader.transformRecord record sourceConfig _) as [[r|]|];
      cbn [List.length]; lia.
  - intros sourceConfig records r. unfold CsvLoader.processRecords.
    induction records as [|record rest IH]; [intros []|].
    cbn [CsvLoader.processRows].
    destruct (CsvLoader.transformRecord record sourceConfig _) as [[r'|]|] eqn:T.
    + intros [<-|Hin].
      * exists record. split; [now left|exact T].
      * destruct (IH Hin) as (x & Hx & Tx). exists x. split; [now right|exact Tx].
    + intro Hin. destruct (IH Hin) as (x & Hx & Tx). exists x. split; [now right|exact Tx].
    + intro Hin. destruct (IH Hin) as (x & Hx & Tx). exists x. split; [now right|exact Tx].
  - intros. apply processRecords_app.
  - intros RegExp_new sourceConfig records r.
    induction records as [|record rest IH]; [intros []|].
    cbn [CKANApiLoader.processRecords].
    destruct (CKANApiLoader.transformRecord RegExp_new record sourceConfig)
      as [chunk|] eqn:T.
    + intro Hin. apply in_app_or in Hin as [Hin|Hin].
      * exists record, chunk. split; [now left|]. split; [exact T|exact Hin].
      * destruct (IH Hin) as (x & rows & Hx & Tx & Hr).
        exists x, rows. split; [now right|]. split; assumption.
    + intro Hin. destruct (IH Hin) as (x & rows & Hx & Tx & Hr).
      exists x, rows. split; [now right|]. split; assumption.
Qed.

Lemma records_processed_in_order_witness :
  exists record,
    In record [emptyElemenRecord; zeroYearRecord]
    /\ exists r, CsvLoader.transformRecord record fileSource
                   (CsvLoader.basename (CsvSourceConfig.file_path fileSource)) = Ok (Some r).
Proof.
  destruct (CsvLoader.processRecords [emptyElemenRecord; zeroYearRecord] fileSource)
    as [|r rest] eqn:E; [discriminate E|].
  destruct (proj1 (proj2 (proj2 records_processed_in_order)) fileSource
              [emptyElemenRecord; zeroYearRecord] r) as (record & Hin & T).
  - rewrite E. now left.
  - exists record. split; [exact Hin|]. exists r. exact T.
Defined.

(** ** The records of a sheet *)

Lemma assign_keys (key : string) (v : value) (props : list (string * value)) :
  map fst (assign key v props)
  = if existsb (String.eqb key) (map fst props) || String.eqb key "__proto__"
    then map fst props
    else (map fst props ++ [key])%list.
Proof.
  induction props as [|[k w] rest IH].
  - cbn [assign map fst existsb orb app]. destruct (String.eqb key "__proto__"); reflexivity.
  - cbn [assign map fst existsb].
    rewrite (String.eqb_sym key k).
    destruct (String.eqb k key); [reflexivity|].
    cbn [orb map fst]. rewrite IH. destruct (existsb _ _ || _); reflexivity.
Qed.

Lemma existsb_eqb_In (key : string) (keys : list string) :
  existsb (String.eqb key) keys = true <-> In key keys.
Proof.
  rewrite existsb_exists. split.
  - intros (k & Hin & E). apply String.eqb_eq in E. now subst k.
  - intro Hin. exists key. split; [exact Hin|apply String.eqb_refl].
Qed.

Lemma assign_NoDup (key : string) (v : value) (props : list (string * value)) :
  NoDup (map fst props) -> NoDup (map fst (assign key v props)).
Proof.
  intro N. rewrite assign_keys.
  destruct (existsb _ _) eqn:E; cbn [orb]; [exact N|].
  destruct (String.eqb key "__proto__"); [exact N|].
  apply NoDup_app; [exact N|repeat constructor; intros []|].
  intros k Hin [<-|[]].
  apply existsb_eqb_In in Hin. rewrite Hin in E. discriminate E.
Qed.

Lemma assign_In (key k : string) (v : value) (props : list (string * value)) :
  In k (map fst (assign key v props))
  <-> (k = key /\ key <> "__proto__") \/ In k (map fst props).
Proof.
  rewrite assign_keys. destruct (existsb _ _) eqn:E; cbn [orb].
  - apply existsb_eqb_In in E. split; [now right|]. intros [[-> _]|H]; assumption.
  - destruct (String.eqb_spec key "__proto__") as [P|P].
    + split; [now right|]. intros [[_ H]|H]; [contradiction|exact H].
    + rewrite in_app_iff. cbn [In]. split.
      * intros [H|[<-|[]]]; [now right|left; now split].
      * intros [[-> _]|H]; [right; now left|now left].
Qed.

Lemma assign_values (P : value -> Prop) (key : string) (v : value)
    (props : list (string * value)) :
  P v -> Forall (fun p => P (snd p)) props ->
  Forall (fun p => P (snd p)) (assign key v props).
Proof.
  intros Hv. induction 1 as [|[k w] rest Hw Hrest IH]; cbn [assign].
  - destruct (String.eqb key "__proto__"); repeat constructor. exact Hv.
  - destruct (String.eqb k key); constructor; assumption.
Qed.

Lemma fillRecord_shape (headers : list value) :
  forall index row record,
    NoDup (map fst record) ->
    Forall (fun p => emptyOrTruthy (snd p)) record ->
    let filled := CsvLoader.fillRecord headers index row record in
    NoDup (map fst filled)
    /\ (forall k, In k (map fst filled)
                  <-> (In k (headerKeys headers) /\ k <> "__proto__")
                      \/ In k (map fst record))
    /\ Forall (fun p => emptyOrTruthy (snd p)) filled.
Proof.
  induction headers as [|h rest IH]; intros index row record N F.
  - cbn. split; [exact N|]. split; [|exact F]. intro k.
    split; [now right|now intros [[[] _]|]].
  - cbn [CsvLoader.fillRecord].
    assert (C : emptyOrTruthy (CsvLoader.cellOrEmpty row index)).
    { unfold CsvLoader.cellOrEmpty, emptyOrTruthy.
      destruct (truthy (nth index row VUndefined)) eqn:T; [now right|now left]. }
    destruct (IH (S index) row _ (assign_NoDup (ToString h) _ record N)
                (assign_values emptyOrTruthy (ToString h) _ record C F)) as (N' & I' & F').
    split; [exact N'|]. split; [|exact F'].
    intro k. rewrite I', assign_In. cbn [headerKeys map In].
    fold (headerKeys rest). split.
    + intros [[H P]|[[-> P]|H]].
      * left. split; [now right|exact P].
      * left. split; [now left|exact P].
      * now right.
    + intros [[[<-|H] P]|H].
      * right. left. now split.
      * left. now split.
      * right. now right.
Qed.

(** X7: from a sheet whose header cells convert to text, the Excel path makes
    one record per data row, none from a sheet that is empty or has a header
    only; every record has exactly the header names other than __proto__ as
    its fields, each once, whatever the length of its row, and holds in each
    field the empty string or a truthy cell. *)
Theorem loadExcel_records (headers : list value) (dataRows : list (list value)) :
  forallb stringable headers = true ->
  List.length (CsvLoader.loadExcel (headers :: dataRows)) = List.length dataRows
  /\ CsvLoader.loadExcel [] = []
  /\ forall record, In record (CsvLoader.loadExcel (headers :: dataRows)) ->
       exists props,
         record = VObject props
         /\ NoDup (map fst props)
         /\ (forall k, In k (map fst props)
                       <-> In k (headerKeys headers) /\ k <> "__proto__")
         /\ (forall k v, assoc k props = Some v -> emptyOrTruthy v).
Proof.
  intros _.
  split; [apply length_map|]. split; [reflexivity|].
  intros record Hin. cbn [CsvLoader.loadExcel] in Hin.
  apply in_map_iff in Hin as (row & <- & _).
  exists (CsvLoader.fillRecord headers 0 row []).
  destruct (fillRecord_shape headers 0 row [] (NoDup_nil _) (Forall_nil _)) as (N & I & F).
  split; [reflexivity|]. split; [exact N|]. split.
  - intro k. rewrite I. cbn [map In]. tauto.
  - intros k v. revert F. generalize (CsvLoader.fillRecord headers 0 row []).
    induction l as [|[k0 w] rest IH]; intros F H; [discriminate H|].
    cbn [assoc] in H. inversion F as [|? ? Hw Hrest]; subst.
    destruct (String.eqb k0 k); [injection H as <-; exact Hw|exact (IH Hrest H)].
Qed.

Lemma loadExcel_records_witness :
  exists props,
    nth_error (CsvLoader.loadExcel [protoHeaders; [VNumber (ofZ 0); VString "Luas"]]) 0
    = Some (VObject props)
    /\ NoDup (map fst props)
    /\ In "Elemen" (map fst props)
    /\ ~ In "__proto__" (map fst props)
    /\ (forall v, assoc "Elemen" props = Some v -> emptyOrTruthy v).
Proof.
  destruct (proj2 (proj2 (loadExcel_records protoHeaders [[VNumber (ofZ 0); VString "Luas"]]
                            eq_refl))
              (VObject (CsvLoader.fillRecord protoHeaders 0 [VNumber (ofZ 0); VString "Luas"] []))
              (or_introl eq_refl)) as (props & E & N & K & V).
  injection E as <-.
  eexists. split; [reflexivity|]. split; [exact N|]. split; [|split].
  - apply K. split; [right; now left|discriminate].
  - intro H. apply K in H as [_ H]. now apply H.
  - intros v. apply V.
Defined.

(** ** String helpers *)

(** X9: on a value whose conversion to text returns, [cleanString] yields
    null exactly for null, undefined and the values whose string form is
    blank; otherwise it yields a text that is not empty and has no white
    space at either end, which it leaves as it is when cleaned again.  On
    strings it yields null exactly where [isEmpty] answers true. *)
Theorem cleanString_clean (v : value) :
  stringable v = true ->
  (StringHelpers.cleanString v = None
   <-> nullish v = true \/ trim (ToString v) = "")
  /\ (forall s, StringHelpers.cleanString v = Some s ->
        cleanText s /\ StringHelpers.cleanString (VString s) = Some s)
  /\ (forall s, v = VString s ->
        (StringHelpers.isEmptyValue v = true <-> StringHelpers.cleanString v = None)).
Proof.
  intros _.
  unfold StringHelpers.cleanString. split; [|split].
  - destruct (nullish v); [split; [now left|reflexivity]|].
    destruct (trim (ToString v)) eqn:E; cbn [isEmpty].
    + split; [now right|reflexivity].
    + split; [discriminate|]. intros [H|H]; discriminate H.
  - intros s. destruct (nullish v); [discriminate|].
    destruct (isEmpty (trim (ToString v))) eqn:E; [discriminate|].
    intro H. injection H as <-. split; [exact (trim_cleanText _ E)|].
    cbn [nullish ToString]. now rewrite trim_idempotent, E.
  - intros s ->. cbn [StringHelpers.isEmptyValue nullish ToString].
    destruct (isEmpty (trim s)); split; congruence.
Qed.

Lemma cleanString_clean_witness :
  cleanText "Orang"
  /\ StringHelpers.cleanString (VString "   ") = None
  /\ StringHelpers.cleanString (VArray [VNull]) = None.
Proof.
  split; [|split].
  - exact (proj1 (proj1 (proj2 (cleanString_clean (VString "  Orang ") eq_refl))
                    "Orang" eq_refl)).
  - exact (proj2 (proj1 (cleanString_clean (VString "   ") eq_refl)) (or_intror eq_refl)).
  - exact (proj2 (proj1 (cleanString_clean (VArray [VNull]) eq_refl)) (or_intror eq_refl)).
Defined.

Lemma substring_head_length (m : nat) :
  forall s, String.length (String.substring 0 m s) = Nat.min m (String.length s).
Proof.
  induction m as [|m IH]; intro s; [destruct s; reflexivity|].
  destruct s as [|c r]; [reflexivity|].
  cbn [String.substring String.length Nat.min]. now rewrite IH.
Qed.

Lemma substring_head_prefix (m : nat) :
  forall s, String.prefix (String.substring 0 m s) s = true.
Proof.
  induction m as [|m IH]; intro s; [destruct s; reflexivity|].
  destruct s as [|c r]; [reflexivity|].
  cbn [String.substring String.prefix].
  destruct (ascii_dec c c) as [_|N]; [apply IH|contradiction].
Qed.

Lemma substring_from_start (s : string) (stop : Z) :
  StringHelpers.substring s 0 stop
  = String.substring 0 (Z.to_nat (Z.min (Z.max stop 0) (slen s))) s.
Proof.
  unfold StringHelpers.substring.
  assert (L : 0 <= slen s) by (unfold slen; lia).
  replace (Z.min (Z.max 0 0) (slen s)) with 0 by lia.
  replace (Z.min 0 (Z.min (Z.max stop 0) (slen s))) with 0 by lia.
  replace (Z.max 0 (Z.min (Z.max stop 0) (slen s)) - 0)
    with (Z.min (Z.max stop 0) (slen s)) by lia.
  reflexivity.
Qed.

(** X10: for a limit of at least 3, [truncateString] returns a text of at
    most that many characters: the text itself when it fits, and otherwise
    its first limit - 3 characters followed by three dots.  Below 3 the limit
    is not kept: a longer text becomes the three dots. *)
Theorem truncateString_length (str : string) (maxLength : Z) :
  (slen str <= maxLength -> StringHelpers.truncateString str maxLength = str)
  /\ (3 <= maxLength ->
      slen (StringHelpers.truncateString str maxLength) = Z.min (slen str) maxLength)
  /\ (3 <= maxLength < slen str ->
      exists head,
        StringHelpers.truncateString str maxLength = head ++ "..."
        /\ String.prefix head str = true
        /\ slen head = maxLength - 3)
  /\ (maxLength < 3 -> maxLength < slen str ->
      StringHelpers.truncateString str maxLength = "...").
Proof.
  unfold StringHelpers.truncateString. rewrite substring_from_start.
  assert (L0 : 0 <= slen str) by (unfold slen; lia).
  split; [|split; [|split]].
  - intro H. destruct (Z.leb_spec (slen str) maxLength); [reflexivity|lia].
  - intro H. destruct (Z.leb_spec (slen str) maxLength) as [L|L]; [lia|].
    unfold slen in *. rewrite length_append, substring_head_length.
    cbn [String.length]. lia.
  - intros [H L]. destruct (Z.leb_spec (slen str) maxLength); [lia|].
    eexists. split; [reflexivity|]. split; [apply substring_head_prefix|].
    unfold slen in *. rewrite substring_head_length. lia.
  - intros H L. destruct (Z.leb_spec (slen str) maxLength); [lia|].
    replace (Z.to_nat (Z.min (Z.max (maxLength - 3) 0) (slen str))) with 0%nat by lia.
    destruct str; reflexivity.
Qed.

Lemma truncateString_length_witness :
  slen (StringHelpers.truncateString "Jumlah Penduduk" 10) = 10.
Proof.
  exact (proj1 (proj2 (truncateString_length "Jumlah Penduduk" 10)) ltac:(lia)).
Defined.

(** ** The tally of an upsert *)

Lemma upsertRow_length (now : Z) (new : Database.FactRow) (rows : list Database.FactRow) :
  List.length (fst (Database.upsertRow now new rows))
  = match snd (Database.upsertRow now new rows) with
    | Database.Inserted => S (List.length rows)
    | _ => List.length rows
    end.
Proof.
  induction rows as [|old rest IH]; [reflexivity|].
  cbn [Database.upsertRow].
  destruct (String.eqb (Database.hash_key old) (Database.hash_key new)).
  - cbn [fst snd]. destruct (Database.unchanged _ _); reflexivity.
  - destruct (Database.upsertRow now new rest) as [rest' outcome]. cbn [fst snd] in *.
    cbn [List.length]. rewrite IH. destruct outcome; reflexivity.
Qed.

(** affectedRows lies between the rows added and twice the batch, and is at
    least the rows added. *)
Lemma statement_affected (found_rows : bool) (ingested now : Z)
    (records : list ProcessedRecord.t) :
  forall rows nextId,
    let '(rows', _, affectedRows) :=
      Database.insertOnDuplicateKeyUpdate found_rows ingested now records rows nextId in
    Z.of_nat (List.length rows') - Z.of_nat (List.length rows) <= affectedRows
    /\ affectedRows - Z.of_nat (List.length records)
       <= Z.of_nat (List.length records)
          - (Z.of_nat (List.length rows') - Z.of_nat (List.length rows))
    /\ (List.length rows <= List.length rows')%nat.
Proof.
  induction records as [|r more IH]; intros rows nextId; [cbn; lia|].
  cbn [Database.insertOnDuplicateKeyUpdate].
  pose proof (upsertRow_length now (Database.valuesRow nextId ingested now r) rows) as L.
  destruct (Database.upsertRow now (Database.valuesRow nextId ingested now r) rows)
    as [rows1 outcome].
  cbn [fst snd] in L.
  set (nextId1 := match outcome with Database.Inserted => nextId + 1 | _ => nextId end).
  specialize (IH rows1 nextId1).
  destruct (Database.insertOnDuplicateKeyUpdate found_rows ingested now more rows1 nextId1)
    as [[rows2 nextId2] m].
  cbn [List.length].
  destruct outcome; cbn [Database.affected]; [| |destruct found_rows]; lia.
Qed.

(** The counts of one transaction that went through. *)
Lemma upsertRecords_counts (server_clock client_clock : nat -> Z) (fault : nat -> bool)
    (found_rows : bool) (db : Database.DatabaseManager) (records : list ProcessedRecord.t) :
  forall db' tally,
    Database.upsertRecords server_clock client_clock fault found_rows db records
    = (db', Ok tally) ->
    Database.inserted tally + Database.updated tally = Z.of_nat (List.length records)
    /\ wellFormedTally tally
    /\ Database.errors tally = 0.
Proof.
  intros db' tally. unfold Database.upsertRecords.
  destruct (negb (Database.connection db)); [discriminate|].
  destruct records as [|r more].
  - intro H. injection H as <- <-. unfold wellFormedTally. cbn. repeat split; lia.
  - destruct (fault (Database.calls db)); [discriminate|].
    pose proof (statement_affected found_rows (client_clock (Database.calls db))
                  (server_clock (Database.calls db)) (r :: more)
                  (Database.facts_long db) (Database.next_id db)) as A.
    destruct (Database.insertOnDuplicateKeyUpdate _ _ _ _ _ _) as [[rows nextId] m].
    remember (Z.of_nat (List.length (r :: more))) as len eqn:Hlen.
    intro H. injection H as <- <-.
    unfold wellFormedTally.
    cbn [Database.inserted Database.updated Database.errors Database.skipped].
    repeat split; lia.
Qed.

(** X11: a batch that goes through is tallied in full: inserted and updated
    add up to the size of the batch, with no error and nothing skipped; the
    tally never reports fewer inserts than rows were added to the table, and
    no row is ever removed.  An empty batch returns the zero tally without a
    round trip. *)
Theorem upsert_tally (server_clock client_clock : nat -> Z) (fault : nat -> bool)
    (found_rows : bool) (db : Database.DatabaseManager) (records : list ProcessedRecord.t) :
  forall db' tally,
    Database.upsertRecords server_clock client_clock fault found_rows db records
    = (db', Ok tally) ->
    Database.inserted tally + Database.updated tally = Z.of_nat (List.length records)
    /\ wellFormedTally tally
    /\ Database.errors tally = 0
    /\ Z.of_nat (List.length (Database.facts_long db'))
       - Z.of_nat (List.length (Database.facts_long db))
       <= Database.inserted tally
    /\ (List.length (Database.facts_long db) <= List.length (Database.facts_long db'))%nat
    /\ (records = [] -> db' = db).
Proof.
  intros db' tally H.
  destruct (upsertRecords_counts _ _ _ _ _ _ _ _ H) as (S1 & W & Er).
  split; [exact S1|]. split; [exact W|]. split; [exact Er|].
  revert H. unfold Database.upsertRecords.
  destruct (negb (Database.connection db)); [discriminate|].
  destruct records as [|r more].
  - intro H. injection H as <- <-. cbn. repeat split; lia.
  - destruct (fault (Database.calls db)); [discriminate|].
    pose proof (statement_affected found_rows (client_clock (Database.calls db))
                  (server_clock (Database.calls db)) (r :: more)
                  (Database.facts_long db) (Database.next_id db)) as A.
    destruct (Database.insertOnDuplicateKeyUpdate _ _ _ _ _ _) as [[rows nextId] m].
    remember (Z.of_nat (List.length (r :: more))) as len eqn:Hlen.
    intro H. injection H as <- <-.
    cbn [Database.inserted Database.facts_long].
    repeat split; try lia. discriminate.
Qed.

Lemma upsert_tally_witness :
  Database.inserted oneInserted + Database.updated oneInserted = 1.
Proof.
  exact (proj1 (upsert_tally tickingClock tickingClock noFault false emptyStore
                  [sampleRecord] _ oneInserted eq_refl)).
Defined.

Lemma counted_addResult (a b : Database.UpsertResult) :
  counted (Database.addResult a b) = counted a + counted b.
Proof. unfold counted, Database.addResult. cbn. lia. Qed.

Lemma wellFormed_addResult (a b : Database.UpsertResult) :
  wellFormedTally a -> wellFormedTally b -> wellFormedTally (Database.addResult a b).
Proof. unfold wellFormedTally, Database.addResult. cbn. lia. Qed.

(** What one transaction leaves alone, whatever its outcome. *)
Lemma upsertRecords_frame (server_clock client_clock : nat -> Z) (fault : nat -> bool)
    (found_rows : bool) (db : Database.DatabaseManager) (chunk : list ProcessedRecord.t) :
  let step := Database.upsertRecords server_clock client_clock fault found_rows db chunk in
  Database.etl_checkpoints (fst step) = Database.etl_checkpoints db
  /\ Database.connection (fst step) = Database.connection db
  /\ (uniqueHash (Database.facts_long db) -> uniqueHash (Database.facts_long (fst step)))
  /\ (Database.connection db = false -> fst step = db).
Proof.
  unfold Database.upsertRecords.
  destruct (Database.connection db) eqn:C; cbn [negb].
  - destruct chunk as [|r more].
    + cbn [fst]. rewrite C. repeat split; auto.
    + destruct (fault (Database.calls db)).
      * cbn. repeat split; auto; discriminate.
      * pose proof (statement_invariant found_rows (client_clock (Database.calls db))
                      (server_clock (Database.calls db)) (r :: more)
                      (Database.facts_long db) (Database.next_id db)) as I.
        destruct (Database.insertOnDuplicateKeyUpdate _ _ _ _ _ _) as [[rows nextId] m].
        cbn [fst snd Database.etl_checkpoints Database.connection Database.facts_long] in *.
        repeat split; auto; try discriminate. intro U. exact (proj1 (I U)).
  - cbn [fst]. rewrite C. repeat split; auto.
Qed.

(** One chunk is accounted for in full, whether its transaction went through
    or not. *)
Lemma chunkTally_counted (server_clock client_clock : nat -> Z) (fault : nat -> bool)
    (found_rows : bool) (db : Database.DatabaseManager) (chunk : list ProcessedRecord.t) :
  let step := Database.upsertRecords server_clock client_clock fault found_rows db chunk in
  counted (chunkTally (snd step) chunk) = Z.of_nat (List.length chunk)
  /\ wellFormedTally (chunkTally (snd step) chunk)
  /\ (Database.connection db = false ->
      Database.errors (chunkTally (snd step) chunk) = Z.of_nat (List.length chunk)).
Proof.
  intro step.
  destruct step as [db' outcome] eqn:E. cbn [snd].
  destruct outcome as [tally|e].
  - destruct (upsertRecords_counts _ _ _ _ _ _ _ _ E) as (S1 & W & Er).
    cbn [chunkTally]. unfold counted. rewrite Er.
    split; [lia|]. split; [exact W|].
    intro C. subst step. unfold Database.upsertRecords in E. rewrite C in E. discriminate E.
  - cbn [chunkTally]. unfold counted, wellFormedTally. cbn. repeat split; lia.
Qed.

Lemma sumResults_counted (tallies : list Database.UpsertResult) :
  forall start,
    counted (sumResults tallies start)
    = counted start + fold_right (fun t acc => counted t + acc) 0 tallies.
Proof.
  induction tallies as [|t rest IH]; intro start; [cbn; lia|].
  cbn [sumResults fold_left fold_right]. fold (sumResults rest (Database.addResult start t)).
  rewrite IH, counted_addResult. lia.
Qed.

Lemma sumResults_wellFormed (tallies : list Database.UpsertResult) :
  Forall wellFormedTally tallies ->
  forall start, wellFormedTally start -> wellFormedTally (sumResults tallies start).
Proof.
  induction 1 as [|t rest Ht _ IH]; intros start Hs; [exact Hs|].
  cbn [sumResults fold_left]. apply IH. now apply wellFormed_addResult.
Qed.

Lemma sumResults_errors (tallies : list Database.UpsertResult) :
  forall start,
    Database.errors (sumResults tallies start)
    = Database.errors start + fold_right (fun t acc => Database.errors t + acc) 0 tallies.
Proof.
  induction tallies as [|t rest IH]; intro start; [cbn; lia|].
  cbn [sumResults fold_left fold_right]. fold (sumResults rest (Database.addResult start t)).
  rewrite IH. cbn [Database.addResult Database.errors]. lia.
Qed.

(** The chunks attempted in turn account for every record they hold, and
    leave the checkpoints, the connection and the unique key as they were. *)
Lemma attempts_counted (server_clock client_clock : nat -> Z) (fault : nat -> bool)
    (found_rows : bool) (cs : list (list ProcessedRecord.t)) :
  forall db,
    let run := attempts server_clock client_clock fault found_rows db cs in
    fold_right (fun t acc => counted t + acc) 0 (snd run)
    = Z.of_nat (List.length (List.concat cs))
    /\ Forall wellFormedTally (snd run)
    /\ Database.etl_checkpoints (fst run) = Database.etl_checkpoints db
    /\ Database.connection (fst run) = Database.connection db
    /\ (uniqueHash (Database.facts_long db) -> uniqueHash (Database.facts_long (fst run)))
    /\ (Database.connection db = false ->
        fst run = db
        /\ fold_right (fun t acc => Database.errors t + acc) 0 (snd run)
           = Z.of_nat (List.length (List.concat cs))).
Proof.
  induction cs as [|chunk rest IH]; intro db.
  - cbn. repeat split; auto.
  - cbn [attempts].
    pose proof (upsertRecords_frame server_clock client_clock fault found_rows db chunk) as F.
    pose proof (chunkTally_counted server_clock client_clock fault found_rows db chunk) as T.
    destruct (Database.upsertRecords server_clock client_clock fault found_rows db chunk)
      as [db1 outcome].
    cbn [fst snd] in F, T.
    destruct F as (F1 & F2 & F3 & F4). destruct T as (T1 & T2 & T3).
    specialize (IH db1).
    destruct (attempts server_clock client_clock fault found_rows db1 rest) as [db2 tallies].
    cbn [fst snd] in IH |- *.
    destruct IH as (I1 & I2 & I3 & I4 & I5 & I6).
    cbn [fold_right List.concat]. rewrite length_app, Nat2Z.inj_add, I1, T1.
    split; [reflexivity|]. split; [now constructor|].
    split; [congruence|]. split; [congruence|]. split; [auto|].
    intro C. destruct (I6 ltac:(congruence)) as [E1 E2].
    split; [rewrite E1; now apply F4|]. rewrite E2, (T3 C). reflexivity.
Qed.

(** X12: with a positive chunk size the batched upsert ends and accounts for
    every record once: inserted, updated and errors add up to the number of
    records, no count is negative and nothing is skipped.  The checkpoints are
    not touched and the unique key on the fingerprint is kept.  Without a
    connection every record is counted as an error and the store is left as
    it was: the call itself does not throw. *)
Theorem batch_upsert_accounts (server_clock client_clock : nat -> Z) (fault : nat -> bool)
    (found_rows : bool) (db : Database.DatabaseManager)
    (records : list ProcessedRecord.t) (batchSize : Z) (fuel : nat) :
  0 < batchSize ->
  (List.length records <= fuel)%nat ->
  exists db' tally,
    Database.batchUpsertRecords server_clock client_clock fault found_rows fuel db records
      (Some batchSize) = Some (db', tally)
    /\ counted tally = Z.of_nat (List.length records)
    /\ wellFormedTally tally
    /\ Database.etl_checkpoints db' = Database.etl_checkpoints db
    /\ (uniqueHash (Database.facts_long db) -> uniqueHash (Database.facts_long db'))
    /\ (Database.connection db = false ->
        db' = db /\ Database.errors tally = Z.of_nat (List.length records)).
Proof.
  intros Hs Hfuel.
  unfold Database.batchUpsertRecords.
  rewrite (batchLoop_attempts server_clock client_clock fault found_rows records
             batchSize Hs fuel db 0 Database.zero (Z.le_refl 0)) by exact Hfuel.
  change (skipn (Z.to_nat 0) records) with records.
  destruct (chunks_partition (Z.to_nat batchSize) ltac:(lia) records) as [Hc _].
  pose proof (attempts_counted server_clock client_clock fault found_rows
                (chunks (Z.to_nat batchSize) records) db) as A.
  destruct (attempts server_clock client_clock fault found_rows db
              (chunks (Z.to_nat batchSize) records)) as [db' tallies].
  cbn [fst snd] in A. rewrite Hc in A.
  destruct A as (A1 & A2 & A3 & A4 & A5 & A6).
  exists db', (sumResults tallies Database.zero).
  split; [reflexivity|].
  split; [rewrite sumResults_counted, A1; reflexivity|].
  split; [apply sumResults_wellFormed; [exact A2|unfold wellFormedTally; cbn; lia]|].
  split; [exact A3|]. split; [exact A5|].
  intro C. destruct (A6 C) as [E1 E2]. split; [exact E1|].
  rewrite sumResults_errors, E2. reflexivity.
Qed.

Lemma batch_upsert_accounts_witness :
  exists db' tally,
    Database.batchUpsertRecords stoppedClock stoppedClock secondFails false 5 emptyStore
      fiveRecords (Some 2) = Some (db', tally)
    /\ counted tally = 5.
Proof.
  destruct (batch_upsert_accounts stoppedClock stoppedClock secondFails false emptyStore
              fiveRecords 2 5 ltac:(lia) ltac:(cbn; lia))
    as (db' & tally & H1 & H2 & _).
  exists db', tally. split; [exact H1|exact H2].
Defined.

(** ** The rows a statement adds *)

Lemma existsb_hash_map (h : string) (rows : list Database.FactRow) :
  existsb (fun old => String.eqb (Database.hash_key old) h) rows
  = existsb (fun s => String.eqb s h) (map Database.hash_key rows).
Proof. induction rows as [|old rest IH]; [reflexivity|]. cbn. now rewrite IH. Qed.

Lemma statement_fingerprints (found_rows : bool) (ingested now : Z)
    (records : list ProcessedRecord.t) :
  forall rows nextId,
    map Database.hash_key
      (fst (fst (Database.insertOnDuplicateKeyUpdate found_rows ingested now records
                   rows nextId)))
    = addFresh (map Database.hash_key rows) (map ProcessedRecord.hash_key records).
Proof.
  induction records as [|r more IH]; intros rows nextId; [reflexivity|].
  cbn [Database.insertOnDuplicateKeyUpdate map addFresh].
  pose proof (upsertRow_hashes now (Database.valuesRow nextId ingested now r) rows) as H.
  destruct (Database.upsertRow now (Database.valuesRow nextId ingested now r) rows)
    as [rows1 outcome].
  cbn [fst] in H.
  set (nextId1 := match outcome with Database.Inserted => nextId + 1 | _ => nextId end).
  specialize (IH rows1 nextId1).
  destruct (Database.insertOnDuplicateKeyUpdate found_rows ingested now more rows1 nextId1)
    as [[rows2 nextId2] m].
  cbn [fst] in IH |- *. rewrite IH, H.
  change (Database.hash_key (Database.valuesRow nextId ingested now r))
    with (ProcessedRecord.hash_key r).
  rewrite existsb_hash_map. reflexivity.
Qed.

Lemma existsb_eqb_stored (h : string) (stored : list string) :
  In h stored -> existsb (fun s => String.eqb s h) stored = true.
Proof.
  intro Hin. apply existsb_exists. exists h. split; [exact Hin|apply String.eqb_refl].
Qed.

Lemma addFresh_keeps (hs : list string) :
  forall stored h, In h stored -> In h (addFresh stored hs).
Proof.
  induction hs as [|x more IH]; intros stored h Hin; [exact Hin|].
  cbn [addFresh]. apply IH.
  destruct (existsb _ stored); [exact Hin|]. apply in_or_app. now left.
Qed.

Lemma addFresh_holds (hs : list string) :
  forall stored h, In h hs -> In h (addFresh stored hs).
Proof.
  induction hs as [|x more IH]; intros stored h Hin; [destruct Hin|].
  cbn [addFresh]. destruct Hin as [->|Hin]; [|now apply IH].
  apply addFresh_keeps.
  destruct (existsb (fun s => String.eqb s h) stored) eqn:E.
  - apply existsb_exists in E as (s & Hs & Eq). apply String.eqb_eq in Eq. now subst s.
  - apply in_or_app. right. now left.
Qed.

Lemma addFresh_stored (hs : list string) :
  forall stored, (forall h, In h hs -> In h stored) -> addFresh stored hs = stored.
Proof.
  induction hs as [|x more IH]; intros stored Hall; [reflexivity|].
  cbn [addFresh]. rewrite (existsb_eqb_stored x stored) by (apply Hall; now left).
  apply IH. intros h Hin. apply Hall. now right.
Qed.

Lemma addFresh_prefix (hs : list string) :
  forall stored, exists added, addFresh stored hs = (stored ++ added)%list.
Proof.
  induction hs as [|x more IH]; intro stored; [exists []; now rewrite app_nil_r|].
  cbn [addFresh]. destruct (existsb _ stored).
  - apply IH.
  - destruct (IH (stored ++ [x])%list) as [added E]. exists (x :: added).
    rewrite E, <- app_assoc. reflexivity.
Qed.

(** X13: a batch that goes through leaves in the table the fingerprints it
    had, in their order, followed by the new fingerprints of the batch in the
    order of their first occurrence; every fingerprint of the batch is stored
    afterwards, and writing the same batch again adds no row. *)
Theorem upsert_idempotent (server_clock client_clock : nat -> Z) (fault : nat -> bool)
    (found_rows : bool) (db : Database.DatabaseManager) (records : list ProcessedRecord.t) :
  forall db1 tally1,
    Database.upsertRecords server_clock client_clock fault found_rows db records
    = (db1, Ok tally1) ->
    fingerprints db1
    = addFresh (fingerprints db) (map ProcessedRecord.hash_key records)
    /\ (exists added, fingerprints db1 = (fingerprints db ++ added)%list)
    /\ (forall r, In r records -> In (ProcessedRecord.hash_key r) (fingerprints db1))
    /\ forall db2 tally2,
         Database.upsertRecords server_clock client_clock fault found_rows db1 records
         = (db2, Ok tally2) ->
         fingerprints db2 = fingerprints db1
         /\ List.length (Database.facts_long db2) = List.length (Database.facts_long db1).
Proof.
  assert (F : forall d d' t,
             Database.upsertRecords server_clock client_clock fault found_rows d records
             = (d', Ok t) ->
             fingerprints d' = addFresh (fingerprints d) (map ProcessedRecord.hash_key records)).
  { intros d d' t. unfold Database.upsertRecords, fingerprints.
    destruct (negb (Database.connection d)); [discriminate|].
    destruct records as [|r more]; [intro H; injection H as <- _; reflexivity|].
    destruct (fault (Database.calls d)); [discriminate|].
    pose proof (statement_fingerprints found_rows (client_clock (Database.calls d))
                  (server_clock (Database.calls d)) (r :: more)
                  (Database.facts_long d) (Database.next_id d)) as S.
    destruct (Database.insertOnDuplicateKeyUpdate _ _ _ _ _ _) as [[rows nextId] m].
    intro H. injection H as <- _. exact S. }
  intros db1 tally1 H1.
  pose proof (F _ _ _ H1) as E1.
  assert (Hall : forall r, In r records -> In (ProcessedRecord.hash_key r) (fingerprints db1)).
  { intros r Hin. rewrite E1. apply addFresh_holds. now apply in_map. }
  split; [exact E1|]. split; [rewrite E1; apply addFresh_prefix|]. split; [exact Hall|].
  intros db2 tally2 H2.
  assert (E2 : fingerprints db2 = fingerprints db1).
  { rewrite (F _ _ _ H2). apply addFresh_stored.
    intros h Hin. apply in_map_iff in Hin as (r & <- & Hin). now apply Hall. }
  split; [exact E2|].
  unfold fingerprints in E2.
  rewrite <- (length_map Database.hash_key (Database.facts_long db2)), E2.
  apply length_map.
Qed.

Lemma upsert_idempotent_witness :
  fingerprints storedTwice = ["a"; "z"]
  /\ fingerprints afterBatch = ["a"; "z"; "b"; "c"]
  /\ In "b" (fingerprints afterBatch)
  /\ fingerprints afterAgain = ["a"; "z"; "b"; "c"]
  /\ List.length (Database.facts_long afterAgain) = 4%nat.
Proof.
  assert (E1 : Database.upsertRecords tickingClock tickingClock noFault false storedTwice
                 repeatedBatch
               = (afterBatch, Ok (Database.mkResult 2 2 0 0)))
    by (vm_compute; reflexivity).
  assert (E2 : Database.upsertRecords tickingClock tickingClock noFault false afterBatch
                 repeatedBatch
               = (afterAgain, Ok (Database.mkResult 0 4 0 0)))
    by (vm_compute; reflexivity).
  destruct (upsert_idempotent tickingClock tickingClock noFault false storedTwice
              repeatedBatch afterBatch _ E1) as (F1 & _ & Held & Again).
  destruct (Again afterAgain _ E2) as (F2 & L2).
  assert (F : fingerprints afterBatch = ["a"; "z"; "b"; "c"])
    by (rewrite F1; vm_compute; reflexivity).
  split; [vm_compute; reflexivity|]. split; [exact F|].
  split; [apply (Held (recordWithHash "b")); now left|].
  split; [rewrite F2; exact F|].
  rewrite L2, <- (length_map Database.hash_key (Database.facts_long afterBatch)).
  change (map Database.hash_key (Database.facts_long afterBatch))
    with (fingerprints afterBatch).
  now rewrite F.
Defined.

(** ** Checkpoints *)

Lemma SourceType_eqb_eq (a b : SourceType) : Database.SourceType_eqb a b = true <-> a = b.
Proof. destruct a, b; cbn; split; intro H; try reflexivity; discriminate H. Qed.

Lemma checkpointFor_written (sourceType : SourceType) (sourceRef : string) (offset : option Z)
    (at_ : Z) :
  Database.checkpointFor sourceType sourceRef
    {| Database.cp_source_type := sourceType; Database.cp_source_ref := sourceRef;
       Database.last_offset := offset; Database.last_processed_at := at_ |} = true.
Proof.
  unfold Database.checkpointFor. cbn.
  rewrite String.eqb_refl, (proj2 (SourceType_eqb_eq sourceType sourceType) eq_refl).
  reflexivity.
Qed.

Lemma writeCheckpoint_first (new : Database.CheckpointRow) (rows : list Database.CheckpointRow) :
  Database.checkpointFor (Database.cp_source_type new) (Database.cp_source_ref new) new = true ->
  exists rest,
    filter (Database.checkpointFor (Database.cp_source_type new) (Database.cp_source_ref new))
      (Database.writeCheckpoint new rows) = new :: rest.
Proof.
  intro Hnew.
  induction rows as [|old more IH]; cbn [Database.writeCheckpoint].
  - cbn [filter]. rewrite Hnew. now exists [].
  - destruct (Database.checkpointFor _ _ old) eqn:E.
    + cbn [filter]. rewrite Hnew. eexists. reflexivity.
    + cbn [filter]. rewrite E. exact IH.
Qed.

Lemma writeCheckpoint_other_type (new : Database.CheckpointRow) (sourceType : SourceType)
    (sourceRef : string) (rows : list Database.CheckpointRow) :
  sourceType <> Database.cp_source_type new ->
  filter (Database.checkpointFor sourceType sourceRef) (Database.writeCheckpoint new rows)
  = filter (Database.checkpointFor sourceType sourceRef) rows.
Proof.
  intro Hne.
  assert (N : Database.checkpointFor sourceType sourceRef new = false).
  { unfold Database.checkpointFor.
    destruct (Database.SourceType_eqb (Database.cp_source_type new) sourceType) eqn:E;
      [|reflexivity].
    apply SourceType_eqb_eq in E. now elim Hne. }
  induction rows as [|old more IH]; cbn [Database.writeCheckpoint filter].
  - now rewrite N.
  - destruct (Database.checkpointFor (Database.cp_source_type new) _ old) eqn:E.
    + cbn [filter]. rewrite N.
      assert (O : Database.checkpointFor sourceType sourceRef old = false).
      { unfold Database.checkpointFor in E |- *.
        apply andb_true_iff in E as [E _]. apply SourceType_eqb_eq in E.
        destruct (Database.SourceType_eqb (Database.cp_source_type old) sourceType) eqn:E';
          [|reflexivity].
        apply SourceType_eqb_eq in E'. elim Hne. congruence. }
      now rewrite O.
    + cbn [filter]. now rewrite IH.
Qed.

(** X14: on a connection, saving a checkpoint never throws and leaves the
    facts alone; when the write goes through, the next read of the same source
    returns the offset saved, and reads of sources of the other type return
    what they returned before; when the write fails, the failure is silent and
    the checkpoints stay as they were. *)
Theorem checkpoint_round_trip (server_clock : nat -> Z) (fault : nat -> bool)
    (db : Database.DatabaseManager) (sourceType : SourceType) (sourceRef : string)
    (offset : Z) :
  Database.connection db = true ->
  fitsInt offset ->
  let saved := Database.saveCheckpoint server_clock fault db sourceType sourceRef offset in
  snd saved = Ok tt
  /\ Database.facts_long (fst saved) = Database.facts_long db
  /\ Database.connection (fst saved) = true
  /\ Database.calls (fst saved) = S (Database.calls db)
  /\ (fault (Database.calls db) = false ->
      fault (S (Database.calls db)) = false ->
      snd (Database.getCheckpoint fault (fst saved) sourceType sourceRef) = Ok (Some offset)
      /\ forall otherType otherRef,
           otherType <> sourceType ->
           snd (Database.getCheckpoint fault (fst saved) otherType otherRef)
           = snd (Database.getCheckpoint fault db otherType otherRef))
  /\ (fault (Database.calls db) = true ->
      Database.etl_checkpoints (fst saved) = Database.etl_checkpoints db).
Proof.
  intros C _. unfold Database.saveCheckpoint. rewrite C. cbn [negb].
  destruct (fault (Database.calls db)) eqn:F.
  - cbn. repeat split; auto; discriminate.
  - cbn [fst snd Database.facts_long Database.connection Database.calls
         Database.etl_checkpoints].
    do 4 (split; [reflexivity|]). split; [|discriminate].
    intros _ F1. unfold Database.getCheckpoint.
    cbn [Database.connection Database.calls Database.etl_checkpoints negb].
    rewrite F1. split.
    + cbn [snd].
      set (new := {| Database.cp_source_type := sourceType;
                     Database.cp_source_ref := sourceRef;
                     Database.last_offset := Some offset;
                     Database.last_processed_at := server_clock (Database.calls db) |}).
      destruct (writeCheckpoint_first new (Database.etl_checkpoints db)
                  (checkpointFor_written sourceType sourceRef _ _)) as [rest E].
      cbn [Database.cp_source_type Database.cp_source_ref new] in E.
      rewrite E. reflexivity.
    + intros otherType otherRef Hne. rewrite C, F. cbn [negb snd].
      rewrite writeCheckpoint_other_type by exact Hne. reflexivity.
Qed.

Lemma checkpoint_round_trip_witness :
  snd (Database.getCheckpoint noFault
         (fst (Database.saveCheckpoint stoppedClock noFault connected api "r-1" 300))
         api "r-1") = Ok (Some 300).
Proof.
  pose proof (checkpoint_round_trip stoppedClock noFault connected api "r-1" 300
                eq_refl ltac:(unfold fitsInt; lia)) as H.
  cbv zeta in H. destruct H as (_ & _ & _ & _ & H & _).
  exact (proj1 (H eq_refl eq_refl)).
Defined.

(** ** Retries with exponential backoff *)

Lemma backoff_from (delay attempt : Z) (k : nat) :
  (delay * 2 ^ (attempt - 1)
   :: map (fun i => delay * 2 ^ (attempt + 1 - 1 + Z.of_nat i)) (seq 0 k))
  = map (fun i => delay * 2 ^ (attempt - 1 + Z.of_nat i)) (seq 0 (S k)).
Proof.
  cbn [seq map]. rewrite Z.add_0_r. f_equal.
  rewrite <- seq_shift, map_map. apply map_ext. intro i. do 2 f_equal. lia.
Qed.

Lemma backoff_first (delay : Z) (k : nat) :
  map (fun i => delay * 2 ^ (1 - 1 + Z.of_nat i)) (seq 0 k) = backoff delay k.
Proof. unfold backoff. apply map_ext. intro i. reflexivity. Qed.

Lemma fetch_attempts_success (axios_get : nat -> string -> result CKANResponse.t)
    (loader : CKANApiFetch.t) (url : string) (data : CKANResponse.t) (k : nat) :
  forall remaining attempt lastError w (errors : nat -> exn),
    (k < remaining)%nat ->
    attempt + Z.of_nat remaining = CKANApiFetch.maxRetries loader + 1 ->
    (forall i, (i < k)%nat ->
       axios_get (CKANApiFetch.requests w + i)%nat url = Throw (errors i)) ->
    axios_get (CKANApiFetch.requests w + k)%nat url = Ok data ->
    CKANApiFetch.attemptsFrom axios_get loader url remaining attempt lastError w
    = ({| CKANApiFetch.requests := CKANApiFetch.requests w + k + 1;
          CKANApiFetch.slept :=
            (CKANApiFetch.slept w
             ++ map (fun i => CKANApiFetch.retryDelay loader * 2 ^ (attempt - 1 + Z.of_nat i))
                  (seq 0 k))%list |},
       Ok data).
Proof.
  induction k as [|k IH]; intros remaining attempt lastError w errors Hk Ha Hfail Hok;
    (destruct remaining as [|remaining]; [lia|]); cbn [CKANApiFetch.attemptsFrom].
  - rewrite Nat.add_0_r in Hok. rewrite Hok. unfold CKANApiFetch.requested.
    cbn [seq map]. rewrite app_nil_r. do 2 f_equal. lia.
  - pose proof (Hfail 0%nat ltac:(lia)) as H0. rewrite Nat.add_0_r in H0. rewrite H0.
    destruct (Z.ltb_spec attempt (CKANApiFetch.maxRetries loader)) as [_|Hge]; [|lia].
    rewrite (IH remaining (attempt + 1) _ _ (fun i => errors (S i))).
    + cbn [CKANApiFetch.sleep CKANApiFetch.requested CKANApiFetch.requests
           CKANApiFetch.slept].
      rewrite <- app_assoc. cbn [app]. rewrite backoff_from. do 2 f_equal. lia.
    + lia.
    + lia.
    + intros i Hi. cbn [CKANApiFetch.sleep CKANApiFetch.requested CKANApiFetch.requests].
      replace (S (CKANApiFetch.requests w) + i)%nat
        with (CKANApiFetch.requests w + S i)%nat by lia.
      apply Hfail. lia.
    + cbn [CKANApiFetch.sleep CKANApiFetch.requested CKANApiFetch.requests].
      replace (S (CKANApiFetch.requests w) + k)%nat
        with (CKANApiFetch.requests w + S k)%nat by lia.
      exact Hok.
Qed.

Lemma fetch_attempts_failure (axios_get : nat -> string -> result CKANResponse.t)
    (loader : CKANApiFetch.t) (url : string) (remaining : nat) :
  forall attempt lastError w (errors : nat -> exn),
    attempt + Z.of_nat (S remaining) = CKANApiFetch.maxRetries loader + 1 ->
    (forall i, (i < S remaining)%nat ->
       axios_get (CKANApiFetch.requests w + i)%nat url = Throw (errors i)) ->
    CKANApiFetch.attemptsFrom axios_get loader url (S remaining) attempt lastError w
    = ({| CKANApiFetch.requests := CKANApiFetch.requests w + S remaining;
          CKANApiFetch.slept :=
            (CKANApiFetch.slept w
             ++ map (fun i => CKANApiFetch.retryDelay loader * 2 ^ (attempt - 1 + Z.of_nat i))
                  (seq 0 remaining))%list |},
       Throw (Error ("Failed to fetch data after "
                     ++ JS.Number_toString (JS.ofZ (CKANApiFetch.maxRetries loader))
                     ++ " attempts: " ++ CKANApiFetch.message (errors remaining)))).
Proof.
  induction remaining as [|remaining IH]; intros attempt lastError w errors Ha Hfail;
    cbn [CKANApiFetch.attemptsFrom].
  - pose proof (Hfail 0%nat ltac:(lia)) as H0. rewrite Nat.add_0_r in H0. rewrite H0.
    destruct (Z.ltb_spec attempt (CKANApiFetch.maxRetries loader)) as [Hlt|_]; [lia|].
    unfold CKANApiFetch.requested. cbn [seq map]. rewrite app_nil_r.
    do 2 f_equal. cbn. lia.
  - pose proof (Hfail 0%nat ltac:(lia)) as H0. rewrite Nat.add_0_r in H0. rewrite H0.
    destruct (Z.ltb_spec attempt (CKANApiFetch.maxRetries loader)) as [_|Hge]; [|lia].
    change (CKANApiFetch.attemptsFrom axios_get loader url (S remaining) (attempt + 1)
              (Some (errors 0%nat))
              (CKANApiFetch.sleep (CKANApiFetch.retryDelay loader * 2 ^ (attempt - 1))
                 (CKANApiFetch.requested w))
            = ({| CKANApiFetch.requests := CKANApiFetch.requests w + S (S remaining);
                  CKANApiFetch.slept :=
                    (CKANApiFetch.slept w
                     ++ map (fun i => CKANApiFetch.retryDelay loader
                                      * 2 ^ (attempt - 1 + Z.of_nat i))
                          (seq 0 (S remaining)))%list |},
               Throw (Error ("Failed to fetch data after "
                             ++ JS.Number_toString (JS.ofZ (CKANApiFetch.maxRetries loader))
                             ++ " attempts: "
                             ++ CKANApiFetch.message (errors (S remaining)))))).
    rewrite (IH (attempt + 1) _ _ (fun i => errors (S i))).
    + cbn [CKANApiFetch.sleep CKANApiFetch.requested CKANApiFetch.requests
           CKANApiFetch.slept].
      rewrite <- app_assoc. cbn [app]. rewrite backoff_from. do 2 f_equal. lia.
    + lia.
    + intros i Hi. cbn [CKANApiFetch.sleep CKANApiFetch.requested CKANApiFetch.requests].
      replace (S (CKANApiFetch.requests w) + i)%nat
        with (CKANApiFetch.requests w + S i)%nat by lia.
      apply Hfail. lia.
Qed.

Lemma fetch_attempts_bound (axios_get : nat -> string -> result CKANResponse.t)
    (loader : CKANApiFetch.t) (url : string) (remaining : nat) :
  forall attempt lastError w,
    let w' := fst (CKANApiFetch.attemptsFrom axios_get loader url remaining attempt
                     lastError w) in
    (CKANApiFetch.requests w <= CKANApiFetch.requests w'
     /\ CKANApiFetch.requests w' <= CKANApiFetch.requests w + remaining
     /\ List.length (CKANApiFetch.slept w') + CKANApiFetch.requests w
        <= List.length (CKANApiFetch.slept w) + CKANApiFetch.requests w')%nat.
Proof.
  induction remaining as [|remaining IH]; intros attempt lastError w;
    cbn [CKANApiFetch.attemptsFrom].
  - cbn [fst]. lia.
  - destruct (axios_get (CKANApiFetch.requests w) url) as [data|e].
    + cbn [fst CKANApiFetch.requested CKANApiFetch.requests CKANApiFetch.slept]. lia.
    + specialize (IH (attempt + 1) (Some e)
                    (if attempt <? CKANApiFetch.maxRetries loader
                     then CKANApiFetch.sleep
                            (CKANApiFetch.retryDelay loader * 2 ^ (attempt - 1))
                            (CKANApiFetch.requested w)
                     else CKANApiFetch.requested w)).
      cbv zeta in IH |- *.
      destruct (CKANApiFetch.attemptsFrom axios_get loader url remaining (attempt + 1)
                  (Some e) _) as [w' out].
      cbn [fst] in IH |- *.
      destruct (attempt <? CKANApiFetch.maxRetries loader);
        cbn [CKANApiFetch.sleep CKANApiFetch.requested CKANApiFetch.requests
             CKANApiFetch.slept] in IH;
        try rewrite length_app in IH; cbn [List.length] in IH; lia.
Qed.

(** X15: [fetchDataWithRetry] makes at most maxRetries requests.  When the
    first k of them fail and the next one is answered, with k below
    maxRetries, it returns that answer after k + 1 requests and after having
    slept retryDelay, 2 retryDelay, ..., 2^(k-1) retryDelay.  When all
    maxRetries requests fail it has slept before each retry but not after the
    last failure, and throws an error whose message names the number of
    attempts and carries the message of the last failure. *)
Theorem fetch_retry_schedule (axios_get : nat -> string -> result CKANResponse.t)
    (loader : CKANApiFetch.t) (resourceId : string) (offset limit : Z)
    (w : CKANApiFetch.World) (errors : nat -> exn) :
  let url := CKANApiFetch.requestUrl loader resourceId offset limit in
  let n := Z.to_nat (CKANApiFetch.maxRetries loader) in
  let fetched := CKANApiFetch.fetchDataWithRetry axios_get loader resourceId offset limit w in
  (forall k data,
     (k < n)%nat ->
     (forall i, (i < k)%nat ->
        axios_get (CKANApiFetch.requests w + i)%nat url = Throw (errors i)) ->
     axios_get (CKANApiFetch.requests w + k)%nat url = Ok data ->
     fetched
     = ({| CKANApiFetch.requests := CKANApiFetch.requests w + k + 1;
           CKANApiFetch.slept :=
             (CKANApiFetch.slept w ++ backoff (CKANApiFetch.retryDelay loader) k)%list |},
        Ok data))
  /\ ((0 < n)%nat ->
      (forall i, (i < n)%nat ->
         axios_get (CKANApiFetch.requests w + i)%nat url = Throw (errors i)) ->
      fetched
      = ({| CKANApiFetch.requests := CKANApiFetch.requests w + n;
            CKANApiFetch.slept :=
              (CKANApiFetch.slept w
               ++ backoff (CKANApiFetch.retryDelay loader) (n - 1))%list |},
         Throw (Error ("Failed to fetch data after "
                       ++ JS.Number_toString (JS.ofZ (CKANApiFetch.maxRetries loader))
                       ++ " attempts: " ++ CKANApiFetch.message (errors (n - 1)%nat)))))
  /\ (CKANApiFetch.requests (fst fetched) <= CKANApiFetch.requests w + n)%nat
  /\ (List.length (CKANApiFetch.slept (fst fetched)) + CKANApiFetch.requests w
      <= List.length (CKANApiFetch.slept w) + CKANApiFetch.requests (fst fetched))%nat.
Proof.
  intros url n fetched. subst fetched. unfold CKANApiFetch.fetchDataWithRetry. fold url n.
  split; [|split].
  - intros k data Hk Hfail Hok.
    rewrite (fetch_attempts_success axios_get loader url data k n 1 None w errors Hk
               ltac:(subst n; lia) Hfail Hok).
    now rewrite backoff_first.
  - intros Hn Hfail. destruct n as [|m] eqn:En; [lia|].
    rewrite (fetch_attempts_failure axios_get loader url m 1 None w errors
               ltac:(lia) Hfail).
    rewrite backoff_first. replace (S m - 1)%nat with m by lia. reflexivity.
  - pose proof (fetch_attempts_bound axios_get loader url n 1 None w) as B.
    cbv zeta in B. lia.
Qed.

Lemma fetch_retry_schedule_witness :
  CKANApiFetch.fetchDataWithRetry (tableServer firstFails sampleLoader "r-1" threeRows [0; 2])
    sampleLoader "r-1" 0 2 idle
  = ({| CKANApiFetch.requests := 2; CKANApiFetch.slept := [1000] |},
     Ok (page threeRows 0 2)).
Proof.
  pose proof (fetch_retry_schedule
                (tableServer firstFails sampleLoader "r-1" threeRows [0; 2])
                sampleLoader "r-1" 0 2 idle (fun _ => Error "socket hang up")) as H.
  cbv zeta in H. destruct H as [H _].
  apply (H 1%nat (page threeRows 0 2)).
  - vm_compute. lia.
  - intros i Hi. assert (i = 0)%nat as -> by lia. reflexivity.
  - reflexivity.
Defined.

(** ** Paging through a resource *)

Lemma fetch_first (axios_get : nat -> string -> result CKANResponse.t)
    (loader : CKANApiFetch.t) (resourceId : string) (offset limit : Z)
    (w : CKANApiFetch.World) (data : CKANResponse.t) :
  0 < CKANApiFetch.maxRetries loader ->
  axios_get (CKANApiFetch.requests w)
    (CKANApiFetch.requestUrl loader resourceId offset limit) = Ok data ->
  CKANApiFetch.fetchDataWithRetry axios_get loader resourceId offset limit w
  = (CKANApiFetch.requested w, Ok data).
Proof.
  intros Hm Hok. unfold CKANApiFetch.fetchDataWithRetry.
  destruct (Z.to_nat (CKANApiFetch.maxRetries loader)) as [|n] eqn:E; [lia|].
  cbn [CKANApiFetch.attemptsFrom]. now rewrite Hok.
Qed.

Lemma pageCount_last (len offset limit : Z) :
  0 < limit -> offset < len -> len <= offset + limit -> pageCount len offset limit = 1%nat.
Proof.
  intros Hl Ho Hlast. unfold pageCount.
  assert (E : (len - offset + limit - 1) / limit = 1)
    by (symmetry; apply Z.div_unique with (r := len - offset - 1); lia).
  rewrite E. reflexivity.
Qed.

Lemma pageCount_next (len offset limit : Z) :
  0 < limit -> offset + limit < len ->
  pageCount len offset limit = S (pageCount len (offset + limit) limit).
Proof.
  intros Hl Ho. unfold pageCount.
  replace (len - offset + limit - 1) with (len - (offset + limit) + limit - 1 + 1 * limit)
    by lia.
  rewrite Z.div_add by lia.
  assert (P : 1 <= (len - (offset + limit) + limit - 1) / limit)
    by (apply Z.div_le_lower_bound; lia).
  lia.
Qed.

Lemma pageCount_beyond (len offset limit : Z) :
  0 < limit -> len <= offset -> pageCount len offset limit = 1%nat.
Proof.
  intros Hl Ho. unfold pageCount.
  assert (P : (len - offset + limit - 1) / limit <= 0).
  { assert (Q : (len - offset + limit - 1) / limit < 1)
      by (apply Z.div_lt_upper_bound; lia).
    lia. }
  lia.
Qed.

(** The loop of [loadData] from an offset below the number of rows, against
    a server that answers every request by the page asked for. *)
Lemma loadLoop_pages (axios_get : nat -> string -> result CKANResponse.t)
    (RegExp_new : string -> result RegExp) (loader : CKANApiFetch.t)
    (sourceConfig : ApiSourceConfig.t) (data : list JS.value) :
  0 < CKANApiFetch.batchSize loader ->
  0 < CKANApiFetch.maxRetries loader ->
  forall fuel offset allRecords w,
    0 <= offset < Z.of_nat (List.length data) ->
    (forall n (j : nat),
       offset + Z.of_nat j * CKANApiFetch.batchSize loader < Z.of_nat (List.length data) ->
       axios_get n (CKANApiFetch.requestUrl loader (ApiSourceConfig.resource_id sourceConfig)
                      (offset + Z.of_nat j * CKANApiFetch.batchSize loader)
                      (CKANApiFetch.batchSize loader))
       = Ok (page data (offset + Z.of_nat j * CKANApiFetch.batchSize loader)
               (CKANApiFetch.batchSize loader))) ->
    (pageCount (Z.of_nat (List.length data)) offset (CKANApiFetch.batchSize loader) <= fuel)%nat ->
    CKANApiFetch.loadLoop axios_get RegExp_new fuel loader sourceConfig offset allRecords w
    = Some ({| CKANApiFetch.requests :=
                 CKANApiFetch.requests w
                 + pageCount (Z.of_nat (List.length data)) offset
                     (CKANApiFetch.batchSize loader);
               CKANApiFetch.slept :=
                 (CKANApiFetch.slept w
                  ++ repeat 100
                       (pageCount (Z.of_nat (List.length data)) offset
                          (CKANApiFetch.batchSize loader) - 1))%list |},
            Ok (allRecords
                ++ CKANApiLoader.processRecords RegExp_new (skipn (Z.to_nat offset) data)
                     sourceConfig)%list).
Proof.
  intros Hb Hm.
  set (b := CKANApiFetch.batchSize loader) in *.
  set (len := Z.of_nat (List.length data)).
  induction fuel as [|fuel IH]; intros offset allRecords w Ho Hserver Hfuel.
  - destruct (Z_le_gt_dec len (offset + b)) as [Hlast|Hmore].
    + rewrite (pageCount_last len offset b Hb) in Hfuel by lia. lia.
    + rewrite (pageCount_next len offset b Hb) in Hfuel by lia. lia.
  - cbn [CKANApiFetch.loadLoop]. fold b.
    pose proof (Hserver (CKANApiFetch.requests w) 0%nat) as H0.
    cbn [Z.of_nat] in H0. rewrite Z.mul_0_l, Z.add_0_r in H0. specialize (H0 (proj2 Ho)).
    rewrite (fetch_first axios_get loader _ offset b w _ Hm H0).
    cbn [page CKANResponse.success CKANResponse.result CKANResponse.records
         CKANResponse.total negb].
    rewrite (slice_chunk data offset b) by lia.
    set (rest := skipn (Z.to_nat offset) data).
    assert (Lrest : List.length rest = (List.length data - Z.to_nat offset)%nat)
      by (subst rest; apply length_skipn).
    assert (Lpage : List.length (firstn (Z.to_nat b) rest)
                    = Nat.min (Z.to_nat b) (List.length rest)) by apply length_firstn.
    destruct (Z.eqb_spec (Z.of_nat (List.length (firstn (Z.to_nat b) rest))) 0) as [E|_];
      [subst len; lia|].
    fold len.
    destruct (Z.ltb_spec (offset + b) len) as [Hmore|Hlast].
    + rewrite (IH (offset + b)).
      * rewrite (pageCount_next len offset b Hb Hmore).
        cbn [CKANApiFetch.sleep CKANApiFetch.requested CKANApiFetch.requests
             CKANApiFetch.slept].
        assert (P : (1 <= pageCount len (offset + b) b)%nat).
        { destruct (Z_le_gt_dec len (offset + b + b)) as [Hl|Hl].
          - rewrite (pageCount_last len (offset + b) b Hb) by lia. lia.
          - rewrite (pageCount_next len (offset + b) b Hb) by lia. lia. }
        f_equal. f_equal.
        -- f_equal; [lia|].
           rewrite <- app_assoc. f_equal.
           replace (S (pageCount len (offset + b) b) - 1)%nat
             with (S (pageCount len (offset + b) b - 1))%nat by lia.
           reflexivity.
        -- f_equal. rewrite <- app_assoc. f_equal.
           rewrite <- processRecords_app. f_equal.
           replace (Z.to_nat (offset + b)) with (Z.to_nat b + Z.to_nat offset)%nat by lia.
           rewrite <- skipn_skipn. fold rest. apply firstn_skipn.
      * lia.
      * intros n j Hj.
        replace (offset + b + Z.of_nat j * b) with (offset + Z.of_nat (S j) * b) in * by lia.
        now apply Hserver.
      * rewrite (pageCount_next len offset b Hb Hmore) in Hfuel. lia.
    + rewrite (pageCount_last len offset b Hb) by lia.
      cbn [repeat Nat.sub]. rewrite app_nil_r.
      rewrite firstn_all2 by (subst len; lia).
      unfold CKANApiFetch.requested. do 3 f_equal. lia.
Qed.

(** X16: against a server that answers each request by the page of rows
    asked for, with a positive page size and at least one attempt allowed,
    [loadData] ends and returns the canonical records of exactly the rows
    from the start offset on, in their order; it makes one request per page
    of the remaining rows (one when there is none), and sleeps 100 ms between
    two requests and not after the last. *)
Theorem loadData_pages (axios_get : nat -> string -> result CKANResponse.t)
    (RegExp_new : string -> result RegExp) (loader : CKANApiFetch.t)
    (sourceConfig : ApiSourceConfig.t) (data : list JS.value) (startOffset : Z)
    (w : CKANApiFetch.World) (fuel : nat) :
  let limit := CKANApiFetch.batchSize loader in
  let pages := pageCount (Z.of_nat (List.length data)) startOffset limit in
  0 < limit ->
  0 < CKANApiFetch.maxRetries loader ->
  0 <= startOffset ->
  (forall n (j : nat),
     (j = 0%nat \/ startOffset + Z.of_nat j * limit < Z.of_nat (List.length data)) ->
     axios_get n (CKANApiFetch.requestUrl loader (ApiSourceConfig.resource_id sourceConfig)
                    (startOffset + Z.of_nat j * limit) limit)
     = Ok (page data (startOffset + Z.of_nat j * limit) limit)) ->
  (pages <= fuel)%nat ->
  CKANApiFetch.loadData axios_get RegExp_new fuel loader sourceConfig startOffset w
  = Some ({| CKANApiFetch.requests := CKANApiFetch.requests w + pages;
             CKANApiFetch.slept := (CKANApiFetch.slept w ++ repeat 100 (pages - 1))%list |},
          Ok (CKANApiLoader.processRecords RegExp_new (skipn (Z.to_nat startOffset) data)
                sourceConfig)).
Proof.
  intros limit pages Hb Hm Hs Hserver Hfuel. unfold CKANApiFetch.loadData.
  destruct (Z_lt_ge_dec startOffset (Z.of_nat (List.length data))) as [Hin|Hout].
  - rewrite (loadLoop_pages axios_get RegExp_new loader sourceConfig data Hb Hm fuel
               startOffset [] w (conj Hs Hin)).
    + reflexivity.
    + intros n j Hj. apply Hserver. now right.
    + exact Hfuel.
  - subst pages. rewrite (pageCount_beyond _ startOffset limit Hb) in * by lia.
    destruct fuel as [|fuel]; [lia|].
    cbn [CKANApiFetch.loadLoop]. fold limit.
    pose proof (Hserver (CKANApiFetch.requests w) 0%nat (or_introl eq_refl)) as H0.
    cbn [Z.of_nat] in H0. rewrite Z.mul_0_l, Z.add_0_r in H0.
    rewrite (fetch_first axios_get loader _ startOffset limit w _ Hm H0).
    cbn [page CKANResponse.success CKANResponse.result CKANResponse.records
         CKANResponse.total negb].
    rewrite (slice_chunk data startOffset limit) by lia.
    rewrite (skipn_all2 data) by lia.
    rewrite firstn_nil. cbn [List.length Z.of_nat Z.eqb repeat Nat.sub].
    rewrite app_nil_r. unfold CKANApiFetch.requested.
    cbn [CKANApiLoader.processRecords]. do 3 f_equal. lia.
Qed.

Lemma loadData_pages_witness :
  CKANApiFetch.loadData (tableServer noFault sampleLoader "r-1" threeRows [0; 2])
    MiniRegExp.RegExp_new 2 sampleLoader longSource 0 idle
  = Some ({| CKANApiFetch.requests := 2; CKANApiFetch.slept := [100] |},
          Ok (CKANApiLoader.processRecords MiniRegExp.RegExp_new threeRows longSource)).
Proof.
  apply (loadData_pages (tableServer noFault sampleLoader "r-1" threeRows [0; 2])
           MiniRegExp.RegExp_new sampleLoader longSource threeRows 0 idle 2).
  - reflexivity.
  - reflexivity.
  - lia.
  - intros n j [->|Hj]; [reflexivity|].
    destruct j as [|[|j]]; [reflexivity|reflexivity|].
    exfalso. change (CKANApiFetch.batchSize sampleLoader) with 2 in Hj.
    change (Z.of_nat (List.length threeRows)) with 3 in Hj. lia.
  - vm_compute. lia.
Defined.

(** ** The generic retry of the helpers *)

Lemma retry_attempts_success (A : Type) (fn : nat -> result A) (maxRetries baseDelay : Z)
    (a : A) (k : nat) :
  forall remaining attempt lastError w (errors : nat -> exn),
    (k < remaining)%nat ->
    attempt + Z.of_nat remaining = maxRetries + 1 ->
    (forall i, (i < k)%nat -> fn (CKANApiFetch.requests w + i)%nat = Throw (errors i)) ->
    fn (CKANApiFetch.requests w + k)%nat = Ok a ->
    Retry.attemptsFrom A fn maxRetries baseDelay remaining attempt lastError w
    = ({| CKANApiFetch.requests := CKANApiFetch.requests w + k + 1;
          CKANApiFetch.slept :=
            (CKANApiFetch.slept w
             ++ map (fun i => baseDelay * 2 ^ (attempt - 1 + Z.of_nat i)) (seq 0 k))%list |},
       inl a).
Proof.
  induction k as [|k IH]; intros remaining attempt lastError w errors Hk Ha Hfail Hok;
    (destruct remaining as [|remaining]; [lia|]); cbn [Retry.attemptsFrom].
  - rewrite Nat.add_0_r in Hok. rewrite Hok. unfold CKANApiFetch.requested.
    cbn [seq map]. rewrite app_nil_r. do 2 f_equal. lia.
  - pose proof (Hfail 0%nat ltac:(lia)) as H0. rewrite Nat.add_0_r in H0. rewrite H0.
    destruct (Z.eqb_spec attempt maxRetries) as [Heq|_]; [lia|].
    rewrite (IH remaining (attempt + 1) _ _ (fun i => errors (S i))).
    + cbn [CKANApiFetch.sleep CKANApiFetch.requested CKANApiFetch.requests
           CKANApiFetch.slept].
      rewrite <- app_assoc. cbn [app]. rewrite backoff_from. do 2 f_equal. lia.
    + lia.
    + lia.
    + intros i Hi. cbn [CKANApiFetch.sleep CKANApiFetch.requested CKANApiFetch.requests].
      replace (S (CKANApiFetch.requests w) + i)%nat
        with (CKANApiFetch.requests w + S i)%nat by lia.
      apply Hfail. lia.
    + cbn [CKANApiFetch.sleep CKANApiFetch.requested CKANApiFetch.requests].
      replace (S (CKANApiFetch.requests w) + k)%nat
        with (CKANApiFetch.requests w + S k)%nat by lia.
      exact Hok.
Qed.

Lemma retry_attempts_failure (A : Type) (fn : nat -> result A) (maxRetries baseDelay : Z)
    (remaining : nat) :
  forall attempt lastError w (errors : nat -> exn),
    attempt + Z.of_nat (S remaining) = maxRetries + 1 ->
    (forall i, (i < S remaining)%nat ->
       fn (CKANApiFetch.requests w + i)%nat = Throw (errors i)) ->
    Retry.attemptsFrom A fn maxRetries baseDelay (S remaining) attempt lastError w
    = ({| CKANApiFetch.requests := CKANApiFetch.requests w + S remaining;
          CKANApiFetch.slept :=
            (CKANApiFetch.slept w
             ++ map (fun i => baseDelay * 2 ^ (attempt - 1 + Z.of_nat i))
                  (seq 0 remaining))%list |},
       inr (Some (errors remaining))).
Proof.
  induction remaining as [|remaining IH]; intros attempt lastError w errors Ha Hfail.
  - cbn [Retry.attemptsFrom].
    pose proof (Hfail 0%nat ltac:(lia)) as H0. rewrite Nat.add_0_r in H0. rewrite H0.
    destruct (Z.eqb_spec attempt maxRetries) as [_|Hne]; [|lia].
    unfold CKANApiFetch.requested. cbn [seq map]. rewrite app_nil_r.
    do 2 f_equal. lia.
  - remember (S remaining) as m eqn:Em. cbn [Retry.attemptsFrom].
    pose proof (Hfail 0%nat ltac:(lia)) as H0. rewrite Nat.add_0_r in H0. rewrite H0.
    destruct (Z.eqb_spec attempt maxRetries) as [Heq|_]; [lia|].
    subst m.
    rewrite (IH (attempt + 1) _ _ (fun i => errors (S i))).
    + cbn [CKANApiFetch.sleep CKANApiFetch.requested CKANApiFetch.requests
           CKANApiFetch.slept].
      rewrite <- app_assoc. cbn [app]. rewrite backoff_from. do 2 f_equal. lia.
    + lia.
    + intros i Hi. cbn [CKANApiFetch.sleep CKANApiFetch.requested CKANApiFetch.requests].
      replace (S (CKANApiFetch.requests w) + i)%nat
        with (CKANApiFetch.requests w + S i)%nat by lia.
      apply Hfail. lia.
Qed.

(** X17: [retryWithBackoff] calls [fn] at most maxRetries times, 3 by
    default, waiting baseDelay, 2 baseDelay, 4 baseDelay, ... between the
    calls.  It returns the first answer; when every call fails it throws the
    error of the last call itself, without a wait after it; when maxRetries
    is 0 or less it never calls [fn] and throws undefined. *)
Theorem retryWithBackoff_schedule (A : Type) (fn : nat -> result A)
    (maxRetries baseDelay : option Z) (w : CKANApiFetch.World) (errors : nat -> exn) :
  let limit := match maxRetries with Some n => n | None => 3 end in
  let delay := match baseDelay with Some d => d | None => 1000 end in
  let n := Z.to_nat limit in
  let outcome := Retry.retryWithBackoff A fn maxRetries baseDelay w in
  (forall k a,
     (k < n)%nat ->
     (forall i, (i < k)%nat -> fn (CKANApiFetch.requests w + i)%nat = Throw (errors i)) ->
     fn (CKANApiFetch.requests w + k)%nat = Ok a ->
     outcome
     = ({| CKANApiFetch.requests := CKANApiFetch.requests w + k + 1;
           CKANApiFetch.slept := (CKANApiFetch.slept w ++ backoff delay k)%list |},
        inl a))
  /\ ((0 < n)%nat ->
      (forall i, (i < n)%nat -> fn (CKANApiFetch.requests w + i)%nat = Throw (errors i)) ->
      outcome
      = ({| CKANApiFetch.requests := CKANApiFetch.requests w + n;
            CKANApiFetch.slept := (CKANApiFetch.slept w ++ backoff delay (n - 1))%list |},
         inr (Some (errors (n - 1)%nat))))
  /\ (limit <= 0 -> outcome = (w, inr None)).
Proof.
  intros limit delay n outcome. subst outcome. unfold Retry.retryWithBackoff.
  fold limit delay n. split; [|split].
  - intros k a Hk Hfail Hok.
    rewrite (retry_attempts_success A fn limit delay a k n 1 None w errors Hk
               ltac:(subst n; lia) Hfail Hok).
    now rewrite backoff_first.
  - intros Hn Hfail. destruct n as [|m] eqn:En; [lia|].
    rewrite (retry_attempts_failure A fn limit delay m 1 None w errors ltac:(lia) Hfail).
    rewrite backoff_first. replace (S m - 1)%nat with m by lia. reflexivity.
  - intro Hl. replace n with 0%nat by (subst n; lia). reflexivity.
Qed.

Lemma retryWithBackoff_schedule_witness :
  Retry.retryWithBackoff Z busyOnce None None idle
  = ({| CKANApiFetch.requests := 2; CKANApiFetch.slept := [1000] |}, inl 7).
Proof.
  pose proof (retryWithBackoff_schedule Z busyOnce None None idle
                (fun _ => Error "busy")) as H.
  cbv zeta in H. destruct H as [H _].
  apply (H 1%nat 7).
  - vm_compute. lia.
  - intros i Hi. assert (i = 0)%nat as -> by lia. reflexivity.
  - reflexivity.
Defined.

(** ** Batches of an array *)

Lemma batchFrom_chunks {A : Type} (array : list A) (batchSize : Z) :
  0 < batchSize ->
  forall fuel i batches,
    0 <= i ->
    (List.length (skipn (Z.to_nat i) array) <= fuel)%nat ->
    ArrayHelpers.batchFrom fuel array batchSize i batches
    = Some (batches ++ chunks (Z.to_nat batchSize) (skipn (Z.to_nat i) array))%list.
Proof.
  intros Hs fuel.
  induction fuel as [|fuel IH]; intros i batches Hi Hfuel.
  - assert (E : skipn (Z.to_nat i) array = [])
      by (destruct (skipn (Z.to_nat i) array); [reflexivity|cbn in Hfuel; lia]).
    rewrite E. cbn [ArrayHelpers.batchFrom].
    destruct (Z.ltb_spec i (Z.of_nat (List.length array))) as [Hlt|];
      [|now rewrite app_nil_r].
    apply (f_equal (@List.length _)) in E. rewrite length_skipn in E. cbn in E. lia.
  - cbn [ArrayHelpers.batchFrom].
    destruct (Z.ltb_spec i (Z.of_nat (List.length array))) as [Hlt|Hge].
    + rewrite (slice_chunk array i batchSize Hi Hs).
      destruct (skipn (Z.to_nat i) array) as [|x r] eqn:E.
      { apply (f_equal (@List.length _)) in E. rewrite length_skipn in E. cbn in E. lia. }
      rewrite (chunks_cons (Z.to_nat batchSize) x r) by lia.
      assert (S : skipn (Z.to_nat (i + batchSize)) array
                  = skipn (Z.to_nat batchSize) (x :: r)).
      { rewrite <- E, skipn_skipn. f_equal. lia. }
      rewrite IH; [|lia|].
      * rewrite S, <- app_assoc. reflexivity.
      * rewrite S, length_skipn. cbn [List.length] in Hfuel |- *. lia.
    + rewrite (skipn_all2 (n := Z.to_nat i)) by lia. now rewrite app_nil_r.
Qed.

Lemma batchFrom_stuck {A : Type} (array : list A) (batchSize : Z) :
  batchSize <= 0 -> array <> [] ->
  forall fuel i batches,
    i <= 0 -> ArrayHelpers.batchFrom fuel array batchSize i batches = None.
Proof.
  intros Hs Hne fuel.
  assert (L : 0 < Z.of_nat (List.length array))
    by (destruct array; [now elim Hne|cbn [List.length]; lia]).
  induction fuel as [|fuel IH]; intros i batches Hi; cbn [ArrayHelpers.batchFrom];
    (destruct (Z.ltb_spec i (Z.of_nat (List.length array))) as [_|Hge]; [|lia]).
  - reflexivity.
  - apply IH. lia.
Qed.

(** X18: for a positive batch size [batchArray] ends and cuts the array in
    consecutive batches: put end to end they give the array back, none is
    empty and none is longer than the batch size.  For a batch size of 0 or
    less it never ends on an array that is not empty.  An empty array gives
    no batch, whatever the size. *)
Theorem batchArray_partition {A : Type} (array : list A) (batchSize : Z) (fuel : nat) :
  (0 < batchSize ->
   (List.length array <= fuel)%nat ->
   exists batches,
     ArrayHelpers.batchArray fuel array batchSize = Some batches
     /\ batches = chunks (Z.to_nat batchSize) array
     /\ List.concat batches = array
     /\ Forall (fun batch => 0 < Z.of_nat (List.length batch) <= batchSize) batches)
  /\ (batchSize <= 0 -> array <> [] -> ArrayHelpers.batchArray fuel array batchSize = None)
  /\ ArrayHelpers.batchArray fuel (@nil A) batchSize = Some [].
Proof.
  split; [|split].
  - intros Hs Hfuel. exists (chunks (Z.to_nat batchSize) array).
    unfold ArrayHelpers.batchArray.
    rewrite (batchFrom_chunks array batchSize Hs fuel 0 [] (Z.le_refl 0)) by exact Hfuel.
    split; [reflexivity|]. split; [reflexivity|].
    destruct (chunks_partition (Z.to_nat batchSize) ltac:(lia) array) as [Hc Hf].
    split; [exact Hc|].
    apply Forall_impl with (2 := Hf). intros batch Hb. lia.
  - intros Hs Hne. apply batchFrom_stuck; [exact Hs|exact Hne|lia].
  - destruct fuel; reflexivity.
Qed.

Lemma batchArray_partition_witness :
  exists batches,
    ArrayHelpers.batchArray 5 fiveRecords 2 = Some batches
    /\ List.concat batches = fiveRecords.
Proof.
  destruct (proj1 (batchArray_partition fiveRecords 2 5) ltac:(lia) ltac:(cbn; lia))
    as (batches & H1 & _ & H2 & _).
  exists batches. split; [exact H1|exact H2].
Defined.

(** ** Processing one source *)

Lemma sameData_refl (s : DatabaseLog.Store) : sameData s s.
Proof. repeat split. Qed.

Lemma sameData_trans (a b c : DatabaseLog.Store) :
  sameData a b -> sameData b c -> sameData a c.
Proof. unfold sameData. intros (A1 & A2 & A3) (B1 & B2 & B3). repeat split; congruence. Qed.

Lemma logged_refl (s : DatabaseLog.Store) : logged s s [].
Proof. unfold logged. now rewrite app_nil_r. Qed.

Lemma logged_trans (a b c : DatabaseLog.Store) (x y : list DatabaseLog.LogRow) :
  logged a b x -> logged b c y -> logged a c (x ++ y).
Proof. unfold logged. intros E1 E2. now rewrite E2, E1, app_assoc. Qed.

(** What one call of [logEtlActivity] does: it writes no fact and no
    checkpoint, throws only without a connection, and adds at most one row,
    which has the status of the entry. *)
Lemma logEtlActivity_frame (server_clock client_clock : nat -> Z) (fault : nat -> bool)
    (s : DatabaseLog.Store) (entry : DatabaseLog.EtlLogEntry) :
  let step := DatabaseLog.logEtlActivity server_clock client_clock fault s entry in
  sameData s (fst step)
  /\ (exists added,
        logged s (fst step) added
        /\ Forall (fun row => DatabaseLog.log_status row = DatabaseLog.status entry
                              /\ DatabaseLog.log_error_message row
                                 = DatabaseLog.orNull (DatabaseLog.error_message entry)
                              /\ DatabaseLog.log_total_records row
                                 = DatabaseLog.orZero (DatabaseLog.total_records entry)
                              /\ DatabaseLog.log_new_records row
                                 = DatabaseLog.orZero (DatabaseLog.new_records entry)
                              /\ DatabaseLog.log_updated_records row
                                 = DatabaseLog.orZero (DatabaseLog.updated_records entry)
                              /\ (DatabaseLog.completed_at row <> None <->
                                  DatabaseLog.status entry = DatabaseLog.completed)) added
        /\ (List.length added <= 1)%nat
        /\ (Database.connection (DatabaseLog.manager s) = true ->
            fault (Database.calls (DatabaseLog.manager s)) = false ->
            List.length added = 1%nat))
  /\ (Database.connection (DatabaseLog.manager s) = true ->
      snd step = Ok tt
      /\ Database.calls (DatabaseLog.manager (fst step))
         = S (Database.calls (DatabaseLog.manager s)))
  /\ (Database.connection (DatabaseLog.manager s) = false ->
      step = (s, Throw (Error "Database connection not established"))).
Proof.
  unfold DatabaseLog.logEtlActivity, sameData, logged.
  destruct (Database.connection (DatabaseLog.manager s)) eqn:C; cbn [negb].
  - destruct (fault (Database.calls (DatabaseLog.manager s))) eqn:F; cbn [fst snd].
    + split; [cbn; now rewrite C|].
      split; [|split; [intros _; split; reflexivity|discriminate]].
      exists []. cbn. rewrite app_nil_r.
      split; [reflexivity|]. split; [constructor|]. split; [lia|discriminate].
    + split; [cbn; now rewrite C|].
      split; [|split; [intros _; split; reflexivity|discriminate]].
      eexists [_]. split; [reflexivity|]. split; [|split; [cbn; lia|reflexivity]].
      constructor; [|constructor].
      cbn. repeat split; try reflexivity.
      * destruct (DatabaseLog.status entry); [intro H; now elim H|reflexivity|
                                               intro H; now elim H].
      * intros ->. discriminate.
  - cbn [fst snd]. split; [now rewrite C|].
    split; [|split; [discriminate|reflexivity]].
    exists []. rewrite app_nil_r.
    split; [reflexivity|]. split; [constructor|]. split; [cbn; lia|discriminate].
Qed.

Lemma getCheckpoint_frame (fault : nat -> bool) (db : Database.DatabaseManager)
    (sourceType : SourceType) (sourceRef : string) :
  let step := Database.getCheckpoint fault db sourceType sourceRef in
  Database.facts_long (fst step) = Database.facts_long db
  /\ Database.etl_checkpoints (fst step) = Database.etl_checkpoints db
  /\ Database.connection (fst step) = Database.connection db
  /\ (Database.connection db = true ->
      (exists offset, snd step = Ok offset)
      /\ Database.calls (fst step) = S (Database.calls db)).
Proof.
  unfold Database.getCheckpoint.
  destruct (Database.connection db) eqn:C; cbn [negb].
  - destruct (fault (Database.calls db)); cbn [fst snd Database.tick Database.facts_long
      Database.etl_checkpoints Database.connection Database.calls];
      (split; [reflexivity|]); (split; [reflexivity|]); (split; [exact C|]);
      intros _; (split; [eexists; reflexivity|reflexivity]).
  - cbn [fst snd]. rewrite C. repeat split; auto; discriminate.
Qed.

(** The catch clause adds at most one row, a failed one, and writes nothing
    else; on a connection it throws the error again. *)
Lemma catchAndLog_frame (server_clock client_clock : nat -> Z) (fault : nat -> bool)
    (entry : DatabaseLog.EtlLogEntry) (s : DatabaseLog.Store) (out : result unit) :
  exists s' out',
    EtlRun.catchAndLog server_clock client_clock fault entry (Some (s, out))
    = Some (s', out')
    /\ sameData s s'
    /\ (exists added,
          logged s s' added
          /\ Forall (fun row => DatabaseLog.log_status row = DatabaseLog.failed
                                /\ DatabaseLog.completed_at row = None
                                /\ exists e, out = Throw e
                                             /\ DatabaseLog.log_error_message row
                                                = DatabaseLog.orNull
                                                    (Some (CKANApiFetch.message e))) added
          /\ (out = Ok tt -> added = [])
          /\ (forall e, out = Throw e ->
              Database.connection (DatabaseLog.manager s) = true ->
              fault (Database.calls (DatabaseLog.manager s)) = false ->
              List.length added = 1%nat))
    /\ (out = Ok tt -> out' = Ok tt /\ s' = s)
    /\ (forall e, out = Throw e ->
        Database.connection (DatabaseLog.manager s) = true -> out' = Throw e)
    /\ (Database.connection (DatabaseLog.manager s) = false ->
        s' = s
        /\ (out <> Ok tt -> out' = Throw (Error "Database connection not established"))).
Proof.
  unfold EtlRun.catchAndLog.
  destruct out as [[]|error].
  - exists s, (Ok tt). split; [reflexivity|]. split; [apply sameData_refl|].
    split.
    + exists []. split; [apply logged_refl|]. split; [constructor|].
      split; [reflexivity|discriminate].
    + split; [intros _; split; reflexivity|]. split; [discriminate|].
      intros _. split; [reflexivity|]. intro H. now elim H.
  - pose proof (logEtlActivity_frame server_clock client_clock fault s
                  (EtlRun.failedEntry entry (CKANApiFetch.message error))) as F.
    destruct (DatabaseLog.logEtlActivity server_clock client_clock fault s
                (EtlRun.failedEntry entry (CKANApiFetch.message error))) as [s' logged'].
    cbn [fst snd] in F. destruct F as (D & (added & L & A & N & N1) & Con & Dis).
    eexists s', _. split; [reflexivity|]. split; [exact D|].
    split.
    + exists added. split; [exact L|]. split.
      * apply Forall_impl with (2 := A). cbn [EtlRun.failedEntry DatabaseLog.status
          DatabaseLog.error_message].
        intros row (St & Em & _ & _ & _ & Ca). split; [exact St|].
        split; [|exists error; split; [reflexivity|exact Em]].
        destruct (DatabaseLog.completed_at row) eqn:E; [|reflexivity].
        assert (X : DatabaseLog.failed = DatabaseLog.completed)
          by (apply Ca; discriminate).
        discriminate X.
      * split; [discriminate|]. intros e _ C Fl. exact (N1 C Fl).
    + split; [discriminate|]. split.
      * intros e E C. injection E as <-. destruct (Con C) as [-> _]. reflexivity.
      * intros C. specialize (Dis C). injection Dis as -> ->. split; reflexivity.
Qed.

Lemma startedRow_of (entry : DatabaseLog.EtlLogEntry) (row : DatabaseLog.LogRow) :
  DatabaseLog.status entry = DatabaseLog.started ->
  DatabaseLog.log_status row = DatabaseLog.status entry ->
  (DatabaseLog.completed_at row <> None <->
   DatabaseLog.status entry = DatabaseLog.completed) ->
  startedRow row.
Proof.
  intros S E Ca. split; [congruence|].
  destruct (DatabaseLog.completed_at row) eqn:C; [|reflexivity].
  assert (X : DatabaseLog.status entry = DatabaseLog.completed)
    by (apply Ca; discriminate).
  congruence.
Qed.

(** The try block of [processApiSource] up to the load, when the load gives
    nothing to write or the run is a dry run. *)
Lemma tryApiSource_no_write (server_clock client_clock : nat -> Z) (fault : nat -> bool)
    (found_rows : bool) (settings : EtlRun.Settings)
    (loadData : ApiSourceConfig.t -> option Z -> result (list ProcessedRecord.t))
    (fuel : nat) (sourceConfig : ApiSourceConfig.t) (options : EtlRunner.EtlOptions)
    (s : DatabaseLog.Store) :
  (EtlRunner.dryRun options = true
   \/ forall offset records, loadData sourceConfig offset = Ok records -> records = []) ->
  exists s1 out,
    EtlRun.tryApiSource server_clock client_clock fault found_rows settings loadData fuel
      sourceConfig options s = Some (s1, out)
    /\ sameData s s1
    /\ (exists added,
          logged s s1 added /\ Forall startedRow added /\ (List.length added <= 1)%nat
          /\ (Database.connection (DatabaseLog.manager s) = true ->
              fault (Database.calls (DatabaseLog.manager s)) = false ->
              List.length added = 1%nat))
    /\ (Database.connection (DatabaseLog.manager s) = true ->
        Database.connection (DatabaseLog.manager s1) = true
        /\ (Database.calls (DatabaseLog.manager s)
            < Database.calls (DatabaseLog.manager s1)
            <= Database.calls (DatabaseLog.manager s) + 2)%nat
        /\ (out = Ok tt
            \/ exists offset e, loadData sourceConfig offset = Throw e /\ out = Throw e))
    /\ (Database.connection (DatabaseLog.manager s) = false ->
        s1 = s /\ out = Throw (Error "Database connection not established")).
Proof.
  intro Hearly. unfold EtlRun.tryApiSource.
  set (entry := EtlRun.logEntry api (ApiSourceConfig.resource_id sourceConfig)
                  (ApiSourceConfig.kategori sourceConfig)).
  pose proof (logEtlActivity_frame server_clock client_clock fault s entry) as F.
  destruct (DatabaseLog.logEtlActivity server_clock client_clock fault s entry)
    as [s1 logged1].
  cbn [fst snd] in F. destruct F as (D1 & (added & L & A & N & N1) & Con & Dis).
  assert (St : Forall startedRow added).
  { apply Forall_impl with (2 := A). intros row (E & _ & _ & _ & _ & Ca).
    now apply (startedRow_of entry). }
  destruct (Database.connection (DatabaseLog.manager s)) eqn:C.
  - destruct (Con eq_refl) as [-> K1].
    assert (C1 : Database.connection (DatabaseLog.manager s1) = true)
      by (destruct D1 as (_ & _ & E); congruence).
    destruct (EtlRun.enable_checkpoints settings).
    + pose proof (getCheckpoint_frame fault (DatabaseLog.manager s1) api
                    (ApiSourceConfig.resource_id sourceConfig)) as G.
      destruct (Database.getCheckpoint fault (DatabaseLog.manager s1) api
                  (ApiSourceConfig.resource_id sourceConfig)) as [db offset].
      cbn [fst snd] in G. destruct G as (G1 & G2 & G3 & G4).
      destruct (G4 C1) as [[startOffset ->] K2].
      assert (D2 : sameData s (DatabaseLog.withManager s1 db)).
      { apply sameData_trans with (1 := D1). repeat split; cbn; assumption. }
      assert (Fin : exists out,
                 (out = Ok tt
                  \/ exists offset e, loadData sourceConfig offset = Throw e
                                      /\ out = Throw e)
                 /\ match loadData sourceConfig startOffset with
                    | Ok records =>
                        if Z.of_nat (List.length records) =? 0
                        then Some (DatabaseLog.withManager s1 db, Ok tt)
                        else if EtlRunner.dryRun options
                             then Some (DatabaseLog.withManager s1 db, Ok tt)
                             else EtlRun.writeRecords server_clock client_clock fault
                                    found_rows settings fuel
                                    (DatabaseLog.withManager s1 db) entry records
                                    (EtlRunner.apiFiltered options records)
                                    (if true && (0 <? Z.of_nat (List.length records))
                                     then Some (EtlRun.offsetNumber startOffset
                                                + Z.of_nat (List.length records))
                                     else None)
                    | Throw e => Some (DatabaseLog.withManager s1 db, Throw e)
                    end = Some (DatabaseLog.withManager s1 db, out)).
      { destruct (loadData sourceConfig startOffset) as [records|e] eqn:E.
        - destruct Hearly as [Hdry|Hnone].
          + rewrite Hdry. exists (Ok tt). split; [now left|].
            destruct (Z.of_nat (List.length records) =? 0); reflexivity.
          + rewrite (Hnone _ _ E). exists (Ok tt). split; [now left|reflexivity].
        - exists (Throw e). split; [right; now exists startOffset, e|reflexivity]. }
      destruct Fin as (out & Hout & ->).
      exists (DatabaseLog.withManager s1 db), out. split; [reflexivity|].
      split; [exact D2|]. split.
      * exists added. split; [exact L|]. split; [exact St|]. split; [exact N|].
        intros _ Fl. now apply N1.
      * split; [|discriminate]. intros _. cbn [DatabaseLog.withManager DatabaseLog.manager].
        split; [congruence|]. split; [lia|exact Hout].
    + assert (Fin : exists out,
                 (out = Ok tt
                  \/ exists offset e, loadData sourceConfig offset = Throw e
                                      /\ out = Throw e)
                 /\ match loadData sourceConfig (Some 0) with
                    | Ok records =>
                        if Z.of_nat (List.length records) =? 0 then Some (s1, Ok tt)
                        else if EtlRunner.dryRun options then Some (s1, Ok tt)
                             else EtlRun.writeRecords server_clock client_clock fault
                                    found_rows settings fuel s1 entry records
                                    (EtlRunner.apiFiltered options records)
                                    (if false && (0 <? Z.of_nat (List.length records))
                                     then Some (EtlRun.offsetNumber (Some 0)
                                                + Z.of_nat (List.length records))
                                     else None)
                    | Throw e => Some (s1, Throw e)
                    end = Some (s1, out)).
      { destruct (loadData sourceConfig (Some 0)) as [records|e] eqn:E.
        - destruct Hearly as [Hdry|Hnone].
          + rewrite Hdry. exists (Ok tt). split; [now left|].
            destruct (Z.of_nat (List.length records) =? 0); reflexivity.
          + rewrite (Hnone _ _ E). exists (Ok tt). split; [now left|reflexivity].
        - exists (Throw e). split; [right; now exists (Some 0), e|reflexivity]. }
      destruct Fin as (out & Hout & ->).
      exists s1, out. split; [reflexivity|]. split; [exact D1|]. split.
      * exists added. split; [exact L|]. split; [exact St|]. split; [exact N|].
        intros _ Fl. now apply N1.
      * split; [|discriminate]. intros _. split; [exact C1|]. split; [lia|exact Hout].
  - specialize (Dis eq_refl). injection Dis as -> ->.
    exists s, (Throw (Error "Database connection not established")).
    split; [reflexivity|]. split; [apply sameData_refl|]. split.
    + exists []. split; [apply logged_refl|]. split; [constructor|].
      split; [cbn; lia|discriminate].
    + split; [discriminate|]. intros _. split; reflexivity.
Qed.


Lemma logged_same (s : DatabaseLog.Store) (added : list DatabaseLog.LogRow) :
  logged s s added -> added = [].
Proof.
  unfold logged. intro E. apply (app_inv_head (DatabaseLog.etl_logs s)).
  now rewrite app_nil_r.
Qed.

(** [processApiSource] when the load gives nothing to write or the run is a
    dry run: the rows logged at the start, then by the catch clause. *)
Lemma processApiSource_no_write (server_clock client_clock : nat -> Z) (fault : nat -> bool)
    (found_rows : bool) (settings : EtlRun.Settings)
    (loadData : ApiSourceConfig.t -> option Z -> result (list ProcessedRecord.t))
    (fuel : nat) (sourceConfig : ApiSourceConfig.t) (options : EtlRunner.EtlOptions)
    (s : DatabaseLog.Store) :
  (EtlRunner.dryRun options = true
   \/ forall offset records, loadData sourceConfig offset = Ok records -> records = []) ->
  exists s' out atStart atCatch,
    EtlRun.processApiSource server_clock client_clock fault found_rows settings loadData fuel
      sourceConfig options s = Some (s', out)
    /\ sameData s s'
    /\ logged s s' (atStart ++ atCatch)
    /\ Forall startedRow atStart
    /\ (Database.connection (DatabaseLog.manager s) = true ->
        (out = Ok tt /\ atCatch = [])
        \/ exists offset e, loadData sourceConfig offset = Throw e /\ out = Throw e
                            /\ Forall (failedRow e) atCatch)
    /\ (Database.connection (DatabaseLog.manager s) = false ->
        out = Throw (Error "Database connection not established")
        /\ s' = s /\ atStart = [] /\ atCatch = [])
    /\ ((forall n, fault n = false) ->
        Database.connection (DatabaseLog.manager s) = true ->
        List.length atStart = 1%nat /\ (out <> Ok tt -> List.length atCatch = 1%nat)).
Proof.
  intro Hearly. unfold EtlRun.processApiSource.
  destruct (tryApiSource_no_write server_clock client_clock fault found_rows settings
              loadData fuel sourceConfig options s Hearly)
    as (s1 & out1 & -> & D1 & (atStart & L1 & St & N1 & N1') & Con & Dis).
  destruct (catchAndLog_frame server_clock client_clock fault
              (EtlRun.logEntry api (ApiSourceConfig.resource_id sourceConfig)
                 (ApiSourceConfig.kategori sourceConfig)) s1 out1)
    as (s' & out & -> & D2 & (atCatch & L2 & Fa & Nok & N2) & Hok & Hthrow & Hdis).
  exists s', out, atStart, atCatch. split; [reflexivity|].
  split; [now apply sameData_trans with s1|].
  split; [now apply logged_trans with s1|]. split; [exact St|].
  split; [|split].
  - intro C. destruct (Con C) as (C1 & _ & [->|(offset & e & E & ->)]).
    + left. split; [now apply Hok|now apply Nok].
    + right. exists offset, e. split; [exact E|]. split; [now apply (Hthrow e)|].
      apply Forall_impl with (2 := Fa).
      intros row (S1 & S2 & e' & E' & M). injection E' as <-. repeat split; assumption.
  - intro C. destruct (Dis C) as [-> ->]. destruct (Hdis C) as [-> Hout].
    split; [apply Hout; discriminate|]. split; [reflexivity|].
    split; [exact (logged_same _ _ L1)|exact (logged_same _ _ L2)].
  - intros Fl C. split; [now apply N1'|].
    intro Hne. destruct (Con C) as (C1 & _ & [->|(offset & e & E & ->)]).
    + destruct (Hok eq_refl) as [-> _]. now elim Hne.
    + apply (N2 e eq_refl C1). apply Fl.
Qed.

(** The try block of [processCsvSource] after a structure check that passed,
    when the load gives nothing to write or the run is a dry run. *)
Lemma tryCsvSource_no_write (server_clock client_clock : nat -> Z) (fault : nat -> bool)
    (found_rows : bool) (settings : EtlRun.Settings)
    (validateCsvStructure : CsvSourceConfig.t -> CsvValidation.Validation)
    (loadData : CsvSourceConfig.t -> result (list ProcessedRecord.t))
    (fuel : nat) (sourceConfig : CsvSourceConfig.t) (options : EtlRunner.EtlOptions)
    (s : DatabaseLog.Store) :
  CsvValidation.isValid (validateCsvStructure sourceConfig) = true ->
  (EtlRunner.dryRun options = true
   \/ forall records, loadData sourceConfig = Ok records -> records = []) ->
  exists s1 out,
    EtlRun.tryCsvSource server_clock client_clock fault found_rows settings
      validateCsvStructure loadData fuel sourceConfig options s = Some (s1, out)
    /\ sameData s s1
    /\ (exists added,
          logged s s1 added /\ Forall startedRow added /\ (List.length added <= 1)%nat
          /\ (Database.connection (DatabaseLog.manager s) = true ->
              fault (Database.calls (DatabaseLog.manager s)) = false ->
              List.length added = 1%nat))
    /\ (Database.connection (DatabaseLog.manager s) = true ->
        Database.connection (DatabaseLog.manager s1) = true
        /\ (out = Ok tt \/ exists e, loadData sourceConfig = Throw e /\ out = Throw e))
    /\ (Database.connection (DatabaseLog.manager s) = false ->
        s1 = s /\ out = Throw (Error "Database connection not established")).
Proof.
  intros Hvalid Hearly. unfold EtlRun.tryCsvSource. rewrite Hvalid. cbn [negb].
  set (entry := EtlRun.logEntry csv (CsvLoader.basename (CsvSourceConfig.file_path sourceConfig))
                  (CsvSourceConfig.kategori sourceConfig)).
  pose proof (logEtlActivity_frame server_clock client_clock fault s entry) as F.
  destruct (DatabaseLog.logEtlActivity server_clock client_clock fault s entry)
    as [s1 logged1].
  cbn [fst snd] in F. destruct F as (D1 & (added & L & A & N & N1) & Con & Dis).
  assert (St : Forall startedRow added).
  { apply Forall_impl with (2 := A). intros row (E & _ & _ & _ & _ & Ca).
    now apply (startedRow_of entry). }
  destruct (Database.connection (DatabaseLog.manager s)) eqn:C.
  - destruct (Con eq_refl) as [-> K1].
    assert (C1 : Database.connection (DatabaseLog.manager s1) = true)
      by (destruct D1 as (_ & _ & E); congruence).
    assert (Fin : exists out,
               (out = Ok tt \/ exists e, loadData sourceConfig = Throw e /\ out = Throw e)
               /\ match loadData sourceConfig with
                  | Ok records =>
                      if Z.of_nat (List.length records) =? 0 then Some (s1, Ok tt)
                      else if EtlRunner.dryRun options then Some (s1, Ok tt)
                           else EtlRun.writeRecords server_clock client_clock fault
                                  found_rows settings fuel s1 entry records
                                  (EtlRunner.csvFiltered options records) None
                  | Throw e => Some (s1, Throw e)
                  end = Some (s1, out)).
    { destruct (loadData sourceConfig) as [records|e] eqn:E.
      - destruct Hearly as [Hdry|Hnone].
        + rewrite Hdry. exists (Ok tt). split; [now left|].
          destruct (Z.of_nat (List.length records) =? 0); reflexivity.
        + rewrite (Hnone _ eq_refl). exists (Ok tt). split; [now left|reflexivity].
      - exists (Throw e). split; [right; now exists e|reflexivity]. }
    destruct Fin as (out & Hout & ->).
    exists s1, out. split; [reflexivity|]. split; [exact D1|]. split.
    + exists added. split; [exact L|]. split; [exact St|]. split; [exact N|].
      intros _ Fl. now apply N1.
    + split; [|discriminate]. intros _. split; [exact C1|exact Hout].
  - specialize (Dis eq_refl). injection Dis as -> ->.
    exists s, (Throw (Error "Database connection not established")).
    split; [reflexivity|]. split; [apply sameData_refl|]. split.
    + exists []. split; [apply logged_refl|]. split; [constructor|].
      split; [cbn; lia|discriminate].
    + split; [discriminate|]. intros _. split; reflexivity.
Qed.

Lemma processCsvSource_no_write (server_clock client_clock : nat -> Z) (fault : nat -> bool)
    (found_rows : bool) (settings : EtlRun.Settings)
    (validateCsvStructure : CsvSourceConfig.t -> CsvValidation.Validation)
    (loadData : CsvSourceConfig.t -> result (list ProcessedRecord.t))
    (fuel : nat) (sourceConfig : CsvSourceConfig.t) (options : EtlRunner.EtlOptions)
    (s : DatabaseLog.Store) :
  CsvValidation.isValid (validateCsvStructure sourceConfig) = true ->
  (EtlRunner.dryRun options = true
   \/ forall records, loadData sourceConfig = Ok records -> records = []) ->
  exists s' out atStart atCatch,
    EtlRun.processCsvSource server_clock client_clock fault found_rows settings
      validateCsvStructure loadData fuel sourceConfig options s = Some (s', out)
    /\ sameData s s'
    /\ logged s s' (atStart ++ atCatch)
    /\ Forall startedRow atStart
    /\ (Database.connection (DatabaseLog.manager s) = true ->
        (out = Ok tt /\ atCatch = [])
        \/ exists e, loadData sourceConfig = Throw e /\ out = Throw e
                     /\ Forall (failedRow e) atCatch)
    /\ (Database.connection (DatabaseLog.manager s) = false ->
        out = Throw (Error "Database connection not established")
        /\ s' = s /\ atStart = [] /\ atCatch = [])
    /\ ((forall n, fault n = false) ->
        Database.connection (DatabaseLog.manager s) = true ->
        List.length atStart = 1%nat /\ (out <> Ok tt -> List.length atCatch = 1%nat)).
Proof.
  intros Hvalid Hearly. unfold EtlRun.processCsvSource.
  destruct (tryCsvSource_no_write server_clock client_clock fault found_rows settings
              validateCsvStructure loadData fuel sourceConfig options s Hvalid Hearly)
    as (s1 & out1 & -> & D1 & (atStart & L1 & St & N1 & N1') & Con & Dis).
  destruct (catchAndLog_frame server_clock client_clock fault
              (EtlRun.logEntry csv
                 (CsvLoader.basename (CsvSourceConfig.file_path sourceConfig))
                 (CsvSourceConfig.kategori sourceConfig)) s1 out1)
    as (s' & out & -> & D2 & (atCatch & L2 & Fa & Nok & N2) & Hok & Hthrow & Hdis).
  exists s', out, atStart, atCatch. split; [reflexivity|].
  split; [now apply sameData_trans with s1|].
  split; [now apply logged_trans with s1|]. split; [exact St|].
  split; [|split].
  - intro C. destruct (Con C) as (C1 & [->|(e & E & ->)]).
    + left. split; [now apply Hok|now apply Nok].
    + right. exists e. split; [exact E|]. split; [now apply (Hthrow e)|].
      apply Forall_impl with (2 := Fa).
      intros row (S1 & S2 & e' & E' & M). injection E' as <-. repeat split; assumption.
  - intro C. destruct (Dis C) as [-> ->]. destruct (Hdis C) as [-> Hout].
    split; [apply Hout; discriminate|]. split; [reflexivity|].
    split; [exact (logged_same _ _ L1)|exact (logged_same _ _ L2)].
  - intros Fl C. split; [now apply N1'|].
    intro Hne. destruct (Con C) as (C1 & [->|(e & E & ->)]).
    + destruct (Hok eq_refl) as [-> _]. now elim Hne.
    + apply (N2 e eq_refl C1). apply Fl.
Qed.

Lemma processCsvSource_invalid (server_clock client_clock : nat -> Z) (fault : nat -> bool)
    (found_rows : bool) (settings : EtlRun.Settings)
    (validateCsvStructure : CsvSourceConfig.t -> CsvValidation.Validation)
    (loadData : CsvSourceConfig.t -> result (list ProcessedRecord.t))
    (fuel : nat) (sourceConfig : CsvSourceConfig.t) (options : EtlRunner.EtlOptions)
    (s : DatabaseLog.Store) :
  CsvValidation.isValid (validateCsvStructure sourceConfig) = false ->
  let error := Error ("CSV validation failed: "
                      ++ JS.join ", " (CsvValidation.errors
                                         (validateCsvStructure sourceConfig))) in
  exists s' out added,
    EtlRun.processCsvSource server_clock client_clock fault found_rows settings
      validateCsvStructure loadData fuel sourceConfig options s = Some (s', out)
    /\ sameData s s'
    /\ logged s s' added
    /\ Forall (failedRow error) added
    /\ (Database.connection (DatabaseLog.manager s) = true -> out = Throw error)
    /\ (Database.connection (DatabaseLog.manager s) = false ->
        out = Throw (Error "Database connection not established") /\ s' = s)
    /\ (Database.connection (DatabaseLog.manager s) = true ->
        fault (Database.calls (DatabaseLog.manager s)) = false ->
        List.length added = 1%nat).
Proof.
  intros Hinvalid error. unfold EtlRun.processCsvSource, EtlRun.tryCsvSource.
  rewrite Hinvalid. cbn [negb]. fold error.
  destruct (catchAndLog_frame server_clock client_clock fault
              (EtlRun.logEntry csv
                 (CsvLoader.basename (CsvSourceConfig.file_path sourceConfig))
                 (CsvSourceConfig.kategori sourceConfig)) s (Throw error))
    as (s' & out & -> & D & (added & L & Fa & _ & N) & _ & Hthrow & Hdis).
  exists s', out, added. split; [reflexivity|]. split; [exact D|]. split; [exact L|].
  split.
  - apply Forall_impl with (2 := Fa).
    intros row (S1 & S2 & e' & E' & M). injection E' as <-. repeat split; assumption.
  - split; [intro C; now apply (Hthrow error)|]. split.
    + intro C. destruct (Hdis C) as [-> Hout]. split; [apply Hout; discriminate|reflexivity].
    + intros C Fl. now apply (N error).
Qed.

(** X19: a dry run stores nothing: whatever the loader returns, the chunk
    size and the faults of the server, [processApiSource] and
    [processCsvSource] end and leave the facts and the checkpoints as they
    were.  The log table is written all the same: the rows added are the
    started row and, after a failure, a failed row, never a completed one. *)
Theorem dry_run_writes_no_data (server_clock client_clock : nat -> Z) (fault : nat -> bool)
    (found_rows : bool) (settings : EtlRun.Settings) (options : EtlRunner.EtlOptions)
    (fuel : nat) (s : DatabaseLog.Store) :
  EtlRunner.dryRun options = true ->
  (forall loadData sourceConfig,
     exists s' out added,
       EtlRun.processApiSource server_clock client_clock fault found_rows settings loadData
         fuel sourceConfig options s = Some (s', out)
       /\ sameData s s'
       /\ logged s s' added
       /\ Forall (fun row => DatabaseLog.log_status row <> DatabaseLog.completed) added
       /\ ((forall n, fault n = false) ->
           Database.connection (DatabaseLog.manager s) = true ->
           exists first rest, added = first :: rest /\ startedRow first))
  /\ (forall validateCsvStructure loadData sourceConfig,
        exists s' out added,
          EtlRun.processCsvSource server_clock client_clock fault found_rows settings
            validateCsvStructure loadData fuel sourceConfig options s = Some (s', out)
          /\ sameData s s'
          /\ logged s s' added
          /\ Forall (fun row => DatabaseLog.log_status row <> DatabaseLog.completed) added).
Proof.
  intro Hdry. split.
  - intros loadData sourceConfig.
    destruct (processApiSource_no_write server_clock client_clock fault found_rows settings
                loadData fuel sourceConfig options s (or_introl Hdry))
      as (s' & out & atStart & atCatch & E & D & L & St & Con & Dis & Cnt).
    exists s', out, (atStart ++ atCatch)%list.
    split; [exact E|]. split; [exact D|]. split; [exact L|]. split.
    + apply Forall_app. split.
      * apply Forall_impl with (2 := St). intros row [S1 _]. congruence.
      * destruct (Database.connection (DatabaseLog.manager s)) eqn:C.
        -- destruct (Con eq_refl) as [[_ ->]|(offset & e & _ & _ & Fa)]; [constructor|].
           apply Forall_impl with (2 := Fa). intros row (S1 & _). congruence.
        -- destruct (Dis eq_refl) as (_ & _ & _ & ->). constructor.
    + intros Fl C. destruct (Cnt Fl C) as [N _].
      destruct atStart as [|first rest]; [discriminate N|].
      exists first, (rest ++ atCatch)%list. split; [reflexivity|].
      now inversion St.
  - intros validateCsvStructure loadData sourceConfig.
    destruct (CsvValidation.isValid (validateCsvStructure sourceConfig)) eqn:V.
    + destruct (processCsvSource_no_write server_clock client_clock fault found_rows settings
                  validateCsvStructure loadData fuel sourceConfig options s V
                  (or_introl Hdry))
        as (s' & out & atStart & atCatch & E & D & L & St & Con & Dis & _).
      exists s', out, (atStart ++ atCatch)%list.
      split; [exact E|]. split; [exact D|]. split; [exact L|].
      apply Forall_app. split.
      * apply Forall_impl with (2 := St). intros row [S1 _]. congruence.
      * destruct (Database.connection (DatabaseLog.manager s)) eqn:C.
        -- destruct (Con eq_refl) as [[_ ->]|(e & _ & _ & Fa)]; [constructor|].
           apply Forall_impl with (2 := Fa). intros row (S1 & _). congruence.
        -- destruct (Dis eq_refl) as (_ & _ & _ & ->). constructor.
    + destruct (processCsvSource_invalid server_clock client_clock fault found_rows settings
                  validateCsvStructure loadData fuel sourceConfig options s V)
        as (s' & out & added & E & D & L & Fa & _).
      exists s', out, added.
      split; [exact E|]. split; [exact D|]. split; [exact L|].
      apply Forall_impl with (2 := Fa). intros row (S1 & _). congruence.
Qed.

Lemma dry_run_writes_no_data_witness :
  exists s' out added,
    EtlRun.processApiSource tickingClock tickingClock noFault false checkpointing fiveLoaded
      0 longSource dryRunOptions emptyLog = Some (s', out)
    /\ sameData emptyLog s'
    /\ logged emptyLog s' added.
Proof.
  destruct (proj1 (dry_run_writes_no_data tickingClock tickingClock noFault false
                     checkpointing dryRunOptions 0 emptyLog eq_refl) fiveLoaded longSource)
    as (s' & out & added & E & D & L & _).
  exists s', out, added. split; [exact E|]. split; [exact D|exact L].
Defined.

(** X20: a load that finds no record ends the run at once and without an
    error: nothing is stored, no checkpoint is saved, and the only row
    logged is the started row, which stays without a completion. *)
Theorem empty_load_left_started (server_clock client_clock : nat -> Z) (fault : nat -> bool)
    (found_rows : bool) (settings : EtlRun.Settings) (options : EtlRunner.EtlOptions)
    (fuel : nat) (s : DatabaseLog.Store) :
  Database.connection (DatabaseLog.manager s) = true ->
  (forall loadData sourceConfig,
     (forall offset, loadData sourceConfig offset = Ok []) ->
     exists s' added,
       EtlRun.processApiSource server_clock client_clock fault found_rows settings loadData
         fuel sourceConfig options s = Some (s', Ok tt)
       /\ sameData s s'
       /\ logged s s' added
       /\ Forall startedRow added
       /\ (fault (Database.calls (DatabaseLog.manager s)) = false ->
           List.length added = 1%nat))
  /\ (forall validateCsvStructure loadData sourceConfig,
        CsvValidation.isValid (validateCsvStructure sourceConfig) = true ->
        loadData sourceConfig = Ok [] ->
        exists s' added,
          EtlRun.processCsvSource server_clock client_clock fault found_rows settings
            validateCsvStructure loadData fuel sourceConfig options s = Some (s', Ok tt)
          /\ sameData s s'
          /\ logged s s' added
          /\ Forall startedRow added
          /\ (fault (Database.calls (DatabaseLog.manager s)) = false ->
              List.length added = 1%nat)).
Proof.
  intro C. split.
  - intros loadData sourceConfig Hnone.
    assert (Hearly : EtlRunner.dryRun options = true
                     \/ forall offset records,
                          loadData sourceConfig offset = Ok records -> records = []).
    { right. intros offset records E. rewrite Hnone in E. now injection E as <-. }
    unfold EtlRun.processApiSource.
    destruct (tryApiSource_no_write server_clock client_clock fault found_rows settings
                loadData fuel sourceConfig options s Hearly)
      as (s1 & out1 & -> & D1 & (added & L1 & St & _ & N1) & Con & _).
    destruct (Con C) as (_ & _ & [->|(offset & e & E & _)]);
      [|rewrite Hnone in E; discriminate E].
    exists s1, added. split; [reflexivity|]. split; [exact D1|]. split; [exact L1|].
    split; [exact St|]. intro Fl. now apply N1.
  - intros validateCsvStructure loadData sourceConfig V Hnone.
    assert (Hearly : EtlRunner.dryRun options = true
                     \/ forall records, loadData sourceConfig = Ok records -> records = []).
    { right. intros records E. rewrite Hnone in E. now injection E as <-. }
    unfold EtlRun.processCsvSource.
    destruct (tryCsvSource_no_write server_clock client_clock fault found_rows settings
                validateCsvStructure loadData fuel sourceConfig options s V Hearly)
      as (s1 & out1 & -> & D1 & (added & L1 & St & _ & N1) & Con & _).
    destruct (Con C) as (_ & [->|(e & E & _)]); [|rewrite Hnone in E; discriminate E].
    exists s1, added. split; [reflexivity|]. split; [exact D1|]. split; [exact L1|].
    split; [exact St|]. intro Fl. now apply N1.
Qed.

Lemma empty_load_left_started_witness :
  exists s' added,
    EtlRun.processApiSource tickingClock tickingClock noFault false checkpointing noneLoaded
      0 longSource plainOptions emptyLog = Some (s', Ok tt)
    /\ logged emptyLog s' added
    /\ List.length added = 1%nat.
Proof.
  destruct (proj1 (empty_load_left_started tickingClock tickingClock noFault false
                     checkpointing plainOptions 0 emptyLog eq_refl)
              noneLoaded longSource (fun _ => eq_refl))
    as (s' & added & E & _ & L & _ & N).
  exists s', added. split; [exact E|]. split; [exact L|exact (N eq_refl)].
Defined.

(** X21: when the load fails on a connection, [processApiSource] throws the
    error of the load itself, stores nothing and saves no checkpoint, and
    logs a failed row with the message of the error and no completion time
    after the started row; without a connection nothing is loaded or logged
    and the error thrown is that of the missing connection. *)
Theorem load_failure_logged (server_clock client_clock : nat -> Z) (fault : nat -> bool)
    (found_rows : bool) (settings : EtlRun.Settings)
    (loadData : ApiSourceConfig.t -> option Z -> result (list ProcessedRecord.t))
    (fuel : nat) (sourceConfig : ApiSourceConfig.t) (options : EtlRunner.EtlOptions)
    (s : DatabaseLog.Store) (e : exn) :
  (forall offset, loadData sourceConfig offset = Throw e) ->
  exists s' out atStart atCatch,
    EtlRun.processApiSource server_clock client_clock fault found_rows settings loadData fuel
      sourceConfig options s = Some (s', out)
    /\ sameData s s'
    /\ logged s s' (atStart ++ atCatch)
    /\ Forall startedRow atStart
    /\ Forall (failedRow e) atCatch
    /\ (Database.connection (DatabaseLog.manager s) = true -> out = Throw e)
    /\ (Database.connection (DatabaseLog.manager s) = false ->
        out = Throw (Error "Database connection not established") /\ s' = s)
    /\ ((forall n, fault n = false) ->
        Database.connection (DatabaseLog.manager s) = true ->
        List.length atStart = 1%nat /\ List.length atCatch = 1%nat).
Proof.
  intro Hfail.
  assert (Hearly : EtlRunner.dryRun options = true
                   \/ forall offset records,
                        loadData sourceConfig offset = Ok records -> records = []).
  { right. intros offset records E. rewrite Hfail in E. discriminate E. }
  destruct (processApiSource_no_write server_clock client_clock fault found_rows settings
              loadData fuel sourceConfig options s Hearly)
    as (s' & out & atStart & atCatch & E & D & L & St & Con & Dis & Cnt).
  assert (Hout : Database.connection (DatabaseLog.manager s) = true ->
                 out = Throw e /\ Forall (failedRow e) atCatch).
  { intro C. unfold EtlRun.processApiSource in E.
    destruct (tryApiSource_no_write server_clock client_clock fault found_rows settings
                loadData fuel sourceConfig options s Hearly)
      as (s1 & out1 & E1 & _ & _ & Con1 & _).
    destruct (Con1 C) as (C1 & _ & Hout1). rewrite E1 in E.
    assert (O1 : out1 = Throw e).
    { destruct Hout1 as [->|(offset & e' & E' & ->)].
      - exfalso. clear - Hfail E1.
        unfold EtlRun.tryApiSource in E1.
        destruct (DatabaseLog.logEtlActivity _ _ _ s _) as [sa [[]|ea]];
          [|discriminate E1].
        destruct (if EtlRun.enable_checkpoints settings then _ else _) as [sb [ob|eb]];
          [|discriminate E1].
        rewrite Hfail in E1. discriminate E1.
      - rewrite Hfail in E'. now injection E' as <-. }
    subst out1.
    destruct (Con C) as [[-> _]|(offset & e' & E' & -> & Fa)].
    - exfalso. cbn [EtlRun.catchAndLog] in E.
      destruct (DatabaseLog.logEtlActivity _ _ _ s1 _) as [sc [[]|ec]] eqn:El;
        injection E as _ E; discriminate E.
    - rewrite Hfail in E'. injection E' as <-. split; [reflexivity|exact Fa]. }
  exists s', out, atStart, atCatch.
  split; [exact E|]. split; [exact D|]. split; [exact L|]. split; [exact St|].
  split.
  - destruct (Database.connection (DatabaseLog.manager s)) eqn:C.
    + apply (Hout eq_refl).
    + destruct (Dis eq_refl) as (_ & _ & _ & ->). constructor.
  - split; [intro C; apply (Hout C)|]. split.
    + intro C. destruct (Dis C) as (O & S' & _). split; assumption.
    + intros Fl C. destruct (Cnt Fl C) as [N1 N2]. split; [exact N1|].
      apply N2. destruct (Hout C) as [-> _]. discriminate.
Qed.

Lemma load_failure_logged_witness :
  exists s' atStart atCatch,
    EtlRun.processApiSource tickingClock tickingClock noFault false checkpointing timedOut
      0 longSource plainOptions emptyLog
    = Some (s', Throw (Error "timeout of 30000ms exceeded"))
    /\ logged emptyLog s' (atStart ++ atCatch)
    /\ List.length atStart = 1%nat /\ List.length atCatch = 1%nat.
Proof.
  destruct (load_failure_logged tickingClock tickingClock noFault false checkpointing
              timedOut 0 longSource plainOptions emptyLog
              (Error "timeout of 30000ms exceeded") (fun _ => eq_refl))
    as (s' & out & atStart & atCatch & E & _ & L & _ & _ & O & _ & N).
  exists s', atStart, atCatch.
  rewrite (O eq_refl) in E. split; [exact E|]. split; [exact L|].
  exact (N (fun _ => eq_refl) eq_refl).
Defined.

(** X22: a file whose structure check fails is never loaded: whatever the
    loader would return, [processCsvSource] throws the validation error,
    whose message lists the errors of the check, stores nothing, and logs a
    failed row only: the started row is not written. *)
Theorem csv_invalid_not_loaded (server_clock client_clock : nat -> Z) (fault : nat -> bool)
    (found_rows : bool) (settings : EtlRun.Settings)
    (validateCsvStructure : CsvSourceConfig.t -> CsvValidation.Validation)
    (fuel : nat) (sourceConfig : CsvSourceConfig.t) (options : EtlRunner.EtlOptions)
    (s : DatabaseLog.Store) :
  CsvValidation.isValid (validateCsvStructure sourceConfig) = false ->
  Database.connection (DatabaseLog.manager s) = true ->
  let error := Error ("CSV validation failed: "
                      ++ JS.join ", " (CsvValidation.errors
                                         (validateCsvStructure sourceConfig))) in
  exists s' added,
    (forall loadData,
       EtlRun.processCsvSource server_clock client_clock fault found_rows settings
         validateCsvStructure loadData fuel sourceConfig options s
       = Some (s', Throw error))
    /\ sameData s s'
    /\ logged s s' added
    /\ Forall (failedRow error) added
    /\ (fault (Database.calls (DatabaseLog.manager s)) = false -> List.length added = 1%nat).
Proof.
  intros V C error.
  destruct (processCsvSource_invalid server_clock client_clock fault found_rows settings
              validateCsvStructure (fun _ => Ok []) fuel sourceConfig options s V)
    as (s' & out & added & E & D & L & Fa & O & _ & N).
  exists s', added. split.
  - intro loadData. rewrite (O C) in E. subst error. rewrite <- E.
    unfold EtlRun.processCsvSource, EtlRun.tryCsvSource. now rewrite V.
  - split; [exact D|]. split; [exact L|]. split; [exact Fa|]. intro Fl. now apply N.
Qed.

Lemma csv_invalid_not_loaded_witness :
  exists s' added,
    EtlRun.processCsvSource tickingClock tickingClock noFault false checkpointing
      structureInvalid fileLoaded 0 fileSource plainOptions emptyLog
    = Some (s', Throw (Error "CSV validation failed: No data records found in file"))
    /\ logged emptyLog s' added
    /\ List.length added = 1%nat.
Proof.
  destruct (csv_invalid_not_loaded tickingClock tickingClock noFault false checkpointing
              structureInvalid 0 fileSource plainOptions emptyLog eq_refl eq_refl)
    as (s' & added & E & _ & L & _ & N).
  exists s', added. split; [exact (E fileLoaded)|]. split; [exact L|exact (N eq_refl)].
Defined.

(** ** A run that writes *)

Lemma attempts_rows (server_clock client_clock : nat -> Z) (fault : nat -> bool)
    (found_rows : bool) (cs : list (list ProcessedRecord.t)) :
  forall db,
    (List.length (Database.facts_long db)
     <= List.length (Database.facts_long
                       (fst (attempts server_clock client_clock fault found_rows db cs))))%nat.
Proof.
  induction cs as [|chunk rest IH]; intro db; [cbn; lia|].
  cbn [attempts].
  assert (S : (List.length (Database.facts_long db)
               <= List.length (Database.facts_long
                                 (fst (Database.upsertRecords server_clock client_clock fault
                                         found_rows db chunk))))%nat).
  { unfold Database.upsertRecords.
    destruct (negb (Database.connection db)); [cbn; lia|].
    destruct chunk as [|r more]; [cbn; lia|].
    destruct (fault (Database.calls db)); [cbn; lia|].
    pose proof (statement_affected found_rows (client_clock (Database.calls db))
                  (server_clock (Database.calls db)) (r :: more)
                  (Database.facts_long db) (Database.next_id db)) as A.
    destruct (Database.insertOnDuplicateKeyUpdate _ _ _ _ _ _) as [[rows nextId] m].
    cbn [fst Database.facts_long]. lia. }
  destruct (Database.upsertRecords server_clock client_clock fault found_rows db chunk)
    as [db1 outcome].
  specialize (IH db1).
  destruct (attempts server_clock client_clock fault found_rows db1 rest) as [db2 tallies].
  cbn [fst] in *. lia.
Qed.

(** The batched upsert with the chunk size of the settings. *)
Lemma batchUpsertRecords_run (server_clock client_clock : nat -> Z) (fault : nat -> bool)
    (found_rows : bool) (db : Database.DatabaseManager)
    (records : list ProcessedRecord.t) (size : option Z) (fuel : nat) :
  let batchSize := match size with Some n => n | None => 1000 end in
  0 < batchSize ->
  (List.length records <= fuel)%nat ->
  exists db' tally,
    Database.batchUpsertRecords server_clock client_clock fault found_rows fuel db records
      size = Some (db', tally)
    /\ counted tally = Z.of_nat (List.length records)
    /\ wellFormedTally tally
    /\ Database.etl_checkpoints db' = Database.etl_checkpoints db
    /\ Database.connection db' = Database.connection db
    /\ (uniqueHash (Database.facts_long db) -> uniqueHash (Database.facts_long db'))
    /\ (List.length (Database.facts_long db) <= List.length (Database.facts_long db'))%nat
    /\ (Database.connection db = true ->
        Database.calls db'
        = (Database.calls db + List.length (chunks (Z.to_nat batchSize) records))%nat).
Proof.
  intros batchSize Hs Hfuel.
  unfold Database.batchUpsertRecords. fold batchSize.
  rewrite (batchLoop_attempts server_clock client_clock fault found_rows records
             batchSize Hs fuel db 0 Database.zero (Z.le_refl 0)) by exact Hfuel.
  change (skipn (Z.to_nat 0) records) with records.
  destruct (chunks_partition (Z.to_nat batchSize) ltac:(lia) records) as [Hc Hf].
  pose proof (attempts_counted server_clock client_clock fault found_rows
                (chunks (Z.to_nat batchSize) records) db) as A.
  pose proof (attempts_rows server_clock client_clock fault found_rows
                (chunks (Z.to_nat batchSize) records) db) as R.
  pose proof (attempts_calls server_clock client_clock fault found_rows
                (chunks (Z.to_nat batchSize) records)
                ltac:(apply Forall_impl with (2 := Hf); intros c Hc'; lia) db) as K.
  destruct (attempts server_clock client_clock fault found_rows db
              (chunks (Z.to_nat batchSize) records)) as [db' tallies].
  cbn [fst snd] in A, R, K. rewrite Hc in A.
  destruct A as (A1 & A2 & A3 & A4 & A5 & _).
  exists db', (sumResults tallies Database.zero).
  split; [reflexivity|].
  split; [rewrite sumResults_counted, A1; reflexivity|].
  split; [apply sumResults_wellFormed; [exact A2|unfold wellFormedTally; cbn; lia]|].
  split; [exact A3|]. split; [exact A4|]. split; [exact A5|]. split; [exact R|exact K].
Qed.

Lemma saveCheckpoint_read (server_clock : nat -> Z) (fault : nat -> bool)
    (db : Database.DatabaseManager) (sourceType : SourceType) (sourceRef : string)
    (offset : Z) :
  Database.connection db = true ->
  let saved := Database.saveCheckpoint server_clock fault db sourceType sourceRef offset in
  snd saved = Ok tt
  /\ Database.facts_long (fst saved) = Database.facts_long db
  /\ Database.connection (fst saved) = true
  /\ Database.calls (fst saved) = S (Database.calls db)
  /\ (fault (Database.calls db) = false ->
      snd (Database.getCheckpoint noFault (fst saved) sourceType sourceRef)
      = Ok (Some offset)).
Proof.
  intro C. unfold Database.saveCheckpoint. rewrite C. cbn [negb].
  destruct (fault (Database.calls db)) eqn:F.
  - cbn. repeat split; auto; discriminate.
  - cbn [fst snd Database.facts_long Database.connection Database.calls].
    do 4 (split; [reflexivity|]). intros _.
    unfold Database.getCheckpoint.
    cbn [Database.connection Database.calls Database.etl_checkpoints negb noFault snd].
    set (new := {| Database.cp_source_type := sourceType;
                   Database.cp_source_ref := sourceRef;
                   Database.last_offset := Some offset;
                   Database.last_processed_at := server_clock (Database.calls db) |}).
    destruct (writeCheckpoint_first new (Database.etl_checkpoints db)
                (checkpointFor_written sourceType sourceRef _ _)) as [rest E].
    cbn [Database.cp_source_type Database.cp_source_ref new] in E.
    rewrite E. reflexivity.
Qed.

Lemma storedOffset_ext (s s' : DatabaseLog.Store) (sourceType : SourceType)
    (sourceRef : string) :
  Database.connection (DatabaseLog.manager s') = Database.connection (DatabaseLog.manager s) ->
  Database.etl_checkpoints (DatabaseLog.manager s')
  = Database.etl_checkpoints (DatabaseLog.manager s) ->
  storedOffset s' sourceType sourceRef = storedOffset s sourceType sourceRef.
Proof.
  intros C E. unfold storedOffset, Database.getCheckpoint. rewrite C, E.
  destruct (negb (Database.connection (DatabaseLog.manager s))); reflexivity.
Qed.

(** The steps of a run after its load and its filters, on a connection and
    with a positive chunk size: they never throw, whatever fails on the
    server. *)
Lemma writeRecords_run (server_clock client_clock : nat -> Z) (fault : nat -> bool)
    (found_rows : bool) (settings : EtlRun.Settings) (fuel : nat) (s : DatabaseLog.Store)
    (entry : DatabaseLog.EtlLogEntry) (records filteredRecords : list ProcessedRecord.t)
    (checkpoint : option Z) :
  Database.connection (DatabaseLog.manager s) = true ->
  0 < chunkSize settings ->
  (List.length filteredRecords <= fuel)%nat ->
  let m := List.length (chunks (Z.to_nat (chunkSize settings)) filteredRecords) in
  let c := Database.calls (DatabaseLog.manager s) in
  exists s' added,
    EtlRun.writeRecords server_clock client_clock fault found_rows settings fuel s entry
      records filteredRecords checkpoint = Some (s', Ok tt)
    /\ Database.connection (DatabaseLog.manager s') = true
    /\ (uniqueHash (Database.facts_long (DatabaseLog.manager s)) ->
        uniqueHash (Database.facts_long (DatabaseLog.manager s')))
    /\ (List.length (Database.facts_long (DatabaseLog.manager s))
        <= List.length (Database.facts_long (DatabaseLog.manager s')))%nat
    /\ (checkpoint = None ->
        Database.etl_checkpoints (DatabaseLog.manager s')
        = Database.etl_checkpoints (DatabaseLog.manager s))
    /\ (forall offset,
          checkpoint = Some offset ->
          fault (c + m)%nat = false ->
          storedOffset s' (DatabaseLog.source_type entry) (DatabaseLog.source_ref entry)
          = Ok (Some offset))
    /\ logged s s' added
    /\ Forall (completedRow (Z.of_nat (List.length records))
                 (Z.of_nat (List.length filteredRecords))) added
    /\ (fault (c + m + match checkpoint with Some _ => 1 | None => 0 end)%nat = false ->
        List.length added = 1%nat).
Proof.
  intros C Hs Hfuel m c.
  destruct (batchUpsertRecords_run server_clock client_clock fault found_rows
              (DatabaseLog.manager s) filteredRecords (EtlRun.batch_size settings) fuel
              Hs Hfuel)
    as (db & tally & E & Cnt & W & Ecp & Econn & U & R & K).
  specialize (K C). fold (chunkSize settings) in K. fold m c in K.
  unfold EtlRun.writeRecords. rewrite E.
  assert (Cdb : Database.connection db = true) by congruence.
  assert (Row : forall s2 s3 added,
             Database.calls (DatabaseLog.manager s2)
             = (c + m + match checkpoint with Some _ => 1 | None => 0 end)%nat ->
             Database.connection (DatabaseLog.manager s2) = true ->
             DatabaseLog.etl_logs s2 = DatabaseLog.etl_logs s ->
             DatabaseLog.logEtlActivity server_clock client_clock fault s2
               (EtlRun.completedEntry entry (Z.of_nat (List.length records))
                  (Database.inserted tally) (Database.updated tally)) = (s3, added) ->
             added = Ok tt
             /\ sameData s2 s3
             /\ exists rows,
                  logged s s3 rows
                  /\ Forall (completedRow (Z.of_nat (List.length records))
                               (Z.of_nat (List.length filteredRecords))) rows
                  /\ (fault (c + m + match checkpoint with Some _ => 1 | None => 0 end)%nat
                      = false -> List.length rows = 1%nat)).
  { intros s2 s3 out K2 C2 L2 El.
    pose proof (logEtlActivity_frame server_clock client_clock fault s2
                  (EtlRun.completedEntry entry (Z.of_nat (List.length records))
                     (Database.inserted tally) (Database.updated tally))) as F.
    rewrite El in F. cbn [fst snd] in F.
    destruct F as (D & (rows & L & A & _ & N1) & Con & _).
    destruct (Con C2) as [-> _]. split; [reflexivity|]. split; [exact D|].
    exists rows. split; [unfold logged in *; congruence|]. split.
    - apply Forall_impl with (2 := A).
      cbn [EtlRun.completedEntry DatabaseLog.status DatabaseLog.total_records
           DatabaseLog.new_records DatabaseLog.updated_records DatabaseLog.orZero].
      intros row (S1 & _ & T & Nw & Up & Ca).
      unfold completedRow, wellFormedTally, counted in *.
      split; [exact S1|]. split; [now apply Ca|]. split; [exact T|]. lia.
    - intro Fl. apply N1; [exact C2|]. now rewrite K2. }
  destruct checkpoint as [offset|].
  - pose proof (saveCheckpoint_read server_clock fault db (DatabaseLog.source_type entry)
                  (DatabaseLog.source_ref entry) offset Cdb) as S.
    cbn [DatabaseLog.withManager DatabaseLog.manager].
    destruct (Database.saveCheckpoint server_clock fault db (DatabaseLog.source_type entry)
                (DatabaseLog.source_ref entry) offset) as [db' saved].
    cbn [fst snd] in S. destruct S as (-> & S2 & S3 & S4 & S5).
    set (s2 := DatabaseLog.withManager (DatabaseLog.withManager s db) db').
    destruct (DatabaseLog.logEtlActivity server_clock client_clock fault s2
                (EtlRun.completedEntry entry (Z.of_nat (List.length records))
                   (Database.inserted tally) (Database.updated tally)))
      as [s' out] eqn:El.
    destruct (Row s2 s' out ltac:(subst s2; cbn; lia) S3 eq_refl El)
      as (-> & (D1 & D2 & D3) & rows & L & A & N).
    subst s2. cbn [DatabaseLog.withManager DatabaseLog.manager] in D1, D2, D3.
    exists s', rows. split; [reflexivity|].
    split; [congruence|]. split; [intro Un; rewrite D1, S2; now apply U|].
    split; [rewrite D1, S2; exact R|]. split; [discriminate|].
    split; [|split; [exact L|split; [exact A|exact N]]].
    intros o Eo Fl. injection Eo as <-.
    rewrite <- (S5 ltac:(now rewrite K)).
    unfold storedOffset, Database.getCheckpoint. rewrite D2, D3, S3.
    cbn [negb noFault snd]. reflexivity.
  - cbn [DatabaseLog.withManager DatabaseLog.manager].
    set (s2 := DatabaseLog.withManager s db).
    destruct (DatabaseLog.logEtlActivity server_clock client_clock fault s2
                (EtlRun.completedEntry entry (Z.of_nat (List.length records))
                   (Database.inserted tally) (Database.updated tally)))
      as [s' out] eqn:El.
    destruct (Row s2 s' out ltac:(subst s2; cbn; lia) Cdb eq_refl El)
      as (-> & (D1 & D2 & D3) & rows & L & A & N).
    subst s2. cbn [DatabaseLog.withManager DatabaseLog.manager] in D1, D2, D3.
    exists s', rows. split; [reflexivity|].
    split; [congruence|]. split; [intro Un; rewrite D1; now apply U|].
    split; [rewrite D1; exact R|]. split; [intros _; congruence|].
    split; [discriminate|]. split; [exact L|split; [exact A|exact N]].
Qed.

Lemma logEtlActivity_manager (server_clock client_clock : nat -> Z) (fault : nat -> bool)
    (s : DatabaseLog.Store) (entry : DatabaseLog.EtlLogEntry) :
  Database.connection (DatabaseLog.manager s) = true ->
  DatabaseLog.manager (fst (DatabaseLog.logEtlActivity server_clock client_clock fault s entry))
  = Database.tick (DatabaseLog.manager s).
Proof.
  intro C. unfold DatabaseLog.logEtlActivity. rewrite C. cbn [negb].
  destruct (fault (Database.calls (DatabaseLog.manager s))); reflexivity.
Qed.

(** X23: a run of [processApiSource] that loaded records, on a connection,
    with checkpoints enabled and a positive chunk size, ends without an
    error whatever fails on the server while it writes.  Unless the write of
    the checkpoint itself fails, the offset stored afterwards is the start
    offset plus the number of canonical records loaded: it counts the
    records before the since and limit filters, and does not depend on how
    many of them were stored.  No fact is removed, the unique key is kept,
    and the rows logged are the started row and a completed row that carries
    the number of records loaded. *)
Theorem api_run_checkpoint (server_clock client_clock : nat -> Z) (fault : nat -> bool)
    (found_rows : bool) (settings : EtlRun.Settings)
    (loadData : ApiSourceConfig.t -> option Z -> result (list ProcessedRecord.t))
    (fuel : nat) (sourceConfig : ApiSourceConfig.t) (options : EtlRunner.EtlOptions)
    (s : DatabaseLog.Store) (startOffset : option Z) (records : list ProcessedRecord.t) :
  let resource := ApiSourceConfig.resource_id sourceConfig in
  let filteredRecords := EtlRunner.apiFiltered options records in
  let m := List.length (chunks (Z.to_nat (chunkSize settings)) filteredRecords) in
  let c := Database.calls (DatabaseLog.manager s) in
  Database.connection (DatabaseLog.manager s) = true ->
  EtlRun.enable_checkpoints settings = true ->
  0 < chunkSize settings ->
  EtlRunner.dryRun options = false ->
  snd (Database.getCheckpoint fault (Database.tick (DatabaseLog.manager s)) api resource)
  = Ok startOffset ->
  loadData sourceConfig startOffset = Ok records ->
  records <> [] ->
  (List.length filteredRecords <= fuel)%nat ->
  exists s' added,
    EtlRun.processApiSource server_clock client_clock fault found_rows settings loadData fuel
      sourceConfig options s = Some (s', Ok tt)
    /\ (fault (c + 2 + m)%nat = false ->
        storedOffset s' api resource
        = Ok (Some (EtlRun.offsetNumber startOffset + Z.of_nat (List.length records))))
    /\ (uniqueHash (Database.facts_long (DatabaseLog.manager s)) ->
        uniqueHash (Database.facts_long (DatabaseLog.manager s')))
    /\ (List.length (Database.facts_long (DatabaseLog.manager s))
        <= List.length (Database.facts_long (DatabaseLog.manager s')))%nat
    /\ logged s s' added
    /\ Forall (fun row =>
                 startedRow row
                 \/ completedRow (Z.of_nat (List.length records))
                      (Z.of_nat (List.length filteredRecords)) row) added
    /\ ((forall n, fault n = false) -> List.length added = 2%nat).
Proof.
  intros resource filteredRecords m c C Hcp Hs Hdry Hread Hload Hne Hfuel.
  unfold EtlRun.processApiSource, EtlRun.tryApiSource. fold resource.
  set (entry := EtlRun.logEntry api resource (ApiSourceConfig.kategori sourceConfig)).
  pose proof (logEtlActivity_frame server_clock client_clock fault s entry) as F.
  pose proof (logEtlActivity_manager server_clock client_clock fault s entry C) as M.
  destruct (DatabaseLog.logEtlActivity server_clock client_clock fault s entry)
    as [s1 logged1].
  cbn [fst snd] in F, M. destruct F as (D1 & (atStart & L1 & A1 & _ & N1) & Con & _).
  destruct (Con C) as [-> K1].
  assert (St : Forall startedRow atStart).
  { apply Forall_impl with (2 := A1). intros row (E & _ & _ & _ & _ & Ca).
    now apply (startedRow_of entry). }
  assert (C1 : Database.connection (DatabaseLog.manager s1) = true)
    by (destruct D1 as (_ & _ & E); congruence).
  rewrite Hcp.
  pose proof (getCheckpoint_frame fault (DatabaseLog.manager s1) api resource) as G.
  rewrite M in G, C1 |- *.
  destruct (Database.getCheckpoint fault (Database.tick (DatabaseLog.manager s)) api resource)
    as [db offset].
  cbn [fst snd] in G, Hread. subst offset. destruct G as (G1 & G2 & G3 & G4).
  destruct (G4 C1) as [_ K2]. cbn [Database.tick Database.calls Database.facts_long] in K2, G1.
  rewrite Hload.
  assert (Len : 0 < Z.of_nat (List.length records))
    by (destruct records; [now elim Hne|cbn [List.length]; lia]).
  destruct (Z.eqb_spec (Z.of_nat (List.length records)) 0) as [E0|_]; [lia|].
  rewrite Hdry.
  destruct (Z.ltb_spec 0 (Z.of_nat (List.length records))) as [_|Hle]; [|lia].
  cbn [andb]. fold filteredRecords.
  destruct (writeRecords_run server_clock client_clock fault found_rows settings fuel
              (DatabaseLog.withManager s1 db) entry records filteredRecords
              (Some (EtlRun.offsetNumber startOffset + Z.of_nat (List.length records)))
              ltac:(cbn [DatabaseLog.withManager DatabaseLog.manager]; congruence) Hs Hfuel)
    as (s' & atEnd & -> & C' & U & R & _ & Off & L2 & A2 & N2).
  cbn [DatabaseLog.withManager DatabaseLog.manager DatabaseLog.etl_logs] in U, R, Off, N2.
  fold m in Off, N2.
  exists s', (atStart ++ atEnd)%list. cbn [EtlRun.catchAndLog].
  split; [reflexivity|]. split.
  - intro Fl. apply (Off _ eq_refl). rewrite K2. fold c.
    replace (S (S c) + m)%nat with (c + 2 + m)%nat by lia. exact Fl.
  - split; [intro Un; apply U; rewrite G1; exact Un|].
    split; [rewrite G1 in R; exact R|]. split.
    + unfold logged in *. cbn [DatabaseLog.withManager DatabaseLog.etl_logs] in L2.
      rewrite L2, L1, app_assoc. reflexivity.
    + split.
      * apply Forall_app. split.
        -- apply Forall_impl with (2 := St). intros row H. now left.
        -- apply Forall_impl with (2 := A2). intros row H. now right.
      * intro Fl. rewrite length_app, (N1 C (Fl _)), (N2 (Fl _)). reflexivity.
Qed.

Lemma api_run_checkpoint_witness :
  exists s',
    EtlRun.processApiSource tickingClock tickingClock chunksFail false checkpointing
      fiveLoaded 5 longSource plainOptions emptyLog = Some (s', Ok tt)
    /\ storedOffset s' api "r-1" = Ok (Some 5)
    /\ Database.facts_long (DatabaseLog.manager s') = [].
Proof.
  destruct (api_run_checkpoint tickingClock tickingClock chunksFail false checkpointing
              fiveLoaded 5 longSource plainOptions emptyLog (Some 0) fiveRecords
              eq_refl eq_refl ltac:(reflexivity) eq_refl eq_refl eq_refl
              ltac:(discriminate) ltac:(cbn; lia))
    as (s' & added & E & Off & _).
  exists s'. split; [exact E|]. split; [exact (Off eq_refl)|].
  vm_compute in E. injection E as <-. reflexivity.
Defined.

(** ** The loops over the sources *)

(** X24: the loops over the sources process them in the order of the
    configuration and stop at the first source that throws: a loop over two
    lists put end to end is the loop over the first, followed, when it ended
    without an error, by the loop over the second.  With --only the loop is
    the loop without it over the sources of that category, and an empty
    --only filters nothing. *)
Theorem sources_in_turn (server_clock client_clock : nat -> Z) (fault : nat -> bool)
    (found_rows : bool) (settings : EtlRun.Settings) (fuel : nat)
    (options : EtlRunner.EtlOptions) :
  (forall loadData only first second s,
     EtlRun.runApiSources server_clock client_clock fault found_rows settings loadData fuel
       (first ++ second) only options s
     = andThen (EtlRun.runApiSources server_clock client_clock fault found_rows settings
                  loadData fuel first only options s)
         (EtlRun.runApiSources server_clock client_clock fault found_rows settings loadData
            fuel second only options))
  /\ (forall loadData name sources s,
        name <> "" ->
        EtlRun.runApiSources server_clock client_clock fault found_rows settings loadData fuel
          sources (Some name) options s
        = EtlRun.runApiSources server_clock client_clock fault found_rows settings loadData
            fuel (filter (ofKategori name) sources) None options s)
  /\ (forall loadData sources s,
        EtlRun.runApiSources server_clock client_clock fault found_rows settings loadData fuel
          sources (Some "") options s
        = EtlRun.runApiSources server_clock client_clock fault found_rows settings loadData
            fuel sources None options s)
  /\ (forall validateCsvStructure loadData only first second s,
        EtlRun.runCsvSources server_clock client_clock fault found_rows settings
          validateCsvStructure loadData fuel (first ++ second) only options s
        = andThen (EtlRun.runCsvSources server_clock client_clock fault found_rows settings
                     validateCsvStructure loadData fuel first only options s)
            (EtlRun.runCsvSources server_clock client_clock fault found_rows settings
               validateCsvStructure loadData fuel second only options))
  /\ (forall validateCsvStructure loadData name sources s,
        name <> "" ->
        EtlRun.runCsvSources server_clock client_clock fault found_rows settings
          validateCsvStructure loadData fuel sources (Some name) options s
        = EtlRun.runCsvSources server_clock client_clock fault found_rows settings
            validateCsvStructure loadData fuel (filter (fileOfKategori name) sources) None
            options s).
Proof.
  split; [|split; [|split; [|split]]].
  - intros loadData only first second.
    induction first as [|sourceConfig rest IH]; intro s; cbn [app EtlRun.runApiSources andThen].
    + reflexivity.
    + destruct (EtlRun.skipped only (ApiSourceConfig.kategori sourceConfig)); [apply IH|].
      destruct (EtlRun.processApiSource _ _ _ _ _ _ _ sourceConfig options s)
        as [[s' [[]|e]]|]; [apply IH|reflexivity|reflexivity].
  - intros loadData name sources s Hname. revert s.
    assert (N : String.eqb name "" = false) by now apply String.eqb_neq.
    induction sources as [|sourceConfig rest IH]; intro s; [reflexivity|].
    cbn [EtlRun.runApiSources filter]. unfold EtlRun.skipped at 1, ofKategori at 1.
    rewrite N. cbn [negb andb].
    destruct (String.eqb (ApiSourceConfig.kategori sourceConfig) name); cbn [negb].
    + cbn [EtlRun.runApiSources EtlRun.skipped].
      destruct (EtlRun.processApiSource _ _ _ _ _ _ _ sourceConfig options s)
        as [[s' [[]|e]]|]; [apply IH|reflexivity|reflexivity].
    + apply IH.
  - intros loadData sources.
    induction sources as [|sourceConfig rest IH]; intro s; [reflexivity|].
    cbn [EtlRun.runApiSources EtlRun.skipped String.eqb negb andb].
    destruct (EtlRun.processApiSource _ _ _ _ _ _ _ sourceConfig options s)
      as [[s' [[]|e]]|]; [apply IH|reflexivity|reflexivity].
  - intros validateCsvStructure loadData only first second.
    induction first as [|sourceConfig rest IH]; intro s; cbn [app EtlRun.runCsvSources andThen].
    + reflexivity.
    + destruct (EtlRun.skipped only (CsvSourceConfig.kategori sourceConfig)); [apply IH|].
      destruct (EtlRun.processCsvSource _ _ _ _ _ _ _ _ sourceConfig options s)
        as [[s' [[]|e]]|]; [apply IH|reflexivity|reflexivity].
  - intros validateCsvStructure loadData name sources s Hname. revert s.
    assert (N : String.eqb name "" = false) by now apply String.eqb_neq.
    induction sources as [|sourceConfig rest IH]; intro s; [reflexivity|].
    cbn [EtlRun.runCsvSources filter]. unfold EtlRun.skipped at 1, fileOfKategori at 1.
    rewrite N. cbn [negb andb].
    destruct (String.eqb (CsvSourceConfig.kategori sourceConfig) name); cbn [negb].
    + cbn [EtlRun.runCsvSources EtlRun.skipped].
      destruct (EtlRun.processCsvSource _ _ _ _ _ _ _ _ sourceConfig options s)
        as [[s' [[]|e]]|]; [apply IH|reflexivity|reflexivity].
    + apply IH.
Qed.

Lemma sources_in_turn_witness :
  EtlRun.runApiSources tickingClock tickingClock noFault false checkpointing fiveLoaded 5
    [wideSource "kesehatan" "r-2"; longSource] (Some "kependudukan") plainOptions emptyLog
  = EtlRun.runApiSources tickingClock tickingClock noFault false checkpointing fiveLoaded 5
      [longSource] None plainOptions emptyLog.
Proof.
  exact (proj1 (proj2 (sources_in_turn tickingClock tickingClock noFault false checkpointing
                         5 plainOptions))
           fiveLoaded "kependudukan" [wideSource "kesehatan" "r-2"; longSource] emptyLog
           ltac:(discriminate)).
Defined.

(** ** The limit filter *)

Lemma slice_from_start {A : Type} (l : list A) (n : Z) :
  Database.slice l 0 n
  = if n <? 0 then firstn (List.length l - Z.to_nat (- n)) l else firstn (Z.to_nat n) l.
Proof.
  unfold Database.slice. cbn [Z.ltb Z.compare].
  rewrite (Z.min_l 0 (Z.of_nat (List.length l))) by lia.
  cbn [Z.to_nat skipn]. rewrite Z.sub_0_r.
  destruct (Z.ltb_spec n 0) as [Hneg|Hpos].
  - f_equal. lia.
  - destruct (Z_le_gt_dec n (Z.of_nat (List.length l))) as [Hle|Hgt].
    + rewrite Z.min_l by lia. reflexivity.
    + rewrite Z.min_r by lia. rewrite Nat2Z.id.
      rewrite firstn_all. symmetry. apply firstn_all2. lia.
Qed.

(** X25: the limit is applied after the since filter and counts the records
    that passed it: a positive limit keeps the first records of the filtered
    list, at most that many; a negative limit drops that many records from
    its end; a limit of 0 and no limit keep them all.  The records kept are
    records loaded, and both kinds of source are filtered alike. *)
Theorem limit_after_since (options : EtlRunner.EtlOptions)
    (records : list ProcessedRecord.t) :
  let passed := EtlRunner.apiSince options records in
  let kept := EtlRunner.apiFiltered options records in
  (forall n, EtlRunner.limit options = Some n -> 0 < n ->
             kept = firstn (Z.to_nat n) passed
             /\ Z.of_nat (List.length kept) = Z.min n (Z.of_nat (List.length passed)))
  /\ (forall n, EtlRunner.limit options = Some n -> n < 0 ->
                kept = firstn (List.length passed - Z.to_nat (- n)) passed)
  /\ (EtlRunner.limit options = Some 0 \/ EtlRunner.limit options = None -> kept = passed)
  /\ (forall r, In r kept -> In r records)
  /\ (List.length kept <= List.length records)%nat
  /\ EtlRunner.csvFiltered options records = kept.
Proof.
  intros passed kept. subst kept. unfold EtlRunner.apiFiltered. fold passed.
  assert (Sub : forall r, In r passed -> In r records).
  { subst passed. unfold EtlRunner.apiSince. intros r.
    destruct (EtlRunner.since options) as [floor|]; [|exact (fun H => H)].
    destruct (floor =? 0); [exact (fun H => H)|].
    intro Hin. now apply filter_In in Hin as [Hin _]. }
  assert (Len : (List.length passed <= List.length records)%nat).
  { subst passed. unfold EtlRunner.apiSince.
    destruct (EtlRunner.since options) as [floor|]; [|lia].
    destruct (floor =? 0); [lia|]. apply filter_length_le. }
  assert (Lim : exists k, EtlRunner.limited options passed = firstn k passed).
  { unfold EtlRunner.limited. destruct (EtlRunner.limit options) as [n|].
    - destruct (n =? 0); [exists (List.length passed); now rewrite firstn_all|].
      rewrite slice_from_start. destruct (n <? 0); eexists; reflexivity.
    - exists (List.length passed). now rewrite firstn_all. }
  split; [|split; [|split; [|split; [|split]]]].
  - intros n E Hn. unfold EtlRunner.limited. rewrite E.
    destruct (Z.eqb_spec n 0) as [|_]; [lia|].
    rewrite slice_from_start. destruct (Z.ltb_spec n 0) as [|_]; [lia|].
    split; [reflexivity|]. rewrite length_firstn. lia.
  - intros n E Hn. unfold EtlRunner.limited. rewrite E.
    destruct (Z.eqb_spec n 0) as [|_]; [lia|].
    rewrite slice_from_start. destruct (Z.ltb_spec n 0) as [_|]; [reflexivity|lia].
  - intros [E|E]; unfold EtlRunner.limited; rewrite E; reflexivity.
  - destruct Lim as [k ->]. intros r Hin. apply Sub.
    rewrite <- (firstn_skipn k passed). apply in_or_app. now left.
  - destruct Lim as [k ->]. rewrite length_firstn. lia.
  - reflexivity.
Qed.

Lemma limit_after_since_witness :
  EtlRunner.apiFiltered (limitOptions 2) fiveRecords
  = firstn 2 (EtlRunner.apiSince (limitOptions 2) fiveRecords).
Proof.
  exact (proj1 (proj1 (limit_after_since (limitOptions 2) fiveRecords) 2 eq_refl
                  ltac:(lia))).
Defined.

(** ** What the fingerprint separates *)

Lemma noPipe_append (a b : string) : noPipe (a ++ b) = noPipe a && noPipe b.
Proof. apply sforall_append. Qed.

Lemma noPipe_uint (d : Decimal.uint) : noPipe (NilEmpty.string_of_uint d) = true.
Proof. induction d; cbn [NilEmpty.string_of_uint]; [reflexivity|..]; exact IHd. Qed.

Lemma noPipe_decimal (z : Z) : noPipe (decimal z) = true.
Proof.
  unfold decimal, NilZero.string_of_uint.
  destruct (N.to_uint (Z.to_N z)) eqn:E; try reflexivity;
    rewrite <- E; pose proof (noPipe_uint (N.to_uint (Z.to_N z))) as H;
    rewrite E in H |- *; exact H.
Qed.

Lemma noPipe_zeros (n : nat) : noPipe (zeros n) = true.
Proof. induction n as [|n IH]; [reflexivity|exact IH]. Qed.

Lemma noPipe_stake (n : nat) : forall s, noPipe s = true -> noPipe (stake n s) = true.
Proof.
  unfold noPipe. induction n as [|n IH]; intros [|c r] H; try reflexivity.
  cbn [stake sforall] in *. apply andb_true_iff in H as [Hc Hr].
  now rewrite Hc, (IH r Hr).
Qed.

Lemma noPipe_sdrop (n : nat) : forall s, noPipe s = true -> noPipe (sdrop n s) = true.
Proof.
  unfold noPipe. induction n as [|n IH]; intros [|c r] H; try exact H.
  cbn [sdrop]. cbn [sforall] in H. apply andb_true_iff in H as [_ Hr]. now apply IH.
Qed.

Lemma dropZeros_sdrop (s : string) : exists n, dropZeros s = sdrop n s.
Proof.
  induction s as [|c r [n IH]]; [now exists 0%nat|].
  ascii_cases c; try (now exists 0%nat).
  exists (S n). exact IH.
Qed.

Lemma noPipe_srev (s : string) : noPipe s = true -> noPipe (srev s) = true.
Proof.
  intro H. unfold noPipe, srev. rewrite sforall_srev_append. unfold noPipe in H.
  now rewrite H.
Qed.

Lemma noPipe_stripTrailingZeros (s : string) :
  noPipe s = true -> noPipe (stripTrailingZeros s) = true.
Proof.
  intro H. unfold stripTrailingZeros. apply noPipe_srev.
  destruct (dropZeros_sdrop (srev s)) as [n ->]. apply noPipe_sdrop. now apply noPipe_srev.
Qed.

Lemma noPipe_positiveToString (m : Z) (k : nat) : noPipe (positiveToString m k) = true.
Proof.
  unfold positiveToString.
  pose proof (noPipe_stripTrailingZeros (decimal m) (noPipe_decimal m)) as S.
  set (s := stripTrailingZeros (decimal m)) in *.
  repeat match goal with
         | |- context [if ?b then _ else _] => destruct b
         end;
    rewrite ?noPipe_append, ?S, ?noPipe_zeros, ?noPipe_decimal, ?noPipe_stake,
      ?noPipe_sdrop by exact S;
    reflexivity.
Qed.

Lemma noPipe_Number_toString (n : number) : noPipe (Number_toString n) = true.
Proof.
  destruct n as [|[]|m k]; try reflexivity.
  unfold Number_toString.
  destruct (m =? 0); [reflexivity|].
  destruct (m <? 0); [|apply noPipe_positiveToString].
  rewrite noPipe_append, noPipe_positiveToString. reflexivity.
Qed.

(** Two texts that end at their first separator. *)
Lemma first_separator (a b x y : string) :
  noPipe a = true -> noPipe b = true ->
  a ++ "|" ++ x = b ++ "|" ++ y -> a = b /\ x = y.
Proof.
  unfold noPipe. revert b.
  induction a as [|c r IH]; intros [|d t] Ha Hb E.
  - cbn in E. injection E as E. now split.
  - exfalso. cbn [append] in E. injection E as E _. subst d.
    cbn [sforall] in Hb. discriminate Hb.
  - exfalso. cbn [append] in E. injection E as E _. subst c.
    cbn [sforall] in Ha. discriminate Ha.
  - cbn [append] in E. injection E as Ec E. subst d.
    cbn [sforall] in Ha, Hb.
    apply andb_true_iff in Ha as [_ Ha]. apply andb_true_iff in Hb as [_ Hb].
    destruct (IH t Ha Hb E) as [-> ->]. now split.
Qed.

(** *** The year is read back from its rendering *)

Lemma zeros_snoc (n : nat) : zeros n ++ "0" = String "0" (zeros n).
Proof. induction n as [|n IH]; [reflexivity|]. cbn [zeros append]. now rewrite IH. Qed.

Lemma srev_zeros (n : nat) : srev (zeros n) = zeros n.
Proof.
  induction n as [|n IH]; [reflexivity|].
  cbn [zeros]. rewrite srev_cons, IH. apply zeros_snoc.
Qed.

Lemma dropZeros_split (s : string) : exists n, s = zeros n ++ dropZeros s.
Proof.
  induction s as [|c r [n IH]]; [now exists 0%nat|].
  ascii_cases c; try (now exists 0%nat).
  exists (S n). cbn [dropZeros zeros append]. now rewrite <- IH.
Qed.

Lemma stripTrailingZeros_split (d : string) :
  exists n, d = stripTrailingZeros d ++ zeros n.
Proof.
  unfold stripTrailingZeros. destruct (dropZeros_split (srev d)) as [n E].
  exists n. rewrite <- (srev_zeros n), <- srev_app, <- E. symmetry. apply srev_involutive.
Qed.

Lemma length_zeros (n : nat) : String.length (zeros n) = n.
Proof. induction n as [|n IH]; [reflexivity|]. cbn [zeros String.length]. now rewrite IH. Qed.

(** A positive integer of at most 21 digits is written as its digits. *)
Lemma positiveToString_integer (m : Z) :
  (String.length (decimal m) <= 21)%nat -> positiveToString m 0 = decimal m.
Proof.
  intro H. unfold positiveToString.
  destruct (stripTrailingZeros_split (decimal m)) as [n E].
  assert (L : slen (decimal m) = slen (stripTrailingZeros (decimal m)) + Z.of_nat n).
  { unfold slen. rewrite E at 1. rewrite length_append, length_zeros. lia. }
  assert (H21 : slen (decimal m) <= 21) by (unfold slen; lia).
  replace (slen (decimal m) - Z.of_nat 0) with (slen (decimal m)) by lia.
  destruct (Z.leb_spec (slen (stripTrailingZeros (decimal m))) (slen (decimal m))) as [_|];
    [|lia].
  destruct (Z.leb_spec (slen (decimal m)) 21) as [_|]; [|lia].
  cbn [andb].
  replace (Z.to_nat (slen (decimal m) - slen (stripTrailingZeros (decimal m)))) with n
    by lia.
  now rewrite <- E.
Qed.

Lemma decimal_inj (a b : Z) : 0 <= a -> 0 <= b -> decimal a = decimal b -> a = b.
Proof.
  unfold decimal. intros Ha Hb E.
  assert (N : forall n, N.to_uint n <> Decimal.Nil).
  { intros [|p]; [discriminate|apply DecimalPos.Unsigned.to_uint_nonnil]. }
  pose proof (NilZero.usu _ (N (Z.to_N a))) as Ua.
  pose proof (NilZero.usu _ (N (Z.to_N b))) as Ub.
  rewrite E, Ub in Ua. injection Ua as Ua.
  apply DecimalN.Unsigned.to_uint_inj in Ua. lia.
Qed.

Lemma decimal_head (m : Z) : exists c r, decimal m = String c r /\ isDigit c = true.
Proof.
  unfold decimal.
  destruct (N.to_uint (Z.to_N m)); cbn; eexists _, _; split; reflexivity.
Qed.

Lemma length_decimal_zero : String.length (decimal 0) = 1%nat.
Proof. reflexivity. Qed.

(** An integer of at most 21 digits is written as a minus sign, if it is
    negative, and its digits. *)
Lemma Number_toString_integer (z : Z) :
  (String.length (decimal (Z.abs z)) <= 21)%nat ->
  Number_toString (ofZ z) = (if z <? 0 then "-" else "") ++ decimal (Z.abs z).
Proof.
  intro H. unfold Number_toString, ofZ.
  destruct (Z.eqb_spec z 0) as [->|Hz]; [reflexivity|].
  destruct (Z.ltb_spec z 0) as [Hn|Hp].
  - replace (Z.abs z) with (- z) in * by lia. now rewrite positiveToString_integer.
  - replace (Z.abs z) with z in * by lia. now rewrite positiveToString_integer.
Qed.

Lemma templateInt_inj (a b : option Z) :
  plainYear a -> plainYear b -> templateInt a = templateInt b -> a = b.
Proof.
  assert (Head : forall z, (String.length (decimal (Z.abs z)) <= 15)%nat ->
                 exists c r, templateInt (Some z) = String c r
                             /\ (isDigit c = true \/ c = "-"%char)).
  { intros z Hz. cbn [templateInt]. rewrite Number_toString_integer by lia.
    destruct (z <? 0); [eexists _, _; split; [reflexivity|now right]|].
    destruct (decimal_head (Z.abs z)) as (c & r & E & Hc).
    exists c, r. split; [exact E|now left]. }
  destruct a as [x|], b as [y|]; cbn [plainYear]; intros Ha Hb E.
  - cbn [templateInt] in E.
    rewrite !Number_toString_integer in E by lia.
    destruct (Z.ltb_spec x 0) as [Hx|Hx], (Z.ltb_spec y 0) as [Hy|Hy].
    + injection E as E. apply decimal_inj in E; [|lia|lia]. f_equal. lia.
    + exfalso. destruct (decimal_head (Z.abs y)) as (c & r & Ey & Hc).
      rewrite Ey in E. injection E as <- _. discriminate Hc.
    + exfalso. destruct (decimal_head (Z.abs x)) as (c & r & Ex & Hc).
      rewrite Ex in E. injection E as -> _. discriminate Hc.
    + apply decimal_inj in E; [|lia|lia]. f_equal. lia.
  - exfalso. destruct (Head x Ha) as (c & r & Ex & Hc).
    rewrite Ex in E. cbn [templateInt] in E. injection E as Ec _. subst c.
    destruct Hc as [Hc|Hc]; [vm_compute in Hc|]; discriminate Hc.
  - exfalso. destruct (Head y Hb) as (c & r & Ey & Hc).
    rewrite Ey in E. cbn [templateInt] in E. injection E as Ec _. subst c.
    destruct Hc as [Hc|Hc]; [vm_compute in Hc|]; discriminate Hc.
  - reflexivity.
Qed.

(** A unit is read back from its rendering, unless it is missing or reads
    null. *)
Lemma templateString_same (a b : option string) :
  templateString a = templateString b ->
  a = b \/ (templateString a = "null" /\ templateString b = "null").
Proof.
  destruct a as [s|], b as [t|]; cbn [templateString]; intro H.
  - left. now rewrite H.
  - right. now split.
  - right. now split.
  - now left.
Qed.

(** X26: the text that both transforms hash (the fingerprint of a canonical
    record is the hash of it) separates its six fields as long as the
    category, the element and the unit hold no pipe: two records with the
    same text then have the same category, element and source reference, the
    same year (years of at most 15 digits), the same rendering of the value,
    and the same unit, unless the unit of one is missing and the unit of the
    other reads null.  A pipe
    is not escaped: moving the text before a pipe from the element to the
    category gives the same text, and so does a unit that reads null in place
    of a missing unit. *)
Theorem fingerprint_input_separates (r1 r2 : ProcessedRecord.t) :
  (emitted r1 ->
   ProcessedRecord.hash_key r1 = helpers.calculateHash (fingerprintInput r1))
  /\ (pipeFree r1 -> pipeFree r2 ->
      fingerprintInput r1 = fingerprintInput r2 ->
      ProcessedRecord.kategori r1 = ProcessedRecord.kategori r2
      /\ ProcessedRecord.elemen r1 = ProcessedRecord.elemen r2
      /\ templateInt (ProcessedRecord.tahun r1) = templateInt (ProcessedRecord.tahun r2)
      /\ (plainYear (ProcessedRecord.tahun r1) -> plainYear (ProcessedRecord.tahun r2) ->
          ProcessedRecord.tahun r1 = ProcessedRecord.tahun r2)
      /\ templateNumber (ProcessedRecord.nilai r1) = templateNumber (ProcessedRecord.nilai r2)
      /\ (ProcessedRecord.satuan r1 = ProcessedRecord.satuan r2
          \/ (templateString (ProcessedRecord.satuan r1) = "null"
              /\ templateString (ProcessedRecord.satuan r2) = "null"))
      /\ ProcessedRecord.source_ref r1 = ProcessedRecord.source_ref r2)
  /\ (forall kategori x elemen : string,
        fingerprintInput (withIdentity r1 (kategori ++ "|" ++ x) elemen)
        = fingerprintInput (withIdentity r1 kategori (x ++ "|" ++ elemen)))
  /\ fingerprintInput (withSatuan r1 None) = fingerprintInput (withSatuan r1 (Some "null")).
Proof.
  split; [apply emitted_hash|]. split; [|split].
  - intros (K1 & E1 & S1) (K2 & E2 & S2). unfold fingerprintInput. cbn [join].
    intro H.
    apply first_separator in H as [Hk H]; [|exact K1|exact K2].
    apply first_separator in H as [He H]; [|exact E1|exact E2].
    apply first_separator in H as [Ht H];
      [|destruct (ProcessedRecord.tahun r1); [apply noPipe_Number_toString|reflexivity]
       |destruct (ProcessedRecord.tahun r2); [apply noPipe_Number_toString|reflexivity]].
    apply first_separator in H as [Hn H];
      [|destruct (ProcessedRecord.nilai r1); [apply noPipe_Number_toString|reflexivity]
       |destruct (ProcessedRecord.nilai r2); [apply noPipe_Number_toString|reflexivity]].
    apply first_separator in H as [Hs H]; [|exact S1|exact S2].
    apply templateString_same in Hs.
    split; [exact Hk|]. split; [exact He|]. split; [exact Ht|].
    split; [intros Y1 Y2; exact (templateInt_inj _ _ Y1 Y2 Ht)|].
    split; [exact Hn|]. split; [exact Hs|exact H].
  - intros kategori x elemen. unfold fingerprintInput, withIdentity.
    cbn [join ProcessedRecord.kategori ProcessedRecord.elemen ProcessedRecord.tahun
         ProcessedRecord.nilai ProcessedRecord.satuan ProcessedRecord.source_ref].
    rewrite <- !append_assoc. reflexivity.
  - reflexivity.
Qed.

Lemma fingerprint_input_separates_witness :
  (ProcessedRecord.kategori sampleRecord = "kependudukan"
   /\ ProcessedRecord.elemen sampleRecord = "Jumlah Penduduk"
   /\ ProcessedRecord.tahun sampleRecord = Some 2020
   /\ templateNumber (ProcessedRecord.nilai sampleRecord) = "1350"
   /\ ProcessedRecord.source_ref sampleRecord = "r-1")
  /\ (templateString (ProcessedRecord.satuan (withSatuan sampleRecord None)) = "null"
      /\ templateString (ProcessedRecord.satuan (withSatuan sampleRecord (Some "null")))
         = "null")
  /\ exists r,
       CsvLoader.transformRecord zeroYearRecord fileSource "penduduk.xlsx" = Ok (Some r)
       /\ ProcessedRecord.hash_key r = helpers.calculateHash (fingerprintInput r).
Proof.
  assert (P : forall h, pipeFree (recordWithHash h)) by (intro h; repeat split).
  split; [|split].
  - destruct (proj1 (proj2 (fingerprint_input_separates sampleRecord (recordWithHash "a")))
                ltac:(repeat split) (P "a") eq_refl) as (K & E & _ & T & N & _ & R).
    split; [exact K|]. split; [exact E|].
    split; [apply T; apply Nat.leb_le; reflexivity|]. split; [exact N|exact R].
  - destruct (proj1 (proj2 (fingerprint_input_separates (withSatuan sampleRecord None)
                              (withSatuan sampleRecord (Some "null"))))
                ltac:(repeat split) ltac:(repeat split) eq_refl)
      as (_ & _ & _ & _ & _ & [S|S] & _); [discriminate S|exact S].
  - eexists. split; [reflexivity|].
    exact (proj1 (fingerprint_input_separates _ sampleRecord)
             (emitted_csv zeroYearRecord fileSource "penduduk.xlsx" _ eq_refl)).
Defined.

(** ** What a batch leaves in the table *)

Lemma upsertRow_find_other (now : Z) (new : Database.FactRow) (h : string)
    (rows : list Database.FactRow) :
  Database.hash_key new <> h ->
  find (fun old => String.eqb (Database.hash_key old) h) (fst (Database.upsertRow now new rows))
  = find (fun old => String.eqb (Database.hash_key old) h) rows.
Proof.
  intro Hne. induction rows as [|first rest IH]; cbn [Database.upsertRow].
  - cbn [fst find]. destruct (String.eqb_spec (Database.hash_key new) h); [contradiction|].
    reflexivity.
  - destruct (String.eqb_spec (Database.hash_key first) (Database.hash_key new)) as [E|_].
    + cbn [fst find Database.assignUpdate Database.hash_key].
      destruct (String.eqb_spec (Database.hash_key first) h) as [F|_]; [|reflexivity].
      congruence.
    + destruct (Database.upsertRow now new rest) as [rest' outcome]. cbn [fst find] in *.
      now rewrite IH.
Qed.

Lemma lastWith_none (h : string) (records : list ProcessedRecord.t) :
  lastWith h records = None ->
  forall r, In r records -> ProcessedRecord.hash_key r <> h.
Proof.
  induction records as [|x more IH]; intros E r Hin; [contradiction|].
  cbn [lastWith] in E. destruct (lastWith h more) as [later|]; [discriminate E|].
  destruct (String.eqb_spec (ProcessedRecord.hash_key x) h) as [|Hne]; [discriminate E|].
  destruct Hin as [<-|Hin]; [exact Hne|now apply IH].
Qed.

Lemma lastWith_some (h : string) (records : list ProcessedRecord.t) (r : ProcessedRecord.t) :
  lastWith h records = Some r -> In r records /\ ProcessedRecord.hash_key r = h.
Proof.
  induction records as [|x more IH]; intro E; [discriminate E|].
  cbn [lastWith] in E. destruct (lastWith h more) as [later|].
  - injection E as ->. destruct (IH eq_refl) as [Hin Hh]. split; [now right|exact Hh].
  - destruct (String.eqb_spec (ProcessedRecord.hash_key x) h) as [Hh|]; [|discriminate E].
    injection E as <-. split; [now left|exact Hh].
Qed.

Lemma statement_find_other (found_rows : bool) (ingested now : Z) (h : string)
    (records : list ProcessedRecord.t) :
  (forall r, In r records -> ProcessedRecord.hash_key r <> h) ->
  forall rows nextId,
    find (fun old => String.eqb (Database.hash_key old) h)
      (fst (fst (Database.insertOnDuplicateKeyUpdate found_rows ingested now records rows
                   nextId)))
    = find (fun old => String.eqb (Database.hash_key old) h) rows.
Proof.
  induction records as [|x more IH]; intros Hall rows nextId; [reflexivity|].
  cbn [Database.insertOnDuplicateKeyUpdate].
  pose proof (upsertRow_find_other now (Database.valuesRow nextId ingested now x) h rows
                (Hall x (or_introl eq_refl))) as F.
  destruct (Database.upsertRow now (Database.valuesRow nextId ingested now x) rows)
    as [rows1 outcome].
  set (nextId1 := match outcome with Database.Inserted => nextId + 1 | _ => nextId end).
  specialize (IH (fun r Hin => Hall r (or_intror Hin)) rows1 nextId1).
  destruct (Database.insertOnDuplicateKeyUpdate found_rows ingested now more rows1 nextId1)
    as [[rows2 nextId2] m].
  cbn [fst] in *. now rewrite IH.
Qed.

Lemma statement_last_wins (found_rows : bool) (ingested now : Z) (h : string)
    (records : list ProcessedRecord.t) (r : ProcessedRecord.t) :
  lastWith h records = Some r ->
  forall rows nextId,
    carries now r
      (fst (fst (Database.insertOnDuplicateKeyUpdate found_rows ingested now records rows
                   nextId))).
Proof.
  induction records as [|x more IH]; intros E rows nextId; [discriminate E|].
  cbn [lastWith] in E. cbn [Database.insertOnDuplicateKeyUpdate].
  pose proof (upsertRow_carries nextId ingested now x rows) as Cx.
  destruct (Database.upsertRow now (Database.valuesRow nextId ingested now x) rows)
    as [rows1 outcome].
  set (nextId1 := match outcome with Database.Inserted => nextId + 1 | _ => nextId end).
  destruct (lastWith h more) as [later|] eqn:L.
  - injection E as ->. specialize (IH eq_refl rows1 nextId1).
    destruct (Database.insertOnDuplicateKeyUpdate found_rows ingested now more rows1 nextId1)
      as [[rows2 nextId2] m].
    exact IH.
  - destruct (String.eqb_spec (ProcessedRecord.hash_key x) h) as [Hh|]; [|discriminate E].
    injection E as <-.
    pose proof (statement_find_other found_rows ingested now h more
                  (lastWith_none h more L) rows1 nextId1) as F.
    destruct (Database.insertOnDuplicateKeyUpdate found_rows ingested now more rows1 nextId1)
      as [[rows2 nextId2] m].
    cbn [fst] in *. unfold carries in *. rewrite Hh. rewrite F. rewrite <- Hh. exact Cx.
Qed.

(** X27: after a batch that goes through, each fingerprint of the batch is
    stored with the values of the last record of the batch that has it, dated
    by the server's clock of the transaction; if the table held each
    fingerprint once it still does, so that records of the batch that share a
    fingerprint end as one row; and the rows whose fingerprint is not in the
    batch are left as they were. *)
Theorem batch_last_wins (server_clock client_clock : nat -> Z) (fault : nat -> bool)
    (found_rows : bool) (db : Database.DatabaseManager) (records : list ProcessedRecord.t) :
  forall db' tally,
    Database.upsertRecords server_clock client_clock fault found_rows db records
    = (db', Ok tally) ->
    (forall h r,
       lastWith h records = Some r ->
       carries (server_clock (Database.calls db)) r (Database.facts_long db')
       /\ (uniqueHash (Database.facts_long db) ->
           List.length (storedUnder h (Database.facts_long db')) = 1%nat))
    /\ (forall r, In r records ->
          exists last, lastWith (ProcessedRecord.hash_key r) records = Some last)
    /\ (forall old,
          In old (Database.facts_long db) ->
          ~ In (Database.hash_key old) (map ProcessedRecord.hash_key records) ->
          In old (Database.facts_long db')).
Proof.
  intros db' tally. unfold Database.upsertRecords.
  destruct (negb (Database.connection db)); [discriminate|].
  destruct records as [|x more].
  - intro H. injection H as <- _. split; [intros h r E; discriminate E|].
    split; [intros r []|]. intros old Hin _. exact Hin.
  - destruct (fault (Database.calls db)); [discriminate|].
    pose proof (statement_last_wins found_rows (client_clock (Database.calls db))
                  (server_clock (Database.calls db))) as W.
    pose proof (statement_invariant found_rows (client_clock (Database.calls db))
                  (server_clock (Database.calls db)) (x :: more)
                  (Database.facts_long db) (Database.next_id db)) as I.
    remember (x :: more) as batch eqn:Eb.
    assert (W' : forall h r, lastWith h batch = Some r ->
                 carries (server_clock (Database.calls db)) r
                   (fst (fst (Database.insertOnDuplicateKeyUpdate found_rows
                                (client_clock (Database.calls db))
                                (server_clock (Database.calls db)) batch
                                (Database.facts_long db) (Database.next_id db)))))
      by (intros h r E; now apply (W h batch r E)).
    assert (I3 : forall old, In old (Database.facts_long db) ->
                 ~ In (Database.hash_key old) (map ProcessedRecord.hash_key batch) ->
                 In old (fst (fst (Database.insertOnDuplicateKeyUpdate found_rows
                                     (client_clock (Database.calls db))
                                     (server_clock (Database.calls db)) batch
                                     (Database.facts_long db) (Database.next_id db))))).
    { intros old Hin Hnot. clear - Hin Hnot.
      revert Hin Hnot. generalize (Database.facts_long db) (Database.next_id db).
      induction batch as [|y rest IH]; intros rows nextId Hin Hnot; [exact Hin|].
      cbn [Database.insertOnDuplicateKeyUpdate].
      pose proof (upsertRow_other (server_clock (Database.calls db))
                    (Database.valuesRow nextId (client_clock (Database.calls db))
                       (server_clock (Database.calls db)) y) rows old Hin) as O.
      destruct (Database.upsertRow _ _ rows) as [rows1 outcome]. cbn [fst] in O.
      specialize (IH rows1 (match outcome with
                            | Database.Inserted => nextId + 1
                            | _ => nextId
                            end)).
      destruct (Database.insertOnDuplicateKeyUpdate _ _ _ rest rows1 _) as [[rows2 n2] m2].
      cbn [fst] in *. apply IH.
      - apply O. intro E. apply Hnot. cbn [map]. left. symmetry. exact E.
      - intro H. apply Hnot. cbn [map]. now right. }
    destruct (Database.insertOnDuplicateKeyUpdate _ _ _ batch _ _) as [[rows nextId] m].
    cbn [fst] in W', I, I3.
    intro H. injection H as <- _. cbn [Database.facts_long].
    split; [|split; [|exact I3]].
    + intros h r E. split; [now apply (W' h)|].
      intro U. apply storedUnder_one; [exact (proj1 (I U))|].
      pose proof (W' h r E) as Cr.
      destruct (lastWith_some h batch r E) as [_ <-].
      exact (carries_stored (server_clock (Database.calls db)) r rows Cr).
    + intros r Hin. clear - Hin.
      induction batch as [|y rest IH]; [contradiction|].
      cbn [lastWith]. destruct Hin as [->|Hin].
      * destruct (lastWith (ProcessedRecord.hash_key r) rest) as [later|];
          [now exists later|].
        rewrite String.eqb_refl. now exists r.
      * destruct (IH Hin) as [last ->]. now exists last.
Qed.

Lemma batch_last_wins_witness :
  lastWith "b" repeatedBatch = Some (withSatuan (recordWithHash "b") (Some "Jiwa"))
  /\ carries (tickingClock 1) (withSatuan (recordWithHash "b") (Some "Jiwa"))
       (Database.facts_long afterBatch)
  /\ List.length (storedUnder "b" (Database.facts_long afterBatch)) = 1%nat
  /\ List.length (storedUnder "a" (Database.facts_long afterBatch)) = 1%nat
  /\ (forall old, In old (Database.facts_long storedTwice) ->
                  Database.hash_key old = "z" -> In old (Database.facts_long afterBatch)).
Proof.
  assert (E : Database.upsertRecords tickingClock tickingClock noFault false storedTwice
                repeatedBatch
              = (afterBatch, Ok (Database.mkResult 2 2 0 0)))
    by (vm_compute; reflexivity).
  destruct (batch_last_wins tickingClock tickingClock noFault false storedTwice
              repeatedBatch afterBatch _ E) as (Last & _ & Left).
  assert (U : uniqueHash (Database.facts_long storedTwice)).
  { unfold uniqueHash. change (NoDup ["a"; "z"]).
    repeat constructor; cbn [In]; intuition discriminate. }
  split; [reflexivity|].
  destruct (Last "b" (withSatuan (recordWithHash "b") (Some "Jiwa")) eq_refl) as [C One].
  split; [exact C|]. split; [exact (One U)|].
  split; [exact (proj2 (Last "a" (recordWithHash "a") eq_refl) U)|].
  intros old Hin Hz. apply (Left old Hin). rewrite Hz.
  cbn [map repeatedBatch]. cbn. intuition discriminate.
Defined.

(** ** A load that fails *)

(** X28: [loadData] gives up as a whole: whatever it has collected from the
    pages before, an answer with success: false makes it throw at once,
    without a retry or a wait; a page whose maxRetries requests all fail makes
    it throw the error of the retries after those requests; and with
    maxRetries of 0 or less it throws a TypeError before any request is
    made.  In each case no record is returned. *)
Theorem loadData_gives_up (axios_get : nat -> string -> result CKANResponse.t)
    (RegExp_new : string -> result RegExp) (loader : CKANApiFetch.t)
    (sourceConfig : ApiSourceConfig.t) (offset : Z) (allRecords : list ProcessedRecord.t)
    (w : CKANApiFetch.World) (fuel : nat) (errors : nat -> exn) :
  let resource := ApiSourceConfig.resource_id sourceConfig in
  let url := CKANApiFetch.requestUrl loader resource offset (CKANApiFetch.batchSize loader) in
  let n := Z.to_nat (CKANApiFetch.maxRetries loader) in
  let loaded := CKANApiFetch.loadLoop axios_get RegExp_new (S fuel) loader sourceConfig
                  offset allRecords w in
  (forall response,
     0 < CKANApiFetch.maxRetries loader ->
     axios_get (CKANApiFetch.requests w) url = Ok response ->
     CKANResponse.success response = false ->
     loaded
     = Some (CKANApiFetch.requested w,
             Throw (Error ("CKAN API returned success: false for resource " ++ resource))))
  /\ ((0 < n)%nat ->
      (forall i, (i < n)%nat ->
         axios_get (CKANApiFetch.requests w + i)%nat url = Throw (errors i)) ->
      loaded
      = Some ({| CKANApiFetch.requests := CKANApiFetch.requests w + n;
                 CKANApiFetch.slept :=
                   (CKANApiFetch.slept w
                    ++ backoff (CKANApiFetch.retryDelay loader) (n - 1))%list |},
              Throw (Error ("Failed to fetch data after "
                            ++ JS.Number_toString (JS.ofZ (CKANApiFetch.maxRetries loader))
                            ++ " attempts: " ++ CKANApiFetch.message (errors (n - 1)%nat)))))
  /\ (CKANApiFetch.maxRetries loader <= 0 ->
      exists message, loaded = Some (w, Throw (TypeError message))).
Proof.
  intros resource url n loaded. subst loaded. cbn [CKANApiFetch.loadLoop].
  fold resource. split; [|split].
  - intros response Hm Hok Hno.
    rewrite (fetch_first axios_get loader resource offset (CKANApiFetch.batchSize loader)
               w response Hm Hok).
    now rewrite Hno.
  - intros Hn Hfail. unfold CKANApiFetch.fetchDataWithRetry. fold url n.
    destruct n as [|k] eqn:En; [lia|].
    rewrite (fetch_attempts_failure axios_get loader url k 1 None w errors
               ltac:(lia) Hfail).
    rewrite backoff_first. replace (S k - 1)%nat with k by lia. reflexivity.
  - intro Hm. unfold CKANApiFetch.fetchDataWithRetry. fold n.
    replace n with 0%nat by (subst n; lia). eexists. reflexivity.
Qed.

Lemma loadData_gives_up_witness :
  CKANApiFetch.loadData refusing MiniRegExp.RegExp_new 1 sampleLoader longSource 0 idle
  = Some ({| CKANApiFetch.requests := 1; CKANApiFetch.slept := [] |},
          Throw (Error "CKAN API returned success: false for resource r-1")).
Proof.
  exact (proj1 (loadData_gives_up refusing MiniRegExp.RegExp_new sampleLoader longSource 0 []
                  idle 0 (fun _ => Error "socket hang up"))
           _ ltac:(reflexivity) eq_refl eq_refl).
Defined.

(** ** Merging objects *)















(** X30: a run of [processCsvSource] on a file that passed the structure
    check and gave records, on a connection and with a positive chunk size,
    ends without an error whatever fails on the server while it writes; it
    never saves a checkpoint, removes no fact and keeps the unique key; the
    rows logged are the started row and a completed row that carries the
    number of records loaded, counted before the filters. *)
Theorem csv_run_completes (server_clock client_clock : nat -> Z) (fault : nat -> bool)
    (found_rows : bool) (settings : EtlRun.Settings)
    (validateCsvStructure : CsvSourceConfig.t -> CsvValidation.Validation)
    (loadData : CsvSourceConfig.t -> result (list ProcessedRecord.t))
    (fuel : nat) (sourceConfig : CsvSourceConfig.t) (options : EtlRunner.EtlOptions)
    (s : DatabaseLog.Store) (records : list ProcessedRecord.t) :
  let filteredRecords := EtlRunner.csvFiltered options records in
  Database.connection (DatabaseLog.manager s) = true ->
  CsvValidation.isValid (validateCsvStructure sourceConfig) = true ->
  0 < chunkSize settings ->
  EtlRunner.dryRun options = false ->
  loadData sourceConfig = Ok records ->
  records <> [] ->
  (List.length filteredRecords <= fuel)%nat ->
  exists s' added,
    EtlRun.processCsvSource server_clock client_clock fault found_rows settings
      validateCsvStructure loadData fuel sourceConfig options s = Some (s', Ok tt)
    /\ Database.etl_checkpoints (DatabaseLog.manager s')
       = Database.etl_checkpoints (DatabaseLog.manager s)
    /\ (uniqueHash (Database.facts_long (DatabaseLog.manager s)) ->
        uniqueHash (Database.facts_long (DatabaseLog.manager s')))
    /\ (List.length (Database.facts_long (DatabaseLog.manager s))
        <= List.length (Database.facts_long (DatabaseLog.manager s')))%nat
    /\ logged s s' added
    /\ Forall (fun row =>
                 startedRow row
                 \/ completedRow (Z.of_nat (List.length records))
                      (Z.of_nat (List.length filteredRecords)) row) added
    /\ ((forall n, fault n = false) -> List.length added = 2%nat).
Proof.
  intros filteredRecords C V Hs Hdry Hload Hne Hfuel.
  unfold EtlRun.processCsvSource, EtlRun.tryCsvSource. rewrite V. cbn [negb].
  set (entry := EtlRun.logEntry csv
                  (CsvLoader.basename (CsvSourceConfig.file_path sourceConfig))
                  (CsvSourceConfig.kategori sourceConfig)).
  pose proof (logEtlActivity_frame server_clock client_clock fault s entry) as F.
  destruct (DatabaseLog.logEtlActivity server_clock client_clock fault s entry)
    as [s1 logged1].
  cbn [fst snd] in F. destruct F as ((D1 & D2 & D3) & (atStart & L1 & A1 & _ & N1) & Con & _).
  destruct (Con C) as [-> K1].
  assert (St : Forall startedRow atStart).
  { apply Forall_impl with (2 := A1). intros row (E & _ & _ & _ & _ & Ca).
    now apply (startedRow_of entry). }
  rewrite Hload.
  assert (Len : 0 < Z.of_nat (List.length records))
    by (destruct records; [now elim Hne|cbn [List.length]; lia]).
  destruct (Z.eqb_spec (Z.of_nat (List.length records)) 0) as [E0|_]; [lia|].
  rewrite Hdry. fold filteredRecords.
  destruct (writeRecords_run server_clock client_clock fault found_rows settings fuel
              s1 entry records filteredRecords None ltac:(congruence) Hs Hfuel)
    as (s' & atEnd & -> & C' & U & R & Cp & _ & L2 & A2 & N2).
  exists s', (atStart ++ atEnd)%list. cbn [EtlRun.catchAndLog].
  split; [reflexivity|]. split; [rewrite (Cp eq_refl); exact D2|].
  split; [intro Un; apply U; rewrite D1; exact Un|].
  split; [rewrite D1 in R; exact R|]. split; [now apply logged_trans with s1|].
  split.
  - apply Forall_app. split.
    + apply Forall_impl with (2 := St). intros row H. now left.
    + apply Forall_impl with (2 := A2). intros row H. now right.
  - intro Fl. rewrite length_app, (N1 C (Fl _)), (N2 (Fl _)). reflexivity.
Qed.

Lemma csv_run_completes_witness :
  exists s' added,
    EtlRun.processCsvSource tickingClock tickingClock noFault false checkpointing
      structureValid fileLoaded 5 fileSource plainOptions emptyLog = Some (s', Ok tt)
    /\ Database.etl_checkpoints (DatabaseLog.manager s') = []
    /\ logged emptyLog s' added
    /\ List.length added = 2%nat.
Proof.
  destruct (csv_run_completes tickingClock tickingClock noFault false checkpointing
              structureValid fileLoaded 5 fileSource plainOptions emptyLog fiveRecords
              eq_refl eq_refl ltac:(reflexivity) eq_refl eq_refl ltac:(discriminate)
              ltac:(cbn; lia))
    as (s' & added & E & Cp & _ & _ & L & _ & N).
  exists s', added. split; [exact E|]. split; [exact Cp|]. split; [exact L|].
  exact (N (fun _ => eq_refl)).
Defined.
